(* ===== verification/_CoqProject ===== *)
-Q . S2P
Prelude.v
Tasks.v
RustStr.v
NetAddr.v
Bytes.v
Netlink.v
NetlinkOps.v
Json.v
Proto.v
ProtoRt.v
Wire.v
ProtoMsg.v
ProtoCompat.v
Ttrpc.v
Schema.v
Sys.v
Lifecycle.v
Pool.v
PoolConc.v
Shadow.v
DaemonNet.v
Api.v
ApiProps.v
Client.v
Config.v
VmTypes.v
Server.v
Interleave.v
Books.v
Schedule.v
Quiesce.v
ShimUtil.v
Shim.v
ShimProps.v
Watch.v
ShimInv.v
Agent.v
AgentServer.v
AgentProps.v
AgentInv.v
AgentMain.v
Waits.v
EndToEnd.v
System.v
