(* ===== verification/Prelude.v ===== *)
(** * containerd-cloudhypervisor: a verification development

    The program runs Kubernetes pods in Cloud Hypervisor VMs. It has four parts:
    - the _daemon_ ([crates/daemon]) keeps a pool of restored VMs, hands them out
      over a JSON-line socket, starts containers in them through the guest's agent,
      wires the pod's network to them and takes workload snapshots with "shadow" VMs;
    - the _shim_ ([crates/shim]), one process per pod group, implements containerd's
      instance interface: it turns a root filesystem into a cached erofs image, asks
      the daemon for a VM when the first container of a pod starts, counts the pod's
      containers and releases the VM with the last of them;
    - the _agent_ ([crates/agent]) is the guest's init: it mounts the image, adapts
      the OCI spec and runs containers with crun, answering ttrpc requests;
    - _common_ ([crates/common]) holds the netlink code both ends use, constants and
      the runtime configuration.

    ** Files, and what they model

    Foundations:
    - [Prelude] (this file): outcomes of Rust code ([result]: value, [Err], panic, no
      return), the state-and-outcome monad [M], machine integers, reachability.
    - [Tasks]: asynchronous functions cut where they give others a turn ([prog]), and a
      logic of what a task owns between its turns ([triple]).
    - [RustStr]: [str] and the parts of the standard library the code uses on it
      (slicing at char boundaries, [split], [trim], [parse], paths).
    - [Bytes]: byte buffers with bounds-checked reads and writes, little-endian numbers.
    - [Json]: serde_json behind the class [SerdeJson].
    - [Sys]: every call that leaves the process ([call]), the oracle [Env] that answers
      it from the history of calls made so far, and [World], a state that keeps that
      history; [emits], [io_only], [infallible] are the frame properties proofs use.

    Common:
    - [NetAddr]: IPv4 text, CIDRs, [infer_gateway], TAP and VM names.
    - [Netlink]: message builders and attribute parsers of [netlink.rs], on bytes, with
      a reference layout of netlink messages.
    - [NetlinkOps]: the socket and every operation of [Netlink], and
      [configure_interface], over a kernel that answers with a list of datagrams.

    Daemon:
    - [Lifecycle]: [vm_lifecycle.rs].
    - [Pool]: [pool.rs] with the daemon's whole state (the record [daemon]);
      [PoolConc]: the same methods as interleaved tasks.
    - [Shadow]: [shadow.rs]. [DaemonNet]: [netns.rs].
    - [Api]: [api.rs], with the invariant of the daemon over sequences of requests and
      background tasks; [ApiProps]: what the handlers do.
    - [Config]: configuration of daemon and shim, constants; [VmTypes]: the [Vm*]
      structures of [common/src/types.rs] with their derived JSON encoders and decoders.
    - [Server]: [main.rs] and the server of [api.rs]: the start, and connections served
      next to each other, a request at a time.
    - [Interleave]: the handlers, the pool and the shadow VMs again, cut at every lock,
      atomic and wait; [Books]: what each of these tasks owns and that its pieces keep the
      tables in order; [Schedule]: the server that gives them turns in any order;
      [Quiesce]: that it comes to rest.

    Shim:
    - [Client]: [daemon_client.rs], and client and daemon composed.
    - [ShimUtil]: image keys, erofs cache, cgroups, spec reading of [instance.rs].
    - [Shim]: the instance methods of [instance.rs] and [netns.rs] over the table of
      VMs, whose [Arc]s are addresses of a heap; [ShimProps]: what they guarantee;
      [Watch]: the exit watcher; [ShimInv]: the process over any sequence of calls.

    Agent protocol (generated from [proto/agent.proto] into [crates/proto] and
    [crates/agent]):
    - [Proto]: the messages; [ProtoRt]: the protobuf crate as the class [Protobuf] and
      the decoding loop; [Wire]: an instance of it, the documented wire format;
      [ProtoMsg]: encoding, size and decoding of each message; [ProtoCompat]: fields a
      message does not have.
    - [Ttrpc]: the client stubs, method handlers, traits and tables, over the ttrpc
      crate as the class [Ttrpc].
    - [Schema]: the schema embedded in the generated code, the fields each message
      registers, and an encoder and a decoder driven by these alone.

    Agent:
    - [Agent]: [container.rs]; [AgentServer]: [server.rs], [mount.rs], [reaper.rs] and
      [main.rs]'s set-up; [AgentProps]: what their operations guarantee; [AgentInv]: the
      agent over sequences of requests and background events.
    - [AgentMain]: [main] and [AgentServer::run]; [Waits]: [wait_container] cut where it
      gives the manager's lock up.
    - [EndToEnd]: the agent's services behind the daemon's connection.

    The parts together:
    - [System]: the daemon with agents behind its connections, and the shim in front.

    ** How code is translated

    A function becomes a Rocq function of the same name. Code with effects runs in
    [M W A], [W] being the state record of its component; [?] is the monad's bind,
    [.context(..)] is [m_ctx], an early return is a branch. Files, sockets, processes,
    the clock and the agent's RPCs are [Sys.call]s answered by an arbitrary [Env], so
    every theorem holds for every behaviour of the world that is not excluded by a
    named hypothesis. Third-party code is a class: [SerdeJson], [SerdeDerive],
    [VmDerive], [Base64], [Anyhow] (the texts of errors), [HashOrder] (the order of a
    hash set), [Protobuf] and [Ttrpc]; each has an instance, with which the witnesses
    run. Integers are [Z] with the wrap-around of a release build written out; the target
    is little-endian. Logging and timing values are left out.

    A lock held across a whole method makes the method one step; where the code releases
    it between two accesses and a claim depends on that, the accesses are separate steps
    ([PoolConc], [Shadow.sstep], [ShimUtil.estep], [ShimProps.first_starts_race],
    [Waits.wstep]). The daemon's handlers are modelled twice: as functions, which is how
    the theorems on single requests speak of them, and as the [prog]s of [Interleave],
    which other tasks may overtake at every lock and every call and whose calls are
    answered by a different environment at each turn; put together again the programs
    are the functions ([Interleave.run_dispatch], [Interleave.run_run_task]).

    Loops over a byte buffer run with the fuel [S (length buffer)]: each round but the
    last consumes a byte, or never ends at all ([Netlink.attribute_parsers_total],
    [NetlinkOps.dump_scan_fuel_enough], [AgentProps.scan_finds_device]). The
    shim's poll of a process runs for as many rounds as it takes
    ([Watch.wait_always_ends] holds for every number of them). Loops that
    poll until a deadline take the number of rounds the clock allows from the
    environment ([RoundsBefore]). Other loops recurse over the list they walk.

    ** What the theorems show

    - Daemon, over all request sequences and answers: no two live VMs share a name or a
      CID, the books agree with each other ([Api.daemon_invariant]). Each pool operation
      on each branch ([Pool]).
    - The daemon's tasks interleaved: after every schedule no two VMs share a CID and the
      tables agree but for what the tasks under way account for
      ([Schedule.interleaved_books]); a connection is answered in order, each answer from
      a run of its own request's handler ([Schedule.interleaved_connections]); without
      new requests only finitely many turns can be taken and then everything is answered
      ([Quiesce.daemon_quiesces]); the runs of [Server] are schedules
      ([Schedule.server_is_a_schedule]).
    - The daemon's process: it listens only once its pool is filled, fails cleanly, and
      its books hold from then on ([Server.daemon_boot]); served a request at a time, a
      connection gets the answers to its own requests whatever the others send
      ([Server.connections_interleave]), and one alone is served as [handle_connection]
      says ([Server.lone_connection]).
    - A VM made from a snapshot has its own identity and nothing else of the base is
      touched ([Lifecycle]); shutting down always ends, signals first, removes last.
    - Snapshots: cache bound and LRU order, freshness, the order of a shadow run
      ([Shadow]).
    - Requests: a connection is answered in order, a container is started only after
      disk and network ([ApiProps]); what the shim sends is what the daemon does, and
      what the daemon answers is what the shim holds ([Client]).
    - Network: messages equal their reference layout, read back what was written,
      parsers never panic or loop on any bytes, dumps lose nothing ([Netlink],
      [NetlinkOps]); namespaces are always restored and redirects installed
      ([DaemonNet]).
    - Shim: the VM of a pod is released exactly with its last container, starts are
      counted, an erofs image is built once however many shims race ([ShimProps],
      [ShimUtil]); its state is well typed and no call panics, after any sequence of
      calls ([ShimInv.shim_well_typed]); a wait for a container always ends
      ([Watch.wait_always_ends]).
    - Agent protocol: every message is what decoding makes of its encoding, and its
      size is announced right ([ProtoMsg.every_message_roundtrips]), also among fields
      the reader does not know ([ProtoCompat.unknown_fields_skipped]); the generated code
      is what its embedded schema says, on any bytes, malformed ones included
      ([Schema.generated_code_follows_schema]); a call through a stub is the
      call of the handler ([Ttrpc.rpc_transparent]).
    - The hypervisor's configuration is read back from its JSON exactly when none of its
      lists is empty ([VmTypes.vm_config_round_trip]).
    - Agent, over all sequences of requests, process ends and log lines: its tables fit
      together ([AgentInv.agent_invariant]); an exit status is delivered whenever it is
      asked for, before the end ([Waits.sleeping_wait_told]) or after; the process serves
      from its set-up to the signal and then signals every container that is not known to
      have stopped ([AgentMain.agent_life]); a poller gets the log once and whole. The
      OCI spec is adapted as documented, inline files stay in their volume, hot-plugged
      disks are found ([AgentProps]).
    - The parts together: a container the shim has started runs in the guest of the VM
      its table names, from the bundle's configuration ([System.started_container_runs],
      and [System.added_container_runs] for the later ones of a pod), with the pod's own
      address ([System.pod_network_reaches_guest]), and its exit code comes back to
      whoever waits on the shim ([System.exit_code_reaches_shim]).
    - Theorems whose comment says so prove defects of the code: leaks on error paths,
      races, dead error tests ([Pool.failed_restore_leaks],
      [PoolConc.same_name_acquisitions], [ApiProps.acquire_error_leaks],
      [ShimProps.failed_starts_release_early], [Schedule.released_vm_keeps_agent] and
      others).

    ** Not modelled

    - [crates/common/src/error.rs]: an error type no code uses.
    - Of the generated messages, the bytes kept of unknown fields (no code looks at
      them, or encodes a message it has decoded), [Display], descriptors and the other
      plumbing of the protobuf crate's traits. The two copies of the generated code have
      the same text but for the version of the crate; each definition is mapped to the
      copy that runs it.
    - The shim's [main] (a call of containerd-shimkit), the entry points' logging and
      runtime set-up (the agent's tokio runtime may fail to start and panic), ttrpc's
      server loop (its handlers are modelled).
    - Build scripts, tests and benchmarks, charts, installer and documentation.

    ** State of the development

    Every operation of the four crates but those just named is a definition here. What
    could be taken further is the shim: its calls come one at a time in [ShimInv], and
    only the races of first starts and of image building are taken apart. *)

From stdpp Require Export base list strings gmap pretty.
From Stdlib Require Export ZArith Lia.

(** ** Outcomes of fallible Rust code *)

(** An [anyhow::Error] as the source builds it: an OS error, a message made by
    [anyhow!]/[bail!] (or the message of a library error), such a message with
    the text of an OS error interpolated at its end, or a context layer added by
    [.context(..)]/[.with_context(..)]. *)
Inductive error : Type :=
| Io (errno : Z)
| Msg (m : string)
| MsgIo (m : string) (errno : Z)
| Ctx (c : string) (cause : error).

(** What running a piece of Rust code can come to: a value, an [Err], a panic
    (unwinding), or no return at all (a blocked or endless wait). *)
Inductive result (A : Type) : Type :=
| Ok (a : A)
| Err (e : error)
| Panic
| Hang.
Arguments Ok {_} _.
Arguments Err {_} _.
Arguments Panic {_}.
Arguments Hang {_}.

#[export] Instance error_eq_dec : EqDecision error.
Proof. solve_decision. Defined.

#[export] Instance result_ret : MRet result := fun A a => Ok a.
#[export] Instance result_bind : MBind result := fun A B f r =>
  match r with Ok a => f a | Err e => Err e | Panic => Panic | Hang => Hang end.
#[export] Instance result_fmap : FMap result := fun A B f r =>
  match r with Ok a => Ok (f a) | Err e => Err e | Panic => Panic | Hang => Hang end.

Definition is_Ok {A} (r : result A) : bool :=
  match r with Ok _ => true | _ => false end.

(** The computation comes back to its caller (with a value or an error). *)
Definition returns {A} (r : result A) : bool :=
  match r with Ok _ | Err _ => true | _ => false end.

(** [.context(c)] on a [Result]. *)
Definition with_ctx {A} (c : string) (r : result A) : result A :=
  match r with Err e => Err (Ctx c e) | _ => r end.

(** [.ok_or_else(..)] / [.context(..)] on an [Option]. *)
Definition ok_or {A} (o : option A) (e : error) : result A :=
  match o with Some a => Ok a | None => Err e end.

(** [.ok()] on a [Result] that cannot panic. *)
Definition res_ok {A} (r : result A) : option A :=
  match r with Ok a => Some a | _ => None end.

(** What the crates rely on of [anyhow]: [to_string] ([{}]) shows only the
    outermost layer, [{:#}] the whole chain joined by [": "], and
    [downcast_ref] reaches an OS error through context layers. *)
Class Anyhow := {
  display : error -> string;
  display_alt : error -> string;
  downcast_io : error -> option Z;
  display_ctx c e : display (Ctx c e) = c;
  display_alt_ctx c e : display_alt (Ctx c e) = String.append c (String.append ": " (display_alt e));
  downcast_io_io n : downcast_io (Io n) = Some n;
  downcast_io_ctx c e : downcast_io (Ctx c e) = downcast_io e;
}.

(** Observers that satisfy the laws, for concrete runs. *)
Definition io_text (n : Z) : string := "os error " +:+ pretty n.

Definition anyhow_head (e : error) : string :=
  match e with Io n => io_text n | Msg m => m | MsgIo m n => m +:+ io_text n | Ctx c _ => c end.

Fixpoint anyhow_chain (e : error) : string :=
  match e with Ctx c e' => String.append c (String.append ": " (anyhow_chain e')) | _ => anyhow_head e end.

Fixpoint anyhow_io (e : error) : option Z :=
  match e with Io n => Some n | Ctx _ e' => anyhow_io e' | _ => None end.

Definition plain_anyhow : Anyhow :=
  Build_Anyhow anyhow_head anyhow_chain anyhow_io
    (fun _ _ => eq_refl) (fun _ _ => eq_refl) (fun _ => eq_refl) (fun _ _ => eq_refl).

(** ** State passing with outcomes *)

(** Code that mutates a state [S] and may fail: the state survives an error,
    as a Rust [&mut] argument does. *)
Definition M (S A : Type) : Type := S -> result A * S.

#[export] Instance M_ret {S} : MRet (M S) := fun A a s => (Ok a, s).
#[export] Instance M_bind {S} : MBind (M S) := fun A B f m s =>
  match m s with
  | (Ok a, s') => f a s'
  | (Err e, s') => (Err e, s')
  | (Panic, s') => (Panic, s')
  | (Hang, s') => (Hang, s')
  end.

Definition lift {S A} (r : result A) : M S A := fun s => (r, s).
Definition fail {S A} (e : error) : M S A := fun s => (Err e, s).
Definition gets {S A} (f : S -> A) : M S A := fun s => (Ok (f s), s).
Definition modify {S} (f : S -> S) : M S unit := fun s => (Ok tt, f s).

(** Run [m] and hand its [Result] to the caller as a value, the way a Rust
    [match] on a [Result], [let _ = ..] or [.ok()] consumes it; a panic or a
    hang still propagates. *)
Definition attempt {S A} (m : M S A) : M S (A + error) := fun s =>
  match m s with
  | (Ok a, s') => (Ok (inl a), s')
  | (Err e, s') => (Ok (inr e), s')
  | (Panic, s') => (Panic, s')
  | (Hang, s') => (Hang, s')
  end.

Definition m_ctx {S A} (c : string) (m : M S A) : M S A := fun s =>
  match m s with (r, s') => (with_ctx c r, s') end.

Lemma M_bind_ret_l {S A B} (a : A) (f : A -> M S B) s :
  (mret a ≫= f) s = f a s.
Proof. reflexivity. Qed.

Lemma M_bind_assoc {S A B C} (m : M S A) (f : A -> M S B) (g : B -> M S C) s :
  ((m ≫= f) ≫= g) s = (m ≫= (fun a => f a ≫= g)) s.
Proof. unfold mbind, M_bind. destruct (m s) as [[] ?]; reflexivity. Qed.

Lemma M_bind_run {S A B} (m : M S A) (f : A -> M S B) s a s' :
  m s = (Ok a, s') -> (m ≫= f) s = f a s'.
Proof. unfold mbind, M_bind. by intros ->. Qed.

(** Inversion of a bind that succeeded. *)
Lemma lift_Ok {S A} (r : result A) a (s s' : S) : lift r s = (Ok a, s') -> r = Ok a /\ s' = s.
Proof. unfold lift. by intros [= -> ->]. Qed.

Lemma M_bind_Ok {S A B} (m : M S A) (f : A -> M S B) s b s'' :
  (m ≫= f) s = (Ok b, s'') <-> exists a s', m s = (Ok a, s') /\ f a s' = (Ok b, s'').
Proof.
  unfold mbind, M_bind. destruct (m s) as [[a|e| |] s'].
  - split; [eauto|]. intros (a0 & s0 & [= <- <-] & H). exact H.
  - split; [discriminate|]. intros (a0 & s0 & [=] & _).
  - split; [discriminate|]. intros (a0 & s0 & [=] & _).
  - split; [discriminate|]. intros (a0 & s0 & [=] & _).
Qed.

Lemma result_bind_Ok {A B} (m : result A) (f : A -> result B) b :
  (m ≫= f) = Ok b <-> exists a, m = Ok a /\ f a = Ok b.
Proof.
  destruct m as [a|e| |]; simpl.
  - split; [eauto|]. intros (a0 & [= <-] & H). exact H.
  - split; [discriminate|]. intros (a0 & [=] & _).
  - split; [discriminate|]. intros (a0 & [=] & _).
  - split; [discriminate|]. intros (a0 & [=] & _).
Qed.

(** ** Hint databases and tactics *)

Create HintDb rust.

(** Reduce a run of the state monad on a concrete prefix. *)
Ltac mrun :=
  unfold mbind, M_bind, mret, M_ret, lift, fail, gets, modify, attempt, m_ctx; simpl.

(** Take apart a successful run, one bind at a time. *)
Ltac inv_ok :=
  repeat match goal with
  | H : (_ ≫= _) _ = (Ok _, _) |- _ =>
      apply M_bind_Ok in H; destruct H as (? & ? & ? & H)
  | H : (_ ≫= _) = Ok _ |- _ =>
      apply result_bind_Ok in H; destruct H as (? & ? & H)
  | H : mret _ _ = (_, _) |- _ => injection H as H; subst
  | H : (Ok _, _) = (Ok _, _) |- _ => injection H as H; subst
  end.

(** Run the closed computation [t] for a witness: its outcome is computed, its
    final state is named [w], and [E] is the run's equation. *)
Ltac witness_run t w E :=
  let r := fresh "r" in
  destruct t as [r w] eqn:E;
  let Er := fresh "Er" in
  assert (Er : r = t.1) by (rewrite E; reflexivity);
  vm_compute in Er; subst r.

(** ** Reflexive-transitive closure of a step relation, invariants *)

Section Reach.
Context {St : Type} (init : St -> Prop) (step : St -> St -> Prop).

Inductive reachable : St -> Prop :=
| reach_init s : init s -> reachable s
| reach_step s s' : reachable s -> step s s' -> reachable s'.

Lemma reachable_inv (I : St -> Prop) :
  (forall s, init s -> I s) ->
  (forall s s', I s -> step s s' -> I s') ->
  forall s, reachable s -> I s.
Proof. intros Hi Hs s H. induction H; eauto. Qed.
End Reach.

(** ** Machine integers *)

Open Scope Z_scope.

Definition wrap (w : Z) (z : Z) : Z := z mod 2 ^ w.
Definition swrap (w : Z) (z : Z) : Z :=
  let u := z mod 2 ^ w in if u <? 2 ^ (w - 1) then u else u - 2 ^ w.

Definition in_range (w z : Z) : Prop := 0 <= z < 2 ^ w.

Lemma wrap_range w z : 0 <= w -> in_range w (wrap w z).
Proof. intros. apply Z.mod_pos_bound. lia. Qed.

Lemma wrap_small w z : in_range w z -> wrap w z = z.
Proof. apply Z.mod_small. Qed.

Lemma swrap_small w z : 0 < w -> - 2 ^ (w - 1) <= z < 2 ^ (w - 1) -> swrap w z = z.
Proof.
  intros Hw Hz. unfold swrap.
  assert (H2 : 2 ^ w = 2 * 2 ^ (w - 1)).
  { rewrite <- Z.pow_succ_r by lia. f_equal. lia. }
  destruct (Z.ltb_spec z 0) as [Hn|Hp].
  - replace (z mod 2 ^ w) with (z + 2 ^ w).
    + destruct (Z.ltb_spec (z + 2 ^ w) (2 ^ (w - 1))); lia.
    + symmetry. rewrite <- (Z.mod_small (z + 2 ^ w) (2 ^ w)) by lia.
      rewrite <- Z.add_mod_idemp_r, Z.mod_same, Z.add_0_r by lia. reflexivity.
  - rewrite Z.mod_small by lia. destruct (Z.ltb_spec z (2 ^ (w - 1))); lia.
Qed.

#[export] Hint Resolve wrap_range : rust.

(** ** Generic lemmas on lists *)

Lemma take_app_exact {A} (l k : list A) n : length l = n -> take n (l ++ k) = l.
Proof. intros <-. apply take_app_length. Qed.

Lemma drop_app_exact {A} (l k : list A) n : length l = n -> drop n (l ++ k) = k.
Proof. intros <-. apply drop_app_length. Qed.
