(* ===== verification/Tasks.v ===== *)
(** * Tasks that take turns

    An asynchronous Rust function gives the others a turn at every lock it takes and
    every [await]. [prog] is such a function cut at these points: a tree of pieces, each
    a run of the state monad without interruption, after each of which the scheduler may
    go on with any other task. A piece is given the environment that answers its calls,
    so that the answers may depend on whatever the other tasks have done in the
    meantime.

    [run] puts the pieces together again; [safe] is a logic for the pieces: each must
    turn what its task owns into what it owns afterwards, whatever the other tasks own. *)

From S2P Require Import Prelude.
Local Open Scope Z_scope.

Section Prog.
Context {E W : Type}.

Inductive prog (A : Type) : Type :=
| Done (r : result A)
| Piece {B : Type} (m : E -> M W B) (k : result B -> prog A).
Arguments Done {_} _.
Arguments Piece {_ _} _ _.

(** One piece. *)
Definition piece {A} (m : E -> M W A) : prog A := Piece m Done.
(** A piece that asks nothing of the environment: a lock held for a moment, or an
    access to an atomic. *)
Definition lock {A} (m : M W A) : prog A := piece (fun _ => m).

Definition p_err {A B} (r : result A) (k : A -> prog B) : prog B :=
  match r with Ok a => k a | Err e => Done (Err e) | Panic => Done Panic | Hang => Done Hang end.

Fixpoint p_bind {A B} (p : prog A) (f : A -> prog B) : prog B :=
  match p with
  | Done r => p_err r f
  | Piece m k => Piece m (fun r => p_bind (k r) f)
  end.

#[global] Instance prog_ret : MRet prog := fun A a => Done (Ok a).
#[global] Instance prog_bind : MBind prog := fun A B f p => p_bind p f.

(** What becomes of the last result. *)
Fixpoint p_map {A B} (g : result A -> result B) (p : prog A) : prog B :=
  match p with
  | Done r => Done (g r)
  | Piece m k => Piece m (fun r => p_map g (k r))
  end.

Definition r_attempt {A} (r : result A) : result (A + error) :=
  match r with Ok a => Ok (inl a) | Err e => Ok (inr e) | Panic => Panic | Hang => Hang end.

Definition p_attempt {A} (p : prog A) : prog (A + error) := p_map r_attempt p.
Definition p_ctx {A} (c : string) (p : prog A) : prog A := p_map (with_ctx c) p.

(** ** Without the others *)

Fixpoint run {A} (e : E) (p : prog A) : M W A :=
  match p with
  | Done r => lift r
  | Piece m k => fun w => let '(r, w') := m e w in run e (k r) w'
  end.

Lemma run_bind {A B} e (p : prog A) (f : A -> prog B) w :
  run e (p ≫= f) w = (run e p ≫= fun a => run e (f a)) w.
Proof.
  revert w. induction p as [r|C m k IH]; intros w; cbn.
  - by destruct r.
  - unfold mbind, M_bind in *. destruct (m e w) as [r w']. apply IH.
Qed.

Lemma run_bind_eq {A B} e (p : prog A) (f : A -> prog B) (m : M W A) (g : A -> M W B) w :
  (forall w, run e p w = m w) -> (forall a w, run e (f a) w = g a w) ->
  run e (p ≫= f) w = (m ≫= g) w.
Proof.
  intros Hp Hf. rewrite run_bind. unfold mbind, M_bind. rewrite Hp. destruct (m w) as [r w']. by destruct r.
Qed.

Lemma run_map {A B} e (g : result A -> result B) (p : prog A) w :
  run e (p_map g p) w = (g (run e p w).1, (run e p w).2).
Proof. revert w. induction p as [r|C m k IH]; intros w; cbn; [done|]. by destruct (m e w). Qed.

Lemma run_attempt_eq {A} e (p : prog A) (m : M W A) w :
  (forall w, run e p w = m w) -> run e (p_attempt p) w = attempt m w.
Proof.
  intros Hp. unfold p_attempt. rewrite run_map, Hp. unfold attempt. destruct (m w) as [r w']. by destruct r.
Qed.

Lemma run_ctx_eq {A} e c (p : prog A) (m : M W A) w :
  (forall w, run e p w = m w) -> run e (p_ctx c p) w = m_ctx c m w.
Proof. intros Hp. unfold p_ctx. rewrite run_map, Hp. unfold m_ctx. by destruct (m w). Qed.

Lemma run_piece {A} e (m : E -> M W A) w : run e (piece m) w = m e w.
Proof. cbn. by destruct (m e w). Qed.
Lemma run_lock {A} e (m : M W A) w : run e (lock m) w = m w.
Proof. apply run_piece. Qed.

(** ** The results a task can come to

    whatever the others do between its pieces. *)
Inductive may {A} : prog A -> result A -> Prop :=
| may_done r : may (Done r) r
| may_piece B (m : E -> M W B) k e w r : may (k (m e w).1) r -> may (Piece m k) r.

Lemma run_may {A} e (p : prog A) w : may p (run e p w).1.
Proof.
  revert w. induction p as [r|B m k IH]; intros w; cbn; [constructor|].
  apply (may_piece _ m k e w). destruct (m e w). apply IH.
Qed.

(** ** What a task owns

    [I n w gs]: the books [w] are in order when the tasks own [gs] and [n] pieces have
    been run; [T]: what every piece promises of the books before and after it. What a
    task owns may be given up at any time. *)

Section Safe.
Context {G : Type} (limit : Z) (I : Z -> W -> list G -> Prop) (T : W -> W -> Prop) (nothing : G).

Definition gives_up (g g' : G) : Prop := forall n w gs, I n w (g :: gs) -> I n w (g' :: gs).

Fixpoint safe {A} (g : G) (p : prog A) (Q : G -> result A -> Prop) : Prop :=
  match p with
  | Done r => exists g', gives_up g g' /\ Q g' r
  | Piece m k => forall e n w gs, I n w (g :: gs) -> n + 1 < limit -> T w (m e w).2 /\
      exists g', I (n + 1) (m e w).2 (g' :: gs) /\ safe g' (k (m e w).1) Q
  end.

(** The postcondition of a task that owns nothing any more when it fails. *)
Definition on_ok {A} (Q : G -> A -> Prop) (g : G) (r : result A) : Prop :=
  match r with Ok a => Q g a | _ => g = nothing end.

Definition triple {A} (g : G) (p : prog A) (Q : G -> A -> Prop) : Prop := safe g p (on_ok Q).

Lemma safe_drop {A} g g' (p : prog A) (Q : G -> result A -> Prop) :
  gives_up g g' -> safe g' p Q -> safe g p Q.
Proof.
  intros Hg. destruct p as [r|B m k]; cbn.
  - intros (g2 & Hg2 & HQ). exists g2. split; [|done]. intros n w gs Hi. by apply Hg2, Hg.
  - intros Hs e n w gs Hi Hn. apply Hs; [by apply Hg|done].
Qed.

Lemma safe_mono {A} g (p : prog A) (Q Q' : G -> result A -> Prop) :
  (forall g r, Q g r -> Q' g r) -> safe g p Q -> safe g p Q'.
Proof.
  intros HQ. revert g. induction p as [r|B m k IH]; intros g; cbn.
  - intros (g' & Hg & H). eauto.
  - intros Hs e n w gs Hi Hn. destruct (Hs e n w gs Hi Hn) as (HT & g' & Hi' & Hs'). eauto.
Qed.

Lemma triple_mono {A} g (p : prog A) (Q Q' : G -> A -> Prop) :
  (forall g a, Q g a -> Q' g a) -> triple g p Q -> triple g p Q'.
Proof. intros HQ. apply safe_mono. intros g' [a|e| |]; cbn; auto. Qed.

Lemma triple_ret {A} g (a : A) (Q : G -> A -> Prop) : Q g a -> triple g (mret a) Q.
Proof. intros HQ. exists g. split; [|done]. by intros n w gs. Qed.

Lemma triple_done {A} (r : result A) (Q : G -> A -> Prop) :
  (forall a, r = Ok a -> Q nothing a) -> triple nothing (Done r) Q.
Proof. intros HQ. exists nothing. split; [by intros n w gs|]. destruct r; cbn; auto. Qed.

Lemma safe_bind {A B} g (p : prog A) (f : A -> prog B) (Q : G -> B -> Prop) :
  safe g p (on_ok (fun g a => triple g (f a) Q)) -> triple g (p ≫= f) Q.
Proof.
  unfold triple. revert g. induction p as [r|C m k IH]; intros g; cbn.
  - intros (g' & Hg & HQ). apply (safe_drop _ _ _ _ Hg).
    destruct r; cbn in *; [done|exists g'; split; [by intros n w gs|done]..].
  - intros Hs e n w gs Hi Hn. destruct (Hs e n w gs Hi Hn) as (HT & g' & Hi' & Hs'). split; [done|].
    exists g'. split; [done|]. by apply IH.
Qed.

Lemma triple_bind {A B} g (p : prog A) (f : A -> prog B) (P : G -> A -> Prop) (Q : G -> B -> Prop) :
  triple g p P -> (forall g a, P g a -> triple g (f a) Q) -> triple g (p ≫= f) Q.
Proof. intros Hp Hf. apply safe_bind. eapply safe_mono; [|exact Hp]. intros g' [a|e| |]; cbn; auto. Qed.

Lemma safe_map {A B} g (h : result A -> result B) (p : prog A) Q :
  safe g p (fun g r => Q g (h r)) -> safe g (p_map h p) Q.
Proof.
  revert g. induction p as [r|C m k IH]; intros g; cbn; [done|].
  intros Hs e n w gs Hi Hn. destruct (Hs e n w gs Hi Hn) as (HT & g' & Hi' & Hs'). eauto.
Qed.

Lemma triple_attempt {A} g (p : prog A) (Q : G -> A -> Prop) :
  triple g p Q -> triple g (p_attempt p) (fun g r => match r with inl a => Q g a | inr _ => g = nothing end).
Proof. intros Hs. apply safe_map. eapply safe_mono; [|exact Hs]. by intros g' [a|e| |]. Qed.

Lemma triple_ctx {A} g c (p : prog A) (Q : G -> A -> Prop) : triple g p Q -> triple g (p_ctx c p) Q.
Proof. intros Hs. apply safe_map. eapply safe_mono; [|exact Hs]. by intros g' [a|e| |]. Qed.

Lemma triple_piece {A} g (m : E -> M W A) (Q : G -> A -> Prop) :
  (forall e n w gs, I n w (g :: gs) -> n + 1 < limit -> T w (m e w).2 /\
     exists g', I (n + 1) (m e w).2 (g' :: gs) /\ on_ok Q g' (m e w).1) ->
  triple g (piece m) Q.
Proof.
  intros Hm e n w gs Hi Hn. destruct (Hm e n w gs Hi Hn) as (HT & g' & Hi' & HQ).
  split; [done|]. exists g'. split; [done|]. exists g'. split; [by intros ? ? ?|done].
Qed.
End Safe.
End Prog.

Arguments prog : clear implicits.
Arguments Done {_ _ _} _.
Arguments Piece {_ _ _ _} _ _.
