(* ===== verification/RustStr.v ===== *)
(** * Rust strings, numbers and paths

    What the crates use of [str], [String], [u32::from_str], [Ipv4Addr] and
    [Path], over byte strings ([string]; a Rust [str] is its UTF-8 bytes). *)

From S2P Require Import Prelude.
From Stdlib Require Import Ascii.
From Stdlib Require String.
Local Open Scope Z_scope.

(** ** Bytes of a string *)

Definition byte_of (c : ascii) : Z := Z.of_N (N_of_ascii c).
Definition chr (b : Z) : ascii := ascii_of_N (Z.to_N b).

Fixpoint bytes_of (s : string) : list Z :=
  match s with
  | EmptyString => []
  | String c s' => byte_of c :: bytes_of s'
  end.

Fixpoint str_of_bytes (l : list Z) : string :=
  match l with
  | [] => EmptyString
  | b :: l' => String (chr b) (str_of_bytes l')
  end.

Lemma byte_of_range c : 0 <= byte_of c < 256.
Proof.
  unfold byte_of. split; [lia|].
  destruct c as [[] [] [] [] [] [] [] []]; vm_compute; reflexivity.
Qed.

Lemma chr_byte_of c : chr (byte_of c) = c.
Proof. unfold chr, byte_of. rewrite N2Z.id. apply ascii_N_embedding. Qed.

Lemma byte_of_chr b : 0 <= b < 256 -> byte_of (chr b) = b.
Proof. intros. unfold chr, byte_of. rewrite N_ascii_embedding; lia. Qed.

Lemma byte_of_inj c d : byte_of c = byte_of d -> c = d.
Proof. intros H. rewrite <- (chr_byte_of c), <- (chr_byte_of d). congruence. Qed.

Lemma str_of_bytes_of s : str_of_bytes (bytes_of s) = s.
Proof. induction s as [|c s IH]; simpl; [done|]. by rewrite chr_byte_of, IH. Qed.

Lemma bytes_of_range s : Forall (fun b => 0 <= b < 256) (bytes_of s).
Proof. induction s; simpl; constructor; auto using byte_of_range. Qed.

Lemma bytes_of_app s t : bytes_of (s +:+ t) = bytes_of s ++ bytes_of t.
Proof. induction s as [|c s IH]; [done|]. simpl. f_equal. exact IH. Qed.

Lemma bytes_of_inj s t : bytes_of s = bytes_of t -> s = t.
Proof. intros H. rewrite <- (str_of_bytes_of s), H. apply str_of_bytes_of. Qed.

Lemma length_bytes_of s : length (bytes_of s) = String.length s.
Proof. induction s; simpl; congruence. Qed.

Lemma sapp_cons c s t : String c s +:+ t = String c (s +:+ t).
Proof. reflexivity. Qed.

Lemma sapp_nil_r s : s +:+ "" = s.
Proof. induction s as [|c s IH]; [done|]. rewrite sapp_cons. by f_equal. Qed.

Lemma sapp_assoc s t u : (s +:+ t) +:+ u = s +:+ (t +:+ u).
Proof. induction s as [|c s IH]; [done|]. rewrite !sapp_cons. by f_equal. Qed.

Lemma length_sapp s t : String.length (s +:+ t) = (String.length s + String.length t)%nat.
Proof. rewrite <- !length_bytes_of, bytes_of_app. apply length_app. Qed.

Lemma sapp_inv_head s t u : s +:+ t = s +:+ u -> t = u.
Proof.
  intros H. apply bytes_of_inj. apply (f_equal bytes_of) in H.
  rewrite !bytes_of_app in H. by apply app_inv_head in H.
Qed.

(** ** Slicing: [&s[..n]] *)

(** A byte index is a char boundary unless it falls on a UTF-8 continuation byte. *)
Definition is_cont (b : Z) : bool := (128 <=? b) && (b <? 192).
Definition is_char_boundary (s : string) (n : nat) : bool :=
  if (n <=? String.length s)%nat
  then match bytes_of s !! n with Some b => negb (is_cont b) | None => true end
  else false.

Definition str_take (n : nat) (s : string) : string := String.substring 0 n s.

(** [&s[..n]]: panics off a char boundary or past the end. *)
Definition slice_to (s : string) (n : nat) : result string :=
  if is_char_boundary s n then Ok (str_take n s) else Panic.

Lemma str_take_app s t n :
  String.length s = n -> str_take n (s +:+ t) = s.
Proof.
  intros <-. unfold str_take. induction s as [|c s IH].
  - destruct t; reflexivity.
  - rewrite sapp_cons. simpl. by rewrite IH.
Qed.

Lemma str_take_more s t n :
  (n <= String.length s)%nat -> str_take n (s +:+ t) = str_take n s.
Proof.
  unfold str_take. revert s. induction n as [|n IH]; intros s Hn.
  - destruct s, t; reflexivity.
  - destruct s as [|c s]; simpl in Hn; [lia|]. rewrite sapp_cons. simpl.
    by rewrite IH by lia.
Qed.

Lemma length_str_take n s : String.length (str_take n s) = Nat.min n (String.length s).
Proof.
  unfold str_take. revert s. induction n as [|n IH]; intros s.
  - destruct s; reflexivity.
  - destruct s as [|c s]; simpl; [done|]. by rewrite IH.
Qed.

(** ** Searching and splitting *)

Definition starts_with (s p : string) : bool := String.prefix p s.

Fixpoint str_contains (s sub : string) : bool :=
  starts_with s sub ||
  match s with EmptyString => false | String _ s' => str_contains s' sub end.

(** [s.split(c)]: always one more piece than occurrences of [c]. *)
Fixpoint split_on (c : ascii) (s : string) : list string :=
  match s with
  | EmptyString => [""]
  | String d s' =>
      if Ascii.eqb c d then "" :: split_on c s'
      else match split_on c s' with
           | p :: ps => String d p :: ps
           | [] => [String d ""]
           end
  end.

Definition join (sep : string) (l : list string) : string := String.concat sep l.

Fixpoint str_elem (c : ascii) (s : string) : bool :=
  match s with EmptyString => false | String d s' => Ascii.eqb c d || str_elem c s' end.

Lemma str_elem_app c s t : str_elem c (s +:+ t) = str_elem c s || str_elem c t.
Proof. induction s as [|d s IH]; [done|]. rewrite sapp_cons. cbn [str_elem]. by rewrite IH, orb_assoc. Qed.

Lemma starts_with_spec s p : starts_with s p = true <-> exists t, s = p +:+ t.
Proof.
  unfold starts_with. revert s. induction p as [|c p IH]; intros s.
  - simpl. destruct s; split; eauto.
  - destruct s as [|d s]; simpl.
    + split; [done|]. intros [t H]. discriminate.
    + destruct (ascii_dec c d) as [->|Hne].
      * rewrite IH. split; intros [t H]; exists t.
        -- by rewrite H.
        -- rewrite sapp_cons in H. congruence.
      * split; [done|]. intros [t H]. rewrite sapp_cons in H. congruence.
Qed.

Lemma starts_with_app p t : starts_with (p +:+ t) p = true.
Proof. apply starts_with_spec. eauto. Qed.

Lemma str_contains_spec s sub :
  str_contains s sub = true <-> exists l r, s = l +:+ (sub +:+ r).
Proof.
  induction s as [|c s IH].
  - cbn [str_contains]. rewrite orb_false_r, starts_with_spec. split.
    + intros [t H]. exists "", t. exact H.
    + intros (l & r & H). destruct l; [|discriminate]. eauto.
  - cbn [str_contains]. rewrite orb_true_iff, starts_with_spec, IH. split.
    + intros [[t H]|(l & r & H)].
      * exists "", t. exact H.
      * exists (String c l), r. rewrite sapp_cons. by f_equal.
    + intros (l & r & H). destruct l as [|d l].
      * left. eauto.
      * right. rewrite sapp_cons in H. injection H as -> H. eauto.
Qed.

Lemma split_on_nonempty c s : split_on c s <> [].
Proof.
  destruct s as [|d s]; simpl; [done|]. case_match; [done|]. by case_match.
Qed.

Lemma split_on_no_sep c s : Forall (fun p => str_elem c p = false) (split_on c s).
Proof.
  induction s as [|d s IH]; simpl; [by repeat constructor|].
  destruct (Ascii.eqb c d) eqn:E; [by constructor|].
  destruct (split_on c s) as [|p ps] eqn:Es.
  - exfalso. by eapply split_on_nonempty.
  - inversion IH; subst. constructor; [|done]. simpl. by rewrite E.
Qed.

Lemma join_cons2 sep a b l : join sep (a :: b :: l) = a +:+ sep +:+ join sep (b :: l).
Proof. reflexivity. Qed.

Lemma join_split c s : join (String c "") (split_on c s) = s.
Proof.
  induction s as [|d s IH]; [done|].
  cbn [split_on]. pose proof (split_on_nonempty c s) as Hne.
  destruct (Ascii.eqb c d) eqn:E.
  - apply Ascii.eqb_eq in E as <-. destruct (split_on c s) as [|p ps]; [done|].
    rewrite join_cons2, IH. reflexivity.
  - destruct (split_on c s) as [|p ps]; [done|].
    destruct ps as [|q qs].
    + unfold join in *. simpl in *. by f_equal.
    + rewrite join_cons2 in *. rewrite sapp_cons. by f_equal.
Qed.

Lemma split_on_simple c s : str_elem c s = false -> split_on c s = [s].
Proof.
  induction s as [|d s IH]; simpl; [done|].
  intros [Hd Hs]%orb_false_iff. by rewrite Hd, (IH Hs).
Qed.

Lemma split_on_app c s t :
  str_elem c s = false -> split_on c (s +:+ String c t) = s :: split_on c t.
Proof.
  induction s as [|d s IH]; intros H.
  - simpl. by rewrite Ascii.eqb_refl.
  - simpl in H. apply orb_false_iff in H as [Hd Hs].
    rewrite sapp_cons. cbn [split_on]. by rewrite Hd, (IH Hs).
Qed.

(** Splitting a join of separator-free pieces gives the pieces back. *)
Lemma split_join c (l : list string) :
  l <> [] -> Forall (fun p => str_elem c p = false) l ->
  split_on c (join (String c "") l) = l.
Proof.
  induction l as [|a l IH]; intros Hne H; [done|]. inversion H; subst.
  destruct l as [|b l].
  - by apply split_on_simple.
  - rewrite join_cons2. change (String c "" +:+ ?t) with (String c t).
    rewrite split_on_app by done. f_equal. by apply IH.
Qed.

(** ** Decimal numbers: [to_string] is stdpp's [pretty]; [parse::<uN>] below *)

Definition digit (c : ascii) : option Z := Z.of_nat <$> Ascii.is_nat c.

Fixpoint parse_digits (s : string) (acc : Z) : option Z :=
  match s with
  | EmptyString => Some acc
  | String c s' =>
      match digit c with Some d => parse_digits s' (acc * 10 + d) | None => None end
  end.

(** [s.parse::<uN>()] for an [w]-bit unsigned type: an optional [+], at least
    one digit, nothing else, and a value that fits. *)
Definition parse_uint (w : Z) (s : string) : option Z :=
  let body := match s with String "+" r => r | _ => s end in
  match body with
  | EmptyString => None
  | _ => match parse_digits body 0 with
         | Some v => if v <? 2 ^ w then Some v else None
         | None => None
         end
  end.

Lemma digit_pretty x : (x < 10)%N -> digit (pretty_N_char x) = Some (Z.of_N x).
Proof.
  intros H.
  assert (x = 0 ∨ x = 1 ∨ x = 2 ∨ x = 3 ∨ x = 4 ∨ x = 5 ∨ x = 6 ∨ x = 7 ∨ x = 8 ∨ x = 9)%N
    as Hx by lia.
  repeat destruct Hx as [->|Hx]; try reflexivity. by rewrite Hx.
Qed.

Lemma parse_digits_pretty_go x s :
  parse_digits (pretty_N_go x s) 0 = parse_digits s (Z.of_N x).
Proof.
  revert s. induction (N.lt_wf_0 x) as [x _ IH]; intros s.
  destruct (decide (x = 0)%N) as [->|Hx]; [by rewrite pretty_N_go_0|].
  rewrite pretty_N_go_step by lia.
  rewrite IH by (apply N.div_lt; lia). cbn [parse_digits].
  rewrite digit_pretty by (apply N.mod_lt; done). f_equal.
  pose proof (N.div_mod x 10 ltac:(done)). lia.
Qed.

Lemma pretty_N_go_head x s :
  (0 < x)%N -> exists d t, (d < 10)%N /\ pretty_N_go x s = String (pretty_N_char d) t.
Proof.
  revert s. induction (N.lt_wf_0 x) as [x _ IH]; intros s Hx.
  rewrite pretty_N_go_step by lia.
  destruct (decide (x `div` 10 = 0)%N) as [E|E].
  - rewrite E, pretty_N_go_0. eexists _, _. split; [|reflexivity].
    by apply N.mod_lt.
  - apply IH; [apply N.div_lt; lia|]. by apply N.neq_0_lt_0.
Qed.

Lemma pretty_N_char_not_plus d : (d < 10)%N -> pretty_N_char d <> "+"%char.
Proof. intros _. unfold pretty_N_char. by repeat case_match. Qed.

(** Printing then parsing a number of the type's range gives it back. *)
Lemma parse_pretty w n : in_range w n -> parse_uint w (pretty n) = Some n.
Proof.
  intros [H0 Hw]. destruct n as [|p|p]; [|..|lia].
  - unfold parse_uint. cbn -[Z.ltb Z.pow]. change (0 * 10 + Z.of_nat 0) with 0.
    destruct (Z.ltb_spec 0 (2 ^ w)); [done|lia].
  - change (pretty (Z.pos p)) with (pretty_N_go (N.pos p) "").
    destruct (pretty_N_go_head (N.pos p) "" ltac:(lia)) as (d & t & Hd & E).
    pose proof (parse_digits_pretty_go (N.pos p) "") as Hp. rewrite E in *.
    unfold parse_uint.
    assert (match String (pretty_N_char d) t with
            | String "+" r => r | _ => String (pretty_N_char d) t end
            = String (pretty_N_char d) t) as ->.
    { pose proof (pretty_N_char_not_plus d Hd).
      destruct (pretty_N_char d) as [[] [] [] [] [] [] [] []]; done. }
    rewrite Hp. cbn -[Z.ltb Z.pow].
    destruct (Z.ltb_spec (Z.pos p) (2 ^ w)); [done|lia].
Qed.

Lemma digit_not_char c d : digit c = None -> (d < 10)%N -> Ascii.eqb c (pretty_N_char d) = false.
Proof.
  intros Hc Hd. apply Ascii.eqb_neq. intros ->. by rewrite digit_pretty in Hc.
Qed.

(** No character that is not a digit occurs in a printed number. *)
Lemma pretty_no_char c n : digit c = None -> 0 <= n -> str_elem c (pretty n) = false.
Proof.
  intros Hc Hn.
  assert (Hgo : forall x s, str_elem c s = false -> str_elem c (pretty_N_go x s) = false).
  { intros x. induction (N.lt_wf_0 x) as [x _ IH]; intros s Hs.
    destruct (decide (x = 0)%N) as [->|Hx]; [done|].
    rewrite pretty_N_go_step by lia. apply IH; [apply N.div_lt; lia|].
    cbn. rewrite digit_not_char; [done..|]. by apply N.mod_lt. }
  destruct n as [|p|p]; [|by apply Hgo|lia].
  cbn. rewrite orb_false_r. by apply (digit_not_char c 0%N).
Qed.

(** ** Whitespace: [split_whitespace], [trim], [lines] *)

(** One leading Unicode [White_Space] char, as its UTF-8 bytes; the rest after it. *)
Definition ws_rest (s : string) : option string :=
  match bytes_of s with
  | b :: _ =>
      if ((9 <=? b) && (b <=? 13)) || (b =? 32)
      then match s with String _ r => Some r | _ => None end
      else match s, bytes_of s with
           | String _ (String _ r), 194 :: c :: _ =>
               if (c =? 133) || (c =? 160) then Some r else None
           | String _ (String _ (String _ r)), 225 :: 154 :: 128 :: _ => Some r
           | String _ (String _ (String _ r)), 226 :: 128 :: c :: _ =>
               if ((128 <=? c) && (c <=? 138)) || (c =? 168) || (c =? 169) || (c =? 175)
               then Some r else None
           | String _ (String _ (String _ r)), 226 :: 129 :: 159 :: _ => Some r
           | String _ (String _ (String _ r)), 227 :: 128 :: 128 :: _ => Some r
           | _, _ => None
           end
  | [] => None
  end.

Definition flush (w : string) (l : list string) : list string :=
  match w with EmptyString => l | _ => w :: l end.

(** Words so far in [cur] (in order); [n] bounds the remaining bytes. *)
Fixpoint split_ws_go (n : nat) (s cur : string) : list string :=
  match n with
  | O => flush cur []
  | S n' =>
      match ws_rest s with
      | Some r => flush cur (split_ws_go n' r "")
      | None => match s with
                | EmptyString => flush cur []
                | String c r => split_ws_go n' r (cur +:+ String c "")
                end
      end
  end.

Definition split_whitespace (s : string) : list string :=
  split_ws_go (S (String.length s)) s "".

Definition drop_ws_start (s : string) : string :=
  (fix go (n : nat) (s : string) {struct n} : string :=
     match n with
     | O => s
     | S n' => match ws_rest s with Some r => go n' r | None => s end
     end) (String.length s) s.

(** Byte offset just past the last non-whitespace char. *)
Fixpoint trim_end_len (n : nat) (s : string) (pos best : nat) : nat :=
  match n with
  | O => best
  | S n' =>
      match ws_rest s with
      | Some r => trim_end_len n' r (pos + (String.length s - String.length r)) best
      | None => match s with
                | EmptyString => best
                | String _ r => trim_end_len n' r (S pos) (S pos)
                end
      end
  end.

Definition trim_end (s : string) : string :=
  str_take (trim_end_len (S (String.length s)) s 0 0) s.

Definition trim (s : string) : string := trim_end (drop_ws_start s).

(** A whitespace char is recognised by itself, and is one ASCII byte or all
    non-ASCII bytes. *)
Lemma ws_rest_split s r : ws_rest s = Some r ->
  exists p, s = p +:+ r /\ (forall r', ws_rest (p +:+ r') = Some r') /\
    (String.length p = 1%nat \/ p <> "" /\ Forall (fun b => 128 <= b) (bytes_of p)).
Proof.
  unfold ws_rest. intros Hw. destruct s as [|c1 s]; [done|]. cbn [bytes_of] in Hw.
  destruct (((9 <=? byte_of c1) && (byte_of c1 <=? 13)) || (byte_of c1 =? 32)) eqn:E1.
  { injection Hw as <-. exists (String c1 ""). split_and!; [done| |by left].
    intros r'. rewrite sapp_cons. cbn [bytes_of]. by rewrite E1. }
  assert (Hrun : forall c2 r', bytes_of (String c1 (String c2 r')) = byte_of c1 :: byte_of c2 :: bytes_of r')
    by reflexivity.
  destruct s as [|c2 s]; [by repeat case_match|]. cbn [bytes_of] in Hw.
  destruct (byte_of c1) as [|b1|b1] eqn:Eb1; [by destruct s| |by destruct s].
  destruct (decide (Z.pos b1 = 194)) as [E194|N194].
  { rewrite E194 in *. assert (Hc : (byte_of c2 =? 133) || (byte_of c2 =? 160) = true /\ r = s)
      by (destruct s; repeat case_match; simplify_eq; done).
    destruct Hc as [Hc ->]. exists (String c1 (String c2 "")). split_and!; [done| |].
    - intros r'. rewrite !sapp_cons. cbn [bytes_of]. rewrite Eb1, E1. destruct r'; change ("" +:+ ?x) with x; by rewrite Hc.
    - right. split; [done|]. cbn. rewrite Eb1. repeat constructor; lia. }
  destruct s as [|c3 s]; [by repeat case_match|]. cbn [bytes_of] in Hw.
  exists (String c1 (String c2 (String c3 ""))).
  assert (Hr : r = s) by (repeat case_match; simplify_eq; done). subst r. split_and!; [done| |].
  - intros r'. rewrite !sapp_cons. change ("" +:+ r') with r'. cbn [bytes_of]. rewrite Eb1, E1.
    revert Hw. repeat case_match; simplify_eq; done.
  - right. split; [done|]. cbn. rewrite Eb1. repeat case_match; simplify_eq; repeat constructor; lia.
Qed.

Lemma ws_rest_app s t r : ws_rest s = Some r -> ws_rest (s +:+ t) = Some (r +:+ t).
Proof. intros Hw. destruct (ws_rest_split _ _ Hw) as (p & -> & Hp & _). by rewrite sapp_assoc, Hp. Qed.

(** Pieces of [split_whitespace]: not empty, no whitespace char in them. *)
Definition word (w : string) : Prop :=
  w <> "" /\ forall u v, w = u +:+ v -> v <> "" -> ws_rest v = None.

Lemma sapp_cancel p r v t : p +:+ r = v +:+ t -> (String.length p <= String.length v)%nat ->
  exists v', v = p +:+ v'.
Proof.
  revert v. induction p as [|c p IH]; intros v E Hl; [by exists v|].
  destruct v as [|c' v]; cbn in Hl; [lia|]. rewrite !sapp_cons in E. injection E as <- E.
  destruct (IH v E ltac:(lia)) as [v' ->]. by exists v'.
Qed.

Lemma ws_rest_none_space v t : v <> "" -> ws_rest v = None -> ws_rest (v +:+ String " " t) = None.
Proof.
  intros Hv Hn. destruct (ws_rest (v +:+ String " " t)) as [r|] eqn:E; [exfalso|done].
  destruct (ws_rest_split _ _ E) as (p & Ep & Hp & Hor).
  destruct (decide (String.length p <= String.length v)%nat) as [Hl|Hl].
  - destruct (sapp_cancel p r v (String " " t) (eq_sym Ep) Hl) as [v' ->]. by rewrite Hp in Hn.
  - destruct Hor as [H1|[_ HF] ]; [destruct v; cbn in *; [done|lia]|].
    assert (exists p', p = v +:+ String " " p') as [p' ->].
    { destruct (sapp_cancel v (String " " t) p r Ep ltac:(lia)) as [p' ->].
      rewrite sapp_assoc in Ep. apply sapp_inv_head in Ep.
      destruct p' as [|c p']; [rewrite sapp_nil_r in Hl; lia|]. injection Ep as <- _. by exists p'. }
    rewrite bytes_of_app in HF. apply Forall_app in HF as [_ HF]. cbn in HF. apply Forall_cons in HF as [HF _].
    vm_compute in HF. done.
Qed.

Lemma flush_words s cur l :
  (forall u v, cur = u +:+ v -> v <> "" -> ws_rest (v +:+ s) = None) ->
  Forall word l -> Forall word (flush cur l).
Proof.
  intros Hc Hl. destruct cur as [|c cur]; [done|]. constructor; [|done].
  split; [done|]. intros u v E Hv. specialize (Hc u v E Hv).
  destruct (ws_rest v) as [r|] eqn:Ew; [|done]. by rewrite (ws_rest_app _ _ _ Ew) in Hc.
Qed.

Lemma split_ws_go_words n s cur :
  (forall u v, cur = u +:+ v -> v <> "" -> ws_rest (v +:+ s) = None) ->
  Forall word (split_ws_go n s cur).
Proof.
  revert s cur. induction n as [|n IH]; intros s cur Hc; pose proof (flush_words s cur) as Hf;
    specialize (fun l => Hf l Hc).
  - cbn. apply Hf. constructor.
  - cbn [split_ws_go]. destruct (ws_rest s) as [r|] eqn:Er.
    + apply Hf, IH. intros u v E Hv. destruct u; [|done]. by destruct (Hv (eq_sym E)).
    + destruct s as [|c s]; [by apply Hf|]. apply IH. intros u v E Hv.
      assert (Hlast : exists v', v = v' +:+ String c "" /\ cur = u +:+ v').
      { clear -E Hv. revert cur E. induction u as [|a u IHu]; intros cur E.
        - exists cur. by split.
        - destruct cur as [|b cur]; [injection E as _ E; destruct u, v; done|].
          rewrite !sapp_cons in E. injection E as <- E. destruct (IHu cur E) as (v' & -> & ->).
          by exists v'. }
      destruct Hlast as (v' & -> & ->). rewrite sapp_assoc. change (String c "" +:+ s) with (String c s).
      destruct v' as [|a v']; [exact Er|]. by apply (Hc u).
Qed.

Lemma split_whitespace_words s : Forall word (split_whitespace s).
Proof. apply split_ws_go_words. intros u v E Hv. destruct u; [|done]. by destruct (Hv (eq_sym E)). Qed.

Lemma split_ws_go_word n w cur t :
  (forall u v, w = u +:+ v -> v <> "" -> ws_rest v = None) ->
  split_ws_go (String.length w + n) (w +:+ String " " t) cur = split_ws_go n (String " " t) (cur +:+ w).
Proof.
  revert cur. induction w as [|c w IH]; intros cur Hw.
  - cbn. by rewrite sapp_nil_r.
  - cbn [String.length Nat.add split_ws_go].
    rewrite (ws_rest_none_space (String c w) t) by (done || by apply (Hw "")).
    rewrite sapp_cons, IH.
    + by rewrite sapp_assoc.
    + intros u v -> Hv. by apply (Hw (String c u)).
Qed.

Lemma split_ws_go_last n w cur :
  (forall u v, w = u +:+ v -> v <> "" -> ws_rest v = None) ->
  split_ws_go (String.length w + S n) w cur = flush (cur +:+ w) [].
Proof.
  revert cur. induction w as [|c w IH]; intros cur Hw.
  - cbn. by rewrite sapp_nil_r.
  - cbn [String.length Nat.add split_ws_go]. rewrite (Hw "" (String c w)) by done.
    rewrite IH; [by rewrite sapp_assoc|]. intros u v -> Hv. by apply (Hw (String c u)).
Qed.

(** Words joined by single spaces split into themselves. *)
Lemma split_whitespace_join ws : Forall word ws -> split_whitespace (join " " ws) = ws.
Proof.
  intros Hws. unfold split_whitespace.
  assert (Hgen : forall n, split_ws_go (String.length (join " " ws) + S n) (join " " ws) "" = ws);
    [|rewrite <- (Hgen 0%nat) at 3; by rewrite Nat.add_1_r].
  induction Hws as [|w ws [Hne Hw] Hws IH]; intros n; [done|]. destruct ws as [|w' ws].
  - cbn [join String.concat]. rewrite split_ws_go_last by done. by destruct w.
  - change (join " " (w :: w' :: ws)) with (w +:+ String " " (join " " (w' :: ws))).
    rewrite length_sapp, <- Nat.add_assoc, split_ws_go_word by done.
    change ("" +:+ w) with w. cbn [String.length Nat.add split_ws_go].
    change (ws_rest (String " " ?x)) with (Some x). cbv iota. rewrite IH. by destruct w.
Qed.

(** A text without whitespace is its own trimming. *)
Definition no_ws_byte (b : Z) : Prop := 32 < b < 128.

Lemma ws_rest_plain s : Forall no_ws_byte (bytes_of s) -> ws_rest s = None.
Proof.
  intros Hs. unfold ws_rest. destruct s as [|c s]; [done|]. cbn [bytes_of] in *.
  apply Forall_cons in Hs as [Hc _]. unfold no_ws_byte in Hc.
  rewrite (proj2 (orb_false_iff _ _)) by (split; lia).
  destruct (byte_of c) as [|b|b] eqn:E; [lia| |lia]. destruct s as [|? [|? ?] ]; [done|..];
    repeat case_match; try done; simplify_eq; lia.
Qed.

Lemma trim_end_len_plain n s pos best :
  Forall no_ws_byte (bytes_of s) -> (String.length s < n)%nat ->
  trim_end_len n s pos best = match s with EmptyString => best | _ => (pos + String.length s)%nat end.
Proof.
  revert s pos best. induction n as [|n IH]; intros s pos best Hs Hn; [lia|]. cbn [trim_end_len].
  rewrite ws_rest_plain by done. destruct s as [|c s]; [done|]. cbn [bytes_of String.length] in *.
  apply Forall_cons in Hs as [_ Hs]. rewrite IH by (done || lia). destruct s; cbn [String.length]; lia.
Qed.

Lemma trim_plain s : Forall no_ws_byte (bytes_of s) -> trim s = s.
Proof.
  intros Hs. unfold trim, drop_ws_start.
  assert (E : (fix go (n : nat) (s : string) {struct n} : string :=
     match n with O => s | S n' => match ws_rest s with Some r => go n' r | None => s end end)
     (String.length s) s = s) by (destruct (String.length s); [done|]; by rewrite ws_rest_plain).
  rewrite E. unfold trim_end. rewrite trim_end_len_plain by (done || lia).
  pose proof (str_take_app s "" (String.length s) eq_refl) as Ht. rewrite sapp_nil_r in Ht.
  destruct s; [done|exact Ht].
Qed.

(** [s.lines()]: pieces ended by a line feed, each without a trailing carriage
    return, and no final empty piece. *)
Definition lf : ascii := "010"%char.
Definition cr : ascii := "013"%char.
Fixpoint strip_last_cr (s : string) : string :=
  match s with
  | EmptyString => ""
  | String c EmptyString => if Ascii.eqb c cr then "" else s
  | String c s' => String c (strip_last_cr s')
  end.
Definition lines (s : string) : list string :=
  let ps := split_on lf s in
  let ended := map strip_last_cr (removelast ps) in
  match List.last ps "" with EmptyString => ended | l => ended ++ [l] end.

(** ** Paths *)

Definition ends_with_slash (s : string) : bool :=
  match rev (bytes_of s) with 47 :: _ => true | _ => false end.

(** [Path::join]: an absolute path replaces the one it is joined to. *)
Definition path_join (a b : string) : string :=
  if starts_with b "/" then b
  else match a with
       | EmptyString => b
       | _ => if ends_with_slash a then a +:+ b else a +:+ "/" +:+ b
       end.
