(* ===== verification/NetAddr.v ===== *)
(** * IPv4 addresses, CIDR strings and the gateway the daemon infers

    [crates/daemon/src/netns.rs: infer_gateway], the CIDR that
    [crates/common/src/netlink.rs: get_ipv4] prints and that
    [crates/daemon/src/api.rs: configure_guest_network] splits again, and the
    TAP name of [setup_vm_networking]. *)

From S2P Require Import Prelude RustStr.
From Stdlib Require Import Ascii.
From Stdlib Require String.
Local Open Scope Z_scope.

(** ** [std::net::Ipv4Addr], as its [u32] *)

Definition octets (ip : Z) : list Z :=
  [ip / 2 ^ 24 mod 256; ip / 2 ^ 16 mod 256; ip / 2 ^ 8 mod 256; ip mod 256].

Definition ipv4_new (a b c d : Z) : Z := a * 2 ^ 24 + b * 2 ^ 16 + c * 2 ^ 8 + d.

Definition show_ipv4 (ip : Z) : string := join "." (map pretty (octets ip)).

(** One octet: one to three digits, no leading zero, at most 255. *)
Definition parse_octet (s : string) : option Z :=
  match s with
  | EmptyString => None
  | String c r =>
      if (3 <? String.length s)%nat then None
      else if Ascii.eqb c "0" && negb (String.eqb r "") then None
      else match parse_digits s 0 with
           | Some v => if v <? 256 then Some v else None
           | None => None
           end
  end.

Definition parse_ipv4 (s : string) : option Z :=
  match split_on "." s with
  | [a; b; c; d] =>
      a ← parse_octet a; b ← parse_octet b; c ← parse_octet c; d ← parse_octet d;
      Some (ipv4_new a b c d)
  | _ => None
  end.

Lemma octet_table :
  forallb (fun n => match parse_octet (pretty n) with Some m => Z.eqb m n | None => false end)
    (seqZ 0 256) = true.
Proof. vm_compute. reflexivity. Qed.

Lemma parse_octet_pretty n : 0 <= n < 256 -> parse_octet (pretty n) = Some n.
Proof.
  intros Hn. pose proof octet_table as H. rewrite forallb_forall in H.
  specialize (H n). rewrite <- list_elem_of_In, elem_of_seqZ in H.
  specialize (H ltac:(lia)). destruct (parse_octet (pretty n)) as [m|]; [|done].
  apply Z.eqb_eq in H. by subst.
Qed.

Lemma octets_range ip : Forall (fun o => 0 <= o < 256) (octets ip).
Proof. unfold octets. repeat constructor; apply Z.mod_pos_bound; lia. Qed.

Lemma ipv4_octets ip : in_range 32 ip ->
  match octets ip with [a; b; c; d] => ipv4_new a b c d = ip | _ => False end.
Proof. unfold in_range, octets, ipv4_new. intros H. Z.to_euclidean_division_equations; lia. Qed.

(** Printing an address and parsing it gives it back. *)
Lemma parse_show_ipv4 ip : in_range 32 ip -> parse_ipv4 (show_ipv4 ip) = Some ip.
Proof.
  intros H. unfold parse_ipv4, show_ipv4.
  rewrite split_join.
  - pose proof (ipv4_octets ip H) as Hi. pose proof (octets_range ip) as Hr.
    unfold octets in *. cbn [map].
    rewrite !Forall_cons in Hr. destruct Hr as (? & ? & ? & ? & _).
    rewrite !parse_octet_pretty by done. simpl. by f_equal.
  - done.
  - apply Forall_map. eapply Forall_impl; [apply octets_range|].
    intros o Ho. simpl in *. apply pretty_no_char; [done|lia].
Qed.

Lemma show_ipv4_no_slash ip : str_elem "/" (show_ipv4 ip) = false.
Proof.
  unfold show_ipv4. pose proof (octets_range ip) as Hr. unfold octets in *.
  assert (Happ : forall s t, str_elem "/" (s +:+ t) = str_elem "/" s || str_elem "/" t).
  { intros s t. induction s as [|c s IH]; [done|]. rewrite sapp_cons. cbn [str_elem].
    by rewrite IH, orb_assoc. }
  rewrite !Forall_cons in Hr. destruct Hr as (? & ? & ? & ? & _).
  cbn [map]. rewrite !join_cons2. unfold join. simpl String.concat.
  rewrite !Happ, !pretty_no_char by (done || lia). reflexivity.
Qed.

(** ** CIDR strings *)

(** [netlink.rs: get_ipv4]: [format!("{ip}/{pfx}")]. *)
Definition show_cidr (ip pfx : Z) : string := show_ipv4 ip +:+ "/" +:+ pretty pfx.

(** [api.rs: configure_guest_network]: address and prefix length sent to the agent. *)
Definition guest_net_params (ip_cidr : string) : string * Z :=
  let parts := split_on "/" ip_cidr in
  let ip := List.hd "" parts in
  let prefix := default 24 (parts !! 1%nat ≫= parse_uint 32) in
  (ip, prefix).

(** [netns.rs: infer_gateway], release build: [<<] masks the shift amount and
    [+ 1] wraps. *)
Definition shl32 (a n : Z) : Z := wrap 32 (Z.shiftl a (n mod 32)).
Definition not32 (a : Z) : Z := 2 ^ 32 - 1 - a.

Definition infer_gateway (ip_cidr : string) : option string :=
  let parts := split_on "/" ip_cidr in
  ip ← (parts !! 0%nat ≫= parse_ipv4);
  prefix ← (parts !! 1%nat ≫= parse_uint 32);
  if 30 <? prefix then None
  else
    let mask := not32 (wrap 32 (shl32 1 (32 - prefix) - 1)) in
    let network := Z.land ip mask in
    let gateway := wrap 32 (network + 1) in
    Some (show_ipv4 gateway).

Lemma split_cidr ip pfx : 0 <= pfx ->
  split_on "/" (show_cidr ip pfx) = [show_ipv4 ip; pretty pfx].
Proof.
  intros. unfold show_cidr. change ("/" +:+ ?t) with (String "/" t).
  rewrite split_on_app by apply show_ipv4_no_slash.
  by rewrite split_on_simple by (apply pretty_no_char; done).
Qed.

Lemma land_mask ip p : in_range 32 ip -> 1 <= p <= 30 ->
  Z.land ip (not32 (wrap 32 (shl32 1 (32 - p) - 1))) = ip / 2 ^ (32 - p) * 2 ^ (32 - p).
Proof.
  intros Hip Hp. unfold not32, shl32, wrap.
  rewrite (Z.mod_small (32 - p) 32) by lia. rewrite Z.shiftl_1_l.
  assert (0 < 2 ^ (32 - p) < 2 ^ 32)
    by (split; [lia|apply Z.pow_lt_mono_r; lia]).
  rewrite (Z.mod_small (2 ^ (32 - p))), Z.mod_small by lia.
  replace (2 ^ 32 - 1 - (2 ^ (32 - p) - 1))
    with (Z.ldiff (Z.ones 32) (Z.ones (32 - p))).
  - rewrite <- Z.shiftl_mul_pow2, <- Z.shiftr_div_pow2 by lia.
    rewrite <- Z.ldiff_ones_r by lia. apply Z.bits_inj'. intros n Hn.
    rewrite Z.land_spec, !Z.ldiff_spec.
    destruct (Z.ltb_spec n 32).
    + by rewrite (Z.ones_spec_low 32 n) by lia.
    + rewrite (Z.ones_spec_high 32 n) by lia. simpl. rewrite andb_false_r.
      rewrite <- (Z.mod_small ip (2 ^ 32)) by apply Hip.
      by rewrite Z.mod_pow2_bits_high by lia.
  - rewrite Z.ldiff_ones_r, Z.shiftr_div_pow2, Z.shiftl_mul_pow2, !Z.ones_equiv by lia.
    rewrite <- !Z.sub_1_r.
    replace (2 ^ 32) with (2 ^ p * 2 ^ (32 - p)) at 1
      by (rewrite <- Z.pow_add_r by lia; f_equal; lia).
    replace (2 ^ p * 2 ^ (32 - p) - 1) with ((2 ^ p - 1) * 2 ^ (32 - p) + (2 ^ (32 - p) - 1)) by lia.
    rewrite Z.div_add_l, (Z.div_small (2 ^ (32 - p) - 1)) by lia.
    replace (2 ^ 32) with (2 ^ p * 2 ^ (32 - p))
      by (rewrite <- Z.pow_add_r by lia; f_equal; lia). lia.
Qed.

Lemma infer_gateway_cidr ip p : in_range 32 ip -> in_range 32 p ->
  infer_gateway (show_cidr ip p) =
    (if 30 <? p then None else
     Some (show_ipv4 (wrap 32 (Z.land ip (not32 (wrap 32 (shl32 1 (32 - p) - 1))) + 1)))).
Proof.
  intros Hip Hp. unfold infer_gateway. rewrite split_cidr by apply Hp. cbn [lookup list_lookup].
  simpl. rewrite parse_show_ipv4 by done. simpl. rewrite parse_pretty by done. simpl.
  by case_match.
Qed.

(** ** TAP names *)

(** [api.rs: setup_vm_networking]: ["tap_"] and the first eight bytes of the VM id. *)
Definition tap_name_of (vm_id : string) : result string :=
  pfx ← slice_to vm_id (Nat.min 8 (String.length vm_id));
  mret ("tap_" +:+ pfx).

(** [pool.rs: restore_one]: the id of a pool VM. *)
Definition pool_vm_id (pid cid : Z) : string :=
  "pool-" +:+ pretty pid +:+ "-" +:+ pretty cid.

Lemma pretty_len3 n : 100 <= n -> (3 <= String.length (pretty n))%nat.
Proof.
  intros Hn. destruct n as [|p|p]; [lia| |lia].
  change (pretty (Z.pos p)) with (pretty_N_go (N.pos p) "").
  assert (Hlen : forall x s, (String.length s <= String.length (pretty_N_go x s))%nat).
  { intros x. induction (N.lt_wf_0 x) as [x _ IH]; intros s.
    destruct (decide (x = 0)%N) as [->|Hx]; [by rewrite pretty_N_go_0|].
    rewrite pretty_N_go_step by lia.
    etrans; [|apply IH; apply N.div_lt; lia]. simpl; lia. }
  rewrite pretty_N_go_step by lia.
  rewrite pretty_N_go_step by (apply N.div_str_pos; lia).
  rewrite pretty_N_go_step.
  - etrans; [|apply Hlen]. simpl. lia.
  - apply N.div_str_pos. split; [lia|]. apply N.div_le_lower_bound; lia.
Qed.

Lemma pretty_bytes n : 0 <= n -> Forall (fun b => 48 <= b < 58) (bytes_of (pretty n)).
Proof.
  intros Hn.
  assert (Hc : forall d, (d < 10)%N -> 48 <= byte_of (pretty_N_char d) < 58).
  { intros d Hd. unfold pretty_N_char. repeat case_match; vm_compute; split; done. }
  assert (Hgo : forall x s, Forall (fun b => 48 <= b < 58) (bytes_of s) ->
            Forall (fun b => 48 <= b < 58) (bytes_of (pretty_N_go x s))).
  { intros x. induction (N.lt_wf_0 x) as [x _ IH]; intros s Hs.
    destruct (decide (x = 0)%N) as [->|Hx]; [done|].
    rewrite pretty_N_go_step by lia. apply IH; [apply N.div_lt; lia|].
    simpl. constructor; [|done]. apply Hc. by apply N.mod_lt. }
  destruct n as [|p|p]; [|by apply Hgo|lia].
  repeat constructor; vm_compute; done.
Qed.

Lemma pool_vm_id_ascii pid cid : 0 <= pid -> 0 <= cid ->
  Forall (fun b => 0 <= b < 128) (bytes_of (pool_vm_id pid cid)).
Proof.
  intros Hp Hc. unfold pool_vm_id. rewrite !bytes_of_app, !Forall_app.
  assert (H : forall n, 0 <= n -> Forall (fun b => 0 <= b < 128) (bytes_of (pretty n))).
  { intros n Hn. eapply Forall_impl; [by apply pretty_bytes|]. simpl. lia. }
  split; [repeat constructor; vm_compute; done|]. split; [by apply H|].
  split; [repeat constructor; vm_compute; done|by apply H].
Qed.

Lemma ascii_slice s n :
  Forall (fun b => 0 <= b < 128) (bytes_of s) -> (n <= String.length s)%nat ->
  slice_to s n = Ok (str_take n s).
Proof.
  intros Ha Hn. unfold slice_to, is_char_boundary.
  rewrite (proj2 (Nat.leb_le _ _) Hn).
  destruct (bytes_of s !! n) as [b|] eqn:E; [|done].
  eapply Forall_lookup_1 in Ha as Hb; [|done]. simpl in Hb. unfold is_cont.
  by rewrite (proj2 (Z.leb_gt 128 b)) by lia.
Qed.

Lemma str_take_app_r s t n : str_take (String.length s + n) (s +:+ t) = s +:+ str_take n t.
Proof.
  induction s as [|c s IH]; [done|]. rewrite sapp_cons. unfold str_take in *. simpl.
  by rewrite IH.
Qed.

Lemma tap_name_pool pid cid : 100 <= pid -> 0 <= cid ->
  tap_name_of (pool_vm_id pid cid) = Ok ("tap_pool-" +:+ str_take 3 (pretty pid)).
Proof.
  intros Hp Hc. pose proof (pretty_len3 pid Hp) as Hl.
  assert (Hlen : (8 <= String.length (pool_vm_id pid cid))%nat).
  { unfold pool_vm_id. rewrite !length_sapp. simpl. lia. }
  unfold tap_name_of. rewrite Nat.min_l by done.
  rewrite ascii_slice by (done || (apply pool_vm_id_ascii; lia)). simpl.
  unfold mret, result_ret. f_equal. unfold pool_vm_id.
  pose proof (str_take_app_r "pool-" (pretty pid +:+ "-" +:+ pretty cid) 3) as E.
  simpl in E. rewrite E.
  by rewrite str_take_more by done.
Qed.

(** ** Properties *)

(** For every address and every prefix length from 1 to 30, the inferred
    gateway is the first host of the address's own subnet (network address
    plus one), and the sum stays within 32 bits. *)
Theorem infer_gateway_first_host ip p :
  in_range 32 ip -> 1 <= p <= 30 ->
  let net := ip / 2 ^ (32 - p) * 2 ^ (32 - p) in
  infer_gateway (show_cidr ip p) = Some (show_ipv4 (net + 1)) /\
  (net + 1) / 2 ^ (32 - p) = ip / 2 ^ (32 - p) /\ in_range 32 (net + 1).
Proof.
  intros Hip Hp net.
  assert (Hk : 4 <= 2 ^ (32 - p)).
  { change 4 with (2 ^ 2). apply Z.pow_le_mono_r; lia. }
  assert (Hs : 2 ^ 32 = 2 ^ p * 2 ^ (32 - p))
    by (rewrite <- Z.pow_add_r by lia; f_equal; lia).
  assert (Hq : ip / 2 ^ (32 - p) < 2 ^ p).
  { apply Z.div_lt_upper_bound; [lia|]. unfold in_range in Hip. lia. }
  assert (Hq0 : 0 <= ip / 2 ^ (32 - p)) by (apply Z.div_pos; unfold in_range in Hip; lia).
  assert (Hr : in_range 32 (net + 1)).
  { unfold in_range. rewrite Hs. subst net. nia. }
  split_and!; [|subst net; rewrite Z.div_add_l, (Z.div_small 1) by lia; lia|done].
  rewrite infer_gateway_cidr by (unfold in_range in *; lia).
  rewrite land_mask by done. rewrite wrap_small by done.
  destruct (Z.ltb_spec 30 p); [lia|done].
Qed.

Lemma infer_gateway_first_host_witness :
  in_range 32 (ipv4_new 10 88 7 2) /\
  infer_gateway (show_cidr (ipv4_new 10 88 7 2) 16) = Some (show_ipv4 (ipv4_new 10 88 0 1)).
Proof.
  split; [split; vm_compute; done|].
  apply (infer_gateway_first_host (ipv4_new 10 88 7 2) 16); [split; vm_compute; done|lia].
Defined.

(** With prefix length 0 the release build masks the 32-bit shift away, so
    the inferred gateway is the pod's own address plus one, whatever the
    address, instead of the first host of the whole range. *)
Theorem infer_gateway_prefix_zero ip :
  in_range 32 ip -> infer_gateway (show_cidr ip 0) = Some (show_ipv4 (wrap 32 (ip + 1))).
Proof.
  intros Hip. rewrite infer_gateway_cidr by (done || (split; vm_compute; done)).
  change (30 <? 0) with false. change (not32 (wrap 32 (shl32 1 (32 - 0) - 1))) with (Z.ones 32).
  rewrite Z.land_ones by lia. do 2 f_equal. by rewrite (Z.mod_small ip) by apply Hip.
Qed.

Lemma infer_gateway_prefix_zero_witness :
  infer_gateway (show_cidr (ipv4_new 10 88 7 2) 0) = Some "10.88.7.3".
Proof.
  rewrite (infer_gateway_prefix_zero (ipv4_new 10 88 7 2)); [reflexivity|].
  split; vm_compute; done.
Defined.

Lemma guest_net_params_cidr ip pfx :
  in_range 32 ip -> in_range 8 pfx -> guest_net_params (show_cidr ip pfx) = (show_ipv4 ip, pfx).
Proof.
  intros Hip Hp. unfold guest_net_params. rewrite split_cidr by apply Hp. cbn.
  by rewrite parse_pretty; [|unfold in_range in *; lia].
Qed.

(** The address and prefix the netlink code reads from the kernel survive
    the CIDR string: the daemon's split of it yields exactly the printed
    address (which parses to the same address) and the same prefix length. *)
Theorem cidr_roundtrip ip pfx :
  in_range 32 ip -> in_range 8 pfx ->
  guest_net_params (show_cidr ip pfx) = (show_ipv4 ip, pfx) /\
  parse_ipv4 (fst (guest_net_params (show_cidr ip pfx))) = Some ip.
Proof. intros Hip Hp. rewrite guest_net_params_cidr by done. split; [done|]. by apply parse_show_ipv4. 
Qed.

Lemma cidr_roundtrip_witness :
  guest_net_params (show_cidr (ipv4_new 10 224 0 51) 16) = ("10.224.0.51", 16).
Proof.
  destruct (cidr_roundtrip (ipv4_new 10 224 0 51) 16) as [H _];
    [split; vm_compute; done..|]. exact H.
Defined.

(** All pool VMs of one daemon process with a pid of three digits or more
    get one and the same TAP name: only the first three digits of the pid and
    none of the CID survive the eight-byte cut. *)
Theorem pool_tap_names_collide pid cid cid' :
  100 <= pid -> 0 <= cid -> 0 <= cid' ->
  tap_name_of (pool_vm_id pid cid) = tap_name_of (pool_vm_id pid cid').
Proof. intros. by rewrite !tap_name_pool. Qed.

Lemma pool_tap_names_collide_witness :
  pool_vm_id 4242 3 <> pool_vm_id 4242 4 /\
  tap_name_of (pool_vm_id 4242 3) = tap_name_of (pool_vm_id 4242 4) /\
  tap_name_of (pool_vm_id 4242 4) = Ok "tap_pool-424".
Proof.
  split; [vm_compute; discriminate|].
  split; [apply (pool_tap_names_collide 4242 3 4); lia|reflexivity].
Defined.
