(* ===== verification/Bytes.v ===== *)
(** * Byte buffers

    A [Vec<u8>] or [&\[u8\]] is a list of bytes in [0, 256). Integers go in and
    out in native order, little endian on both supported targets (x86_64 and
    aarch64). Indexing and slicing panic out of range, as in Rust. *)

From S2P Require Import Prelude.
Local Open Scope Z_scope.

Abbreviation bytes := (list Z).

(** ** Little-endian integers *)

(** [x.to_ne_bytes()] for an integer of [n] bytes (two's complement for a
    negative [z]). *)
Fixpoint le (n : nat) (z : Z) : bytes :=
  match n with O => [] | S n' => z mod 256 :: le n' (z / 256) end.

Fixpoint of_le (l : bytes) : Z :=
  match l with [] => 0 | b :: l' => b + 256 * of_le l' end.

Definition is_byte (b : Z) : Prop := 0 <= b < 256.

Lemma length_le n z : length (le n z) = n.
Proof. revert z. induction n; intros; simpl; auto. Qed.

Lemma le_bytes_range n z : Forall is_byte (le n z).
Proof.
  revert z. induction n; intros; simpl; constructor; auto. apply Z.mod_pos_bound. lia.
Qed.

Lemma of_le_le n z : of_le (le n z) = z mod 2 ^ (8 * Z.of_nat n).
Proof.
  revert z. induction n as [|n IH]; intros z.
  - simpl. by rewrite Z.mod_1_r.
  - cbn [le of_le]. rewrite IH.
    replace (8 * Z.of_nat (S n)) with (8 + 8 * Z.of_nat n) by lia.
    rewrite Z.pow_add_r, Z.rem_mul_r by lia. change (2 ^ 8) with 256. lia.
Qed.

Lemma of_le_range l : Forall is_byte l -> 0 <= of_le l < 2 ^ (8 * Z.of_nat (length l)).
Proof.
  induction 1 as [|b l Hb _ IH]; [simpl; lia|]. cbn [of_le length].
  replace (8 * Z.of_nat (S (length l))) with (8 + 8 * Z.of_nat (length l)) by lia.
  rewrite Z.pow_add_r by lia. unfold is_byte in Hb. change (2 ^ 8) with 256. lia.
Qed.

Lemma le_of_le l : Forall is_byte l -> le (length l) (of_le l) = l.
Proof.
  induction 1 as [|b l Hb _ IH]; [done|]. cbn [of_le length le]. f_equal.
  - rewrite Z.mul_comm, Z_mod_plus_full. by apply Z.mod_small.
  - rewrite Z.mul_comm, Z.div_add, (Z.div_small b) by (done || lia). exact IH.
Qed.

(** ** Indexing and slicing *)

Definition byte_at (b : bytes) (o : nat) : result Z :=
  match b !! o with Some x => Ok x | None => Panic end.

(** [b[lo..hi]] *)
Definition slice (b : bytes) (lo hi : nat) : result bytes :=
  if (lo <=? hi)%nat && (hi <=? length b)%nat then Ok (take (hi - lo) (drop lo b)) else Panic.

(** [b[o..o + src.len()].copy_from_slice(src)] *)
Definition write_at (o : nat) (src b : bytes) : result bytes :=
  if (o + length src <=? length b)%nat
  then Ok (take o b ++ src ++ drop (o + length src) b) else Panic.

(** [f(&mut b[o..])] *)
Definition at_slice (o : nat) (f : bytes -> result bytes) (b : bytes) : result bytes :=
  if (o <=? length b)%nat then r ← f (drop o b); mret (take o b ++ r) else Panic.

Lemma write_at_length o src b b' : write_at o src b = Ok b' -> length b' = length b.
Proof.
  unfold write_at. destruct (Nat.leb_spec (o + length src) (length b)); [|done].
  intros [= <-]. rewrite !length_app, length_take, length_drop. lia.
Qed.

Lemma lookup_app_off {A} (pre l : list A) k : (pre ++ l) !! (length pre + k)%nat = l !! k.
Proof. rewrite lookup_app_r by lia. f_equal. lia. Qed.

(** ** Alignment: [(n + 3) & !3] *)

Definition align4 (n : nat) : nat := Z.to_nat (Z.land (Z.of_nat n + 3) (Z.lnot 3)).

Lemma align4_spec n : align4 n = ((n + 3) / 4 * 4)%nat.
Proof.
  unfold align4. rewrite <- Z.ldiff_land. change 3 with (Z.ones 2) at 2.
  rewrite Z.ldiff_ones_r by lia.
  rewrite Z.shiftl_mul_pow2, Z.shiftr_div_pow2 by lia. change (2 ^ 2) with 4.
  rewrite <- (Nat2Z.id ((n + 3) / 4 * 4)). f_equal.
  rewrite Nat2Z.inj_mul, Nat2Z.inj_div, Nat2Z.inj_add. reflexivity.
Qed.

Lemma align4_bounds n : (n <= align4 n < n + 4)%nat.
Proof. rewrite align4_spec. pose proof (Nat.div_mod_eq (n + 3) 4). pose proof (Nat.mod_upper_bound (n + 3) 4). lia. Qed.

Lemma align4_0 n : align4 n = 0%nat <-> n = 0%nat.
Proof. pose proof (align4_bounds n). split; [lia|]. intros ->. reflexivity. Qed.
