(* ===== verification/Netlink.v ===== *)
(** * Netlink wire format ([crates/common/src/netlink.rs])

    The helpers at the end of the file ([u16_at] .. [find_ipv4_nla]) and the
    byte layout of every request the [Netlink] methods send. *)

From S2P Require Import Prelude RustStr Bytes NetAddr.
From Stdlib Require Import Ascii.
From Stdlib Require String.
Local Open Scope Z_scope.

(** ** Reading fields *)

Definition u16_at (b : bytes) (o : nat) : result Z :=
  x0 ← byte_at b o; x1 ← byte_at b (o + 1);
  mret (of_le [x0; x1]).

Definition u32_at (b : bytes) (o : nat) : result Z :=
  x0 ← byte_at b o; x1 ← byte_at b (o + 1);
  x2 ← byte_at b (o + 2); x3 ← byte_at b (o + 3);
  mret (of_le [x0; x1; x2; x3]).

Definition i32_at (b : bytes) (o : nat) : result Z :=
  x0 ← byte_at b o; x1 ← byte_at b (o + 1);
  x2 ← byte_at b (o + 2); x3 ← byte_at b (o + 3);
  mret (swrap 32 (of_le [x0; x1; x2; x3])).

(** ** Writing headers and attributes *)

Definition nlhdr (buf : bytes) (len ty flags seq : Z) : result bytes :=
  buf ← write_at 0 (le 4 (wrap 32 len)) buf;
  buf ← write_at 4 (le 2 ty) buf;
  buf ← write_at 6 (le 2 flags) buf;
  write_at 8 (le 4 seq) buf.

Definition put_nla (ty payload_len : Z) (buf : bytes) : result bytes :=
  buf ← write_at 0 (le 2 (wrap 16 (4 + payload_len))) buf;
  write_at 2 (le 2 ty) buf.

Definition pad4 (b : bytes) : bytes := b ++ replicate (align4 (length b) - length b) 0.

Definition push_nla_str (buf : bytes) (ty : Z) (s : string) : bytes :=
  let p := bytes_of s in
  let len := 4 + Z.of_nat (length p) + 1 in
  pad4 (buf ++ le 2 (wrap 16 len) ++ le 2 ty ++ p ++ [0]).

Definition close_nested (buf : bytes) (start : nat) (ty : Z) : result bytes :=
  if (start <=? length buf)%nat then
    let len := Z.of_nat (length buf - start) in
    buf ← write_at start (le 2 (wrap 16 len)) buf;
    write_at (start + 2) (le 2 (Z.lor ty 32768)) buf
  else Panic.

(** ** Attribute walks *)

(** [find_ipv4_nla]: the loop at offset [off]; an iteration moves [off] by at
    least four bytes. *)
Fixpoint find_ipv4_go (fuel : nat) (data : bytes) (target : Z) (off : nat)
    : result (option Z) :=
  match fuel with
  | O => Hang
  | S fuel' =>
      if (off + 4 <=? length data)%nat then
        len ← u16_at data off;
        ty ← u16_at data (off + 2);
        if (len <? 4) || (length data <? off + Z.to_nat len)%nat then mret None
        else
          let next := find_ipv4_go fuel' data target (off + align4 (Z.to_nat len)) in
          if (ty =? target) && (8 <=? len) then
            p ← slice data (off + 4) (length data);
            match p with
            | p0 :: p1 :: p2 :: p3 :: _ => mret (Some (ipv4_new p0 p1 p2 p3))
            | _ => next
            end
          else next
      else mret None
  end.

Definition find_ipv4_nla (data : bytes) (target : Z) : result (option Z) :=
  find_ipv4_go (S (length data)) data target 0.

(** [String::from_utf8_lossy]: every maximal invalid sequence becomes U+FFFD. *)
Definition cont_in (lo hi : Z) (l : bytes) : bool :=
  match l with b :: _ => (lo <=? b) && (b <=? hi) | [] => false end.

(** Length of the valid char at the front, or the length of the invalid prefix. *)
Definition utf8_char (l : bytes) : nat * bool :=
  match l with
  | [] => (0%nat, true)
  | b :: r =>
      if b <? 128 then (1%nat, true)
      else if (194 <=? b) && (b <=? 223) then
        if cont_in 128 191 r then (2%nat, true) else (1%nat, false)
      else if (224 <=? b) && (b <=? 239) then
        let lo := if b =? 224 then 160 else 128 in
        let hi := if b =? 237 then 159 else 191 in
        if cont_in lo hi r then
          if cont_in 128 191 (drop 1 r) then (3%nat, true) else (2%nat, false)
        else (1%nat, false)
      else if (240 <=? b) && (b <=? 244) then
        let lo := if b =? 240 then 144 else 128 in
        let hi := if b =? 244 then 143 else 191 in
        if cont_in lo hi r then
          if cont_in 128 191 (drop 1 r) then
            if cont_in 128 191 (drop 2 r) then (4%nat, true) else (3%nat, false)
          else (2%nat, false)
        else (1%nat, false)
      else (1%nat, false)
  end.

Fixpoint utf8_lossy_go (fuel : nat) (l : bytes) : bytes :=
  match fuel, l with
  | S fuel', _ :: _ =>
      let '(n, ok) := utf8_char l in
      (if ok then take n l else [239; 191; 189]) ++ utf8_lossy_go fuel' (drop n l)
  | _, _ => []
  end.

Definition from_utf8_lossy (l : bytes) : string :=
  str_of_bytes (utf8_lossy_go (length l) l).

(** [trim_end_matches('\0')] *)
Fixpoint trim_nul (s : string) : string :=
  match s with
  | EmptyString => ""
  | String c s' =>
      match trim_nul s' with
      | EmptyString => if Ascii.eqb c "000" then "" else String c ""
      | t => String c t
      end
  end.

(** [format!("{b:02x}")] *)
Definition hex_digit (d : Z) : ascii := chr (if d <? 10 then 48 + d else 87 + d).
Definition hex2 (b : Z) : string := String (hex_digit (b / 16)) (String (hex_digit (b mod 16)) "").

Fixpoint link_nlas_go (fuel : nat) (data : bytes) (off : nat) (name mac : string)
    : result (string * string) :=
  match fuel with
  | O => Hang
  | S fuel' =>
      if (off + 4 <=? length data)%nat then
        len ← u16_at data off;
        ty ← u16_at data (off + 2);
        if (len <? 4) || (length data <? off + Z.to_nat len)%nat then mret (name, mac)
        else
          p ← slice data (off + 4) (off + Z.to_nat len);
          let name' := if ty =? 3 then trim_nul (from_utf8_lossy p) else name in
          let mac' := if (ty =? 1) && (length p =? 6)%nat
                      then join ":" (map hex2 p) else mac in
          link_nlas_go fuel' data (off + align4 (Z.to_nat len)) name' mac'
      else mret (name, mac)
  end.

Definition parse_link_nlas (data : bytes) : result (string * string) :=
  link_nlas_go (S (length data)) data 0 "" "".

(** The attribute loop inside [flush_routes]: is there an [RTA_OIF] (type 4)
    equal to [ifindex]? It checks [nla_len >= 8] but not that the attribute
    lies within the message, so a truncated one panics. *)
Fixpoint oif_go (fuel : nat) (d : bytes) (ifindex : Z) (off : nat) (found : bool) : result bool :=
  match fuel with
  | O => Hang
  | S fuel' =>
      if (off + 4 <=? length d)%nat then
        nla_len ← u16_at d off;
        if nla_len <? 4 then mret found
        else
          nla_type ← u16_at d (off + 2);
          found ← (if (nla_type =? 4) && (8 <=? nla_len)
                   then oif ← u32_at d (off + 4); mret (if oif =? ifindex then true else found)
                   else mret found);
          oif_go fuel' d ifindex (off + align4 (Z.to_nat nla_len)) found
      else mret found
  end.

Definition route_has_oif (d : bytes) (ifindex : Z) : result bool :=
  oif_go (S (length d)) d ifindex 0 false.

(** ** The requests *)

Definition AF_INET : Z := 2.
Definition AF_UNSPEC : Z := 0.
Definition IFF_UP : Z := 1.
Definition zeros (n : nat) : bytes := replicate n 0.
Definition put_byte (o : nat) (v : Z) : bytes -> result bytes := write_at o [v].

Definition get_link_index_msg (name : string) (seq : Z) : result bytes :=
  let nb := bytes_of name in
  let attr := (4 + length nb + 1)%nat in
  let total := (16 + 16 + align4 attr)%nat in
  m ← nlhdr (zeros total) (Z.of_nat total) 18 5 seq;
  m ← at_slice 32 (put_nla 3 (Z.of_nat (length nb) + 1)) m;
  write_at 36 nb m.

Definition set_link_netns_msg (idx netns_fd seq : Z) : result bytes :=
  m ← nlhdr (zeros 40) 40 16 5 seq;
  m ← write_at 20 (le 4 (swrap 32 idx)) m;
  m ← at_slice 32 (put_nla 28 4) m;
  write_at 36 (le 4 netns_fd) m.

Definition set_link_up_msg (idx seq : Z) : result bytes :=
  m ← nlhdr (zeros 32) 32 16 5 seq;
  m ← write_at 20 (le 4 (swrap 32 idx)) m;
  m ← write_at 24 (le 4 IFF_UP) m;
  write_at 28 (le 4 IFF_UP) m.

Definition del_link_msg (idx seq : Z) : result bytes :=
  m ← nlhdr (zeros 32) 32 17 5 seq;
  write_at 20 (le 4 (swrap 32 idx)) m.

(** Dump requests: links (18), addresses (22), routes (26). *)
Definition dump_links_msg (seq : Z) : result bytes := nlhdr (zeros 32) 32 18 769 seq.
Definition dump_addrs_msg (seq : Z) : result bytes :=
  m ← nlhdr (zeros 24) 24 22 769 seq; put_byte 16 AF_INET m.
Definition dump_routes_msg (seq : Z) : result bytes :=
  m ← nlhdr (zeros 28) 28 26 769 seq; put_byte 16 AF_INET m.

Definition ingress_msg (ty flags ifindex seq : Z) : result bytes :=
  let kind := bytes_of "ingress" ++ [0] in
  let attr_len := align4 (4 + length kind) in
  let total := (16 + 20 + attr_len)%nat in
  m ← nlhdr (zeros total) (Z.of_nat total) ty flags seq;
  m ← put_byte 16 AF_UNSPEC m;
  m ← write_at 20 (le 4 (swrap 32 ifindex)) m;
  m ← write_at 24 (le 4 4294901760) m;
  m ← write_at 28 (le 4 4294967281) m;
  m ← at_slice 36 (put_nla 1 (Z.of_nat (length kind))) m;
  write_at 40 kind m.

Definition add_ingress_qdisc_msg (ifindex seq : Z) : result bytes := ingress_msg 36 1541 ifindex seq.
Definition del_ingress_qdisc_msg (ifindex seq : Z) : result bytes := ingress_msg 37 5 ifindex seq.

(** Patch length and type of an attribute opened at [start] (no nested flag). *)
Definition close_plain (b : bytes) (start : nat) (ty : Z) : result bytes :=
  let len := Z.of_nat (length b - start) in
  b ← write_at start (le 2 (wrap 16 len)) b;
  write_at (start + 2) (le 2 ty) b.

Definition add_redirect_filter_msg (src_idx dst_idx seq : Z) : result bytes :=
  let b := zeros 16 in
  let b := b ++ [AF_UNSPEC] ++ zeros 3 ++ le 4 (swrap 32 src_idx) ++ le 4 0
             ++ le 4 4294901760 in
  let tcm_info := 768 in
  let b := b ++ le 4 tcm_info in
  let b := push_nla_str b 1 "u32" in
  let opts := length b in
  let b := b ++ zeros 4 in
  let act := length b in
  let b := b ++ zeros 4 in
  let tab := length b in
  let b := b ++ zeros 4 in
  let b := push_nla_str b 1 "mirred" in
  let ao := length b in
  let b := b ++ zeros 4 in
  let b := b ++ le 2 32 ++ le 2 2 ++ le 4 0 ++ le 4 0 ++ le 4 4 ++ le 4 0 ++ le 4 0
             ++ le 4 1 ++ le 4 dst_idx in
  b ← close_nested b ao 2;
  b ← close_plain b tab 1;
  b ← close_plain b act 7;
  let sel := length b in
  let b := b ++ zeros 4 in
  sel_hdr ← write_at 0 [1] (zeros 16);
  sel_hdr ← write_at 2 [1] sel_hdr;
  let b := b ++ sel_hdr in
  let b := b ++ zeros 16 in
  b ← close_plain b sel 5;
  b ← close_plain b opts 2;
  nlhdr b (Z.of_nat (length b)) 44 1541 seq.

Definition add_address_msg (ifindex ip prefix_len seq : Z) : result bytes :=
  let total := 40%nat in
  m ← nlhdr (zeros total) (Z.of_nat total) 20 1541 seq;
  m ← put_byte 16 AF_INET m;
  m ← put_byte 17 prefix_len m;
  m ← put_byte 18 0 m;
  m ← put_byte 19 0 m;
  m ← write_at 20 (le 4 ifindex) m;
  m ← at_slice 24 (put_nla 2 4) m;
  m ← write_at 28 (octets ip) m;
  m ← at_slice 32 (put_nla 1 4) m;
  write_at 36 (octets ip) m.

Definition add_default_route_msg (gateway ifindex seq : Z) : result bytes :=
  let total := 44%nat in
  m ← nlhdr (zeros total) (Z.of_nat total) 24 1285 seq;
  m ← put_byte 16 AF_INET m;
  m ← put_byte 17 0 m;
  m ← put_byte 18 0 m;
  m ← put_byte 19 0 m;
  m ← put_byte 20 254 m;
  m ← put_byte 21 3 m;
  m ← put_byte 22 0 m;
  m ← put_byte 23 1 m;
  m ← write_at 24 (le 4 4) m;
  m ← at_slice 28 (put_nla 5 4) m;
  m ← write_at 32 (octets gateway) m;
  m ← at_slice 36 (put_nla 4 4) m;
  write_at 40 (le 4 ifindex) m.

(** ** Reference layout *)

(** A netlink attribute: length, type, payload, zero padding to four bytes. *)
Definition nla (ty : Z) (p : bytes) : bytes :=
  le 2 (4 + Z.of_nat (length p)) ++ le 2 ty ++ p ++ zeros (align4 (length p) - length p).

Definition nlas (l : list (Z * bytes)) : bytes := concat (map (fun a => nla a.1 a.2) l).

(** A netlink message: length, type, flags, sequence, port 0, body. *)
Definition nlmsg (ty flags seq : Z) (body : bytes) : bytes :=
  le 4 (16 + Z.of_nat (length body)) ++ le 2 ty ++ le 2 flags ++ le 4 seq ++ zeros 4 ++ body.

Definition wf_attr (a : Z * bytes) : Prop :=
  in_range 16 a.1 /\ 4 + Z.of_nat (length a.2) < 2 ^ 16.

Lemma align4_add4 n : align4 (4 + n) = (4 + align4 n)%nat.
Proof.
  rewrite !align4_spec. replace (4 + n + 3)%nat with (1 * 4 + (n + 3))%nat by lia.
  rewrite Nat.div_add_l by lia. lia.
Qed.

Lemma length_nla ty p : length (nla ty p) = align4 (4 + length p).
Proof.
  unfold nla. rewrite !length_app, !length_le. unfold zeros. rewrite length_replicate, align4_add4.
  pose proof (align4_bounds (length p)). lia.
Qed.

Lemma le2_lookup pre v rest :
  (pre ++ le 2 v ++ rest) !! length pre = Some (v mod 256) /\
  (pre ++ le 2 v ++ rest) !! (length pre + 1)%nat = Some (v / 256 mod 256).
Proof.
  split.
  - rewrite <- (Nat.add_0_r (length pre)), lookup_app_off. reflexivity.
  - rewrite lookup_app_off. reflexivity.
Qed.

Lemma u16_at_le pre v rest : u16_at (pre ++ le 2 v ++ rest) (length pre) = Ok (v mod 2 ^ 16).
Proof.
  unfold u16_at, byte_at. destruct (le2_lookup pre v rest) as [-> ->].
  change (Ok (of_le (le 2 v)) = Ok (v mod 2 ^ 16)). by rewrite of_le_le.
Qed.

Lemma u32_at_le pre v rest : u32_at (pre ++ le 4 v ++ rest) (length pre) = Ok (v mod 2 ^ 32).
Proof.
  unfold u32_at, byte_at.
  rewrite <- (Nat.add_0_r (length pre)) at 1. rewrite !lookup_app_off.
  change (Ok (of_le (le 4 v)) = Ok (v mod 2 ^ 32)). by rewrite of_le_le.
Qed.

Lemma u16_at_off pre data k : u16_at (pre ++ data) (length pre + k) = u16_at data k.
Proof. unfold u16_at, byte_at. rewrite <- !Nat.add_assoc, !lookup_app_off. reflexivity. Qed.

(** ** Walking a well-formed attribute list *)

Section Walk.
Context (pre : bytes) (ty : Z) (p rest : bytes).
Hypothesis Hwf : wf_attr (ty, p).
Let data := pre ++ nla ty p ++ rest.
Let off := length pre.
Let len := 4 + Z.of_nat (length p).

Lemma walk_len : u16_at data off = Ok len.
Proof.
  unfold data, off, nla. rewrite <- !app_assoc, u16_at_le.
  f_equal. apply Z.mod_small. destruct Hwf as [_ H]. simpl in H. lia.
Qed.

Lemma walk_ty : u16_at data (off + 2) = Ok ty.
Proof.
  unfold data, off, nla. rewrite u16_at_off, <- !app_assoc.
  pose proof (u16_at_le (le 2 (4 + Z.of_nat (length p))) ty) as H. rewrite length_le in H.
  rewrite H. f_equal. apply Z.mod_small. apply Hwf.
Qed.

Lemma walk_data : drop (off + 4) data = p ++ zeros (align4 (length p) - length p) ++ rest.
Proof.
  unfold data, off, nla. rewrite <- drop_drop, drop_app_length, <- !app_assoc. reflexivity.
Qed.

Lemma walk_bounds : (off + Z.to_nat len <= length data)%nat /\ (off + 4 <= off + Z.to_nat len)%nat
  /\ (off + align4 (Z.to_nat len) = length (pre ++ nla ty p))%nat.
Proof.
  unfold data, off, len. rewrite !length_app, length_nla.
  replace (Z.to_nat (4 + Z.of_nat (length p))) with (4 + length p)%nat by lia.
  pose proof (align4_bounds (4 + length p)). lia.
Qed.

Lemma walk_slice : slice data (off + 4) (off + Z.to_nat len) = Ok p.
Proof.
  pose proof walk_bounds as (H1 & H2 & _). unfold slice.
  rewrite (proj2 (Nat.leb_le _ _) H1), (proj2 (Nat.leb_le _ _) H2). simpl. f_equal.
  rewrite walk_data. apply take_app_exact. unfold len. lia.
Qed.

Lemma walk_tail : slice data (off + 4) (length data)
  = Ok (p ++ zeros (align4 (length p) - length p) ++ rest).
Proof.
  pose proof walk_bounds as (H1 & H2 & _). unfold slice.
  rewrite (proj2 (Nat.leb_le (off + 4) (length data))) by lia.
  rewrite Nat.leb_refl. simpl. f_equal. rewrite <- walk_data.
  apply take_ge. rewrite length_drop. lia.
Qed.

Lemma walk_guard : (off + 4 <=? length data)%nat = true /\
  ((len <? 4) || (length data <? off + Z.to_nat len)%nat) = false.
Proof.
  pose proof walk_bounds as (H1 & H2 & _). split; [apply Nat.leb_le; lia|].
  apply orb_false_iff. split; [apply Z.ltb_ge; unfold len; lia|apply Nat.ltb_ge; lia].
Qed.
End Walk.

(** First attribute of type [t] with at least four payload bytes. *)
Fixpoint find_ipv4_ref (l : list (Z * bytes)) (t : Z) : option Z :=
  match l with
  | [] => None
  | (ty, p) :: l' =>
      if ty =? t then
        match p with
        | a :: b :: c :: d :: _ => Some (ipv4_new a b c d)
        | _ => find_ipv4_ref l' t
        end
      else find_ipv4_ref l' t
  end.

Lemma nlas_cons ty p l : nlas ((ty, p) :: l) = nla ty p ++ nlas l.
Proof. reflexivity. Qed.

Lemma find_ipv4_go_nlas l t pre fuel :
  Forall wf_attr l -> (length l < fuel)%nat ->
  find_ipv4_go fuel (pre ++ nlas l) t (length pre) = Ok (find_ipv4_ref l t).
Proof.
  intros Hl. revert pre fuel. induction Hl as [|[ty p] l Hwf _ IH]; intros pre fuel Hf.
  - destruct fuel as [|fuel]; [simpl in Hf; lia|]. cbn [find_ipv4_go nlas concat map].
    rewrite app_nil_r. rewrite (proj2 (Nat.leb_gt _ _)) by lia. reflexivity.
  - destruct fuel as [|fuel]; [simpl in Hf; lia|]. rewrite nlas_cons.
    cbn [find_ipv4_go]. rewrite (walk_len pre ty p (nlas l) Hwf), (walk_ty pre ty p (nlas l) Hwf).
    destruct (walk_guard pre ty p (nlas l)) as [-> Hg].
    cbn [mbind result_bind]. rewrite Hg.
    destruct (walk_bounds pre ty p (nlas l)) as (_ & _ & ->).
    rewrite app_assoc, IH by (simpl in Hf; lia). rewrite <- app_assoc.
    rewrite (walk_tail pre ty p (nlas l)). cbn [find_ipv4_ref].
    destruct (ty =? t) eqn:Ety; [|reflexivity].
    destruct p as [|a [|b [|c [|d p]]]]; cbn [andb length]; try reflexivity.
    rewrite (proj2 (Z.leb_le _ _)) by lia. reflexivity.
Qed.

Lemma length_nlas l : (length l <= length (nlas l))%nat.
Proof.
  induction l as [|[ty p] l IH]; [done|]. rewrite nlas_cons, length_app, length_nla. cbn [length].
  pose proof (align4_bounds (4 + length p)). lia.
Qed.

Lemma find_ipv4_nlas l t : Forall wf_attr l -> find_ipv4_nla (nlas l) t = Ok (find_ipv4_ref l t).
Proof.
  intros Hl. apply (find_ipv4_go_nlas l t []); [done|]. pose proof (length_nlas l). simpl. lia.
Qed.

(** Name and MAC of the last attributes that carry them. *)
Fixpoint link_ref (l : list (Z * bytes)) (name mac : string) : string * string :=
  match l with
  | [] => (name, mac)
  | (ty, p) :: l' =>
      link_ref l' (if ty =? 3 then trim_nul (from_utf8_lossy p) else name)
        (if (ty =? 1) && (length p =? 6)%nat then join ":" (map hex2 p) else mac)
  end.

Lemma link_nlas_go_nlas l pre fuel name mac :
  Forall wf_attr l -> (length l < fuel)%nat ->
  link_nlas_go fuel (pre ++ nlas l) (length pre) name mac = Ok (link_ref l name mac).
Proof.
  intros Hl. revert pre fuel name mac.
  induction Hl as [|[ty p] l Hwf _ IH]; intros pre fuel name mac Hf.
  - destruct fuel as [|fuel]; [simpl in Hf; lia|]. cbn [link_nlas_go nlas concat map].
    rewrite app_nil_r. rewrite (proj2 (Nat.leb_gt _ _)) by lia. reflexivity.
  - destruct fuel as [|fuel]; [simpl in Hf; lia|]. rewrite nlas_cons.
    cbn [link_nlas_go]. rewrite (walk_len pre ty p (nlas l) Hwf), (walk_ty pre ty p (nlas l) Hwf).
    destruct (walk_guard pre ty p (nlas l)) as [-> Hg].
    cbn [mbind result_bind]. rewrite Hg, (walk_slice pre ty p (nlas l)).
    destruct (walk_bounds pre ty p (nlas l)) as (_ & _ & ->).
    cbn [mbind result_bind]. rewrite app_assoc, IH by (simpl in Hf; lia). reflexivity.
Qed.

Lemma parse_link_nlas_ref l : Forall wf_attr l -> parse_link_nlas (nlas l) = Ok (link_ref l "" "").
Proof.
  intros Hl. apply (link_nlas_go_nlas l []); [done|]. pose proof (length_nlas l). simpl. lia.
Qed.

(** ** Arbitrary input: the walks return *)

Lemma byte_at_ok b o : (o < length b)%nat -> exists x, byte_at b o = Ok x /\ b !! o = Some x.
Proof.
  intros H. unfold byte_at. destruct (b !! o) eqn:E; [eauto|].
  apply lookup_ge_None in E. lia.
Qed.

Lemma u16_at_ok b o : Forall is_byte b -> (o + 2 <= length b)%nat ->
  exists v, u16_at b o = Ok v /\ in_range 16 v.
Proof.
  intros Hb Ho. unfold u16_at.
  destruct (byte_at_ok b o) as (x & -> & Hx); [lia|].
  destruct (byte_at_ok b (o + 1)) as (y & -> & Hy); [lia|].
  eexists. split; [reflexivity|]. apply (of_le_range [x; y]).
  repeat (apply Forall_cons_2; [eapply (Forall_lookup_1 is_byte); eauto|]). constructor.
Qed.

Lemma u32_at_ok b o : Forall is_byte b -> (o + 4 <= length b)%nat ->
  exists v, u32_at b o = Ok v /\ in_range 32 v.
Proof.
  intros Hb Ho. unfold u32_at.
  destruct (byte_at_ok b o) as (x & -> & Hx); [lia|].
  destruct (byte_at_ok b (o + 1)) as (y & -> & Hy); [lia|].
  destruct (byte_at_ok b (o + 2)) as (z & -> & Hz); [lia|].
  destruct (byte_at_ok b (o + 3)) as (w & -> & Hw); [lia|].
  eexists. split; [reflexivity|]. apply (of_le_range [x; y; z; w]).
  repeat (apply Forall_cons_2; [eapply (Forall_lookup_1 is_byte); eauto|]). constructor.
Qed.

Lemma slice_ok b lo hi : (lo <= hi <= length b)%nat ->
  slice b lo hi = Ok (take (hi - lo) (drop lo b)).
Proof.
  intros H. unfold slice. rewrite !(proj2 (Nat.leb_le _ _)) by lia. reflexivity.
Qed.

Lemma find_ipv4_go_total data t fuel off :
  Forall is_byte data -> (length data - off < fuel)%nat ->
  exists o, find_ipv4_go fuel data t off = Ok o.
Proof.
  intros Hb. revert off. induction fuel as [|fuel IH]; intros off Hf; [lia|].
  cbn [find_ipv4_go]. destruct (Nat.leb_spec (off + 4) (length data)); [|by eexists].
  destruct (u16_at_ok data off) as (len & -> & Hlen); [done|lia|].
  destruct (u16_at_ok data (off + 2)) as (ty & -> & _); [done|lia|].
  cbn [mbind result_bind].
  destruct ((len <? 4) || _) eqn:Hg; [by eexists|].
  apply orb_false_iff in Hg as [Hg1%Z.ltb_ge Hg2%Nat.ltb_ge].
  destruct (IH (off + align4 (Z.to_nat len))%nat) as [o Ho].
  { pose proof (align4_bounds (Z.to_nat len)). lia. }
  rewrite Ho. case_match; [|by eexists].
  rewrite slice_ok by lia. cbn [mbind result_bind].
  repeat case_match; by eexists.
Qed.

Lemma link_nlas_go_total data fuel off name mac :
  Forall is_byte data -> (length data - off < fuel)%nat ->
  exists o, link_nlas_go fuel data off name mac = Ok o.
Proof.
  intros Hb. revert off name mac. induction fuel as [|fuel IH]; intros off name mac Hf; [lia|].
  cbn [link_nlas_go]. destruct (Nat.leb_spec (off + 4) (length data)); [|by eexists].
  destruct (u16_at_ok data off) as (len & -> & Hlen); [done|lia|].
  destruct (u16_at_ok data (off + 2)) as (ty & -> & _); [done|lia|].
  cbn [mbind result_bind].
  destruct ((len <? 4) || _) eqn:Hg; [by eexists|].
  apply orb_false_iff in Hg as [Hg1%Z.ltb_ge Hg2%Nat.ltb_ge].
  rewrite slice_ok by lia. cbn [mbind result_bind].
  apply IH. pose proof (align4_bounds (Z.to_nat len)). lia.
Qed.

(** Does the list hold an [RTA_OIF] equal to [i]? *)
Definition oif_ref (l : list (Z * bytes)) (i : Z) : bool :=
  existsb (fun a => (a.1 =? 4) && (4 <=? length a.2)%nat && (of_le (take 4 a.2) =? i)) l.

Lemma u32_at_split data o a b c d rest :
  drop o data = a :: b :: c :: d :: rest -> u32_at data o = Ok (of_le [a; b; c; d]).
Proof.
  intros H. unfold u32_at, byte_at.
  assert (Hk : forall k, data !! (o + k)%nat = (a :: b :: c :: d :: rest) !! k).
  { intros k. rewrite <- H, lookup_drop. reflexivity. }
  rewrite <- (Nat.add_0_r o) at 1. rewrite !Hk. reflexivity.
Qed.

Lemma oif_go_nlas l i pre fuel found :
  Forall wf_attr l -> (length l < fuel)%nat ->
  oif_go fuel (pre ++ nlas l) i (length pre) found = Ok (found || oif_ref l i).
Proof.
  intros Hl. revert pre fuel found.
  induction Hl as [|[ty p] l Hwf _ IH]; intros pre fuel found Hf.
  - destruct fuel as [|fuel]; [simpl in Hf; lia|]. cbn [oif_go nlas concat map].
    rewrite app_nil_r, orb_false_r. rewrite (proj2 (Nat.leb_gt _ _)) by lia. reflexivity.
  - destruct fuel as [|fuel]; [simpl in Hf; lia|]. rewrite nlas_cons.
    cbn [oif_go]. rewrite (walk_len pre ty p (nlas l) Hwf), (walk_ty pre ty p (nlas l) Hwf).
    destruct (walk_guard pre ty p (nlas l)) as [-> [Hg1 _]%orb_false_iff].
    cbn [mbind result_bind]. rewrite Hg1.
    destruct (walk_bounds pre ty p (nlas l)) as (_ & _ & ->).
    pose proof (walk_data pre ty p (nlas l)) as Hd.
    rewrite app_assoc in *. cbn [oif_ref existsb fst snd].
    destruct (ty =? 4) eqn:Ety; cbn [andb mbind result_bind mret result_ret];
      [|rewrite IH by (simpl in Hf; lia); reflexivity].
    destruct p as [|a [|b [|c [|d p]]]];
      try (rewrite (proj2 (Z.leb_gt 8 _)) by (cbn [length]; lia);
           cbn [mbind result_bind mret result_ret]; rewrite IH by (simpl in Hf; lia); reflexivity).
    rewrite (proj2 (Z.leb_le _ _)) by (cbn [length]; lia).
    rewrite (u32_at_split _ _ _ _ _ _ _ Hd).
    cbn [mbind result_bind mret result_ret]. rewrite IH by (simpl in Hf; lia).
    f_equal. change (take 4 (a :: b :: c :: d :: p)) with (a :: b :: c :: d :: take 0 p).
    rewrite take_0. fold (oif_ref l i). cbn [length Nat.leb andb].
    by destruct (of_le [a; b; c; d] =? i), found.
Qed.

Lemma route_has_oif_ref l i : Forall wf_attr l -> route_has_oif (nlas l) i = Ok (oif_ref l i).
Proof.
  intros Hl. apply (oif_go_nlas l i []); [done|]. pose proof (length_nlas l). simpl. lia.
Qed.

(** ** Layout of the requests *)

Lemma le_mod_ext n z z' :
  z mod 2 ^ (8 * Z.of_nat n) = z' mod 2 ^ (8 * Z.of_nat n) -> le n z = le n z'.
Proof.
  intros H. pose proof (le_of_le (le n z) (le_bytes_range n z)) as E.
  pose proof (le_of_le (le n z') (le_bytes_range n z')) as E'.
  rewrite length_le, of_le_le in *. congruence.
Qed.

Lemma le4_swrap z : le 4 (swrap 32 z) = le 4 z.
Proof.
  apply le_mod_ext. unfold swrap. change (8 * Z.of_nat 4) with 32.
  case_match; [by rewrite Z.mod_mod|].
  rewrite Zminus_mod, Z.mod_same, Z.sub_0_r, !Z.mod_mod by done. done.
Qed.

Lemma write_at_mid pre old src post :
  length old = length src ->
  write_at (length pre) src (pre ++ old ++ post) = Ok (pre ++ src ++ post).
Proof.
  intros H. unfold write_at. rewrite (proj2 (Nat.leb_le _ _)) by (rewrite !length_app; lia).
  rewrite take_app_length. do 3 f_equal. rewrite <- drop_drop, drop_app_length.
  by apply drop_app_exact.
Qed.

Lemma le_wrap n z : le n (wrap (8 * Z.of_nat n) z) = le n z.
Proof. apply le_mod_ext. unfold wrap. rewrite Z.mod_mod; [done|]. apply Z.pow_nonzero; lia. Qed.

(** The link query after its header, and after its attribute header. *)
Lemma link_query_header k len seq nl :
  (m ← nlhdr (zeros (16 + 16 + (4 + k))) len 18 5 seq; at_slice 32 (put_nla 3 nl) m) =
  Ok (le 4 (wrap 32 len) ++ le 2 18 ++ le 2 5 ++ le 4 seq ++ zeros 4 ++ zeros 16 ++
      le 2 (wrap 16 (4 + nl)) ++ le 2 3 ++ zeros k).
Proof. reflexivity. Qed.

Lemma write_at_zeros pre src k : (length src <= k)%nat ->
  write_at (length pre) src (pre ++ zeros k) = Ok (pre ++ src ++ zeros (k - length src)).
Proof.
  intros H. replace (zeros k) with (zeros (length src) ++ zeros (k - length src)).
  - apply write_at_mid. apply length_replicate.
  - unfold zeros. rewrite <- replicate_add. f_equal. lia.
Qed.

Lemma link_query_name a b c d g h k nb : (length nb <= k)%nat ->
  write_at 36 nb (le 4 a ++ le 2 b ++ le 2 c ++ le 4 d ++ zeros 4 ++ zeros 16 ++
                  le 2 g ++ le 2 h ++ zeros k) =
  Ok (le 4 a ++ le 2 b ++ le 2 c ++ le 4 d ++ zeros 4 ++ zeros 16 ++ le 2 g ++ le 2 h ++
      nb ++ zeros (k - length nb)).
Proof.
  exact (write_at_zeros (le 4 a ++ le 2 b ++ le 2 c ++ le 4 d ++ zeros 4 ++ zeros 16 ++
                         le 2 g ++ le 2 h) nb k).
Qed.

Lemma wf_octets t ip : in_range 16 t -> wf_attr (t, octets ip).
Proof. intros. split; [done|]. vm_compute. done. Qed.

Lemma wf_le4 t v : in_range 16 t -> wf_attr (t, le 4 v).
Proof. intros. split; [done|]. cbn [snd]. rewrite length_le. vm_compute. done. Qed.

Lemma add_address_layout ifindex ip prefix_len seq :
  add_address_msg ifindex ip prefix_len seq =
  Ok (nlmsg 20 1541 seq ([AF_INET; prefix_len; 0; 0] ++ le 4 ifindex ++
        nlas [(2, octets ip); (1, octets ip)])).
Proof. reflexivity. Qed.

Lemma add_default_route_layout gateway ifindex seq :
  add_default_route_msg gateway ifindex seq =
  Ok (nlmsg 24 1285 seq ([AF_INET; 0; 0; 0; 254; 3; 0; 1] ++ le 4 4 ++
        nlas [(5, octets gateway); (4, le 4 ifindex)])).
Proof. reflexivity. Qed.

(** The action and selector a redirect filter carries. *)
Definition mirred_parms (dst : Z) : bytes :=
  le 4 0 ++ le 4 0 ++ le 4 4 ++ le 4 0 ++ le 4 0 ++ le 4 1 ++ le 4 dst.
Definition u32_sel : bytes := [1; 0; 1; 0] ++ zeros 28.
Definition redirect_options (dst : Z) : bytes :=
  nlas [(7, nlas [(1, nlas [(1, bytes_of "mirred" ++ [0]);
                            (Z.lor 2 32768, nlas [(2, mirred_parms dst)])])]);
        (5, u32_sel)].

(** ** Properties *)

(** C37: the redirect filter request, built by patching lengths into a growing
    buffer, is for every pair of interfaces the properly nested message: a
    [u32] classifier on the ingress qdisc of [src] whose single action is a
    [mirred] egress redirect to [dst], with every length field equal to the
    bytes it covers. *)
Theorem redirect_filter_layout src dst seq :
  add_redirect_filter_msg src dst seq =
  Ok (nlmsg 44 1541 seq
        (zeros 4 ++ le 4 (swrap 32 src) ++ le 4 0 ++ le 4 4294901760 ++ le 4 768 ++
         nlas [(1, bytes_of "u32" ++ [0]); (2, redirect_options dst)])).
Proof. reflexivity. Qed.

(** For every interface name, the link query is one netlink message whose
    length field is its own size and whose only attribute is [IFLA_IFNAME]
    with the NUL-terminated name; the buffer writes never go out of range. *)
Theorem get_link_index_layout name seq :
  get_link_index_msg name seq =
  Ok (nlmsg 18 5 seq (zeros 16 ++ nlas [(3, bytes_of name ++ [0])])).
Proof.
  unfold get_link_index_msg. set (nb := bytes_of name).
  replace (4 + length nb + 1)%nat with (4 + (length nb + 1))%nat by lia.
  rewrite align4_add4. pose proof (align4_bounds (length nb + 1)) as Hk.
  set (k := align4 (length nb + 1)) in *.
  transitivity (m ← (m ← nlhdr (zeros (16 + 16 + (4 + k))) (Z.of_nat (16 + 16 + (4 + k))) 18 5 seq;
                     at_slice 32 (put_nla 3 (Z.of_nat (length nb) + 1)) m); write_at 36 nb m);
    [reflexivity|].
  rewrite link_query_header. cbn [mbind result_bind].
  rewrite link_query_name by lia. f_equal.
  rewrite !(le_wrap 4), !(le_wrap 2). unfold nlmsg, nlas, nla.
  cbn [map concat fst snd]. rewrite app_nil_r, !length_app.
  change (length [0]) with 1%nat. fold k. rewrite <- !app_assoc.
  replace (k - length nb)%nat with (1 + (k - (length nb + 1)))%nat by lia.
  rewrite !length_le. unfold zeros. rewrite !length_replicate.
  f_equal; [f_equal; lia|].
  replace (4 + Z.of_nat (length nb + 1)) with (4 + (Z.of_nat (length nb) + 1)) by lia.
  reflexivity.
Qed.

Lemma get_link_index_layout_example :
  get_link_index_msg "eth0" 7 =
  Ok [44; 0; 0; 0; 18; 0; 5; 0; 7; 0; 0; 0; 0; 0; 0; 0; 0; 0; 0; 0; 0; 0; 0; 0; 0; 0; 0; 0; 0; 0;
      0; 0; 9; 0; 3; 0; 101; 116; 104; 48; 0; 0; 0; 0].
Proof. reflexivity. Qed.

(** Reading back an address request with the parser used on the kernel's
    replies yields the interface index and the address that were put in, for
    every index, IPv4 address, prefix and sequence number. *)
Theorem add_address_readback ifindex ip prefix_len seq :
  in_range 32 ifindex -> in_range 32 ip ->
  exists m, add_address_msg ifindex ip prefix_len seq = Ok m /\
    u32_at m 20 = Ok ifindex /\
    find_ipv4_nla (drop 24 m) 1 = Ok (Some ip) /\ find_ipv4_nla (drop 24 m) 2 = Ok (Some ip).
Proof.
  intros Hi Hip. rewrite add_address_layout. eexists. split; [reflexivity|].
  pose proof (ipv4_octets ip Hip) as Ho. unfold octets in Ho.
  split_and!.
  - transitivity (u32_at ((le 4 (16 + 24) ++ le 2 20 ++ le 2 1541 ++ le 4 seq ++ zeros 4 ++
      [AF_INET; prefix_len; 0; 0]) ++ le 4 ifindex ++ nlas [(2, octets ip); (1, octets ip)]) 20);
      [reflexivity|].
    pose proof (u32_at_le (le 4 (16 + 24) ++ le 2 20 ++ le 2 1541 ++ le 4 seq ++ zeros 4 ++
      [AF_INET; prefix_len; 0; 0]) ifindex) as H. simpl length in H. rewrite H.
    f_equal. by apply Z.mod_small.
  - transitivity (find_ipv4_nla (nlas [(2, octets ip); (1, octets ip)]) 1); [reflexivity|].
    rewrite find_ipv4_nlas by (repeat apply Forall_cons_2; try apply wf_octets; done).
    cbn -[ipv4_new]. by rewrite Ho.
  - transitivity (find_ipv4_nla (nlas [(2, octets ip); (1, octets ip)]) 2); [reflexivity|].
    rewrite find_ipv4_nlas by (repeat apply Forall_cons_2; try apply wf_octets; done).
    cbn -[ipv4_new]. by rewrite Ho.
Qed.

Lemma add_address_readback_witness :
  exists m, add_address_msg 2 (ipv4_new 10 0 0 5) 24 9 = Ok m /\
    find_ipv4_nla (drop 24 m) 1 = Ok (Some (ipv4_new 10 0 0 5)).
Proof.
  destruct (add_address_readback 2 (ipv4_new 10 0 0 5) 24 9) as (m & H1 & _ & H2 & _);
    [split; vm_compute; done..|]. exists m. split; [exact H1|exact H2].
Defined.

(** A default-route request reads back as a default route ([dst_len] 0)
    with the same gateway, and the route scan of [flush_routes] recognises it as
    belonging to the interface it was built for and to no other. *)
Theorem add_default_route_readback gw ifindex seq other :
  in_range 32 ifindex -> in_range 32 gw ->
  exists m, add_default_route_msg gw ifindex seq = Ok m /\
    byte_at m 17 = Ok 0 /\
    find_ipv4_nla (drop 28 m) 5 = Ok (Some gw) /\
    route_has_oif (drop 28 m) other = Ok (ifindex =? other).
Proof.
  intros Hi Hgw. rewrite add_default_route_layout. eexists. split; [reflexivity|].
  pose proof (ipv4_octets gw Hgw) as Ho. unfold octets in Ho.
  assert (Hwf : Forall wf_attr [(5, octets gw); (4, le 4 ifindex)]).
  { apply Forall_cons_2; [by apply wf_octets|].
    apply Forall_cons_2; [by apply wf_le4|]. constructor. }
  split_and!; [reflexivity|..].
  - transitivity (find_ipv4_nla (nlas [(5, octets gw); (4, le 4 ifindex)]) 5); [reflexivity|].
    rewrite find_ipv4_nlas by done. cbn -[ipv4_new]. by rewrite Ho.
  - transitivity (route_has_oif (nlas [(5, octets gw); (4, le 4 ifindex)]) other); [reflexivity|].
    rewrite route_has_oif_ref by done. f_equal. unfold oif_ref. cbn -[of_le le].
    change (take 4 (le 4 ifindex)) with (le 4 ifindex). rewrite of_le_le, orb_false_r.
    by rewrite Z.mod_small by apply Hi.
Qed.

Lemma add_default_route_readback_witness :
  exists m, add_default_route_msg (ipv4_new 169 254 1 1) 2 9 = Ok m /\
    find_ipv4_nla (drop 28 m) 5 = Ok (Some (ipv4_new 169 254 1 1)).
Proof.
  destruct (add_default_route_readback (ipv4_new 169 254 1 1) 2 9 2) as (m & H1 & _ & H2 & _);
    [split; vm_compute; done..|]. exists m. split; [exact H1|exact H2].
Defined.

(** C38: on any buffer of bytes whatever (truncated, hostile, zero lengths) both
    attribute parsers used on kernel replies come back with a value: no
    out-of-range access, no endless loop, and fuel [length + 1] is enough. *)
Theorem attribute_parsers_total data t :
  Forall is_byte data ->
  (exists nm, parse_link_nlas data = Ok nm) /\ (exists o, find_ipv4_nla data t = Ok o).
Proof.
  intros Hb. split; [apply link_nlas_go_total|apply find_ipv4_go_total]; (done || lia).
Qed.

Lemma attribute_parsers_total_witness :
  Forall is_byte [255; 255; 1] /\ exists nm, parse_link_nlas [255; 255; 1] = Ok nm.
Proof.
  assert (H : Forall is_byte [255; 255; 1]) by (rewrite !Forall_cons; unfold is_byte; split_and!; (lia || done)).
  split; [exact H|]. exact (proj1 (attribute_parsers_total [255; 255; 1] 1 H)).
Defined.

(** The route scan has no such guard: a route message that ends inside an
    [RTA_OIF] attribute makes it panic, whatever the interface. *)
Lemma route_scan_truncated_panics i : route_has_oif [8; 0; 4; 0] i = Panic.
Proof. reflexivity. Qed.
