(* ===== verification/NetlinkOps.v ===== *)
(** * The netlink socket and its operations ([crates/common/src/netlink.rs])

    A [Netlink] is its sequence counter and its socket. The kernel side is the
    list of datagrams (or errors) the next [recv] calls return and the errors of
    the next [send] calls; every message handed to [send] is kept in order.
    A [recv] with no datagram left blocks. *)

From S2P Require Import Prelude RustStr Bytes NetAddr Netlink.
From Stdlib Require Import Ascii.
From Stdlib Require String.
Local Open Scope Z_scope.

(** Which syscall of [Netlink::open] fails, if any. *)
Inductive open_fault := FSocket (e : Z) | FBind (e : Z) | FConnect (e : Z).

Record sock := mkSock {
  sk_seq : Z;                      (* Netlink::seq *)
  sk_sent : list bytes;            (* messages the kernel got, in order *)
  sk_open : list (option open_fault);
  sk_tx : list (option Z);         (* errno of the next sends; none left: success *)
  sk_rx : list (Z + bytes);        (* results of the next recvs *)
}.

Definition nl_open : M sock unit := fun s =>
  match sk_open s with
  | Some (FSocket e) :: o => (Err (Ctx "socket(AF_NETLINK)" (Io e)), mkSock (sk_seq s) (sk_sent s) o (sk_tx s) (sk_rx s))
  | Some (FBind e) :: o => (Err (Ctx "bind(AF_NETLINK)" (Io e)), mkSock (sk_seq s) (sk_sent s) o (sk_tx s) (sk_rx s))
  | Some (FConnect e) :: o => (Err (Ctx "connect(AF_NETLINK)" (Io e)), mkSock (sk_seq s) (sk_sent s) o (sk_tx s) (sk_rx s))
  | None :: o => (Ok tt, mkSock 1 (sk_sent s) o (sk_tx s) (sk_rx s))
  | [] => (Ok tt, mkSock 1 (sk_sent s) [] (sk_tx s) (sk_rx s))
  end.

Definition seq : M sock Z := fun s =>
  (Ok (sk_seq s), mkSock (wrap 32 (sk_seq s + 1)) (sk_sent s) (sk_open s) (sk_tx s) (sk_rx s)).

Definition send (buf : bytes) : M sock unit := fun s =>
  match sk_tx s with
  | Some e :: t => (Err (Ctx "nl send" (Io e)), mkSock (sk_seq s) (sk_sent s) (sk_open s) t (sk_rx s))
  | None :: t => (Ok tt, mkSock (sk_seq s) (sk_sent s ++ [buf]) (sk_open s) t (sk_rx s))
  | [] => (Ok tt, mkSock (sk_seq s) (sk_sent s ++ [buf]) (sk_open s) [] (sk_rx s))
  end.

(** Fill [buf] from the next datagram (cut at the buffer's size); the number
    of bytes and the buffer, whose tail keeps what it held. *)
Definition recv_buf (buf : bytes) : M sock (nat * bytes) := fun s =>
  match sk_rx s with
  | [] => (Hang, s)
  | inl e :: r => (Err (Ctx "nl recv" (Io e)), mkSock (sk_seq s) (sk_sent s) (sk_open s) (sk_tx s) r)
  | inr d :: r =>
      let got := take (length buf) d in
      (Ok (length got, got ++ drop (length got) buf),
       mkSock (sk_seq s) (sk_sent s) (sk_open s) (sk_tx s) r)
  end.

(** The kernel's errno of an [NLMSG_ERROR] at the start of the reply, if any. *)
Definition reply_errno (n : nat) (r : bytes) : result Z :=
  if (20 <=? n)%nat then
    ty ← u16_at r 4;
    if ty =? 2 then i32_at r 16 else mret 0
  else mret 0.

Definition request (buf : bytes) : M sock unit :=
  send buf;;
  '(n, r) ← recv_buf (zeros 4096);
  e ← lift (reply_errno n r);
  if e =? 0 then mret tt
  else fail (Ctx "netlink request" (Io (swrap 32 (- e)))).

(** The inner loop of [dump] over one received buffer; [true] once
    [NLMSG_DONE] was met. Fuel [n + 1] is enough unless an entry has length 0,
    on which the loop never advances. *)
Fixpoint dump_scan (fuel n : nat) (r : bytes) (off : nat) (out : list bytes)
    : result (bool * list bytes) :=
  match fuel with
  | O => Hang
  | S fuel' =>
      if (off + 16 <=? n)%nat then
        len ← u32_at r off;
        ty ← u16_at r (off + 4);
        if ty =? 3 then mret (true, out)
        else
          e ← (if ty =? 2 then i32_at r (off + 16) else mret 0);
          if negb (e =? 0) then Err (MsgIo "nl dump: " (swrap 32 (- e)))
          else
            let l := Z.to_nat len in
            out ← (if (0 <? len) && (off + l <=? n)%nat
                   then m ← slice r off (off + l); mret (out ++ [m])
                   else mret out);
            dump_scan fuel' n r (off + align4 l) out
      else mret (false, out)
  end.

(** One [recv] per remaining datagram until [NLMSG_DONE]. *)
Fixpoint dump_recv (k : nat) (r : bytes) (out : list bytes) : M sock (list bytes) :=
  match k with
  | O => recv_buf r;; lift Hang
  | S k' =>
      '(n, r) ← recv_buf r;
      '(fin, out) ← lift (dump_scan (S n) n r 0 out);
      if fin : bool then mret out else dump_recv k' r out
  end.

Definition dump (buf : bytes) : M sock (list bytes) :=
  send buf;;
  k ← gets (fun s => length (sk_rx s));
  dump_recv k (zeros (Z.to_nat 32768)) [].

(** [build] a message with the next sequence number. *)
Definition with_seq (build : Z -> result bytes) : M sock bytes :=
  s ← seq; lift (build s).

Definition get_link_index (name : string) : M sock Z :=
  m ← with_seq (get_link_index_msg name);
  send m;;
  '(n, r) ← recv_buf (zeros 4096);
  e ← lift (reply_errno n r);
  if negb (e =? 0) then fail (MsgIo ("link " +:+ name +:+ ": ") (swrap 32 (- e)))
  else if (n <? 24)%nat then fail (Msg ("link " +:+ name +:+ " not found"))
  else i ← lift (i32_at r 20); mret (wrap 32 i).

Definition set_link_netns_fd (idx netns_fd : Z) : M sock unit :=
  m ← with_seq (set_link_netns_msg idx netns_fd); request m.

Definition set_link_up (idx : Z) : M sock unit :=
  m ← with_seq (set_link_up_msg idx); request m.

Definition del_link (name : string) : M sock unit :=
  idx ← get_link_index name;
  m ← with_seq (del_link_msg idx); request m.

Definition link := (Z * string * string)%type.

Fixpoint links_of (msgs : list bytes) : result (list link) :=
  match msgs with
  | [] => mret []
  | msg :: rest =>
      if (length msg <? 32)%nat then links_of rest
      else
        ty ← u16_at msg 4;
        if negb (ty =? 16) then links_of rest
        else
          i ← i32_at msg 20;
          '(name, mac) ← parse_link_nlas (drop 32 msg);
          out ← links_of rest;
          mret ((wrap 32 i, name, mac) :: out)
  end.

Definition dump_links : M sock (list link) :=
  m ← with_seq dump_links_msg;
  msgs ← dump m;
  lift (links_of msgs).

(** [str::to_lowercase] on the ASCII letters; a MAC printed by
    [parse_link_nlas] is ASCII, so no other char can make the comparison hold. *)
Definition lower (c : ascii) : ascii :=
  let b := byte_of c in if (65 <=? b) && (b <=? 90) then chr (b + 32) else c.
Fixpoint to_lowercase (s : string) : string :=
  match s with EmptyString => "" | String c s' => String (lower c) (to_lowercase s') end.

Definition find_mac (target : string) (ls : list link) : option (string * Z) :=
  match List.find (fun '(_, _, mac) => String.eqb (to_lowercase mac) target) ls with
  | Some (idx, name, _) => Some (name, idx)
  | None => None
  end.

Definition find_by_mac (target_mac : string) : M sock (option (string * Z)) :=
  ls ← dump_links;
  mret (find_mac (to_lowercase target_mac) ls).

(** The scan of address messages for one interface in [get_ipv4]. *)
Fixpoint addr_of (ifindex : Z) (msgs : list bytes) : result (option string) :=
  match msgs with
  | [] => mret None
  | msg :: rest =>
      if (length msg <? 24)%nat then addr_of ifindex rest
      else
        ty ← u16_at msg 4;
        if negb (ty =? 20) then addr_of ifindex rest
        else
          fam ← byte_at msg 16;
          if negb (fam =? AF_INET) then addr_of ifindex rest
          else
            pfx ← byte_at msg 17;
            i ← u32_at msg 20;
            if negb (i =? ifindex) then addr_of ifindex rest
            else
              o ← find_ipv4_nla (drop 24 msg) 1;
              match o with
              | Some ip => mret (Some (show_cidr ip pfx))
              | None => addr_of ifindex rest
              end
  end.

Definition get_ipv4 (ifindex : Z) : M sock (option string) :=
  m ← with_seq dump_addrs_msg;
  msgs ← dump m;
  lift (addr_of ifindex msgs).

Definition veth := (string * Z * string * string)%type.

Fixpoint find_veth_in (tap : string) (ls : list link) : M sock (option veth) :=
  match ls with
  | [] => mret None
  | (idx, name, mac) :: rest =>
      if String.eqb name "lo" || String.eqb name tap || String.eqb name ""
      then find_veth_in tap rest
      else
        o ← get_ipv4 idx;
        match o with
        | Some cidr => mret (Some (name, idx, cidr, mac))
        | None => find_veth_in tap rest
        end
  end.

Definition find_veth (tap : string) : M sock (option veth) :=
  ls ← dump_links; find_veth_in tap ls.

Fixpoint flush_addrs_in (ifindex : Z) (msgs : list bytes) : M sock unit :=
  match msgs with
  | [] => mret tt
  | msg :: rest =>
      if (length msg <? 24)%nat then flush_addrs_in ifindex rest
      else
        ty ← lift (u16_at msg 4);
        if negb (ty =? 20) then flush_addrs_in ifindex rest
        else
          fam ← lift (byte_at msg 16);
          i ← lift (if negb (fam =? AF_INET) then mret 0 else u32_at msg 20);
          if negb (fam =? AF_INET) || negb (i =? ifindex) then flush_addrs_in ifindex rest
          else
            del ← with_seq (fun s => nlhdr msg (Z.of_nat (length msg)) 21 5 s);
            request del;;
            flush_addrs_in ifindex rest
  end.

Definition flush_addrs (ifindex : Z) : M sock unit :=
  m ← with_seq dump_addrs_msg;
  msgs ← dump m;
  flush_addrs_in ifindex msgs.

Fixpoint gw_of (msgs : list bytes) : result (option string) :=
  match msgs with
  | [] => mret None
  | msg :: rest =>
      if (length msg <? 28)%nat then gw_of rest
      else
        ty ← u16_at msg 4;
        if negb (ty =? 24) then gw_of rest
        else
          dst_len ← byte_at msg 17;
          if negb (dst_len =? 0) then gw_of rest
          else
            o ← find_ipv4_nla (drop 28 msg) 5;
            match o with Some gw => mret (Some (show_ipv4 gw)) | None => gw_of rest end
  end.

Definition get_default_gw : M sock (option string) :=
  m ← with_seq dump_routes_msg;
  msgs ← dump m;
  lift (gw_of msgs).

Fixpoint flush_routes_in (ifindex : Z) (msgs : list bytes) : M sock unit :=
  match msgs with
  | [] => mret tt
  | msg :: rest =>
      if (length msg <? 28)%nat then flush_routes_in ifindex rest
      else
        ty ← lift (u16_at msg 4);
        if negb (ty =? 24) then flush_routes_in ifindex rest
        else
          found ← lift (route_has_oif (drop 28 msg) ifindex);
          (if found : bool then
             del ← with_seq (fun s => nlhdr msg (Z.of_nat (length msg)) 25 5 s);
             attempt (request del);; mret tt
           else mret tt);;
          flush_routes_in ifindex rest
  end.

Definition flush_routes (ifindex : Z) : M sock unit :=
  m ← with_seq dump_routes_msg;
  msgs ← dump m;
  flush_routes_in ifindex msgs.

Definition EEXIST : Z := 17.

Definition add_ingress_qdisc `{Anyhow} (ifindex : Z) : M sock unit :=
  m ← with_seq (add_ingress_qdisc_msg ifindex);
  r ← attempt (request m);
  match r with
  | inl _ => mret tt
  | inr e => if bool_decide (downcast_io e = Some EEXIST) then mret tt else fail e
  end.

Definition del_ingress_qdisc (ifindex : Z) : M sock unit :=
  m ← with_seq (del_ingress_qdisc_msg ifindex); request m.

Definition add_redirect_filter (src_idx dst_idx : Z) : M sock unit :=
  m ← with_seq (add_redirect_filter_msg src_idx dst_idx); request m.

Definition add_address (ifindex ip prefix_len : Z) : M sock unit :=
  m ← with_seq (add_address_msg ifindex ip prefix_len); request m.

Definition add_default_route (gateway ifindex : Z) : M sock unit :=
  m ← with_seq (add_default_route_msg gateway ifindex); request m.

(** ** [configure_interface] and its retry loops *)

(** [attempt], from the [i]-th of [max] tries on; the sleeps between tries do
    not touch the socket. *)
Fixpoint retry_link_go (left : nat) (max : Z) (device : string) : M sock Z :=
  match left with
  | O => lift Panic
  | S left' =>
      r ← attempt (get_link_index device);
      match r with
      | inl idx => mret idx
      | inr e =>
          match left' with
          | O => fail (Ctx ("device " +:+ device +:+ " not found after " +:+ pretty max +:+ " retries") e)
          | _ => retry_link_go left' max device
          end
      end
  end.

Definition retry_get_link_index (device : string) (max_attempts : nat) : M sock Z :=
  retry_link_go max_attempts (Z.of_nat max_attempts) device.

Definition show_link (l : link) : string :=
  let '(idx, name, m) := l in
  name +:+ "(idx=" +:+ pretty idx +:+ ",mac=" +:+ m +:+ ")".

Fixpoint retry_mac_go (left : nat) (i max : Z) (mac : string) : M sock (string * Z) :=
  match left with
  | O => lift Panic
  | S left' =>
      r ← find_by_mac mac;
      match r with
      | Some ni => mret ni
      | None =>
          (if (i =? 0) || (i =? max / 2) then attempt dump_links;; mret tt else mret tt);;
          match left' with
          | O =>
              ls ← attempt dump_links;
              let devs := match ls with inl l => join ", " (map show_link l) | inr _ => "" end in
              fail (Msg ("device with mac " +:+ mac +:+ " not found after " +:+ pretty max
                         +:+ " retries; visible: [" +:+ devs +:+ "]"))
          | _ => retry_mac_go left' (i + 1) max mac
          end
      end
  end.

Definition retry_find_by_mac (mac : string) (max_attempts : nat) : M sock (string * Z) :=
  retry_mac_go max_attempts 0 (Z.of_nat max_attempts) mac.

(** The "already exists" test on an error's text. *)
Definition says_exists `{Anyhow} (e : error) : bool :=
  str_contains (display e) "EEXIST" || str_contains (display e) "File exists".

(** Run [m]; an error whose text says the object exists counts as success. *)
Definition tolerate_exists `{Anyhow} (m : M sock unit) : M sock unit :=
  r ← attempt m;
  match r with
  | inl _ => mret tt
  | inr e => if says_exists e then mret tt else fail e
  end.

Definition configure_interface `{Anyhow} (device : string) (ip prefix_len : Z)
    (gateway : option Z) (mac : option string) : M sock unit :=
  nl_open;;
  '(_, idx) ← match mac with
              | Some mac_addr => retry_find_by_mac mac_addr 50
              | None => idx ← retry_get_link_index device 20; mret (device, idx)
              end;
  tolerate_exists (add_address idx ip prefix_len);;
  set_link_up idx;;
  match gateway with
  | Some gw => tolerate_exists (add_default_route gw idx)
  | None => mret tt
  end.

(** ** The dump loop on well-formed replies *)

(** An entry of a dump: a netlink message that is neither [NLMSG_ERROR] nor
    [NLMSG_DONE]. *)
Definition dump_entry (m : bytes) : Prop :=
  exists ty flags sq body, m = nlmsg ty flags sq body /\
    in_range 16 ty /\ ty <> 2 /\ ty <> 3 /\ 16 + Z.of_nat (length body) < 2 ^ 32.

Definition datagram (ms : list bytes) : bytes := concat (map pad4 ms).

Definition done_msg (flags sq : Z) (body : bytes) : bytes := nlmsg 3 flags sq body.

Lemma length_nlmsg ty f s b : length (nlmsg ty f s b) = (16 + length b)%nat.
Proof. unfold nlmsg. rewrite !length_app, !length_le. reflexivity. Qed.

Lemma length_pad4 b : length (pad4 b) = align4 (length b).
Proof.
  unfold pad4. rewrite length_app, length_replicate. pose proof (align4_bounds (length b)). lia.
Qed.

Lemma nlmsg_fields pre ty f s b rest :
  u32_at (pre ++ nlmsg ty f s b ++ rest) (length pre) = Ok ((16 + Z.of_nat (length b)) mod 2 ^ 32) /\
  u16_at (pre ++ nlmsg ty f s b ++ rest) (length pre + 4) = Ok (ty mod 2 ^ 16).
Proof.
  unfold nlmsg. rewrite <- !app_assoc. split; [apply u32_at_le|].
  rewrite u16_at_off. pose proof (u16_at_le (le 4 (16 + Z.of_nat (length b))) ty) as H.
  rewrite length_le in H. apply H.
Qed.

Lemma dump_scan_entry fuel n pre m rest out :
  dump_entry m -> (length (pre ++ m) <= n)%nat ->
  dump_scan (S fuel) n (pre ++ m ++ rest) (length pre) out =
  dump_scan fuel n (pre ++ m ++ rest) (length pre + align4 (length m)) (out ++ [m]).
Proof.
  intros (ty & f & s & b & -> & Hty & H2 & H3 & Hlen) Hn.
  rewrite length_app, length_nlmsg in Hn.
  destruct (nlmsg_fields pre ty f s b rest) as [E1 E2].
  rewrite Z.mod_small in E1 by lia. rewrite Z.mod_small in E2 by apply Hty.
  cbn [dump_scan]. rewrite (proj2 (Nat.leb_le _ _)) by lia. rewrite E1, E2.
  cbn [mbind result_bind].
  rewrite (proj2 (Z.eqb_neq ty 3) H3), (proj2 (Z.eqb_neq ty 2) H2).
  cbn [mbind result_bind mret result_ret negb Z.eqb].
  rewrite (proj2 (Z.ltb_lt 0 _)) by lia.
  rewrite length_nlmsg. replace (Z.to_nat (16 + Z.of_nat (length b))) with (16 + length b)%nat by lia.
  rewrite (proj2 (Nat.leb_le _ _)) by lia. cbn [andb].
  rewrite slice_ok by (rewrite !length_app, length_nlmsg; lia).
  rewrite drop_app_length, take_app_exact by (rewrite length_nlmsg; lia).
  reflexivity.
Qed.

Lemma dump_scan_entries ms fuel n pre rest out :
  Forall dump_entry ms -> (length (pre ++ datagram ms) <= n)%nat ->
  dump_scan (length ms + fuel) n (pre ++ datagram ms ++ rest) (length pre) out =
  dump_scan fuel n (pre ++ datagram ms ++ rest) (length (pre ++ datagram ms)) (out ++ ms).
Proof.
  intros Hms. revert pre out. induction Hms as [|m ms Hm _ IH]; intros pre out Hn.
  - cbn [datagram map concat length Nat.add]. by rewrite !app_nil_r.
  - change (datagram (m :: ms)) with (pad4 m ++ datagram ms) in *.
    cbn [length Nat.add]. unfold pad4 in *.
    set (z := replicate (align4 (length m) - length m) 0) in *.
    replace (pre ++ ((m ++ z) ++ datagram ms) ++ rest)
      with (pre ++ m ++ (z ++ datagram ms ++ rest)) by (rewrite <- !app_assoc; reflexivity).
    rewrite dump_scan_entry; [|done|rewrite !length_app in *; lia].
    replace (pre ++ m ++ z ++ datagram ms ++ rest)
      with ((pre ++ pad4 m) ++ datagram ms ++ rest)
      by (unfold pad4; rewrite <- !app_assoc; reflexivity).
    replace (length pre + align4 (length m))%nat with (length (pre ++ pad4 m))
      by (rewrite length_app, length_pad4; reflexivity).
    rewrite IH by (unfold pad4; rewrite <- !app_assoc in *; done).
    unfold pad4. fold z. rewrite <- !app_assoc. reflexivity.
Qed.

Lemma length_datagram ms : Forall dump_entry ms -> (length ms * 16 <= length (datagram ms))%nat.
Proof.
  induction 1 as [|m ms Hm _ IH]; [done|].
  change (datagram (m :: ms)) with (pad4 m ++ datagram ms).
  rewrite length_app, length_pad4. pose proof (align4_bounds (length m)).
  destruct Hm as (ty & f & s & b & -> & _). rewrite length_nlmsg in *. cbn [length]. lia.
Qed.

(** A buffer that starts with the entries [ms] and then has fewer than 16
    bytes left is scanned to its end. *)
Lemma dump_scan_partial ms stale out :
  Forall dump_entry ms ->
  let d := datagram ms in
  dump_scan (S (length d)) (length d) (d ++ stale) 0 out = Ok (false, out ++ ms).
Proof.
  intros Hms d. pose proof (length_datagram ms Hms) as Hl. fold d in Hl.
  replace (S (length d)) with (length ms + S (length d - length ms))%nat by lia.
  pose proof (dump_scan_entries ms (S (length d - length ms)) (length d) [] stale out Hms) as E.
  cbn [app length] in E. fold d in E. rewrite E by lia. cbn [dump_scan].
  rewrite (proj2 (Nat.leb_gt _ _)) by lia. reflexivity.
Qed.

Lemma dump_scan_final ms f s b stale out :
  Forall dump_entry ms ->
  let d := datagram ms ++ done_msg f s b in
  dump_scan (S (length d)) (length d) (d ++ stale) 0 out = Ok (true, out ++ ms).
Proof.
  intros Hms d. pose proof (length_datagram ms Hms) as Hl.
  assert (Hd : length d = (length (datagram ms) + (16 + length b))%nat).
  { unfold d, done_msg. by rewrite length_app, length_nlmsg. }
  replace (S (length d)) with (length ms + S (length d - length ms))%nat by lia.
  pose proof (dump_scan_entries ms (S (length d - length ms)) (length d) []
    (done_msg f s b ++ stale) out Hms) as E.
  cbn [app length] in E. unfold d. rewrite <- !app_assoc. fold d. rewrite E by lia.
  cbn [dump_scan]. rewrite (proj2 (Nat.leb_le _ _)) by lia.
  destruct (nlmsg_fields (datagram ms) 3 f s b stale) as [E1 E2].
  unfold done_msg. rewrite E1, E2. reflexivity.
Qed.

Definition with_rx (s : sock) (rx : list (Z + bytes)) : sock :=
  mkSock (sk_seq s) (sk_sent s) (sk_open s) (sk_tx s) rx.

Lemma recv_buf_fits d buf r s :
  sk_rx s = inr d :: r -> (length d <= length buf)%nat ->
  recv_buf buf s = (Ok (length d, d ++ drop (length d) buf), with_rx s r).
Proof. intros Hrx Hd. unfold recv_buf. rewrite Hrx, take_ge by done. reflexivity. Qed.

(** The datagrams of a whole dump: groups of entries, then a last group
    followed by [NLMSG_DONE]. *)
Definition dump_replies (groups : list (list bytes)) (last : list bytes) (f sq : Z) (b : bytes)
    : list (Z + bytes) :=
  map (fun g => inr (datagram g)) groups ++ [inr (datagram last ++ done_msg f sq b)].

Lemma dump_recv_replies groups last f sq b more k buf out s :
  Forall (Forall dump_entry) groups -> Forall dump_entry last ->
  Forall (fun g => length (datagram g) <= length buf)%nat groups ->
  (length (datagram last ++ done_msg f sq b) <= length buf)%nat ->
  (length groups < k)%nat ->
  sk_rx s = dump_replies groups last f sq b ++ more ->
  dump_recv k buf out s = (Ok (out ++ concat groups ++ last), with_rx s more).
Proof.
  intros Hg Hlast Hfit Hfl. revert k buf out s Hfit Hfl.
  induction Hg as [|g groups Hgd _ IH]; intros k buf out s Hfit Hfl Hk Hrx;
    (destruct k as [|k]; [simpl in Hk; lia|]).
  - cbn [dump_recv]. unfold dump_replies in Hrx. cbn [map app] in Hrx.
    unfold mbind, M_bind. rewrite (recv_buf_fits _ buf more s Hrx Hfl).
    unfold lift. rewrite (dump_scan_final last f sq b _ out Hlast). reflexivity.
  - cbn [dump_recv]. unfold dump_replies in Hrx. cbn [map app] in Hrx.
    inversion Hfit as [|?? Hg1 Hg2]; subst.
    unfold mbind, M_bind. rewrite (recv_buf_fits _ buf _ s Hrx Hg1).
    unfold lift. rewrite (dump_scan_partial g _ out Hgd).
    match goal with |- dump_recv k ?b' _ _ = _ => set (buf' := b') end.
    assert (Hb : length buf' = length buf).
    { unfold buf'. rewrite length_app, length_drop. lia. }
    rewrite IH; [|by rewrite Hb..|simpl in Hk; lia|reflexivity].
    cbn [concat]. rewrite <- !app_assoc. reflexivity.
Qed.

(** ** Fuel of the scan *)

Lemma dump_scan_stuck fuel n r off out :
  (off + 16 <= n)%nat ->
  (exists len ty, u32_at r off = Ok len /\ u16_at r (off + 4) = Ok ty /\
     len <= 0 /\ ty <> 3 /\ (ty = 2 -> i32_at r (off + 16) = Ok 0)) ->
  dump_scan fuel n r off out = Hang.
Proof.
  intros Ho (len & ty & E1 & E2 & Hl & Hty & Herr). revert out.
  induction fuel as [|fuel IH]; intros out; [done|].
  cbn [dump_scan]. rewrite (proj2 (Nat.leb_le _ _) Ho), E1, E2. cbn [mbind result_bind].
  rewrite (proj2 (Z.eqb_neq ty 3) Hty).
  assert ((if ty =? 2 then i32_at r (off + 16) else mret 0) = Ok 0) as ->.
  { destruct (Z.eqb_spec ty 2); [auto|done]. }
  cbn [mbind result_bind negb Z.eqb].
  rewrite (proj2 (Z.ltb_ge 0 len) Hl). cbn [andb mbind result_bind mret result_ret].
  replace (Z.to_nat len) with 0%nat by lia. change (align4 0) with 0%nat.
  rewrite Nat.add_0_r. apply IH.
Qed.

Lemma dump_scan_fuel fuel n r off out :
  (n - off < fuel)%nat -> dump_scan fuel n r off out = Hang ->
  forall fuel', dump_scan fuel' n r off out = Hang.
Proof.
  revert off out. induction fuel as [|fuel IH]; intros off out Hf Hh; [lia|].
  intros fuel'. cbn [dump_scan] in Hh.
  destruct (Nat.leb_spec (off + 16) n) as [Ho|]; [|done].
  destruct (u32_at r off) as [len| | |] eqn:E1;
    cbn [mbind result_bind] in Hh; [|done..|by unfold u32_at, byte_at, mbind, result_bind in E1; repeat case_match].
  destruct (u16_at r (off + 4)) as [ty| | |] eqn:E2;
    cbn [mbind result_bind] in Hh; [|done..|by unfold u16_at, byte_at, mbind, result_bind in E2; repeat case_match].
  destruct (Z.eqb_spec ty 3) as [|Hty]; [done|].
  destruct (if ty =? 2 then i32_at r (off + 16) else mret 0) as [e| | |] eqn:E3;
    cbn [mbind result_bind] in Hh; [|done..|].
  2: { exfalso. destruct (ty =? 2); [|done].
       by unfold i32_at, byte_at, mbind, result_bind in E3; repeat case_match. }
  destruct (Z.eqb_spec e 0) as [->|]; cbn [negb] in Hh; [|done].
  destruct (decide (len <= 0)) as [Hl|Hl].
  - apply dump_scan_stuck; [done|]. exists len, ty. split_and!; try done.
    intros ->. exact E3.
  - destruct fuel' as [|fuel']; [done|]. cbn [dump_scan].
    rewrite (proj2 (Nat.leb_le _ _) Ho), E1, E2. cbn [mbind result_bind].
    rewrite (proj2 (Z.eqb_neq ty 3) Hty), E3. cbn [mbind result_bind negb Z.eqb].
    destruct (if (0 <? len) && _ then _ else _) as [out'| | |] eqn:E4;
      cbn [mbind result_bind] in Hh |- *; try done.
    apply IH; [|done]. pose proof (align4_bounds (Z.to_nat len)). lia.
Qed.

(** ** Acknowledgements *)

(** An [NLMSG_ERROR] reply: the negated errno, then the header it answers. *)
Definition err_reply (errno sq : Z) (hdr : bytes) : bytes := nlmsg 2 0 sq (le 4 (- errno) ++ hdr).

Lemma i32_at_u32 b o : i32_at b o = swrap 32 <$> u32_at b o.
Proof.
  unfold i32_at, u32_at, byte_at, mbind, result_bind.
  destruct (b !! o), (b !! (o + 1)%nat), (b !! (o + 2)%nat), (b !! (o + 3)%nat); reflexivity.
Qed.

Lemma reply_errno_err errno sq hdr stale :
  0 <= errno < 2 ^ 31 -> length hdr = 16%nat ->
  reply_errno (length (err_reply errno sq hdr)) (err_reply errno sq hdr ++ stale) = Ok (- errno).
Proof.
  intros He Hh. unfold reply_errno, err_reply. rewrite length_nlmsg, length_app, length_le, Hh.
  change (20 <=? 16 + (4 + 16))%nat with true. cbv iota.
  pose proof (nlmsg_fields [] 2 0 sq (le 4 (- errno) ++ hdr) stale) as [_ H2].
  cbn [app length Nat.add] in H2. rewrite H2.
  change (2 mod 2 ^ 16) with 2. cbn [mbind result_bind Z.eqb Pos.eqb].
  assert (E : u32_at (nlmsg 2 0 sq (le 4 (- errno) ++ hdr) ++ stale) 16 = Ok ((- errno) mod 2 ^ 32)).
  { unfold nlmsg. set (l := 16 + Z.of_nat _).
    set (pre := le 4 l ++ le 2 2 ++ le 2 0 ++ le 4 sq ++ zeros 4).
    transitivity (u32_at (pre ++ le 4 (- errno) ++ (hdr ++ stale)) (length pre)).
    - unfold pre. rewrite <- !app_assoc. reflexivity.
    - apply u32_at_le. }
  rewrite i32_at_u32, E. cbn [fmap result_fmap]. f_equal. transitivity (swrap 32 (- errno)).
  - unfold swrap. by rewrite Z.mod_mod by done.
  - apply swrap_small; lia.
Qed.

Lemma length_err_reply errno sq hdr : length hdr = 16%nat -> length (err_reply errno sq hdr) = 36%nat.
Proof. intros H. unfold err_reply. rewrite length_nlmsg, length_app, length_le, H. reflexivity. Qed.

Lemma length_zeros n : length (zeros n) = n.
Proof. apply length_replicate. Qed.

#[local] Opaque zeros.

(** A request that the kernel refuses with [errno]. *)
Lemma request_refused buf s errno sq hdr more :
  0 < errno < 2 ^ 31 -> length hdr = 16%nat -> sk_tx s = [] ->
  sk_rx s = inr (err_reply errno sq hdr) :: more ->
  request buf s = (Err (Ctx "netlink request" (Io errno)),
                   mkSock (sk_seq s) (sk_sent s ++ [buf]) (sk_open s) [] more).
Proof.
  intros He Hh Htx Hrx. unfold request, mbind, M_bind, send. rewrite Htx.
  match goal with |- context [recv_buf _ ?st] =>
    rewrite (recv_buf_fits (err_reply errno sq hdr) (zeros 4096) more st) end.
  - unfold lift. rewrite reply_errno_err by (done || lia).
    destruct (Z.eqb_spec (- errno) 0); [lia|]. unfold fail. rewrite Z.opp_involutive.
    rewrite swrap_small by lia. reflexivity.
  - exact Hrx.
  - rewrite length_err_reply, length_zeros by done. lia.
Qed.

Lemma u16_at_no_err b o e : u16_at b o <> Err e.
Proof. unfold u16_at, byte_at. destruct (b !! o), (b !! (o + 1)%nat); done. Qed.

Lemma i32_at_no_err b o e : i32_at b o <> Err e.
Proof.
  unfold i32_at, byte_at.
  destruct (b !! o), (b !! (o + 1)%nat), (b !! (o + 2)%nat), (b !! (o + 3)%nat); done.
Qed.

Lemma reply_errno_no_err n r e : reply_errno n r <> Err e.
Proof.
  unfold reply_errno. case_match; [|done].
  destruct (u16_at r 4) eqn:E; cbn [mbind result_bind]; try done.
  - case_match; [apply i32_at_no_err|done].
  - by apply u16_at_no_err in E.
Qed.

Lemma request_error_shape buf s e s' :
  request buf s = (Err e, s') ->
  exists n, e = Ctx "nl send" (Io n) \/ e = Ctx "nl recv" (Io n) \/ e = Ctx "netlink request" (Io n).
Proof.
  unfold request. intros H. unfold mbind, M_bind at 1 in H.
  destruct (send buf s) as [[[]|e1| |] s1] eqn:Es; try done.
  2: { unfold send in Es. repeat case_match; simplify_eq/=; eauto. }
  unfold M_bind in H.
  destruct (recv_buf (zeros 4096) s1) as [[[n r]|e1| |] s2] eqn:Er; try done.
  2: { unfold recv_buf in Er. repeat case_match; simplify_eq/=; eauto. }
  unfold lift in H. destruct (reply_errno n r) as [z|e1| |] eqn:Ee; try done.
  - destruct (z =? 0); [done|]. unfold fail in H. simplify_eq/=. eauto.
  - by apply reply_errno_no_err in Ee.
Qed.

(** ** Link dumps *)

Definition ascii_name (s : string) : Prop := Forall (fun b => 0 < b < 128) (bytes_of s).

Lemma lossy_ascii fuel l : Forall (fun b => 0 <= b < 128) l -> (length l <= fuel)%nat ->
  utf8_lossy_go fuel l = l.
Proof.
  revert l. induction fuel as [|fuel IH]; intros l Hl Hf.
  - by destruct l; [|simpl in Hf; lia].
  - inversion Hl as [|b r Hb Hr]; subst; [done|]. cbn [utf8_lossy_go utf8_char].
    rewrite (proj2 (Z.ltb_lt b 128)) by lia. cbn [take drop app]. f_equal.
    rewrite drop_0, take_0. apply IH; [done|]. simpl in Hf. lia.
Qed.

Lemma trim_nul_name s : ascii_name s -> trim_nul (s +:+ String "000" "") = s.
Proof.
  unfold ascii_name. induction s as [|c s IH]; intros H; [done|].
  cbn [bytes_of] in H. rewrite Forall_cons in H. destruct H as [Hc Hs].
  rewrite sapp_cons. cbn [trim_nul]. rewrite (IH Hs).
  destruct s; [|done]. destruct (Ascii.eqb_spec c "000") as [->|]; [|done].
  destruct Hc as [Hc _]. by vm_compute in Hc.
Qed.

Lemma ifname_payload s : ascii_name s -> trim_nul (from_utf8_lossy (bytes_of s ++ [0])) = s.
Proof.
  intros H. unfold from_utf8_lossy. rewrite lossy_ascii; [|..|done].
  - change [0] with (bytes_of (String "000" "")). rewrite <- bytes_of_app, str_of_bytes_of.
    by apply trim_nul_name.
  - apply Forall_app. split; [eapply Forall_impl; [exact H|]; simpl; lia|].
    apply Forall_cons_2; [lia|constructor].
Qed.

(** A link as the kernel reports it: [RTM_NEWLINK], [ifinfomsg] with the index,
    [IFLA_IFNAME], [IFLA_ADDRESS]. *)
Record klink := mkLink { kl_idx : Z; kl_name : string; kl_mac : bytes; kl_info : bytes * bytes }.
Definition link_msg (l : klink) : bytes :=
  nlmsg 16 2 0 ((kl_info l).1 ++ le 4 (kl_idx l) ++ (kl_info l).2 ++
    nlas [(3, bytes_of (kl_name l) ++ [0]); (1, kl_mac l)]).
Definition wf_link (l : klink) : Prop :=
  in_range 32 (kl_idx l) /\ ascii_name (kl_name l) /\ (String.length (kl_name l) <= 15)%nat /\
  length (kl_mac l) = 6%nat /\ length (kl_info l).1 = 4%nat /\ length (kl_info l).2 = 8%nat.
Definition link_view (l : klink) : link := (kl_idx l, kl_name l, join ":" (map hex2 (kl_mac l))).

Lemma length_link_msg l : wf_link l -> (32 <= length (link_msg l) <= 72)%nat.
Proof.
  intros (_ & _ & Hn & Hm & H1 & H2). unfold link_msg.
  rewrite length_nlmsg, !length_app, length_le, !nlas_cons, !length_app, !length_nla, H1, H2, Hm.
  rewrite length_app, length_bytes_of. change (length [0]) with 1%nat.
  change (align4 (4 + 6)) with 12%nat. change (length (nlas [])) with 0%nat.
  pose proof (align4_bounds (4 + (String.length (kl_name l) + 1))). lia.
Qed.

Lemma links_of_msg l rest : wf_link l ->
  links_of (link_msg l :: rest) = (out ← links_of rest; mret (link_view l :: out)).
Proof.
  intros Hwf. pose proof (length_link_msg l Hwf) as Hlen.
  destruct Hwf as (Hi & Ha & Hn & Hm & H1 & H2). cbn [links_of].
  rewrite (proj2 (Nat.ltb_ge _ _)) by lia.
  unfold link_msg in *. set (attrs := [(3, bytes_of (kl_name l) ++ [0]); (1, kl_mac l)]) in *.
  set (body := (kl_info l).1 ++ _).
  assert (E1 : u16_at (nlmsg 16 2 0 body) 4 = Ok 16).
  { pose proof (nlmsg_fields [] 16 2 0 body []) as [_ E]. rewrite app_nil_r in E. exact E. }
  rewrite E1. cbn [mbind result_bind negb Z.eqb Pos.eqb].
  set (pre := le 4 (16 + Z.of_nat (length body)) ++ le 2 16 ++ le 2 2 ++ le 4 0 ++ zeros 4 ++
              (kl_info l).1).
  assert (Hp : length pre = 20%nat).
  { unfold pre. rewrite !length_app, !length_le, length_zeros, H1. reflexivity. }
  assert (Em : nlmsg 16 2 0 body = pre ++ le 4 (kl_idx l) ++ (kl_info l).2 ++ nlas attrs).
  { unfold nlmsg, pre, body. by rewrite <- !app_assoc. }
  assert (Ei : i32_at (nlmsg 16 2 0 body) 20 = Ok (swrap 32 (kl_idx l))).
  { rewrite i32_at_u32, Em, <- Hp, u32_at_le. cbn [fmap result_fmap]. f_equal.
    unfold swrap. by rewrite Z.mod_mod by done. }
  assert (Ed : drop 32 (nlmsg 16 2 0 body) = nlas attrs).
  { rewrite Em, !app_assoc. apply drop_app_exact. rewrite !length_app, length_le, Hp, H2. reflexivity. }
  rewrite Ei, Ed, parse_link_nlas_ref.
  - cbn [mbind result_bind link_ref attrs]. rewrite ifname_payload by done. rewrite Hm.
    unfold link_view. cbn [Z.eqb Pos.eqb andb Nat.eqb mbind result_bind].
    replace (wrap 32 (swrap 32 (kl_idx l))) with (kl_idx l); [reflexivity|].
    unfold wrap, swrap. destruct Hi. rewrite (Z.mod_small (kl_idx l)) by lia.
    case_match; [by rewrite Z.mod_small by lia|].
    rewrite <- (Z.mod_add _ 1), Z.mul_1_l, Z.sub_add, Z.mod_small by lia. done.
  - apply Forall_cons_2; [|apply Forall_cons_2; [|constructor]]; split; cbn [fst snd];
      try (split; done); rewrite ?length_app, ?length_bytes_of, ?Hm; simpl length; lia.
Qed.

Lemma links_of_msgs ls : Forall wf_link ls -> links_of (map link_msg ls) = Ok (map link_view ls).
Proof.
  induction 1 as [|l ls Hl _ IH]; [done|]. cbn [map]. rewrite links_of_msg, IH by done. reflexivity.
Qed.

Lemma link_msg_entry l : wf_link l -> dump_entry (link_msg l).
Proof.
  intros Hl. pose proof (length_link_msg l Hl) as Hlen. unfold link_msg in *.
  rewrite length_nlmsg in Hlen. eexists _, _, _, _. split_and!; try reflexivity; try done; lia.
Qed.

Lemma dump_all req groups last f sq b more s :
  Forall (Forall dump_entry) groups -> Forall dump_entry last ->
  Forall (fun g => length (datagram g) <= Z.to_nat 32768)%nat groups ->
  (length (datagram last ++ done_msg f sq b) <= Z.to_nat 32768)%nat ->
  sk_tx s = [] -> sk_rx s = dump_replies groups last f sq b ++ more ->
  dump req s = (Ok (concat groups ++ last),
                mkSock (sk_seq s) (sk_sent s ++ [req]) (sk_open s) [] more).
Proof.
  intros Hg Hl Hf Hfl Htx Hrx. unfold dump, mbind, M_bind, send, gets. rewrite Htx.
  cbn [sk_rx]. rewrite Hrx.
  erewrite dump_recv_replies; [reflexivity|done|done|..].
  - by rewrite length_zeros.
  - by rewrite length_zeros.
  - unfold dump_replies. rewrite !length_app, length_map. cbn [length]. lia.
  - reflexivity.
Qed.

(** ** Properties *)

(** C36: whatever entries the kernel sends, split over however many datagrams
    (each within the 32 KiB receive buffer) and ended by [NLMSG_DONE], [dump]
    sends the request once and returns exactly those entries in order, consuming
    exactly those datagrams; stale bytes of an earlier, longer datagram are
    never read. *)
Theorem dump_returns_entries req groups last f sq b more s :
  Forall (Forall dump_entry) groups -> Forall dump_entry last ->
  Forall (fun g => length (datagram g) <= Z.to_nat 32768)%nat groups ->
  (length (datagram last ++ done_msg f sq b) <= Z.to_nat 32768)%nat ->
  sk_tx s = [] -> sk_rx s = dump_replies groups last f sq b ++ more ->
  dump req s = (Ok (concat groups ++ last),
                mkSock (sk_seq s) (sk_sent s ++ [req]) (sk_open s) [] more).
Proof. apply dump_all. Qed.

(** A dump of two interfaces, used as a concrete kernel. *)
Definition sample_links : list klink :=
  [mkLink 1 "lo" [0; 0; 0; 0; 0; 0] (zeros 4, zeros 8);
   mkLink 7 "eth0" [102; 222; 8; 25; 181; 88] (zeros 4, zeros 8)].
Definition sample_sock : sock :=
  mkSock 1 [] [] [] (dump_replies [[link_msg (mkLink 1 "lo" [0; 0; 0; 0; 0; 0] (zeros 4, zeros 8))]]
    [link_msg (mkLink 7 "eth0" [102; 222; 8; 25; 181; 88] (zeros 4, zeros 8))] 0 0 []).

Lemma sample_links_wf : Forall wf_link sample_links.
Proof.
  unfold sample_links, wf_link, ascii_name.
  repeat apply Forall_cons_2; try apply Forall_nil_2; split_and!; cbn [kl_idx kl_name kl_mac kl_info fst snd];
    rewrite ?length_zeros; try done; try (vm_compute; lia);
    repeat apply Forall_cons_2; try apply Forall_nil_2; vm_compute; done.
Qed.

Lemma link_datagram_fits l : wf_link l -> (length (datagram [link_msg l]) <= Z.to_nat 32768)%nat.
Proof.
  intros H. unfold datagram. cbn [map concat]. rewrite app_nil_r, length_pad4.
  pose proof (length_link_msg _ H). pose proof (align4_bounds (length (link_msg l))). lia.
Qed.

Lemma last_link_datagram_fits l f sq : wf_link l ->
  (length (datagram [link_msg l] ++ done_msg f sq []) <= Z.to_nat 32768)%nat.
Proof.
  intros H. unfold datagram, done_msg. cbn [map concat].
  rewrite app_nil_r, length_app, length_pad4, length_nlmsg. pose proof (length_link_msg _ H).
  pose proof (align4_bounds (length (link_msg l))). cbn [length]. lia.
Qed.

Lemma sample_link_wf l : l ∈ sample_links -> wf_link l.
Proof. intros Hl. exact (proj1 (Forall_forall _ _) sample_links_wf l Hl). Qed.

Lemma dump_returns_entries_witness :
  (dump [] sample_sock).1 = Ok (map link_msg sample_links).
Proof.
  erewrite (dump_returns_entries [] [[link_msg _]] [link_msg _] 0 0 [] [] sample_sock);
    [reflexivity| | | | |reflexivity|reflexivity].
  - repeat apply Forall_cons_2; try apply Forall_nil_2. apply link_msg_entry, sample_link_wf. left.
  - repeat apply Forall_cons_2; try apply Forall_nil_2. apply link_msg_entry, sample_link_wf. right. left.
  - repeat apply Forall_cons_2; try apply Forall_nil_2. apply link_datagram_fits, sample_link_wf. left.
  - apply last_link_datagram_fits, sample_link_wf. right. left.
Defined.

(** The fuel of the scan loop is no restriction: if the loop over a
    received buffer has not finished after one more iteration than the buffer has
    bytes, it never finishes. *)
Theorem dump_scan_fuel_enough n r out :
  dump_scan (S n) n r 0 out = Hang -> forall fuel, dump_scan fuel n r 0 out = Hang.
Proof. intros H. apply (dump_scan_fuel (S n)); [lia|exact H]. Qed.

(** An entry whose length field is 0 (and whose type is neither error nor done). *)
Definition zero_len_entry : bytes := zeros 4 ++ le 2 16 ++ zeros 10.

Lemma dump_scan_fuel_enough_witness :
  dump_scan 17 16 zero_len_entry 0 [] = Hang /\ dump_scan 5000 16 zero_len_entry 0 [] = Hang.
Proof.
  assert (H : dump_scan 17 16 zero_len_entry 0 [] = Hang) by (vm_compute; reflexivity).
  split; [exact H|exact (dump_scan_fuel_enough 16 zero_len_entry [] H 5000%nat)].
Defined.

(** A reply that holds an entry of length 0 sends [dump] into an endless
    loop: it never returns, whatever else the kernel has to say. *)
Theorem dump_zero_length_hangs req s more :
  sk_tx s = [] -> sk_rx s = inr zero_len_entry :: more -> (dump req s).1 = Hang.
Proof.
  intros Htx Hrx. unfold dump, mbind, M_bind, send, gets. rewrite Htx. cbn [sk_rx].
  rewrite Hrx. cbn [length dump_recv]. unfold mbind, M_bind.
  rewrite (recv_buf_fits zero_len_entry (zeros (Z.to_nat 32768)) more).
  - unfold lift. rewrite dump_scan_stuck; [done|done|].
    exists 0, 16. split_and!; done.
  - reflexivity.
  - rewrite length_zeros. change (length zero_len_entry) with 16%nat. lia.
Qed.

Lemma dump_zero_length_hangs_witness :
  (dump [] (mkSock 1 [] [] [] [inr zero_len_entry])).1 = Hang.
Proof. apply (dump_zero_length_hangs [] _ []); reflexivity. Defined.

(** The text test meant to let "already exists" through is dead: a
    request's error is always the context "netlink request", "nl send" or
    "nl recv", whose text contains neither marker, so every refused request fails
    exactly as without the test. *)
Theorem tolerate_exists_dead `{Anyhow} buf s :
  tolerate_exists (request buf) s = request buf s.
Proof.
  unfold tolerate_exists, attempt, mbind, M_bind.
  destruct (request buf s) as [r s'] eqn:E; destruct r as [u|e| |]; [by destruct u| |done|done].
  apply request_error_shape in E as [n [->|[->| ->] ] ];
    unfold says_exists; rewrite display_ctx; reflexivity.
Qed.

(** *** Requests that succeed *)

Lemma request_acked buf s u s' : request buf s = (Ok u, s') -> sk_sent s' = sk_sent s ++ [buf].
Proof.
  unfold request. intros Hr. apply M_bind_Ok in Hr as (u1 & s1 & Hs & Hr). apply M_bind_Ok in Hr as ([n r] & s2 & Hb & Hr).
  apply M_bind_Ok in Hr as (e & s3 & Hl & Hr). apply lift_Ok in Hl as [_ ->].
  assert (s2 = s') as ->. { destruct (e =? 0); [by injection Hr as _ ->|done]. }
  assert (sk_sent s' = sk_sent s1) as ->. { unfold recv_buf in Hb. repeat case_match; by simplify_eq/=. }
  unfold send in Hs. repeat case_match; by simplify_eq/=.
Qed.

(** One message of [build], with the next sequence number, acknowledged. *)
Definition acked (build : Z -> result bytes) (s s' : sock) : Prop :=
  exists m, build (sk_seq s) = Ok m /\ sk_sent s' = sk_sent s ++ [m].

Lemma seq_request_acked build s u s' : (m ← with_seq build; request m) s = (Ok u, s') -> acked build s s'.
Proof.
  intros Hr. apply M_bind_Ok in Hr as (m & s1 & Hm & Hr). apply request_acked in Hr.
  unfold with_seq in Hm. apply M_bind_Ok in Hm as (q & s2 & [= <- <-] & Hm). apply lift_Ok in Hm as [Hm ->]. by exists m.
Qed.

Lemma tolerated_acked `{Anyhow} build s u s' :
  (forall q, is_Ok (build q) = true) -> tolerate_exists (m ← with_seq build; request m) s = (Ok u, s') -> acked build s s'.
Proof.
  intros Hok Hr. apply (seq_request_acked build s u s'). specialize (Hok (sk_seq s)).
  unfold tolerate_exists, attempt, with_seq, seq, lift, mbind, M_bind in *.
  destruct (build (sk_seq s)) as [m|e| |] eqn:Em; try done.
  match goal with |- request m ?s0 = _ => pose proof (tolerate_exists_dead m s0) as Hd;
    unfold tolerate_exists, attempt, mbind, M_bind in Hd; rewrite <- Hd; exact Hr end.
Qed.

(** When [configure_interface] succeeds for a device, the kernel acknowledged the
    address, then the link's being up, then the default route, all for the
    index it gave for that device. *)
Lemma configure_interface_acked `{Anyhow} device ip pfx gw s u s' :
  configure_interface device ip pfx (Some gw) None s = (Ok u, s') ->
  exists idx s1 s2 s3, (nl_open;; retry_get_link_index device 20) s = (Ok idx, s1) /\
    acked (add_address_msg idx ip pfx) s1 s2 /\ acked (set_link_up_msg idx) s2 s3 /\
    acked (add_default_route_msg gw idx) s3 s'.
Proof.
  unfold configure_interface. intros Hr. apply M_bind_Ok in Hr as (u0 & s0 & Ho & Hr).
  apply M_bind_Ok in Hr as ([name idx] & s1 & Hi & Hr). apply M_bind_Ok in Hi as (idx' & s1' & Hi & [= _ <- <-]).
  apply M_bind_Ok in Hr as (u1 & s2 & H1 & Hr). apply M_bind_Ok in Hr as (u2 & s3 & H2 & Hr).
  exists idx', s1', s2, s3. split_and!.
  - unfold mbind, M_bind. by rewrite Ho.
  - eapply tolerated_acked; [|exact H1]. intros q. by rewrite add_address_layout.
  - by eapply seq_request_acked.
  - eapply tolerated_acked; [|exact Hr]. intros q. by rewrite add_default_route_layout.
Qed.

(** A kernel that answers [RTM_GETLINK] with interface 7 and then refuses
    every change with EEXIST. *)
Definition refuse_exist : Z + bytes := inr (err_reply EEXIST 0 (zeros 16)).
Definition exist_sock : sock :=
  mkSock 1 [] [] [] [inr (link_msg (mkLink 7 "eth0" [102; 222; 8; 25; 181; 88] (zeros 4, zeros 8))); refuse_exist].

Lemma tolerate_exists_dead_witness :
  (@tolerate_exists plain_anyhow (request []) (mkSock 1 [] [] [] [refuse_exist])).1
    = Err (Ctx "netlink request" (Io EEXIST)).
Proof. rewrite (@tolerate_exists_dead plain_anyhow). vm_compute. reflexivity. Defined.

(** Configuring an address the interface already has (the kernel answers
    EEXIST) is an error, not the idempotent success the code's comment promises,
    and the link is not brought up. *)
Theorem configure_existing_address_fails `{Anyhow} device ip pfx gw s idx s1 sq hdr more :
  (nl_open;; retry_get_link_index device 20) s = (Ok idx, s1) ->
  length hdr = 16%nat -> sk_tx s1 = [] -> sk_rx s1 = inr (err_reply EEXIST sq hdr) :: more ->
  exists s2, configure_interface device ip pfx gw None s = (Err (Ctx "netlink request" (Io EEXIST)), s2)
    /\ sk_sent s2 = sk_sent s1 ++ [default [] (res_ok (add_address_msg idx ip pfx (sk_seq s1)))].
Proof.
  intros H0 Hh Htx Hrx. unfold configure_interface.
  unfold mbind, M_bind in H0 |- *. destruct (nl_open s) as [r0 s0]; destruct r0 as [u0|e0| |]; try done.
  rewrite H0. cbn [mret M_ret]. unfold tolerate_exists, attempt, mbind, M_bind.
  unfold add_address, with_seq, seq, mbind, M_bind, lift.
  rewrite add_address_layout. cbn [res_ok default from_option].
  set (m := nlmsg _ _ _ _).
  match goal with |- context [request m ?st] =>
    rewrite (request_refused m st EEXIST sq hdr more) by done end.
  unfold says_exists. rewrite display_ctx. cbn. eexists. split; reflexivity.
Qed.

Lemma configure_existing_address_fails_witness :
  (@configure_interface plain_anyhow "eth0" 3232235777 24 (Some 1) None exist_sock).1
    = Err (Ctx "netlink request" (Io EEXIST)).
Proof.
  destruct (@configure_existing_address_fails plain_anyhow "eth0" 3232235777 24 (Some 1) exist_sock
              7 (mkSock 2 [default [] (res_ok (get_link_index_msg "eth0" 1))] [] [] [refuse_exist])
              0 (zeros 16) []) as (s2 & E & _);
    [vm_compute; reflexivity|reflexivity|reflexivity|reflexivity|].
  rewrite E. reflexivity.
Defined.

(** Adding an ingress qdisc that is already there succeeds: this test looks
    through the context layers at the OS error. *)
Theorem add_ingress_qdisc_idempotent `{Anyhow} ifindex s sq hdr more :
  length hdr = 16%nat -> sk_tx s = [] -> sk_rx s = inr (err_reply EEXIST sq hdr) :: more ->
  (add_ingress_qdisc ifindex s).1 = Ok tt.
Proof.
  intros Hh Htx Hrx. unfold add_ingress_qdisc, with_seq, seq, mbind, M_bind, lift, attempt.
  destruct (add_ingress_qdisc_msg ifindex (sk_seq s)) as [m|e0| |] eqn:Em; try discriminate.
  match goal with |- context [request m ?st] =>
    rewrite (request_refused m st EEXIST sq hdr more) by done end.
  rewrite downcast_io_ctx, downcast_io_io. reflexivity.
Qed.

Lemma add_ingress_qdisc_idempotent_witness :
  (@add_ingress_qdisc plain_anyhow 7 (mkSock 1 [] [] [] [refuse_exist])).1 = Ok tt.
Proof.
  apply (@add_ingress_qdisc_idempotent plain_anyhow 7 (mkSock 1 [] [] [] [refuse_exist]) 0 (zeros 16) []);
    reflexivity.
Defined.

(** A lookup by MAC over the kernel's link dump finds the first interface
    whose address matches, in whichever letter case the caller wrote it, and
    reports its name and index. *)
Theorem find_by_mac_dump groups last f sq b more s target :
  Forall (Forall wf_link) groups -> Forall wf_link last ->
  Forall (fun g => length (datagram (map link_msg g)) <= Z.to_nat 32768)%nat groups ->
  (length (datagram (map link_msg last) ++ done_msg f sq b) <= Z.to_nat 32768)%nat ->
  sk_tx s = [] -> sk_rx s = dump_replies (map (map link_msg) groups) (map link_msg last) f sq b ++ more ->
  (find_by_mac target s).1 =
    Ok (find_mac (to_lowercase target) (map link_view (concat groups ++ last))).
Proof.
  intros Hg Hl Hf Hfl Htx Hrx.
  assert (Hent : forall ls, Forall wf_link ls -> Forall dump_entry (map link_msg ls)).
  { intros ls Hls. apply Forall_map. eapply Forall_impl; [exact Hls|]. apply link_msg_entry. }
  unfold find_by_mac, dump_links, with_seq, seq, mbind, M_bind, lift.
  destruct (dump_links_msg (sk_seq s)) as [m|e0| |] eqn:Em; try discriminate.
  rewrite (dump_all m (map (map link_msg) groups) (map link_msg last) f sq b more); try done.
  - rewrite <- concat_map, <- map_app, links_of_msgs; [done|].
    apply Forall_app. split; [by apply Forall_concat|done].
  - apply Forall_map. eapply Forall_impl; [exact Hg|]. exact Hent.
  - by apply Hent.
  - by apply Forall_map.
Qed.

Lemma find_by_mac_dump_witness :
  (find_by_mac "66:DE:08:19:b5:58" sample_sock).1 = Ok (Some ("eth0", 7)).
Proof.
  erewrite (find_by_mac_dump [[mkLink 1 "lo" [0; 0; 0; 0; 0; 0] (zeros 4, zeros 8)]]
    [mkLink 7 "eth0" [102; 222; 8; 25; 181; 88] (zeros 4, zeros 8)] 0 0 [] [] sample_sock);
    [vm_compute; reflexivity| | | | |reflexivity|reflexivity].
  - repeat apply Forall_cons_2; try apply Forall_nil_2. apply sample_link_wf. left.
  - repeat apply Forall_cons_2; try apply Forall_nil_2. apply sample_link_wf. right. left.
  - repeat apply Forall_cons_2; try apply Forall_nil_2. apply link_datagram_fits, sample_link_wf. left.
  - apply last_link_datagram_fits, sample_link_wf. right. left.
Defined.
