(* ===== verification/Json.v ===== *)
(** * JSON values as the crates use [serde_json]

    [serde_json] is a library the sources only call, so its value type and its
    functions are the class [SerdeJson], with the documented facts the crates rely
    on as its laws. A [json!] literal and the [Value] constructors are the type
    [lit]. [bit_json] is an instance, used by the concrete runs. *)

From S2P Require Import Prelude RustStr.
From Stdlib Require Import Ascii.
From Stdlib Require String.
From stdpp Require Import countable.
Local Open Scope Z_scope.

(** What [json!] and the constructors of [Value] write. *)
#[warnings="-register-all"]
Inductive lit :=
| LNull
| LBool (b : bool)
| LNum (n : Z)
| LStr (s : string)
| LArr (l : list lit)
| LObj (l : list (string * lit)).

Fixpoint assoc {A} (k : string) (l : list (string * A)) : option A :=
  match l with
  | [] => None
  | (k', a) :: l' => if String.eqb k k' then Some a else assoc k l'
  end.

Class SerdeJson := {
  value : Type;
  of_lit : lit -> value;
  get : string -> value -> option value;           (* Value::get with a string *)
  as_str : value -> option string;
  as_u64 : value -> option Z;
  as_bool : value -> option bool;
  as_array : value -> option (list value);
  is_object : value -> bool;                       (* as_object_mut is Some *)
  obj_insert : string -> value -> value -> value;  (* Map::insert on an object *)
  obj_remove : string -> value -> value;           (* Map::remove on an object *)
  from_str : string -> error + value;
  to_string : value -> string;
  to_string_pretty : value -> string;
  get_lit kvs k : NoDup (map fst kvs) -> get k (of_lit (LObj kvs)) = of_lit <$> assoc k kvs;
  as_str_lit s : as_str (of_lit (LStr s)) = Some s;
  as_str_obj kvs : as_str (of_lit (LObj kvs)) = None;
  as_u64_lit n : in_range 64 n -> as_u64 (of_lit (LNum n)) = Some n;
  as_bool_lit b : as_bool (of_lit (LBool b)) = Some b;
  as_array_lit l : as_array (of_lit (LArr l)) = Some (map of_lit l);
  is_object_lit kvs : is_object (of_lit (LObj kvs)) = true;
  get_object k v x : get k v = Some x -> is_object v = true;
  get_insert k x v : is_object v = true -> get k (obj_insert k x v) = Some x;
  get_insert_ne k k' x v : is_object v = true -> k <> k' -> get k (obj_insert k' x v) = get k v;
  get_remove k v : is_object v = true -> get k (obj_remove k v) = None;
  get_remove_ne k k' v : is_object v = true -> k <> k' -> get k (obj_remove k' v) = get k v;
  insert_object k x v : is_object v = true -> is_object (obj_insert k x v) = true;
  remove_object k v : is_object v = true -> is_object (obj_remove k v) = true;
  print_parse kvs : from_str (to_string (of_lit (LObj kvs))) = inr (of_lit (LObj kvs));
  print_braces kvs : exists s, to_string (of_lit (LObj kvs)) = "{" +:+ s +:+ "}";
  print_one_line v : str_elem lf (to_string v) = false;
}.

(** Reading a literal object back, its keys compared by computation. *)
Lemma get_obj `{SerdeJson} kvs k :
  bool_decide (NoDup (map fst kvs)) = true -> get k (of_lit (LObj kvs)) = of_lit <$> assoc k kvs.
Proof. intros Hn%bool_decide_eq_true. by apply get_lit. Qed.

(** [v.get(k).and_then(Value::as_str).unwrap_or(d)] *)
Definition str_field `{SerdeJson} (k : string) (v : value) (d : string) : string :=
  default d (get k v ≫= as_str).

(** [if let Some(x) = v.pointer_mut("/k") { if let Some(obj) = x.as_object_mut() { f(obj) } }];
    on an array a pointer token that is no index finds nothing, as [get] does. *)
Definition edit_object `{SerdeJson} (k : string) (f : value -> value) (v : value) : value :=
  match get k v with
  | Some x => if is_object x then obj_insert k (f x) v else v
  | None => v
  end.

Section Edit.
Context `{SerdeJson}.

Lemma edit_object_other k k' f v : k' <> k -> get k' (edit_object k f v) = get k' v.
Proof.
  intros Hne. unfold edit_object. destruct (get k v) as [x|] eqn:E; [|done].
  destruct (is_object x); [|done]. apply get_insert_ne; [by eapply get_object|done].
Qed.

Lemma edit_object_field k f v x :
  get k v = Some x -> is_object x = true -> get k (edit_object k f v) = Some (f x).
Proof.
  intros E Ho. unfold edit_object. rewrite E, Ho. apply get_insert. by eapply get_object.
Qed.
End Edit.

(** ** A line of the protocol is what was printed *)

Lemma ws_rest_prefix s r : ws_rest s = Some r ->
  exists p, s = p +:+ r /\ p <> "" /\ str_elem "}" p = false.
Proof.
  unfold ws_rest. intros Hw.
  destruct s as [|c1 s]; [done|]. cbn [bytes_of] in Hw.
  assert (Hb : forall c, byte_of c <> 125 -> Ascii.eqb "}" c = false).
  { intros c Hc. apply Ascii.eqb_neq. intros <-. apply Hc. reflexivity. }
  case_match eqn:E1.
  { injection Hw as <-. exists (String c1 ""). split_and!; [done..|].
    cbn [str_elem]. rewrite Hb; [done|lia]. }
  destruct s as [|c2 s]; [by repeat case_match|]. cbn [bytes_of] in Hw.
  destruct s as [|c3 s]; cbn [bytes_of] in Hw.
  - repeat case_match; try done; simplify_eq.
    exists (String c1 (String c2 "")). split_and!; [done..|]. cbn [str_elem]. rewrite !Hb; [done|lia|lia].
  - repeat case_match; try done; simplify_eq;
      first [exists (String c1 (String c2 (String c3 ""))); split_and!; [done..|]; cbn [str_elem]; rewrite !Hb; [done|lia..]
            |exists (String c1 (String c2 "")); split_and!; [done..|]; cbn [str_elem]; rewrite !Hb; [done|lia..]].
Qed.

Lemma app_split_brace x t p r :
  x +:+ String "}" t = p +:+ r -> str_elem "}" p = false -> exists x', x = p +:+ x' /\ r = x' +:+ String "}" t.
Proof.
  revert x. induction p as [|c p IH]; intros x E Hp; [exists x; done|].
  destruct x as [|c' x].
  - injection E as <- _. done.
  - cbn in Hp. apply orb_false_iff in Hp as [_ Hp]. injection E as <- E.
    destruct (IH x E Hp) as (x' & -> & ->). by exists x'.
Qed.

Lemma trim_end_brace n x pos best :
  (String.length x + 2 < n)%nat ->
  trim_end_len n (x +:+ String "}" (String lf "")) pos best = (pos + String.length x + 1)%nat.
Proof.
  revert x pos best. induction n as [|n IH]; intros x pos best Hn; [lia|]. cbn [trim_end_len].
  destruct (ws_rest (x +:+ String "}" (String lf ""))) as [r|] eqn:E.
  - destruct (ws_rest_prefix _ _ E) as (p & Ep & Hne & Hp).
    destruct (app_split_brace _ _ _ _ Ep Hp) as (x' & -> & ->).
    rewrite IH, !length_sapp; cbn [String.length].
    + rewrite !length_sapp in *. destruct p; cbn in *; lia.
    + rewrite length_sapp in Hn.
      destruct p; [done|]. cbn in Hn. lia.
  - destruct x as [|c x]; cbn [String.append String.length].
    + destruct n as [|n]; [cbn in Hn; lia|]. cbn [trim_end_len String.append].
      change ("" +:+ String "}" (String lf "")) with (String "}" (String lf "")).
      change (ws_rest (String lf "")) with (Some "").
      transitivity (S pos); [|cbn; lia]. by destruct n.
    + rewrite sapp_cons, IH; cbn in Hn |- *; lia.
Qed.

Lemma ws_rest_brace x : ws_rest (String "{" x) = None.
Proof. destruct x as [|? [|? ?] ]; reflexivity. Qed.

Lemma trim_line s : trim ("{" +:+ s +:+ "}" +:+ String lf "") = "{" +:+ s +:+ "}".
Proof.
  unfold trim. replace (drop_ws_start _) with ("{" +:+ s +:+ "}" +:+ String lf "")
    by (rewrite sapp_cons; unfold drop_ws_start; cbn [String.length]; by rewrite ws_rest_brace).
  unfold trim_end.
  replace ("{" +:+ s +:+ "}" +:+ String lf "") with (("{" +:+ s) +:+ String "}" (String lf ""))
    by (by rewrite <- sapp_assoc).
  rewrite trim_end_brace by (rewrite !length_sapp; cbn; lia).
  replace (("{" +:+ s) +:+ String "}" (String lf "")) with (("{" +:+ s +:+ "}") +:+ String lf "")
    by (rewrite !sapp_assoc; reflexivity).
  apply str_take_app. rewrite !length_sapp. cbn. lia.
Qed.

(** The line a peer sends, read back with [from_str(line.trim())]. *)
Definition json_line `{SerdeJson} (v : value) : string := to_string v +:+ String lf "".

Lemma read_json_line `{SerdeJson} kvs :
  from_str (trim (json_line (of_lit (LObj kvs)))) = inr (of_lit (LObj kvs)).
Proof.
  unfold json_line. destruct (print_braces kvs) as [s E]. rewrite E.
  rewrite !sapp_assoc, trim_line, <- E. apply print_parse.
Qed.

(** ** An instance

    Objects are association lists with the newest binding first, and a value
    prints as the bits of its code between braces. *)

Section LitInd.
Variable P : lit -> Prop.
Hypothesis Hnull : P LNull.
Hypothesis Hbool : forall b, P (LBool b).
Hypothesis Hnum : forall n, P (LNum n).
Hypothesis Hstr : forall s, P (LStr s).
Hypothesis Harr : forall l, Forall P l -> P (LArr l).
Hypothesis Hobj : forall l, Forall (fun kv => P (snd kv)) l -> P (LObj l).

Fixpoint lit_nested_ind (v : lit) : P v :=
  match v with
  | LNull => Hnull
  | LBool b => Hbool b
  | LNum n => Hnum n
  | LStr s => Hstr s
  | LArr l => Harr l ((fix go l := match l return Forall P l with
      | [] => Forall_nil_2 _
      | x :: l' => Forall_cons_2 _ _ _ (lit_nested_ind x) (go l')
      end) l)
  | LObj l => Hobj l ((fix go l := match l return Forall (fun kv => P (snd kv)) l with
      | [] => Forall_nil_2 _
      | kv :: l' => Forall_cons_2 _ _ _
          (match kv return P (snd kv) with (_, x) => lit_nested_ind x end) (go l')
      end) l)
  end.
End LitInd.

Fixpoint lit_tree (v : lit) : gen_tree (bool + Z + string) :=
  match v with
  | LNull => GenNode 0 []
  | LBool b => GenLeaf (inl (inl b))
  | LNum n => GenLeaf (inl (inr n))
  | LStr s => GenLeaf (inr s)
  | LArr l => GenNode 1 (map lit_tree l)
  | LObj l => GenNode 2 (map (fun '(k, x) => GenNode 3 [GenLeaf (inr k); lit_tree x]) l)
  end.

Fixpoint tree_lit (t : gen_tree (bool + Z + string)) : lit :=
  match t with
  | GenLeaf (inl (inl b)) => LBool b
  | GenLeaf (inl (inr n)) => LNum n
  | GenLeaf (inr s) => LStr s
  | GenNode 1 l => LArr (map tree_lit l)
  | GenNode 2 l => LObj (map (fun t => match t with
      | GenNode _ [GenLeaf (inr k); x] => (k, tree_lit x) | _ => ("", LNull) end) l)
  | GenNode _ _ => LNull
  end.

Lemma tree_lit_tree v : tree_lit (lit_tree v) = v.
Proof.
  induction v as [|b|n|s|l IH|l IH] using lit_nested_ind; try reflexivity; cbn; f_equal.
  - induction IH as [|x l Hx _ IH]; cbn; by f_equal.
  - induction IH as [|[k x] l Hx _ IH]; cbn in *; [done|]. rewrite Hx. by f_equal.
Qed.

Fixpoint pos_bits (p : positive) (s : string) : string :=
  match p with
  | xH => s
  | xO p' => String "0" (pos_bits p' s)
  | xI p' => String "1" (pos_bits p' s)
  end.

Fixpoint bits_pos (s : string) : positive :=
  match s with
  | String "0" s' => xO (bits_pos s')
  | String "1" s' => xI (bits_pos s')
  | _ => xH
  end.

Lemma bits_pos_bits p : bits_pos (pos_bits p "}") = p.
Proof. induction p; cbn; congruence. Qed.

Definition lit_print (v : lit) : string := String "{" (pos_bits (encode (lit_tree v)) "}").

Definition lit_parse (s : string) : error + lit :=
  match s with
  | String "{" s' => match decode (bits_pos s') with Some t => inr (tree_lit t) | None => inl (Msg "json") end
  | _ => inl (Msg "json")
  end.

Definition drop_key {A} (k : string) (l : list (string * A)) : list (string * A) :=
  filter (fun kv => kv.1 <> k) l.

Lemma assoc_drop_key {A} k (l : list (string * A)) : assoc k (drop_key k l) = None.
Proof.
  unfold drop_key. induction l as [|[k' a] l IH]; [done|]. rewrite filter_cons. case_decide as Hd; [|done].
  cbn in Hd |- *. destruct (String.eqb_spec k k'); congruence.
Qed.

Lemma assoc_drop_key_ne {A} k k' (l : list (string * A)) : k <> k' -> assoc k (drop_key k' l) = assoc k l.
Proof.
  intros Hne. unfold drop_key. induction l as [|[k0 a] l IH]; [done|]. rewrite filter_cons.
  case_decide; cbn in *; rewrite IH; [done|].
  destruct (String.eqb_spec k k0); [|done]. subst. exfalso. naive_solver.
Qed.

Lemma pos_bits_no_lf p : str_elem lf (pos_bits p "}") = false.
Proof. induction p; cbn; done. Qed.

#[local, refine] Instance bit_json : SerdeJson := {|
  value := lit;
  of_lit v := v;
  get k v := match v with LObj l => assoc k l | _ => None end;
  as_str v := match v with LStr s => Some s | _ => None end;
  as_u64 v := match v with LNum n => if (0 <=? n) && (n <? 2 ^ 64) then Some n else None | _ => None end;
  as_bool v := match v with LBool b => Some b | _ => None end;
  as_array v := match v with LArr l => Some l | _ => None end;
  is_object v := match v with LObj _ => true | _ => false end;
  obj_insert k x v := match v with LObj l => LObj ((k, x) :: drop_key k l) | _ => v end;
  obj_remove k v := match v with LObj l => LObj (drop_key k l) | _ => v end;
  from_str := lit_parse;
  to_string := lit_print;
  to_string_pretty := lit_print;
|}.
Proof.
  - intros. by destruct (assoc k kvs).
  - done.
  - done.
  - intros n [H0 Hn]. destruct (Z.leb_spec 0 n), (Z.ltb_spec n (2 ^ 64)); try done; lia.
  - done.
  - intros. by rewrite map_id.
  - done.
  - by intros k [] x.
  - intros k x []; try done. intros _. cbn. by rewrite String.eqb_refl.
  - intros k k' x []; try done. intros _ Hne. cbn.
    destruct (String.eqb_spec k k'); [done|]. by apply assoc_drop_key_ne.
  - intros k []; try done. intros _. apply assoc_drop_key.
  - intros k k' []; try done. intros _. by apply assoc_drop_key_ne.
  - by intros k x [].
  - by intros k [].
  - intros kvs. unfold lit_print. cbn [lit_parse]. by rewrite bits_pos_bits, decode_encode, tree_lit_tree.
  - intros kvs. unfold lit_print. generalize (encode (lit_tree (LObj kvs))). intros p.
    exists (pos_bits p "").
    assert (E : forall q, pos_bits q "}" = pos_bits q "" +:+ "}") by (induction q as [q IH|q IH|]; cbn; rewrite ?sapp_cons, ?IH; reflexivity).
    rewrite E, sapp_cons. reflexivity.
  - intros v. unfold lit_print. cbn. apply pos_bits_no_lf.
Defined.
