(* ===== verification/Proto.v ===== *)
(** * The messages of the agent's ttrpc service

    The records of [proto/agent.proto] as the generated Rust structs hold them
    ([crates/proto/src/generated/agent.rs]), without protobuf's own bookkeeping
    field. [bytes] fields are byte strings. *)

From S2P Require Import Prelude.
Local Open Scope Z_scope.

Inductive VolumeType := FILESYSTEM | BLOCK.

#[export] Instance VolumeType_eq_dec : EqDecision VolumeType.
Proof. solve_decision. Defined.

Record InlineFile := mkInlineFile {
  if_path : string; if_content : string; if_mode : Z }.

(** [volume_type] is open: [inr] holds a number no variant has. *)
Record VolumeMount := mkVolumeMount {
  vm_destination : string; vm_source : string; vm_options : list string;
  vm_readonly : bool; vm_volume_type : VolumeType + Z; vm_fs_type : string;
  vm_files : list InlineFile }.

Record CreateContainerRequest := mkCreateContainerRequest {
  cc_container_id : string; cc_bundle_path : string;
  cc_stdin : string; cc_stdout : string; cc_stderr : string; cc_terminal : bool;
  cc_volumes : list VolumeMount; cc_config_json : string;
  cc_rootfs_preattached : bool; cc_erofs_layers : Z }.

Record CreateContainerResponse := mkCreateContainerResponse { cr_pid : Z }.

Record StartContainerRequest := mkStartContainerRequest { st_container_id : string }.

Record StartContainerResponse := mkStartContainerResponse { sp_pid : Z }.

Record KillContainerRequest := mkKillContainerRequest {
  kc_container_id : string; kc_signal : Z; kc_all : bool }.

Record KillContainerResponse := mkKillContainerResponse { }.

Record DeleteContainerRequest := mkDeleteContainerRequest { dr_container_id : string }.

Record WaitContainerRequest := mkWaitContainerRequest { wr_container_id : string }.

Record WaitContainerResponse := mkWaitContainerResponse {
  wc_exit_status : Z; wc_exited_at : string }.

Record DeleteContainerResponse := mkDeleteContainerResponse {
  dc_exit_status : Z; dc_pid : Z }.

Record ExecProcessRequest := mkExecProcessRequest {
  ep_container_id : string; ep_exec_id : string; ep_spec_json : string;
  ep_stdin : string; ep_stdout : string; ep_stderr : string; ep_terminal : bool }.

Record ExecProcessResponse := mkExecProcessResponse { er_pid : Z }.

Record StateContainerRequest := mkStateContainerRequest { sq_container_id : string }.

Inductive ProtoState := UNKNOWN | CREATED | RUNNING | STOPPED | PAUSED.

#[export] Instance ProtoState_eq_dec : EqDecision ProtoState.
Proof. solve_decision. Defined.

Record StateContainerResponse := mkStateContainerResponse {
  sc_container_id : string; sc_pid : Z; sc_status : ProtoState + Z;
  sc_exit_status : Z; sc_exited_at : string }.

Record CheckRequest := mkCheckRequest { }.

Record CheckResponse := mkCheckResponse { ck_ready : bool; ck_version : string }.

Record GetMemInfoRequest := mkGetMemInfoRequest { }.

Record GetMemInfoResponse := mkGetMemInfoResponse {
  mem_total_kb : Z; mem_free_kb : Z; mem_available_kb : Z; buffers_kb : Z;
  cached_kb : Z; swap_total_kb : Z; swap_free_kb : Z }.

Record GetContainerLogsRequest := mkGetContainerLogsRequest { lq_container_id : string; lq_offset : Z }.

Record GetContainerLogsResponse := mkGetContainerLogsResponse {
  gl_stdout : string; gl_stderr : string; gl_offset : Z; gl_eof : bool }.

Record ConfigureNetworkRequest := mkConfigureNetworkRequest {
  cn_ip_address : string; cn_gateway : string; cn_prefix_len : Z;
  cn_device : string; cn_mac : string }.

Record ConfigureNetworkResponse := mkConfigureNetworkResponse { }.

Record AdoptContainerRequest := mkAdoptContainerRequest {
  ac_old_container_id : string; ac_new_container_id : string }.

Record AdoptContainerResponse := mkAdoptContainerResponse { ar_pid : Z }.

#[export] Instance InlineFile_eq_dec : EqDecision InlineFile.
Proof. solve_decision. Defined.
#[export] Instance VolumeMount_eq_dec : EqDecision VolumeMount.
Proof. solve_decision. Defined.
#[export] Instance CreateContainerRequest_eq_dec : EqDecision CreateContainerRequest.
Proof. solve_decision. Defined.
#[export] Instance KillContainerRequest_eq_dec : EqDecision KillContainerRequest.
Proof. solve_decision. Defined.
#[export] Instance ConfigureNetworkRequest_eq_dec : EqDecision ConfigureNetworkRequest.
Proof. solve_decision. Defined.
#[export] Instance AdoptContainerRequest_eq_dec : EqDecision AdoptContainerRequest.
Proof. solve_decision. Defined.
