(* ===== verification/ProtoRt.v ===== *)
(** * The protobuf runtime as the generated code uses it

    The generated messages call the [protobuf] crate for every read and write of
    a field; that crate is the class [Protobuf], with the documented wire format as
    its laws: what is written as a field is read back as that field, and takes the
    room its size function says. [wire] is an instance. The trait [Message] is a
    class, its loop [merge_from] (the same in every message) is here. *)

From S2P Require Import Prelude RustStr Bytes Netlink.
From Stdlib Require String.
Local Open Scope Z_scope.

(** Well-formed UTF-8, as every [String] is. *)
Fixpoint utf8_go (fuel : nat) (l : bytes) : bool :=
  match l with
  | [] => true
  | _ :: _ =>
      match fuel with
      | O => false
      | S fuel' => let '(n, ok) := utf8_char l in ok && utf8_go fuel' (drop n l)
      end
  end.
Definition is_utf8 (s : string) : bool := utf8_go (String.length s) (bytes_of s).

(** A field number whose tag is one byte, as all of the messages' are. *)
Definition small (n : Z) : Prop := 1 <= n <= 15.

(** Protobuf's limit for strings and nested messages. *)
Definition short (len : Z) : Prop := 0 <= len < 2 ^ 31.
Definition text (s : string) : Prop := is_utf8 s = true /\ short (Z.of_nat (String.length s)).
Definition blob (s : string) : Prop := short (Z.of_nat (String.length s)).
Definition int32 (z : Z) : Prop := - 2 ^ 31 <= z < 2 ^ 31.

(** [chunk] is the tag [tag] followed by something [rd] reads as [v]. *)
Definition encodes {A} (read_tag : bytes -> result (option Z * bytes)) (tag : Z) (chunk : bytes)
    (rd : bytes -> result (A * bytes)) (v : A) : Prop :=
  chunk <> [] /\ forall rest, exists body,
    read_tag (chunk ++ rest) = Ok (Some tag, body) /\ rd body = Ok (v, rest).

Class Protobuf := {
  (* CodedInputStream, over the bytes left *)
  read_raw_tag_or_eof : bytes -> result (option Z * bytes);
  read_string : bytes -> result (string * bytes);
  read_bytes : bytes -> result (string * bytes);
  read_bool : bytes -> result (bool * bytes);
  read_uint32 : bytes -> result (Z * bytes);
  read_uint64 : bytes -> result (Z * bytes);
  read_int32 : bytes -> result (Z * bytes);
  read_len : bytes -> result (bytes * bytes);          (* the extent of a nested message *)
  read_unknown_or_skip_group : Z -> bytes -> result bytes;
  (* CodedOutputStream, on a vector *)
  write_string : Z -> string -> bytes;
  write_bytes : Z -> string -> bytes;
  write_bool : Z -> bool -> bytes;
  write_uint32 : Z -> Z -> bytes;
  write_uint64 : Z -> Z -> bytes;
  write_enum : Z -> Z -> bytes;
  write_header : Z -> Z -> bytes;                      (* tag and length of a nested message *)
  (* protobuf::rt *)
  string_size : Z -> string -> Z;
  bytes_size : Z -> string -> Z;
  uint32_size : Z -> Z -> Z;
  uint64_size : Z -> Z -> Z;
  int32_size : Z -> Z -> Z;
  compute_raw_varint64_size : Z -> Z;
  read_eof : read_raw_tag_or_eof [] = Ok (None, []);
  string_law n s : small n -> text s -> encodes read_raw_tag_or_eof (8 * n + 2) (write_string n s) read_string s;
  bytes_law n s : small n -> blob s -> encodes read_raw_tag_or_eof (8 * n + 2) (write_bytes n s) read_bytes s;
  bool_law n b : small n -> encodes read_raw_tag_or_eof (8 * n) (write_bool n b) read_bool b;
  uint32_law n z : small n -> in_range 32 z -> encodes read_raw_tag_or_eof (8 * n) (write_uint32 n z) read_uint32 z;
  uint64_law n z : small n -> in_range 64 z -> encodes read_raw_tag_or_eof (8 * n) (write_uint64 n z) read_uint64 z;
  enum_law n z : small n -> int32 z -> encodes read_raw_tag_or_eof (8 * n) (write_enum n z) read_int32 z;
  header_law n b : small n -> short (Z.of_nat (length b)) ->
    encodes read_raw_tag_or_eof (8 * n + 2) (write_header n (Z.of_nat (length b)) ++ b) read_len b;
  string_size_law n s : small n -> text s -> string_size n s = Z.of_nat (length (write_string n s));
  bytes_size_law n s : small n -> blob s -> bytes_size n s = Z.of_nat (length (write_bytes n s));
  bool_size_law n b : small n -> 1 + 1 = Z.of_nat (length (write_bool n b));
  uint32_size_law n z : small n -> in_range 32 z -> uint32_size n z = Z.of_nat (length (write_uint32 n z));
  uint64_size_law n z : small n -> in_range 64 z -> uint64_size n z = Z.of_nat (length (write_uint64 n z));
  enum_size_law n z : small n -> int32 z -> int32_size n z = Z.of_nat (length (write_enum n z));
  header_size_law n len : small n -> short len ->
    1 + compute_raw_varint64_size len = Z.of_nat (length (write_header n len));
}.

(** ** Fields left at their defaults are not written *)

Definition is_empty (s : string) : bool := match s with EmptyString => true | _ => false end.

Lemma is_empty_true s : is_empty s = true -> s = "".
Proof. by destruct s. Qed.

Definition sum_size (l : list Z) : Z := foldr Z.add 0 l.

(** ** The trait [Message] *)

(** [merge_field] is the body of the loop of [merge_from]: what it does on a tag. *)
Class Message (A : Type) := {
  new : A;
  merge_field : Z -> bytes -> A -> result (A * bytes);
  compute_size : A -> Z;
  write_to : A -> bytes;
  clear : A -> A;
}.

Section Runtime.
Context `{Protobuf}.

Section Merge.
Context `{Message A}.

Fixpoint merge_go (fuel : nat) (m : A) (inp : bytes) : result A :=
  match fuel with
  | O => Hang
  | S fuel' =>
      '(o, inp1) ← read_raw_tag_or_eof inp;
      match o with
      | None => Ok m
      | Some tag => '(m', inp2) ← merge_field tag inp1 m; merge_go fuel' m' inp2
      end
  end.

Definition merge_from (m : A) (inp : bytes) : result A := merge_go (S (length inp)) m inp.

Definition read_message (inp : bytes) : result (A * bytes) :=
  '(sub, inp') ← read_len inp; m ← merge_from new sub; Ok (m, inp').

(** [write_message_field_with_cached_size], the cached size being a [u32]. *)
Definition write_message (n : Z) (v : A) : bytes := write_header n (wrap 32 (compute_size v)) ++ write_to v.
End Merge.

(** ** Enums *)

(** The trait [Enum]; a field of an enum's type is an [EnumOrUnknown], an [i32]
    that need not be a variant's. *)
Class ProtoEnum (E : Type) := {
  value : E -> Z;
  from_i32 : Z -> option E;
  value_int32 e : int32 (value e);
  from_value e : from_i32 (value e) = Some e;
}.

Definition enum_value `{ProtoEnum E} (v : E + Z) : Z := match v with inl e => value e | inr z => z end.
Definition enum_of `{ProtoEnum E} (z : Z) : E + Z := match from_i32 z with Some e => inl e | None => inr z end.

(** The numbers of the variants are kept as variants. *)
Definition canonical `{ProtoEnum E} (v : E + Z) : Prop := int32 (enum_value v) /\ enum_of (enum_value v) = v.

Definition read_enum_or_unknown `{ProtoEnum E} (inp : bytes) : result ((E + Z) * bytes) :=
  '(z, inp') ← read_int32 inp; Ok (enum_of z, inp').

(** Comparison of two [EnumOrUnknown]s: of their numbers. *)
Definition enum_is `{ProtoEnum E} (e : E) (v : E + Z) : bool := enum_value v =? value e.

Lemma enum_is_true `{ProtoEnum E} (e : E) v : canonical v -> enum_is e v = true -> v = inl e.
Proof. intros [_ Hv] He%Z.eqb_eq. rewrite <- Hv, He. unfold enum_of. by rewrite from_value. Qed.

Lemma canonical_inl `{ProtoEnum E} (e : E) : canonical (inl e).
Proof. split; [apply value_int32|]. unfold enum_of. cbn. by rewrite from_value. Qed.

Lemma enum_field_law `{ProtoEnum E} n (v : E + Z) :
  small n -> canonical v -> encodes read_raw_tag_or_eof (8 * n) (write_enum n (enum_value v)) read_enum_or_unknown v.
Proof.
  intros Hn [Hi Hv]. destruct (enum_law n _ Hn Hi) as [Hne He]. split; [done|]. intros rest.
  destruct (He rest) as (body & Ht & Hr). exists body. split; [done|].
  unfold read_enum_or_unknown. rewrite Hr. cbn [mbind result_bind]. by rewrite Hv.
Qed.

Lemma enum_field_size `{ProtoEnum E} n (v : E + Z) :
  small n -> canonical v -> int32_size n (enum_value v) = Z.of_nat (length (write_enum n (enum_value v))).
Proof. intros Hn [Hi _]. by apply enum_size_law. Qed.

(** ** Reading back what was written *)

(** The loop, fed [inp], makes [m'] of [m]. *)
Inductive parses `{Message A} : A -> bytes -> A -> Prop :=
| parse_end m : parses m [] m
| parse_field m inp tag inp1 m1 inp2 m' :
    read_raw_tag_or_eof inp = Ok (Some tag, inp1) -> merge_field tag inp1 m = Ok (m1, inp2) ->
    (length inp2 < length inp)%nat -> parses m1 inp2 m' -> parses m inp m'.

(** Fed [chunk] first, the loop is at [m']. *)
Definition carries `{Message A} (m : A) (chunk : bytes) (m' : A) : Prop :=
  forall rest m'', parses m' rest m'' -> parses m (chunk ++ rest) m''.

Lemma parses_merge `{Message A} (m : A) inp m' : parses m inp m' -> merge_from m inp = Ok m'.
Proof.
  unfold merge_from. intros Hp. assert (forall fuel, (length inp < fuel)%nat -> merge_go fuel m inp = Ok m') as Hgo; [|apply Hgo; lia].
  induction Hp as [m|m inp tag inp1 m1 inp2 m' Ht Hm Hl Hp IH]; intros fuel Hf; (destruct fuel as [|fuel]; [lia|]); cbn [merge_go].
  - by rewrite read_eof.
  - rewrite Ht. cbn. rewrite Hm. cbn. apply IH. lia.
Qed.

Lemma carries_nil `{Message A} (m : A) : carries m [] m.
Proof. by intros rest m'' Hp. Qed.

Lemma carries_app `{Message A} (m1 m2 m3 : A) c c' : carries m1 c m2 -> carries m2 c' m3 -> carries m1 (c ++ c') m3.
Proof. intros H1 H2 rest m'' Hp. rewrite <- app_assoc. auto. Qed.

Lemma carries_merge `{Message A} (m m' : A) chunk : carries m chunk m' -> merge_from m chunk = Ok m'.
Proof. intros Hc. apply parses_merge. rewrite <- (app_nil_r chunk). apply Hc. constructor. Qed.

(** One field: the message is [put v] once the field's value [v] is read. *)
Lemma carries_field `{Message A} {V} tag chunk (rd : bytes -> result (V * bytes)) v (put : V -> A) (m : A) :
  encodes read_raw_tag_or_eof tag chunk rd v ->
  (forall inp x inp', rd inp = Ok (x, inp') -> merge_field tag inp m = Ok (put x, inp')) -> carries m chunk (put v).
Proof.
  intros [Hne He] Hm rest m'' Hp. destruct (He rest) as (body & Ht & Hr).
  eapply parse_field; [exact Ht|by apply Hm| |exact Hp].
  rewrite length_app. destruct chunk; [done|cbn; lia].
Qed.

(** A field that is left out when it has its default. *)
Lemma carries_opt `{Message A} {V} (skip : bool) tag chunk (rd : bytes -> result (V * bytes)) v (put : V -> A) (m : A) :
  (skip = true -> put v = m) -> encodes read_raw_tag_or_eof tag chunk rd v ->
  (forall inp x inp', rd inp = Ok (x, inp') -> merge_field tag inp m = Ok (put x, inp')) ->
  carries m (if skip then [] else chunk) (put v).
Proof. intros Hs He Hm. destruct skip; [rewrite Hs by done; apply carries_nil|by eapply carries_field]. Qed.

(** A repeated field. *)
Lemma carries_rep `{Message A} {V} tag (wr : V -> bytes) (rd : bytes -> result (V * bytes)) vs (put : list V -> A) :
  Forall (fun v => encodes read_raw_tag_or_eof tag (wr v) rd v) vs ->
  (forall l inp x inp', rd inp = Ok (x, inp') -> merge_field tag inp (put l) = Ok (put (l ++ [x]), inp')) ->
  forall l, carries (put l) (concat (map wr vs)) (put (l ++ vs)).
Proof.
  intros Hall Hm. induction Hall as [|v vs Hv Hvs IH]; intros l; [rewrite app_nil_r; apply carries_nil|].
  cbn [map concat]. eapply carries_app; [eapply (carries_field tag _ rd v (fun v => put (l ++ [v]))); [done|intros; by apply Hm]|].
  change (put (l ++ v :: vs)) with (put (l ++ [v] ++ vs)). rewrite app_assoc. apply IH.
Qed.

Lemma carries_all `{Message A} {V} tag (wr : V -> bytes) (rd : bytes -> result (V * bytes)) vs (put : list V -> A) :
  Forall (fun v => encodes read_raw_tag_or_eof tag (wr v) rd v) vs ->
  (forall l inp x inp', rd inp = Ok (x, inp') -> merge_field tag inp (put l) = Ok (put (l ++ [x]), inp')) ->
  carries (put []) (concat (map wr vs)) (put vs).
Proof. intros Hall Hm. by apply (carries_rep tag wr rd vs put Hall Hm []). Qed.

(** A nested message is read back when its own fields are and its size is what
    was announced. *)
Lemma message_law `{Message B} n (v : B) :
  small n -> carries new (write_to v) v -> compute_size v = Z.of_nat (length (write_to v)) -> short (compute_size v) ->
  encodes read_raw_tag_or_eof (8 * n + 2) (write_message n v) read_message v.
Proof.
  intros Hn Hc Hs Hsh. unfold write_message. rewrite wrap_small by (unfold short, in_range in *; lia). rewrite Hs in *.
  destruct (header_law n (write_to v) Hn Hsh) as [Hne He]. split; [done|]. intros rest. destruct (He rest) as (body & Ht & Hr).
  exists body. split; [done|]. unfold read_message. rewrite Hr.
  pose proof (carries_merge _ _ _ Hc) as Hmf. cbn [mbind result_bind]. by rewrite Hmf.
Qed.

Lemma message_size `{Message B} n (v : B) :
  small n -> compute_size v = Z.of_nat (length (write_to v)) -> short (compute_size v) ->
  1 + compute_raw_varint64_size (compute_size v) + compute_size v = Z.of_nat (length (write_message n v)).
Proof.
  intros Hn Hs Hsh. unfold write_message. rewrite wrap_small by (unfold short, in_range in *; lia).
  rewrite length_app, Nat2Z.inj_add, <- Hs. by rewrite (header_size_law n).
Qed.

(** ** Messages that are read back

    The instances are in [ProtoMsg]: a message whose strings are UTF-8 and whose
    numbers fit their width is what the reader makes of its encoding, and its
    encoding is as long as [compute_size] says. *)
Class Lawful A `{Message A} := {
  valid : A -> Prop;
  valid_carries m : valid m -> carries new (write_to m) m;
  valid_size m : valid m -> compute_size m = Z.of_nat (length (write_to m));
}.

(** A nested message has an announced length, of 31 bits. *)
Definition nested `{Lawful A} (m : A) : Prop := valid m /\ short (compute_size m).

Lemma nested_law `{Lawful A} n (m : A) :
  small n -> nested m -> encodes read_raw_tag_or_eof (8 * n + 2) (write_message n m) read_message m.
Proof. intros Hn [Hv Hs]. apply message_law; [done|by apply valid_carries|by apply valid_size|done]. Qed.

Lemma nested_size `{Lawful A} n (m : A) :
  small n -> nested m ->
  1 + compute_raw_varint64_size (compute_size m) + compute_size m = Z.of_nat (length (write_message n m)).
Proof. intros Hn [Hv Hs]. apply message_size; [done|by apply valid_size|done]. Qed.

Lemma lawful_roundtrip `{Lawful A} (m : A) : valid m -> merge_from new (write_to m) = Ok m.
Proof. intros Hv. by apply carries_merge, valid_carries. Qed.

(** *** Sizes *)

Lemma size_opt (b : bool) sz (chunk : bytes) :
  sz = Z.of_nat (length chunk) -> (if b then 0 else sz) = Z.of_nat (length (if b then [] else chunk)).
Proof. by destruct b. Qed.

Lemma size_rep {V} (sz : V -> Z) (wr : V -> bytes) vs :
  Forall (fun v => sz v = Z.of_nat (length (wr v))) vs -> sum_size (map sz vs) = Z.of_nat (length (concat (map wr vs))).
Proof.
  induction 1 as [|v vs Hv Hvs IH]; [done|]. cbn [map concat sum_size foldr].
  rewrite length_app, Nat2Z.inj_add, <- Hv. unfold sum_size in IH. by rewrite IH.
Qed.
End Runtime.

(** [carry put] takes the next field of a message: [put] is the message as a
    function of that field, with the fields before it set and the ones after it at
    their defaults. *)
Ltac side := first [done | unfold small; lia | match goal with H : _ |- _ => exact H end].
Ltac law :=
  first [ apply string_law; side | apply bytes_law; side | apply bool_law; side | apply uint32_law; side
        | apply uint64_law; side | apply enum_field_law; side ].
Ltac reads := let Hr := fresh in intros * Hr; cbn; rewrite Hr; reflexivity.
Ltac skips :=
  intros ?; first [ match goal with H : is_empty ?s = true |- _ => apply is_empty_true in H; subst; reflexivity end
                  | match goal with H : negb ?b = true |- _ => destruct b; [discriminate H|reflexivity] end
                  | match goal with H : (_ =? 0) = true |- _ => apply Z.eqb_eq in H; subst; reflexivity end
                  | match goal with H : enum_is _ _ = true |- _ => apply enum_is_true in H; [subst; reflexivity|side] end ].
Ltac carry_opt put := eapply (carries_opt _ _ _ _ _ put); [skips|law|reads].
Ltac carry_rep put :=
  eapply (carries_all _ _ _ _ put);
  [eapply Forall_impl; [eassumption|]; cbn beta; intros; first [law|apply nested_law; side]|reads].
Ltac carry put := eapply carries_app; [carry_opt put|].
Ltac carry_each put := eapply carries_app; [carry_rep put|].

Ltac size_law :=
  first [ apply string_size_law; side | apply bytes_size_law; side | apply bool_size_law; side
        | apply uint32_size_law; side | apply uint64_size_law; side | apply enum_field_size; side
        | apply nested_size; side ].
Ltac sizes :=
  rewrite ?length_app, ?Nat2Z.inj_add, ?Z.add_assoc; repeat (apply (f_equal2 Z.add));
  first [ apply size_opt; size_law
        | apply size_rep; eapply Forall_impl; [eassumption|]; cbn beta; intros; size_law | done ].
