(* ===== verification/Wire.v ===== *)
(** * The protobuf wire format, concretely

    An implementation of the class [Protobuf] of [ProtoRt]: base-128 varints, a
    tag of a field number and a wire type before each value, lengths before
    strings, byte strings and nested messages. It shows that the laws the messages'
    theorems rest on can hold. *)

From S2P Require Import Prelude RustStr Bytes Netlink ProtoRt.
From Stdlib Require String.
Local Open Scope Z_scope.

Module Wire.

(** ** Varints *)

Fixpoint varint (fuel : nat) (z : Z) : bytes :=
  match fuel with
  | O => []
  | S fuel' => if z <? 128 then [z] else 128 + z mod 128 :: varint fuel' (z / 128)
  end.

Fixpoint get_varint (fuel : nat) (l : bytes) : result (Z * bytes) :=
  match fuel, l with
  | S fuel', b :: r =>
      if b <? 128 then Ok (b, r)
      else '(v, r') ← get_varint fuel' r; Ok (b - 128 + 128 * v, r')
  | O, _ => Err (Msg "incorrect varint")
  | _, [] => Err (Msg "unexpected end of file")
  end.

Definition put (z : Z) : bytes := varint 10 z.
Definition get (l : bytes) : result (Z * bytes) := get_varint 10 l.

Lemma get_varint_varint fuel z rest :
  0 <= z < 128 ^ Z.of_nat fuel -> (0 < fuel)%nat -> get_varint fuel (varint fuel z ++ rest) = Ok (z, rest).
Proof.
  revert z. induction fuel as [|fuel IH]; intros z Hz Hf; [lia|].
  rewrite Nat2Z.inj_succ, Z.pow_succ_r in Hz by lia. cbn [varint].
  destruct (Z.ltb_spec z 128) as [Hs|Hl]; cbn [app get_varint].
  - by destruct (Z.ltb_spec z 128); [|lia].
  - pose proof (Z.mod_pos_bound z 128). pose proof (Z.div_mod z 128).
    destruct (Z.ltb_spec (128 + z mod 128) 128); [lia|].
    destruct fuel as [|fuel]; [simpl in Hz; lia|].
    rewrite IH by (lia || (split; [apply Z.div_pos|apply Z.div_lt_upper_bound]; lia)).
    cbn. do 2 f_equal. lia.
Qed.

Lemma length_varint fuel z : (length (varint fuel z) <= fuel)%nat.
Proof. revert z. induction fuel as [|fuel IH]; intros z; cbn [varint]; [done|]. case_match; cbn; [lia|]. specialize (IH (z / 128)). lia. Qed.

Lemma get_put z rest : in_range 64 z -> get (put z ++ rest) = Ok (z, rest).
Proof. intros Hz. apply get_varint_varint; [|lia]. unfold in_range in Hz. change (128 ^ Z.of_nat 10) with (2 ^ 70). lia. Qed.

(** ** Reading *)

Definition tag_or_eof (l : bytes) : result (option Z * bytes) :=
  match l with [] => Ok (None, []) | _ => '(t, r) ← get l; Ok (Some t, r) end.

Definition get_len (l : bytes) : result (bytes * bytes) :=
  '(n, r) ← get l;
  if n <=? Z.of_nat (length r) then Ok (take (Z.to_nat n) r, drop (Z.to_nat n) r)
  else Err (Msg "truncated message").

Definition get_str (l : bytes) : result (string * bytes) :=
  '(b, r) ← get_len l;
  if is_utf8 (str_of_bytes b) then Ok (str_of_bytes b, r) else Err (Msg "UTF-8 decode error").

Definition get_with {A} (f : Z -> A) (l : bytes) : result (A * bytes) := '(z, r) ← get l; Ok (f z, r).

Definition skip (tag : Z) (l : bytes) : result bytes :=
  match tag mod 8 with
  | 0 => '(_, r) ← get l; Ok r
  | 1 => Ok (drop 8 l)
  | 2 => '(_, r) ← get_len l; Ok r
  | 5 => Ok (drop 4 l)
  | _ => Err (Msg "unexpected wire type")
  end.

(** ** Writing *)

Definition header (n len : Z) : bytes := 8 * n + 2 :: put len.
Definition delimited (n : Z) (b : bytes) : bytes := header n (Z.of_nat (length b)) ++ b.
Definition number (n z : Z) : bytes := 8 * n :: put (wrap 64 z).

Lemma tag_spec t l : 0 <= t < 128 -> tag_or_eof (t :: l) = Ok (Some t, l).
Proof. intros Ht. cbn. by destruct (Z.ltb_spec t 128); [|lia]. Qed.

Lemma get_len_spec b rest :
  short (Z.of_nat (length b)) -> get_len (put (Z.of_nat (length b)) ++ b ++ rest) = Ok (b, rest).
Proof.
  intros Hb. unfold get_len. rewrite get_put by (unfold short, in_range in *; lia). cbn [mbind result_bind].
  rewrite length_app. destruct (Z.leb_spec (Z.of_nat (length b)) (Z.of_nat (length b + length rest))); [|lia].
  by rewrite Nat2Z.id, take_app_length, drop_app_length.
Qed.

Lemma delimited_law {A} n b (rd : bytes -> result (A * bytes)) v :
  small n -> short (Z.of_nat (length b)) ->
  (forall l r, get_len l = Ok (b, r) -> rd l = Ok (v, r)) ->
  encodes tag_or_eof (8 * n + 2) (delimited n b) rd v.
Proof.
  intros Hn Hb Hrd. split; [done|]. intros rest. exists (put (Z.of_nat (length b)) ++ b ++ rest). split.
  - unfold delimited, header. rewrite <- app_assoc. cbn [app]. apply tag_spec. unfold small in Hn. lia.
  - by apply Hrd, get_len_spec.
Qed.

Lemma number_law {A} n z (f : Z -> A) v : small n -> f (wrap 64 z) = v -> encodes tag_or_eof (8 * n) (number n z) (get_with f) v.
Proof.
  intros Hn Hf. split; [done|]. intros rest. exists (put (wrap 64 z) ++ rest). split.
  - apply tag_spec. unfold small in Hn. lia.
  - unfold get_with. rewrite get_put by (apply wrap_range; lia). cbn. by rewrite Hf.
Qed.

(** A negative [i32] is sent as its 64-bit two's complement. *)
Lemma int32_wrap z : int32 z -> swrap 32 (wrap 64 z) = z.
Proof.
  intros Hz. rewrite <- (swrap_small 32 z) at 2; [|lia|exact Hz]. unfold swrap, wrap.
  by rewrite <- (Z.mod_mod_divide z (2 ^ 64) (2 ^ 32)) by (exists (2 ^ 32); reflexivity).
Qed.

Definition bytes_field (n : Z) (s : string) : bytes := delimited n (bytes_of s).

#[export, refine] Instance wire : Protobuf := {
  read_raw_tag_or_eof := tag_or_eof;
  read_string := get_str;
  read_bytes := fun l => '(b, r) ← get_len l; Ok (str_of_bytes b, r);
  read_bool := get_with (fun z => negb (z =? 0));
  read_uint32 := get_with (wrap 32);
  read_uint64 := get_with (wrap 64);
  read_int32 := get_with (swrap 32);
  read_len := get_len;
  read_unknown_or_skip_group := skip;
  write_string := bytes_field;
  write_bytes := bytes_field;
  write_bool := fun n b => number n (if b then 1 else 0);
  write_uint32 := number;
  write_uint64 := number;
  write_enum := number;
  write_header := header;
  string_size := fun n s => Z.of_nat (length (bytes_field n s));
  bytes_size := fun n s => Z.of_nat (length (bytes_field n s));
  uint32_size := fun n z => Z.of_nat (length (number n z));
  uint64_size := fun n z => Z.of_nat (length (number n z));
  int32_size := fun n z => Z.of_nat (length (number n z));
  compute_raw_varint64_size := fun z => Z.of_nat (length (put z));
}.
Proof.
  - done.
  - intros n s Hn [Hu Hs]. apply delimited_law; [done|by rewrite length_bytes_of|].
    intros l r Hl. unfold get_str. rewrite Hl. cbn. by rewrite str_of_bytes_of, Hu.
  - intros n s Hn Hs. apply delimited_law; [done|by rewrite length_bytes_of|].
    intros l r Hl. rewrite Hl. cbn. by rewrite str_of_bytes_of.
  - intros n [] Hn; by apply number_law.
  - intros n z Hn Hz. apply number_law; [done|]. rewrite (wrap_small 64) by (unfold in_range in *; lia). by apply wrap_small.
  - intros n z Hn Hz. apply number_law; [done|]. by rewrite (wrap_small 64 z), wrap_small by done.
  - intros n z Hn Hz. apply number_law; [done|]. by apply int32_wrap.
  - intros n b Hn Hb. by apply delimited_law; [| |intros l r ->].
  - done.
  - done.
  - by intros n [] Hn.
  - done.
  - done.
  - done.
  - intros n len Hn Hs. unfold header. cbn [length]. lia.
Defined.

End Wire.
