(* ===== verification/ProtoMsg.v ===== *)
(** * Encoding and decoding of the agent's messages

    One group of definitions per message of [proto/agent.proto], as the generated
    code has them ([crates/proto/src/generated/agent.rs], which the shim and the
    daemon use, and the agent's own copy [crates/agent/src/generated/agent.rs], whose
    text is the same): [new_X] is the default instance, [merge_X] the body of the loop
    of [merge_from], [size_X] is [compute_size], [write_X]
    [write_to_with_cached_sizes] and [clear_X] [clear]. Unknown fields are skipped when
    read; the messages the program makes have none. [valid_X] says the message is one the Rust struct can
    hold (UTF-8 strings, numbers of their width) of encodable size, and [X_lawful]
    that it is then read back. *)

From S2P Require Import Prelude Bytes Proto ProtoRt Wire.
Local Open Scope Z_scope.

(** ** The enums *)

Definition VolumeType_value (t : VolumeType) : Z := match t with FILESYSTEM => 0 | BLOCK => 1 end.

Definition VolumeType_from_i32 (z : Z) : option VolumeType :=
  match z with 0 => Some FILESYSTEM | 1 => Some BLOCK | _ => None end.

Definition ContainerState_value (s : ProtoState) : Z :=
  match s with UNKNOWN => 0 | CREATED => 1 | RUNNING => 2 | STOPPED => 3 | PAUSED => 4 end.

Definition ContainerState_from_i32 (z : Z) : option ProtoState :=
  match z with
  | 0 => Some UNKNOWN | 1 => Some CREATED | 2 => Some RUNNING | 3 => Some STOPPED | 4 => Some PAUSED
  | _ => None
  end.

#[export, refine] Instance VolumeType_enum : ProtoEnum VolumeType := {
  value := VolumeType_value; from_i32 := VolumeType_from_i32 }.
Proof. all: by intros []. Defined.

#[export, refine] Instance ContainerState_enum : ProtoEnum ProtoState := {
  value := ContainerState_value; from_i32 := ContainerState_from_i32 }.
Proof. all: by intros []. Defined.

Section Messages.
Context `{Protobuf}.

(** ** [InlineFile] *)

Definition new_InlineFile : InlineFile := mkInlineFile "" "" 0.

Definition merge_InlineFile (tag : Z) (inp : bytes) (m : InlineFile) : result (InlineFile * bytes) :=
  let '(mkInlineFile path content mode) := m in
  match tag with
  | 10 => '(path, inp) ← read_string inp; Ok (mkInlineFile path content mode, inp)
  | 18 => '(content, inp) ← read_bytes inp; Ok (mkInlineFile path content mode, inp)
  | 24 => '(mode, inp) ← read_uint32 inp; Ok (mkInlineFile path content mode, inp)
  | _ => inp ← read_unknown_or_skip_group tag inp; Ok (m, inp)
  end.

Definition size_InlineFile (m : InlineFile) : Z :=
  let '(mkInlineFile path content mode) := m in
  (if is_empty path then 0 else string_size 1 path) +
  (if is_empty content then 0 else bytes_size 2 content) +
  (if mode =? 0 then 0 else uint32_size 3 mode).

Definition write_InlineFile (m : InlineFile) : bytes :=
  let '(mkInlineFile path content mode) := m in
  (if is_empty path then [] else write_string 1 path) ++
  (if is_empty content then [] else write_bytes 2 content) ++
  (if mode =? 0 then [] else write_uint32 3 mode).

Definition clear_InlineFile (m : InlineFile) : InlineFile := mkInlineFile "" "" 0.

#[export] Instance InlineFile_message : Message InlineFile := {
  new := new_InlineFile; merge_field := merge_InlineFile; compute_size := size_InlineFile; write_to := write_InlineFile;
  clear := clear_InlineFile }.

Definition valid_InlineFile (m : InlineFile) : Prop :=
  let '(mkInlineFile path content mode) := m in
  text path /\ blob content /\ in_range 32 mode.

#[export, refine] Instance InlineFile_lawful : Lawful InlineFile := { valid := valid_InlineFile }.
Proof.
  - intros [path content mode] (H0 & H1 & H2). cbn [write_to InlineFile_message write_InlineFile].
    carry (fun x => mkInlineFile x "" 0).
    carry (fun x => mkInlineFile path x 0).
    carry_opt (fun x => mkInlineFile path content x).
  - intros [path content mode] (H0 & H1 & H2). cbn [write_to compute_size InlineFile_message write_InlineFile size_InlineFile]. sizes.
Defined.

(** ** [VolumeMount] *)

Definition new_VolumeMount : VolumeMount :=
  mkVolumeMount "" "" [] false (inl FILESYSTEM) "" [].

Definition merge_VolumeMount (tag : Z) (inp : bytes) (m : VolumeMount) : result (VolumeMount * bytes) :=
  let '(mkVolumeMount destination source options readonly volume_type fs_type files) := m in
  match tag with
  | 10 => '(destination, inp) ← read_string inp;
      Ok (mkVolumeMount destination source options readonly volume_type fs_type files, inp)
  | 18 => '(source, inp) ← read_string inp;
      Ok (mkVolumeMount destination source options readonly volume_type fs_type files, inp)
  | 26 => '(v, inp) ← read_string inp;
      Ok (mkVolumeMount destination source (options ++ [v]) readonly volume_type fs_type files, inp)
  | 32 => '(readonly, inp) ← read_bool inp;
      Ok (mkVolumeMount destination source options readonly volume_type fs_type files, inp)
  | 40 => '(volume_type, inp) ← read_enum_or_unknown inp;
      Ok (mkVolumeMount destination source options readonly volume_type fs_type files, inp)
  | 50 => '(fs_type, inp) ← read_string inp;
      Ok (mkVolumeMount destination source options readonly volume_type fs_type files, inp)
  | 58 => '(v, inp) ← read_message inp;
      Ok (mkVolumeMount destination source options readonly volume_type fs_type (files ++ [v]), inp)
  | _ => inp ← read_unknown_or_skip_group tag inp; Ok (m, inp)
  end.

Definition size_VolumeMount (m : VolumeMount) : Z :=
  let '(mkVolumeMount destination source options readonly volume_type fs_type files) := m in
  (if is_empty destination then 0 else string_size 1 destination) +
  (if is_empty source then 0 else string_size 2 source) +
  sum_size (map (fun v => string_size 3 v) options) +
  (if negb readonly then 0 else 1 + 1) +
  (if enum_is FILESYSTEM volume_type then 0 else int32_size 5 (enum_value volume_type)) +
  (if is_empty fs_type then 0 else string_size 6 fs_type) +
  sum_size (map (fun v => 1 + compute_raw_varint64_size (compute_size v) + compute_size v) files).

Definition write_VolumeMount (m : VolumeMount) : bytes :=
  let '(mkVolumeMount destination source options readonly volume_type fs_type files) := m in
  (if is_empty destination then [] else write_string 1 destination) ++
  (if is_empty source then [] else write_string 2 source) ++
  concat (map (fun v => write_string 3 v) options) ++
  (if negb readonly then [] else write_bool 4 readonly) ++
  (if enum_is FILESYSTEM volume_type then [] else write_enum 5 (enum_value volume_type)) ++
  (if is_empty fs_type then [] else write_string 6 fs_type) ++
  concat (map (fun v => write_message 7 v) files).

Definition clear_VolumeMount (m : VolumeMount) : VolumeMount :=
  mkVolumeMount "" "" [] false (inl FILESYSTEM) "" [].

#[export] Instance VolumeMount_message : Message VolumeMount := {
  new := new_VolumeMount; merge_field := merge_VolumeMount; compute_size := size_VolumeMount; write_to := write_VolumeMount;
  clear := clear_VolumeMount }.

Definition valid_VolumeMount (m : VolumeMount) : Prop :=
  let '(mkVolumeMount destination source options readonly volume_type fs_type files) := m in
  text destination /\ text source /\ Forall text options /\ canonical volume_type /\
  text fs_type /\ Forall nested files.

#[export, refine] Instance VolumeMount_lawful : Lawful VolumeMount := { valid := valid_VolumeMount }.
Proof.
  - intros [destination source options readonly volume_type fs_type files] (H0 & H1 & H2 & H3 & H4 & H5). cbn [write_to VolumeMount_message write_VolumeMount].
    carry (fun x => mkVolumeMount x "" [] false (inl FILESYSTEM) "" []).
    carry (fun x => mkVolumeMount destination x [] false (inl FILESYSTEM) "" []).
    carry_each (fun x => mkVolumeMount destination source x false (inl FILESYSTEM) "" []).
    carry (fun x => mkVolumeMount destination source options x (inl FILESYSTEM) "" []).
    carry (fun x => mkVolumeMount destination source options readonly x "" []).
    carry (fun x => mkVolumeMount destination source options readonly volume_type x []).
    carry_rep (fun x => mkVolumeMount destination source options readonly volume_type fs_type x).
  - intros [destination source options readonly volume_type fs_type files] (H0 & H1 & H2 & H3 & H4 & H5). cbn [write_to compute_size VolumeMount_message write_VolumeMount size_VolumeMount]. sizes.
Defined.

(** ** [CreateContainerRequest] *)

Definition new_CreateContainerRequest : CreateContainerRequest :=
  mkCreateContainerRequest "" "" "" "" "" false [] "" false 0.

Definition merge_CreateContainerRequest (tag : Z) (inp : bytes) (m : CreateContainerRequest) : result (CreateContainerRequest * bytes) :=
  let '(mkCreateContainerRequest container_id bundle_path stdin stdout stderr terminal volumes config_json rootfs_preattached erofs_layers) := m in
  match tag with
  | 10 => '(container_id, inp) ← read_string inp;
      Ok (mkCreateContainerRequest container_id bundle_path stdin stdout stderr terminal volumes config_json rootfs_preattached erofs_layers, inp)
  | 18 => '(bundle_path, inp) ← read_string inp;
      Ok (mkCreateContainerRequest container_id bundle_path stdin stdout stderr terminal volumes config_json rootfs_preattached erofs_layers, inp)
  | 26 => '(stdin, inp) ← read_string inp;
      Ok (mkCreateContainerRequest container_id bundle_path stdin stdout stderr terminal volumes config_json rootfs_preattached erofs_layers, inp)
  | 34 => '(stdout, inp) ← read_string inp;
      Ok (mkCreateContainerRequest container_id bundle_path stdin stdout stderr terminal volumes config_json rootfs_preattached erofs_layers, inp)
  | 42 => '(stderr, inp) ← read_string inp;
      Ok (mkCreateContainerRequest container_id bundle_path stdin stdout stderr terminal volumes config_json rootfs_preattached erofs_layers, inp)
  | 48 => '(terminal, inp) ← read_bool inp;
      Ok (mkCreateContainerRequest container_id bundle_path stdin stdout stderr terminal volumes config_json rootfs_preattached erofs_layers, inp)
  | 58 => '(v, inp) ← read_message inp;
      Ok (mkCreateContainerRequest container_id bundle_path stdin stdout stderr terminal (volumes ++ [v]) config_json rootfs_preattached erofs_layers, inp)
  | 66 => '(config_json, inp) ← read_bytes inp;
      Ok (mkCreateContainerRequest container_id bundle_path stdin stdout stderr terminal volumes config_json rootfs_preattached erofs_layers, inp)
  | 80 => '(rootfs_preattached, inp) ← read_bool inp;
      Ok (mkCreateContainerRequest container_id bundle_path stdin stdout stderr terminal volumes config_json rootfs_preattached erofs_layers, inp)
  | 88 => '(erofs_layers, inp) ← read_uint32 inp;
      Ok (mkCreateContainerRequest container_id bundle_path stdin stdout stderr terminal volumes config_json rootfs_preattached erofs_layers, inp)
  | _ => inp ← read_unknown_or_skip_group tag inp; Ok (m, inp)
  end.

Definition size_CreateContainerRequest (m : CreateContainerRequest) : Z :=
  let '(mkCreateContainerRequest container_id bundle_path stdin stdout stderr terminal volumes config_json rootfs_preattached erofs_layers) := m in
  (if is_empty container_id then 0 else string_size 1 container_id) +
  (if is_empty bundle_path then 0 else string_size 2 bundle_path) +
  (if is_empty stdin then 0 else string_size 3 stdin) +
  (if is_empty stdout then 0 else string_size 4 stdout) +
  (if is_empty stderr then 0 else string_size 5 stderr) +
  (if negb terminal then 0 else 1 + 1) +
  sum_size (map (fun v => 1 + compute_raw_varint64_size (compute_size v) + compute_size v) volumes) +
  (if is_empty config_json then 0 else bytes_size 8 config_json) +
  (if negb rootfs_preattached then 0 else 1 + 1) +
  (if erofs_layers =? 0 then 0 else uint32_size 11 erofs_layers).

Definition write_CreateContainerRequest (m : CreateContainerRequest) : bytes :=
  let '(mkCreateContainerRequest container_id bundle_path stdin stdout stderr terminal volumes config_json rootfs_preattached erofs_layers) := m in
  (if is_empty container_id then [] else write_string 1 container_id) ++
  (if is_empty bundle_path then [] else write_string 2 bundle_path) ++
  (if is_empty stdin then [] else write_string 3 stdin) ++
  (if is_empty stdout then [] else write_string 4 stdout) ++
  (if is_empty stderr then [] else write_string 5 stderr) ++
  (if negb terminal then [] else write_bool 6 terminal) ++
  concat (map (fun v => write_message 7 v) volumes) ++
  (if is_empty config_json then [] else write_bytes 8 config_json) ++
  (if negb rootfs_preattached then [] else write_bool 10 rootfs_preattached) ++
  (if erofs_layers =? 0 then [] else write_uint32 11 erofs_layers).

Definition clear_CreateContainerRequest (m : CreateContainerRequest) : CreateContainerRequest :=
  mkCreateContainerRequest "" "" "" "" "" false [] "" false 0.

#[export] Instance CreateContainerRequest_message : Message CreateContainerRequest := {
  new := new_CreateContainerRequest; merge_field := merge_CreateContainerRequest; compute_size := size_CreateContainerRequest; write_to := write_CreateContainerRequest;
  clear := clear_CreateContainerRequest }.

Definition valid_CreateContainerRequest (m : CreateContainerRequest) : Prop :=
  let '(mkCreateContainerRequest container_id bundle_path stdin stdout stderr terminal volumes config_json rootfs_preattached erofs_layers) := m in
  text container_id /\ text bundle_path /\ text stdin /\ text stdout /\ text stderr /\
  Forall nested volumes /\ blob config_json /\ in_range 32 erofs_layers.

#[export, refine] Instance CreateContainerRequest_lawful : Lawful CreateContainerRequest := { valid := valid_CreateContainerRequest }.
Proof.
  - intros [container_id bundle_path stdin stdout stderr terminal volumes config_json rootfs_preattached erofs_layers] (H0 & H1 & H2 & H3 & H4 & H5 & H6 & H7). cbn [write_to CreateContainerRequest_message write_CreateContainerRequest].
    carry (fun x => mkCreateContainerRequest x "" "" "" "" false [] "" false 0).
    carry (fun x => mkCreateContainerRequest container_id x "" "" "" false [] "" false 0).
    carry (fun x => mkCreateContainerRequest container_id bundle_path x "" "" false [] "" false 0).
    carry (fun x => mkCreateContainerRequest container_id bundle_path stdin x "" false [] "" false 0).
    carry (fun x => mkCreateContainerRequest container_id bundle_path stdin stdout x false [] "" false 0).
    carry (fun x => mkCreateContainerRequest container_id bundle_path stdin stdout stderr x [] "" false 0).
    carry_each (fun x => mkCreateContainerRequest container_id bundle_path stdin stdout stderr terminal x "" false 0).
    carry (fun x => mkCreateContainerRequest container_id bundle_path stdin stdout stderr terminal volumes x false 0).
    carry (fun x => mkCreateContainerRequest container_id bundle_path stdin stdout stderr terminal volumes config_json x 0).
    carry_opt (fun x => mkCreateContainerRequest container_id bundle_path stdin stdout stderr terminal volumes config_json rootfs_preattached x).
  - intros [container_id bundle_path stdin stdout stderr terminal volumes config_json rootfs_preattached erofs_layers] (H0 & H1 & H2 & H3 & H4 & H5 & H6 & H7). cbn [write_to compute_size CreateContainerRequest_message write_CreateContainerRequest size_CreateContainerRequest]. sizes.
Defined.

(** ** [CreateContainerResponse] *)

Definition new_CreateContainerResponse : CreateContainerResponse := mkCreateContainerResponse 0.

Definition merge_CreateContainerResponse (tag : Z) (inp : bytes) (m : CreateContainerResponse) : result (CreateContainerResponse * bytes) :=
  let '(mkCreateContainerResponse pid) := m in
  match tag with
  | 8 => '(pid, inp) ← read_uint32 inp; Ok (mkCreateContainerResponse pid, inp)
  | _ => inp ← read_unknown_or_skip_group tag inp; Ok (m, inp)
  end.

Definition size_CreateContainerResponse (m : CreateContainerResponse) : Z :=
  let '(mkCreateContainerResponse pid) := m in
  (if pid =? 0 then 0 else uint32_size 1 pid).

Definition write_CreateContainerResponse (m : CreateContainerResponse) : bytes :=
  let '(mkCreateContainerResponse pid) := m in
  (if pid =? 0 then [] else write_uint32 1 pid).

Definition clear_CreateContainerResponse (m : CreateContainerResponse) : CreateContainerResponse := mkCreateContainerResponse 0.

#[export] Instance CreateContainerResponse_message : Message CreateContainerResponse := {
  new := new_CreateContainerResponse; merge_field := merge_CreateContainerResponse; compute_size := size_CreateContainerResponse; write_to := write_CreateContainerResponse;
  clear := clear_CreateContainerResponse }.

Definition valid_CreateContainerResponse (m : CreateContainerResponse) : Prop :=
  let '(mkCreateContainerResponse pid) := m in
  in_range 32 pid.

#[export, refine] Instance CreateContainerResponse_lawful : Lawful CreateContainerResponse := { valid := valid_CreateContainerResponse }.
Proof.
  - intros [pid] H0. cbn [write_to CreateContainerResponse_message write_CreateContainerResponse].
    carry_opt (fun x => mkCreateContainerResponse x).
  - intros [pid] H0. cbn [write_to compute_size CreateContainerResponse_message write_CreateContainerResponse size_CreateContainerResponse]. sizes.
Defined.

(** ** [StartContainerRequest] *)

Definition new_StartContainerRequest : StartContainerRequest := mkStartContainerRequest "".

Definition merge_StartContainerRequest (tag : Z) (inp : bytes) (m : StartContainerRequest) : result (StartContainerRequest * bytes) :=
  let '(mkStartContainerRequest container_id) := m in
  match tag with
  | 10 => '(container_id, inp) ← read_string inp; Ok (mkStartContainerRequest container_id, inp)
  | _ => inp ← read_unknown_or_skip_group tag inp; Ok (m, inp)
  end.

Definition size_StartContainerRequest (m : StartContainerRequest) : Z :=
  let '(mkStartContainerRequest container_id) := m in
  (if is_empty container_id then 0 else string_size 1 container_id).

Definition write_StartContainerRequest (m : StartContainerRequest) : bytes :=
  let '(mkStartContainerRequest container_id) := m in
  (if is_empty container_id then [] else write_string 1 container_id).

Definition clear_StartContainerRequest (m : StartContainerRequest) : StartContainerRequest := mkStartContainerRequest "".

#[export] Instance StartContainerRequest_message : Message StartContainerRequest := {
  new := new_StartContainerRequest; merge_field := merge_StartContainerRequest; compute_size := size_StartContainerRequest; write_to := write_StartContainerRequest;
  clear := clear_StartContainerRequest }.

Definition valid_StartContainerRequest (m : StartContainerRequest) : Prop :=
  let '(mkStartContainerRequest container_id) := m in
  text container_id.

#[export, refine] Instance StartContainerRequest_lawful : Lawful StartContainerRequest := { valid := valid_StartContainerRequest }.
Proof.
  - intros [container_id] H0. cbn [write_to StartContainerRequest_message write_StartContainerRequest].
    carry_opt (fun x => mkStartContainerRequest x).
  - intros [container_id] H0. cbn [write_to compute_size StartContainerRequest_message write_StartContainerRequest size_StartContainerRequest]. sizes.
Defined.

(** ** [StartContainerResponse] *)

Definition new_StartContainerResponse : StartContainerResponse := mkStartContainerResponse 0.

Definition merge_StartContainerResponse (tag : Z) (inp : bytes) (m : StartContainerResponse) : result (StartContainerResponse * bytes) :=
  let '(mkStartContainerResponse pid) := m in
  match tag with
  | 8 => '(pid, inp) ← read_uint32 inp; Ok (mkStartContainerResponse pid, inp)
  | _ => inp ← read_unknown_or_skip_group tag inp; Ok (m, inp)
  end.

Definition size_StartContainerResponse (m : StartContainerResponse) : Z :=
  let '(mkStartContainerResponse pid) := m in
  (if pid =? 0 then 0 else uint32_size 1 pid).

Definition write_StartContainerResponse (m : StartContainerResponse) : bytes :=
  let '(mkStartContainerResponse pid) := m in
  (if pid =? 0 then [] else write_uint32 1 pid).

Definition clear_StartContainerResponse (m : StartContainerResponse) : StartContainerResponse := mkStartContainerResponse 0.

#[export] Instance StartContainerResponse_message : Message StartContainerResponse := {
  new := new_StartContainerResponse; merge_field := merge_StartContainerResponse; compute_size := size_StartContainerResponse; write_to := write_StartContainerResponse;
  clear := clear_StartContainerResponse }.

Definition valid_StartContainerResponse (m : StartContainerResponse) : Prop :=
  let '(mkStartContainerResponse pid) := m in
  in_range 32 pid.

#[export, refine] Instance StartContainerResponse_lawful : Lawful StartContainerResponse := { valid := valid_StartContainerResponse }.
Proof.
  - intros [pid] H0. cbn [write_to StartContainerResponse_message write_StartContainerResponse].
    carry_opt (fun x => mkStartContainerResponse x).
  - intros [pid] H0. cbn [write_to compute_size StartContainerResponse_message write_StartContainerResponse size_StartContainerResponse]. sizes.
Defined.

(** ** [KillContainerRequest] *)

Definition new_KillContainerRequest : KillContainerRequest := mkKillContainerRequest "" 0 false.

Definition merge_KillContainerRequest (tag : Z) (inp : bytes) (m : KillContainerRequest) : result (KillContainerRequest * bytes) :=
  let '(mkKillContainerRequest container_id signal all_) := m in
  match tag with
  | 10 => '(container_id, inp) ← read_string inp; Ok (mkKillContainerRequest container_id signal all_, inp)
  | 16 => '(signal, inp) ← read_uint32 inp; Ok (mkKillContainerRequest container_id signal all_, inp)
  | 24 => '(all_, inp) ← read_bool inp; Ok (mkKillContainerRequest container_id signal all_, inp)
  | _ => inp ← read_unknown_or_skip_group tag inp; Ok (m, inp)
  end.

Definition size_KillContainerRequest (m : KillContainerRequest) : Z :=
  let '(mkKillContainerRequest container_id signal all_) := m in
  (if is_empty container_id then 0 else string_size 1 container_id) +
  (if signal =? 0 then 0 else uint32_size 2 signal) +
  (if negb all_ then 0 else 1 + 1).

Definition write_KillContainerRequest (m : KillContainerRequest) : bytes :=
  let '(mkKillContainerRequest container_id signal all_) := m in
  (if is_empty container_id then [] else write_string 1 container_id) ++
  (if signal =? 0 then [] else write_uint32 2 signal) ++
  (if negb all_ then [] else write_bool 3 all_).

Definition clear_KillContainerRequest (m : KillContainerRequest) : KillContainerRequest := mkKillContainerRequest "" 0 false.

#[export] Instance KillContainerRequest_message : Message KillContainerRequest := {
  new := new_KillContainerRequest; merge_field := merge_KillContainerRequest; compute_size := size_KillContainerRequest; write_to := write_KillContainerRequest;
  clear := clear_KillContainerRequest }.

Definition valid_KillContainerRequest (m : KillContainerRequest) : Prop :=
  let '(mkKillContainerRequest container_id signal all_) := m in
  text container_id /\ in_range 32 signal.

#[export, refine] Instance KillContainerRequest_lawful : Lawful KillContainerRequest := { valid := valid_KillContainerRequest }.
Proof.
  - intros [container_id signal all_] (H0 & H1). cbn [write_to KillContainerRequest_message write_KillContainerRequest].
    carry (fun x => mkKillContainerRequest x 0 false).
    carry (fun x => mkKillContainerRequest container_id x false).
    carry_opt (fun x => mkKillContainerRequest container_id signal x).
  - intros [container_id signal all_] (H0 & H1). cbn [write_to compute_size KillContainerRequest_message write_KillContainerRequest size_KillContainerRequest]. sizes.
Defined.

(** ** [KillContainerResponse] *)

Definition new_KillContainerResponse : KillContainerResponse := mkKillContainerResponse.

Definition merge_KillContainerResponse (tag : Z) (inp : bytes) (m : KillContainerResponse) : result (KillContainerResponse * bytes) :=
  inp ← read_unknown_or_skip_group tag inp; Ok (m, inp).

Definition size_KillContainerResponse (m : KillContainerResponse) : Z :=
  0.

Definition write_KillContainerResponse (m : KillContainerResponse) : bytes :=
  [].

Definition clear_KillContainerResponse (m : KillContainerResponse) : KillContainerResponse := mkKillContainerResponse.

#[export] Instance KillContainerResponse_message : Message KillContainerResponse := {
  new := new_KillContainerResponse; merge_field := merge_KillContainerResponse; compute_size := size_KillContainerResponse; write_to := write_KillContainerResponse;
  clear := clear_KillContainerResponse }.

Definition valid_KillContainerResponse (m : KillContainerResponse) : Prop := True.

#[export, refine] Instance KillContainerResponse_lawful : Lawful KillContainerResponse := { valid := valid_KillContainerResponse }.
Proof.
  - intros [] _. apply carries_nil.
  - done.
Defined.

(** ** [DeleteContainerRequest] *)

Definition new_DeleteContainerRequest : DeleteContainerRequest := mkDeleteContainerRequest "".

Definition merge_DeleteContainerRequest (tag : Z) (inp : bytes) (m : DeleteContainerRequest) : result (DeleteContainerRequest * bytes) :=
  let '(mkDeleteContainerRequest container_id) := m in
  match tag with
  | 10 => '(container_id, inp) ← read_string inp; Ok (mkDeleteContainerRequest container_id, inp)
  | _ => inp ← read_unknown_or_skip_group tag inp; Ok (m, inp)
  end.

Definition size_DeleteContainerRequest (m : DeleteContainerRequest) : Z :=
  let '(mkDeleteContainerRequest container_id) := m in
  (if is_empty container_id then 0 else string_size 1 container_id).

Definition write_DeleteContainerRequest (m : DeleteContainerRequest) : bytes :=
  let '(mkDeleteContainerRequest container_id) := m in
  (if is_empty container_id then [] else write_string 1 container_id).

Definition clear_DeleteContainerRequest (m : DeleteContainerRequest) : DeleteContainerRequest := mkDeleteContainerRequest "".

#[export] Instance DeleteContainerRequest_message : Message DeleteContainerRequest := {
  new := new_DeleteContainerRequest; merge_field := merge_DeleteContainerRequest; compute_size := size_DeleteContainerRequest; write_to := write_DeleteContainerRequest;
  clear := clear_DeleteContainerRequest }.

Definition valid_DeleteContainerRequest (m : DeleteContainerRequest) : Prop :=
  let '(mkDeleteContainerRequest container_id) := m in
  text container_id.

#[export, refine] Instance DeleteContainerRequest_lawful : Lawful DeleteContainerRequest := { valid := valid_DeleteContainerRequest }.
Proof.
  - intros [container_id] H0. cbn [write_to DeleteContainerRequest_message write_DeleteContainerRequest].
    carry_opt (fun x => mkDeleteContainerRequest x).
  - intros [container_id] H0. cbn [write_to compute_size DeleteContainerRequest_message write_DeleteContainerRequest size_DeleteContainerRequest]. sizes.
Defined.

(** ** [DeleteContainerResponse] *)

Definition new_DeleteContainerResponse : DeleteContainerResponse := mkDeleteContainerResponse 0 0.

Definition merge_DeleteContainerResponse (tag : Z) (inp : bytes) (m : DeleteContainerResponse) : result (DeleteContainerResponse * bytes) :=
  let '(mkDeleteContainerResponse exit_status pid) := m in
  match tag with
  | 8 => '(exit_status, inp) ← read_uint32 inp; Ok (mkDeleteContainerResponse exit_status pid, inp)
  | 16 => '(pid, inp) ← read_uint32 inp; Ok (mkDeleteContainerResponse exit_status pid, inp)
  | _ => inp ← read_unknown_or_skip_group tag inp; Ok (m, inp)
  end.

Definition size_DeleteContainerResponse (m : DeleteContainerResponse) : Z :=
  let '(mkDeleteContainerResponse exit_status pid) := m in
  (if exit_status =? 0 then 0 else uint32_size 1 exit_status) +
  (if pid =? 0 then 0 else uint32_size 2 pid).

Definition write_DeleteContainerResponse (m : DeleteContainerResponse) : bytes :=
  let '(mkDeleteContainerResponse exit_status pid) := m in
  (if exit_status =? 0 then [] else write_uint32 1 exit_status) ++
  (if pid =? 0 then [] else write_uint32 2 pid).

Definition clear_DeleteContainerResponse (m : DeleteContainerResponse) : DeleteContainerResponse := mkDeleteContainerResponse 0 0.

#[export] Instance DeleteContainerResponse_message : Message DeleteContainerResponse := {
  new := new_DeleteContainerResponse; merge_field := merge_DeleteContainerResponse; compute_size := size_DeleteContainerResponse; write_to := write_DeleteContainerResponse;
  clear := clear_DeleteContainerResponse }.

Definition valid_DeleteContainerResponse (m : DeleteContainerResponse) : Prop :=
  let '(mkDeleteContainerResponse exit_status pid) := m in
  in_range 32 exit_status /\ in_range 32 pid.

#[export, refine] Instance DeleteContainerResponse_lawful : Lawful DeleteContainerResponse := { valid := valid_DeleteContainerResponse }.
Proof.
  - intros [exit_status pid] (H0 & H1). cbn [write_to DeleteContainerResponse_message write_DeleteContainerResponse].
    carry (fun x => mkDeleteContainerResponse x 0).
    carry_opt (fun x => mkDeleteContainerResponse exit_status x).
  - intros [exit_status pid] (H0 & H1). cbn [write_to compute_size DeleteContainerResponse_message write_DeleteContainerResponse size_DeleteContainerResponse]. sizes.
Defined.

(** ** [WaitContainerRequest] *)

Definition new_WaitContainerRequest : WaitContainerRequest := mkWaitContainerRequest "".

Definition merge_WaitContainerRequest (tag : Z) (inp : bytes) (m : WaitContainerRequest) : result (WaitContainerRequest * bytes) :=
  let '(mkWaitContainerRequest container_id) := m in
  match tag with
  | 10 => '(container_id, inp) ← read_string inp; Ok (mkWaitContainerRequest container_id, inp)
  | _ => inp ← read_unknown_or_skip_group tag inp; Ok (m, inp)
  end.

Definition size_WaitContainerRequest (m : WaitContainerRequest) : Z :=
  let '(mkWaitContainerRequest container_id) := m in
  (if is_empty container_id then 0 else string_size 1 container_id).

Definition write_WaitContainerRequest (m : WaitContainerRequest) : bytes :=
  let '(mkWaitContainerRequest container_id) := m in
  (if is_empty container_id then [] else write_string 1 container_id).

Definition clear_WaitContainerRequest (m : WaitContainerRequest) : WaitContainerRequest := mkWaitContainerRequest "".

#[export] Instance WaitContainerRequest_message : Message WaitContainerRequest := {
  new := new_WaitContainerRequest; merge_field := merge_WaitContainerRequest; compute_size := size_WaitContainerRequest; write_to := write_WaitContainerRequest;
  clear := clear_WaitContainerRequest }.

Definition valid_WaitContainerRequest (m : WaitContainerRequest) : Prop :=
  let '(mkWaitContainerRequest container_id) := m in
  text container_id.

#[export, refine] Instance WaitContainerRequest_lawful : Lawful WaitContainerRequest := { valid := valid_WaitContainerRequest }.
Proof.
  - intros [container_id] H0. cbn [write_to WaitContainerRequest_message write_WaitContainerRequest].
    carry_opt (fun x => mkWaitContainerRequest x).
  - intros [container_id] H0. cbn [write_to compute_size WaitContainerRequest_message write_WaitContainerRequest size_WaitContainerRequest]. sizes.
Defined.

(** ** [WaitContainerResponse] *)

Definition new_WaitContainerResponse : WaitContainerResponse := mkWaitContainerResponse 0 "".

Definition merge_WaitContainerResponse (tag : Z) (inp : bytes) (m : WaitContainerResponse) : result (WaitContainerResponse * bytes) :=
  let '(mkWaitContainerResponse exit_status exited_at) := m in
  match tag with
  | 8 => '(exit_status, inp) ← read_uint32 inp; Ok (mkWaitContainerResponse exit_status exited_at, inp)
  | 18 => '(exited_at, inp) ← read_string inp; Ok (mkWaitContainerResponse exit_status exited_at, inp)
  | _ => inp ← read_unknown_or_skip_group tag inp; Ok (m, inp)
  end.

Definition size_WaitContainerResponse (m : WaitContainerResponse) : Z :=
  let '(mkWaitContainerResponse exit_status exited_at) := m in
  (if exit_status =? 0 then 0 else uint32_size 1 exit_status) +
  (if is_empty exited_at then 0 else string_size 2 exited_at).

Definition write_WaitContainerResponse (m : WaitContainerResponse) : bytes :=
  let '(mkWaitContainerResponse exit_status exited_at) := m in
  (if exit_status =? 0 then [] else write_uint32 1 exit_status) ++
  (if is_empty exited_at then [] else write_string 2 exited_at).

Definition clear_WaitContainerResponse (m : WaitContainerResponse) : WaitContainerResponse := mkWaitContainerResponse 0 "".

#[export] Instance WaitContainerResponse_message : Message WaitContainerResponse := {
  new := new_WaitContainerResponse; merge_field := merge_WaitContainerResponse; compute_size := size_WaitContainerResponse; write_to := write_WaitContainerResponse;
  clear := clear_WaitContainerResponse }.

Definition valid_WaitContainerResponse (m : WaitContainerResponse) : Prop :=
  let '(mkWaitContainerResponse exit_status exited_at) := m in
  in_range 32 exit_status /\ text exited_at.

#[export, refine] Instance WaitContainerResponse_lawful : Lawful WaitContainerResponse := { valid := valid_WaitContainerResponse }.
Proof.
  - intros [exit_status exited_at] (H0 & H1). cbn [write_to WaitContainerResponse_message write_WaitContainerResponse].
    carry (fun x => mkWaitContainerResponse x "").
    carry_opt (fun x => mkWaitContainerResponse exit_status x).
  - intros [exit_status exited_at] (H0 & H1). cbn [write_to compute_size WaitContainerResponse_message write_WaitContainerResponse size_WaitContainerResponse]. sizes.
Defined.

(** ** [ExecProcessRequest] *)

Definition new_ExecProcessRequest : ExecProcessRequest :=
  mkExecProcessRequest "" "" "" "" "" "" false.

Definition merge_ExecProcessRequest (tag : Z) (inp : bytes) (m : ExecProcessRequest) : result (ExecProcessRequest * bytes) :=
  let '(mkExecProcessRequest container_id exec_id spec_json stdin stdout stderr terminal) := m in
  match tag with
  | 10 => '(container_id, inp) ← read_string inp;
      Ok (mkExecProcessRequest container_id exec_id spec_json stdin stdout stderr terminal, inp)
  | 18 => '(exec_id, inp) ← read_string inp;
      Ok (mkExecProcessRequest container_id exec_id spec_json stdin stdout stderr terminal, inp)
  | 26 => '(spec_json, inp) ← read_string inp;
      Ok (mkExecProcessRequest container_id exec_id spec_json stdin stdout stderr terminal, inp)
  | 34 => '(stdin, inp) ← read_string inp;
      Ok (mkExecProcessRequest container_id exec_id spec_json stdin stdout stderr terminal, inp)
  | 42 => '(stdout, inp) ← read_string inp;
      Ok (mkExecProcessRequest container_id exec_id spec_json stdin stdout stderr terminal, inp)
  | 50 => '(stderr, inp) ← read_string inp;
      Ok (mkExecProcessRequest container_id exec_id spec_json stdin stdout stderr terminal, inp)
  | 56 => '(terminal, inp) ← read_bool inp;
      Ok (mkExecProcessRequest container_id exec_id spec_json stdin stdout stderr terminal, inp)
  | _ => inp ← read_unknown_or_skip_group tag inp; Ok (m, inp)
  end.

Definition size_ExecProcessRequest (m : ExecProcessRequest) : Z :=
  let '(mkExecProcessRequest container_id exec_id spec_json stdin stdout stderr terminal) := m in
  (if is_empty container_id then 0 else string_size 1 container_id) +
  (if is_empty exec_id then 0 else string_size 2 exec_id) +
  (if is_empty spec_json then 0 else string_size 3 spec_json) +
  (if is_empty stdin then 0 else string_size 4 stdin) +
  (if is_empty stdout then 0 else string_size 5 stdout) +
  (if is_empty stderr then 0 else string_size 6 stderr) +
  (if negb terminal then 0 else 1 + 1).

Definition write_ExecProcessRequest (m : ExecProcessRequest) : bytes :=
  let '(mkExecProcessRequest container_id exec_id spec_json stdin stdout stderr terminal) := m in
  (if is_empty container_id then [] else write_string 1 container_id) ++
  (if is_empty exec_id then [] else write_string 2 exec_id) ++
  (if is_empty spec_json then [] else write_string 3 spec_json) ++
  (if is_empty stdin then [] else write_string 4 stdin) ++
  (if is_empty stdout then [] else write_string 5 stdout) ++
  (if is_empty stderr then [] else write_string 6 stderr) ++
  (if negb terminal then [] else write_bool 7 terminal).

Definition clear_ExecProcessRequest (m : ExecProcessRequest) : ExecProcessRequest :=
  mkExecProcessRequest "" "" "" "" "" "" false.

#[export] Instance ExecProcessRequest_message : Message ExecProcessRequest := {
  new := new_ExecProcessRequest; merge_field := merge_ExecProcessRequest; compute_size := size_ExecProcessRequest; write_to := write_ExecProcessRequest;
  clear := clear_ExecProcessRequest }.

Definition valid_ExecProcessRequest (m : ExecProcessRequest) : Prop :=
  let '(mkExecProcessRequest container_id exec_id spec_json stdin stdout stderr terminal) := m in
  text container_id /\ text exec_id /\ text spec_json /\ text stdin /\ text stdout /\
  text stderr.

#[export, refine] Instance ExecProcessRequest_lawful : Lawful ExecProcessRequest := { valid := valid_ExecProcessRequest }.
Proof.
  - intros [container_id exec_id spec_json stdin stdout stderr terminal] (H0 & H1 & H2 & H3 & H4 & H5). cbn [write_to ExecProcessRequest_message write_ExecProcessRequest].
    carry (fun x => mkExecProcessRequest x "" "" "" "" "" false).
    carry (fun x => mkExecProcessRequest container_id x "" "" "" "" false).
    carry (fun x => mkExecProcessRequest container_id exec_id x "" "" "" false).
    carry (fun x => mkExecProcessRequest container_id exec_id spec_json x "" "" false).
    carry (fun x => mkExecProcessRequest container_id exec_id spec_json stdin x "" false).
    carry (fun x => mkExecProcessRequest container_id exec_id spec_json stdin stdout x false).
    carry_opt (fun x => mkExecProcessRequest container_id exec_id spec_json stdin stdout stderr x).
  - intros [container_id exec_id spec_json stdin stdout stderr terminal] (H0 & H1 & H2 & H3 & H4 & H5). cbn [write_to compute_size ExecProcessRequest_message write_ExecProcessRequest size_ExecProcessRequest]. sizes.
Defined.

(** ** [ExecProcessResponse] *)

Definition new_ExecProcessResponse : ExecProcessResponse := mkExecProcessResponse 0.

Definition merge_ExecProcessResponse (tag : Z) (inp : bytes) (m : ExecProcessResponse) : result (ExecProcessResponse * bytes) :=
  let '(mkExecProcessResponse pid) := m in
  match tag with
  | 8 => '(pid, inp) ← read_uint32 inp; Ok (mkExecProcessResponse pid, inp)
  | _ => inp ← read_unknown_or_skip_group tag inp; Ok (m, inp)
  end.

Definition size_ExecProcessResponse (m : ExecProcessResponse) : Z :=
  let '(mkExecProcessResponse pid) := m in
  (if pid =? 0 then 0 else uint32_size 1 pid).

Definition write_ExecProcessResponse (m : ExecProcessResponse) : bytes :=
  let '(mkExecProcessResponse pid) := m in
  (if pid =? 0 then [] else write_uint32 1 pid).

Definition clear_ExecProcessResponse (m : ExecProcessResponse) : ExecProcessResponse := mkExecProcessResponse 0.

#[export] Instance ExecProcessResponse_message : Message ExecProcessResponse := {
  new := new_ExecProcessResponse; merge_field := merge_ExecProcessResponse; compute_size := size_ExecProcessResponse; write_to := write_ExecProcessResponse;
  clear := clear_ExecProcessResponse }.

Definition valid_ExecProcessResponse (m : ExecProcessResponse) : Prop :=
  let '(mkExecProcessResponse pid) := m in
  in_range 32 pid.

#[export, refine] Instance ExecProcessResponse_lawful : Lawful ExecProcessResponse := { valid := valid_ExecProcessResponse }.
Proof.
  - intros [pid] H0. cbn [write_to ExecProcessResponse_message write_ExecProcessResponse].
    carry_opt (fun x => mkExecProcessResponse x).
  - intros [pid] H0. cbn [write_to compute_size ExecProcessResponse_message write_ExecProcessResponse size_ExecProcessResponse]. sizes.
Defined.

(** ** [StateContainerRequest] *)

Definition new_StateContainerRequest : StateContainerRequest := mkStateContainerRequest "".

Definition merge_StateContainerRequest (tag : Z) (inp : bytes) (m : StateContainerRequest) : result (StateContainerRequest * bytes) :=
  let '(mkStateContainerRequest container_id) := m in
  match tag with
  | 10 => '(container_id, inp) ← read_string inp; Ok (mkStateContainerRequest container_id, inp)
  | _ => inp ← read_unknown_or_skip_group tag inp; Ok (m, inp)
  end.

Definition size_StateContainerRequest (m : StateContainerRequest) : Z :=
  let '(mkStateContainerRequest container_id) := m in
  (if is_empty container_id then 0 else string_size 1 container_id).

Definition write_StateContainerRequest (m : StateContainerRequest) : bytes :=
  let '(mkStateContainerRequest container_id) := m in
  (if is_empty container_id then [] else write_string 1 container_id).

Definition clear_StateContainerRequest (m : StateContainerRequest) : StateContainerRequest := mkStateContainerRequest "".

#[export] Instance StateContainerRequest_message : Message StateContainerRequest := {
  new := new_StateContainerRequest; merge_field := merge_StateContainerRequest; compute_size := size_StateContainerRequest; write_to := write_StateContainerRequest;
  clear := clear_StateContainerRequest }.

Definition valid_StateContainerRequest (m : StateContainerRequest) : Prop :=
  let '(mkStateContainerRequest container_id) := m in
  text container_id.

#[export, refine] Instance StateContainerRequest_lawful : Lawful StateContainerRequest := { valid := valid_StateContainerRequest }.
Proof.
  - intros [container_id] H0. cbn [write_to StateContainerRequest_message write_StateContainerRequest].
    carry_opt (fun x => mkStateContainerRequest x).
  - intros [container_id] H0. cbn [write_to compute_size StateContainerRequest_message write_StateContainerRequest size_StateContainerRequest]. sizes.
Defined.

(** ** [StateContainerResponse] *)

Definition new_StateContainerResponse : StateContainerResponse := mkStateContainerResponse "" 0 (inl UNKNOWN) 0 "".

Definition merge_StateContainerResponse (tag : Z) (inp : bytes) (m : StateContainerResponse) : result (StateContainerResponse * bytes) :=
  let '(mkStateContainerResponse container_id pid status exit_status exited_at) := m in
  match tag with
  | 10 => '(container_id, inp) ← read_string inp;
      Ok (mkStateContainerResponse container_id pid status exit_status exited_at, inp)
  | 16 => '(pid, inp) ← read_uint32 inp;
      Ok (mkStateContainerResponse container_id pid status exit_status exited_at, inp)
  | 24 => '(status, inp) ← read_enum_or_unknown inp;
      Ok (mkStateContainerResponse container_id pid status exit_status exited_at, inp)
  | 32 => '(exit_status, inp) ← read_uint32 inp;
      Ok (mkStateContainerResponse container_id pid status exit_status exited_at, inp)
  | 42 => '(exited_at, inp) ← read_string inp;
      Ok (mkStateContainerResponse container_id pid status exit_status exited_at, inp)
  | _ => inp ← read_unknown_or_skip_group tag inp; Ok (m, inp)
  end.

Definition size_StateContainerResponse (m : StateContainerResponse) : Z :=
  let '(mkStateContainerResponse container_id pid status exit_status exited_at) := m in
  (if is_empty container_id then 0 else string_size 1 container_id) +
  (if pid =? 0 then 0 else uint32_size 2 pid) +
  (if enum_is UNKNOWN status then 0 else int32_size 3 (enum_value status)) +
  (if exit_status =? 0 then 0 else uint32_size 4 exit_status) +
  (if is_empty exited_at then 0 else string_size 5 exited_at).

Definition write_StateContainerResponse (m : StateContainerResponse) : bytes :=
  let '(mkStateContainerResponse container_id pid status exit_status exited_at) := m in
  (if is_empty container_id then [] else write_string 1 container_id) ++
  (if pid =? 0 then [] else write_uint32 2 pid) ++
  (if enum_is UNKNOWN status then [] else write_enum 3 (enum_value status)) ++
  (if exit_status =? 0 then [] else write_uint32 4 exit_status) ++
  (if is_empty exited_at then [] else write_string 5 exited_at).

Definition clear_StateContainerResponse (m : StateContainerResponse) : StateContainerResponse := mkStateContainerResponse "" 0 (inl UNKNOWN) 0 "".

#[export] Instance StateContainerResponse_message : Message StateContainerResponse := {
  new := new_StateContainerResponse; merge_field := merge_StateContainerResponse; compute_size := size_StateContainerResponse; write_to := write_StateContainerResponse;
  clear := clear_StateContainerResponse }.

Definition valid_StateContainerResponse (m : StateContainerResponse) : Prop :=
  let '(mkStateContainerResponse container_id pid status exit_status exited_at) := m in
  text container_id /\ in_range 32 pid /\ canonical status /\ in_range 32 exit_status /\
  text exited_at.

#[export, refine] Instance StateContainerResponse_lawful : Lawful StateContainerResponse := { valid := valid_StateContainerResponse }.
Proof.
  - intros [container_id pid status exit_status exited_at] (H0 & H1 & H2 & H3 & H4). cbn [write_to StateContainerResponse_message write_StateContainerResponse].
    carry (fun x => mkStateContainerResponse x 0 (inl UNKNOWN) 0 "").
    carry (fun x => mkStateContainerResponse container_id x (inl UNKNOWN) 0 "").
    carry (fun x => mkStateContainerResponse container_id pid x 0 "").
    carry (fun x => mkStateContainerResponse container_id pid status x "").
    carry_opt (fun x => mkStateContainerResponse container_id pid status exit_status x).
  - intros [container_id pid status exit_status exited_at] (H0 & H1 & H2 & H3 & H4). cbn [write_to compute_size StateContainerResponse_message write_StateContainerResponse size_StateContainerResponse]. sizes.
Defined.

(** ** [CheckRequest] *)

Definition new_CheckRequest : CheckRequest := mkCheckRequest.

Definition merge_CheckRequest (tag : Z) (inp : bytes) (m : CheckRequest) : result (CheckRequest * bytes) :=
  inp ← read_unknown_or_skip_group tag inp; Ok (m, inp).

Definition size_CheckRequest (m : CheckRequest) : Z :=
  0.

Definition write_CheckRequest (m : CheckRequest) : bytes :=
  [].

Definition clear_CheckRequest (m : CheckRequest) : CheckRequest := mkCheckRequest.

#[export] Instance CheckRequest_message : Message CheckRequest := {
  new := new_CheckRequest; merge_field := merge_CheckRequest; compute_size := size_CheckRequest; write_to := write_CheckRequest;
  clear := clear_CheckRequest }.

Definition valid_CheckRequest (m : CheckRequest) : Prop := True.

#[export, refine] Instance CheckRequest_lawful : Lawful CheckRequest := { valid := valid_CheckRequest }.
Proof.
  - intros [] _. apply carries_nil.
  - done.
Defined.

(** ** [CheckResponse] *)

Definition new_CheckResponse : CheckResponse := mkCheckResponse false "".

Definition merge_CheckResponse (tag : Z) (inp : bytes) (m : CheckResponse) : result (CheckResponse * bytes) :=
  let '(mkCheckResponse ready version) := m in
  match tag with
  | 8 => '(ready, inp) ← read_bool inp; Ok (mkCheckResponse ready version, inp)
  | 18 => '(version, inp) ← read_string inp; Ok (mkCheckResponse ready version, inp)
  | _ => inp ← read_unknown_or_skip_group tag inp; Ok (m, inp)
  end.

Definition size_CheckResponse (m : CheckResponse) : Z :=
  let '(mkCheckResponse ready version) := m in
  (if negb ready then 0 else 1 + 1) +
  (if is_empty version then 0 else string_size 2 version).

Definition write_CheckResponse (m : CheckResponse) : bytes :=
  let '(mkCheckResponse ready version) := m in
  (if negb ready then [] else write_bool 1 ready) ++
  (if is_empty version then [] else write_string 2 version).

Definition clear_CheckResponse (m : CheckResponse) : CheckResponse := mkCheckResponse false "".

#[export] Instance CheckResponse_message : Message CheckResponse := {
  new := new_CheckResponse; merge_field := merge_CheckResponse; compute_size := size_CheckResponse; write_to := write_CheckResponse;
  clear := clear_CheckResponse }.

Definition valid_CheckResponse (m : CheckResponse) : Prop :=
  let '(mkCheckResponse ready version) := m in
  text version.

#[export, refine] Instance CheckResponse_lawful : Lawful CheckResponse := { valid := valid_CheckResponse }.
Proof.
  - intros [ready version] H0. cbn [write_to CheckResponse_message write_CheckResponse].
    carry (fun x => mkCheckResponse x "").
    carry_opt (fun x => mkCheckResponse ready x).
  - intros [ready version] H0. cbn [write_to compute_size CheckResponse_message write_CheckResponse size_CheckResponse]. sizes.
Defined.

(** ** [GetMemInfoRequest] *)

Definition new_GetMemInfoRequest : GetMemInfoRequest := mkGetMemInfoRequest.

Definition merge_GetMemInfoRequest (tag : Z) (inp : bytes) (m : GetMemInfoRequest) : result (GetMemInfoRequest * bytes) :=
  inp ← read_unknown_or_skip_group tag inp; Ok (m, inp).

Definition size_GetMemInfoRequest (m : GetMemInfoRequest) : Z :=
  0.

Definition write_GetMemInfoRequest (m : GetMemInfoRequest) : bytes :=
  [].

Definition clear_GetMemInfoRequest (m : GetMemInfoRequest) : GetMemInfoRequest := mkGetMemInfoRequest.

#[export] Instance GetMemInfoRequest_message : Message GetMemInfoRequest := {
  new := new_GetMemInfoRequest; merge_field := merge_GetMemInfoRequest; compute_size := size_GetMemInfoRequest; write_to := write_GetMemInfoRequest;
  clear := clear_GetMemInfoRequest }.

Definition valid_GetMemInfoRequest (m : GetMemInfoRequest) : Prop := True.

#[export, refine] Instance GetMemInfoRequest_lawful : Lawful GetMemInfoRequest := { valid := valid_GetMemInfoRequest }.
Proof.
  - intros [] _. apply carries_nil.
  - done.
Defined.

(** ** [GetMemInfoResponse] *)

Definition new_GetMemInfoResponse : GetMemInfoResponse :=
  mkGetMemInfoResponse 0 0 0 0 0 0 0.

Definition merge_GetMemInfoResponse (tag : Z) (inp : bytes) (m : GetMemInfoResponse) : result (GetMemInfoResponse * bytes) :=
  let '(mkGetMemInfoResponse mem_total_kb mem_free_kb mem_available_kb buffers_kb cached_kb swap_total_kb swap_free_kb) := m in
  match tag with
  | 8 => '(mem_total_kb, inp) ← read_uint64 inp;
      Ok (mkGetMemInfoResponse mem_total_kb mem_free_kb mem_available_kb buffers_kb cached_kb swap_total_kb swap_free_kb, inp)
  | 16 => '(mem_free_kb, inp) ← read_uint64 inp;
      Ok (mkGetMemInfoResponse mem_total_kb mem_free_kb mem_available_kb buffers_kb cached_kb swap_total_kb swap_free_kb, inp)
  | 24 => '(mem_available_kb, inp) ← read_uint64 inp;
      Ok (mkGetMemInfoResponse mem_total_kb mem_free_kb mem_available_kb buffers_kb cached_kb swap_total_kb swap_free_kb, inp)
  | 32 => '(buffers_kb, inp) ← read_uint64 inp;
      Ok (mkGetMemInfoResponse mem_total_kb mem_free_kb mem_available_kb buffers_kb cached_kb swap_total_kb swap_free_kb, inp)
  | 40 => '(cached_kb, inp) ← read_uint64 inp;
      Ok (mkGetMemInfoResponse mem_total_kb mem_free_kb mem_available_kb buffers_kb cached_kb swap_total_kb swap_free_kb, inp)
  | 48 => '(swap_total_kb, inp) ← read_uint64 inp;
      Ok (mkGetMemInfoResponse mem_total_kb mem_free_kb mem_available_kb buffers_kb cached_kb swap_total_kb swap_free_kb, inp)
  | 56 => '(swap_free_kb, inp) ← read_uint64 inp;
      Ok (mkGetMemInfoResponse mem_total_kb mem_free_kb mem_available_kb buffers_kb cached_kb swap_total_kb swap_free_kb, inp)
  | _ => inp ← read_unknown_or_skip_group tag inp; Ok (m, inp)
  end.

Definition size_GetMemInfoResponse (m : GetMemInfoResponse) : Z :=
  let '(mkGetMemInfoResponse mem_total_kb mem_free_kb mem_available_kb buffers_kb cached_kb swap_total_kb swap_free_kb) := m in
  (if mem_total_kb =? 0 then 0 else uint64_size 1 mem_total_kb) +
  (if mem_free_kb =? 0 then 0 else uint64_size 2 mem_free_kb) +
  (if mem_available_kb =? 0 then 0 else uint64_size 3 mem_available_kb) +
  (if buffers_kb =? 0 then 0 else uint64_size 4 buffers_kb) +
  (if cached_kb =? 0 then 0 else uint64_size 5 cached_kb) +
  (if swap_total_kb =? 0 then 0 else uint64_size 6 swap_total_kb) +
  (if swap_free_kb =? 0 then 0 else uint64_size 7 swap_free_kb).

Definition write_GetMemInfoResponse (m : GetMemInfoResponse) : bytes :=
  let '(mkGetMemInfoResponse mem_total_kb mem_free_kb mem_available_kb buffers_kb cached_kb swap_total_kb swap_free_kb) := m in
  (if mem_total_kb =? 0 then [] else write_uint64 1 mem_total_kb) ++
  (if mem_free_kb =? 0 then [] else write_uint64 2 mem_free_kb) ++
  (if mem_available_kb =? 0 then [] else write_uint64 3 mem_available_kb) ++
  (if buffers_kb =? 0 then [] else write_uint64 4 buffers_kb) ++
  (if cached_kb =? 0 then [] else write_uint64 5 cached_kb) ++
  (if swap_total_kb =? 0 then [] else write_uint64 6 swap_total_kb) ++
  (if swap_free_kb =? 0 then [] else write_uint64 7 swap_free_kb).

Definition clear_GetMemInfoResponse (m : GetMemInfoResponse) : GetMemInfoResponse :=
  mkGetMemInfoResponse 0 0 0 0 0 0 0.

#[export] Instance GetMemInfoResponse_message : Message GetMemInfoResponse := {
  new := new_GetMemInfoResponse; merge_field := merge_GetMemInfoResponse; compute_size := size_GetMemInfoResponse; write_to := write_GetMemInfoResponse;
  clear := clear_GetMemInfoResponse }.

Definition valid_GetMemInfoResponse (m : GetMemInfoResponse) : Prop :=
  let '(mkGetMemInfoResponse mem_total_kb mem_free_kb mem_available_kb buffers_kb cached_kb swap_total_kb swap_free_kb) := m in
  in_range 64 mem_total_kb /\ in_range 64 mem_free_kb /\ in_range 64 mem_available_kb /\
  in_range 64 buffers_kb /\ in_range 64 cached_kb /\ in_range 64 swap_total_kb /\
  in_range 64 swap_free_kb.

#[export, refine] Instance GetMemInfoResponse_lawful : Lawful GetMemInfoResponse := { valid := valid_GetMemInfoResponse }.
Proof.
  - intros [mem_total_kb mem_free_kb mem_available_kb buffers_kb cached_kb swap_total_kb swap_free_kb] (H0 & H1 & H2 & H3 & H4 & H5 & H6). cbn [write_to GetMemInfoResponse_message write_GetMemInfoResponse].
    carry (fun x => mkGetMemInfoResponse x 0 0 0 0 0 0).
    carry (fun x => mkGetMemInfoResponse mem_total_kb x 0 0 0 0 0).
    carry (fun x => mkGetMemInfoResponse mem_total_kb mem_free_kb x 0 0 0 0).
    carry (fun x => mkGetMemInfoResponse mem_total_kb mem_free_kb mem_available_kb x 0 0 0).
    carry (fun x => mkGetMemInfoResponse mem_total_kb mem_free_kb mem_available_kb buffers_kb x 0 0).
    carry (fun x => mkGetMemInfoResponse mem_total_kb mem_free_kb mem_available_kb buffers_kb cached_kb x 0).
    carry_opt (fun x => mkGetMemInfoResponse mem_total_kb mem_free_kb mem_available_kb buffers_kb cached_kb swap_total_kb x).
  - intros [mem_total_kb mem_free_kb mem_available_kb buffers_kb cached_kb swap_total_kb swap_free_kb] (H0 & H1 & H2 & H3 & H4 & H5 & H6). cbn [write_to compute_size GetMemInfoResponse_message write_GetMemInfoResponse size_GetMemInfoResponse]. sizes.
Defined.

(** ** [GetContainerLogsRequest] *)

Definition new_GetContainerLogsRequest : GetContainerLogsRequest := mkGetContainerLogsRequest "" 0.

Definition merge_GetContainerLogsRequest (tag : Z) (inp : bytes) (m : GetContainerLogsRequest) : result (GetContainerLogsRequest * bytes) :=
  let '(mkGetContainerLogsRequest container_id offset) := m in
  match tag with
  | 10 => '(container_id, inp) ← read_string inp; Ok (mkGetContainerLogsRequest container_id offset, inp)
  | 16 => '(offset, inp) ← read_uint64 inp; Ok (mkGetContainerLogsRequest container_id offset, inp)
  | _ => inp ← read_unknown_or_skip_group tag inp; Ok (m, inp)
  end.

Definition size_GetContainerLogsRequest (m : GetContainerLogsRequest) : Z :=
  let '(mkGetContainerLogsRequest container_id offset) := m in
  (if is_empty container_id then 0 else string_size 1 container_id) +
  (if offset =? 0 then 0 else uint64_size 2 offset).

Definition write_GetContainerLogsRequest (m : GetContainerLogsRequest) : bytes :=
  let '(mkGetContainerLogsRequest container_id offset) := m in
  (if is_empty container_id then [] else write_string 1 container_id) ++
  (if offset =? 0 then [] else write_uint64 2 offset).

Definition clear_GetContainerLogsRequest (m : GetContainerLogsRequest) : GetContainerLogsRequest := mkGetContainerLogsRequest "" 0.

#[export] Instance GetContainerLogsRequest_message : Message GetContainerLogsRequest := {
  new := new_GetContainerLogsRequest; merge_field := merge_GetContainerLogsRequest; compute_size := size_GetContainerLogsRequest; write_to := write_GetContainerLogsRequest;
  clear := clear_GetContainerLogsRequest }.

Definition valid_GetContainerLogsRequest (m : GetContainerLogsRequest) : Prop :=
  let '(mkGetContainerLogsRequest container_id offset) := m in
  text container_id /\ in_range 64 offset.

#[export, refine] Instance GetContainerLogsRequest_lawful : Lawful GetContainerLogsRequest := { valid := valid_GetContainerLogsRequest }.
Proof.
  - intros [container_id offset] (H0 & H1). cbn [write_to GetContainerLogsRequest_message write_GetContainerLogsRequest].
    carry (fun x => mkGetContainerLogsRequest x 0).
    carry_opt (fun x => mkGetContainerLogsRequest container_id x).
  - intros [container_id offset] (H0 & H1). cbn [write_to compute_size GetContainerLogsRequest_message write_GetContainerLogsRequest size_GetContainerLogsRequest]. sizes.
Defined.

(** ** [GetContainerLogsResponse] *)

Definition new_GetContainerLogsResponse : GetContainerLogsResponse := mkGetContainerLogsResponse "" "" 0 false.

Definition merge_GetContainerLogsResponse (tag : Z) (inp : bytes) (m : GetContainerLogsResponse) : result (GetContainerLogsResponse * bytes) :=
  let '(mkGetContainerLogsResponse stdout stderr offset eof) := m in
  match tag with
  | 10 => '(stdout, inp) ← read_bytes inp; Ok (mkGetContainerLogsResponse stdout stderr offset eof, inp)
  | 18 => '(stderr, inp) ← read_bytes inp; Ok (mkGetContainerLogsResponse stdout stderr offset eof, inp)
  | 24 => '(offset, inp) ← read_uint64 inp; Ok (mkGetContainerLogsResponse stdout stderr offset eof, inp)
  | 32 => '(eof, inp) ← read_bool inp; Ok (mkGetContainerLogsResponse stdout stderr offset eof, inp)
  | _ => inp ← read_unknown_or_skip_group tag inp; Ok (m, inp)
  end.

Definition size_GetContainerLogsResponse (m : GetContainerLogsResponse) : Z :=
  let '(mkGetContainerLogsResponse stdout stderr offset eof) := m in
  (if is_empty stdout then 0 else bytes_size 1 stdout) +
  (if is_empty stderr then 0 else bytes_size 2 stderr) +
  (if offset =? 0 then 0 else uint64_size 3 offset) +
  (if negb eof then 0 else 1 + 1).

Definition write_GetContainerLogsResponse (m : GetContainerLogsResponse) : bytes :=
  let '(mkGetContainerLogsResponse stdout stderr offset eof) := m in
  (if is_empty stdout then [] else write_bytes 1 stdout) ++
  (if is_empty stderr then [] else write_bytes 2 stderr) ++
  (if offset =? 0 then [] else write_uint64 3 offset) ++
  (if negb eof then [] else write_bool 4 eof).

Definition clear_GetContainerLogsResponse (m : GetContainerLogsResponse) : GetContainerLogsResponse := mkGetContainerLogsResponse "" "" 0 false.

#[export] Instance GetContainerLogsResponse_message : Message GetContainerLogsResponse := {
  new := new_GetContainerLogsResponse; merge_field := merge_GetContainerLogsResponse; compute_size := size_GetContainerLogsResponse; write_to := write_GetContainerLogsResponse;
  clear := clear_GetContainerLogsResponse }.

Definition valid_GetContainerLogsResponse (m : GetContainerLogsResponse) : Prop :=
  let '(mkGetContainerLogsResponse stdout stderr offset eof) := m in
  blob stdout /\ blob stderr /\ in_range 64 offset.

#[export, refine] Instance GetContainerLogsResponse_lawful : Lawful GetContainerLogsResponse := { valid := valid_GetContainerLogsResponse }.
Proof.
  - intros [stdout stderr offset eof] (H0 & H1 & H2). cbn [write_to GetContainerLogsResponse_message write_GetContainerLogsResponse].
    carry (fun x => mkGetContainerLogsResponse x "" 0 false).
    carry (fun x => mkGetContainerLogsResponse stdout x 0 false).
    carry (fun x => mkGetContainerLogsResponse stdout stderr x false).
    carry_opt (fun x => mkGetContainerLogsResponse stdout stderr offset x).
  - intros [stdout stderr offset eof] (H0 & H1 & H2). cbn [write_to compute_size GetContainerLogsResponse_message write_GetContainerLogsResponse size_GetContainerLogsResponse]. sizes.
Defined.

(** ** [ConfigureNetworkRequest] *)

Definition new_ConfigureNetworkRequest : ConfigureNetworkRequest := mkConfigureNetworkRequest "" "" 0 "" "".

Definition merge_ConfigureNetworkRequest (tag : Z) (inp : bytes) (m : ConfigureNetworkRequest) : result (ConfigureNetworkRequest * bytes) :=
  let '(mkConfigureNetworkRequest ip_address gateway prefix_len device mac) := m in
  match tag with
  | 10 => '(ip_address, inp) ← read_string inp;
      Ok (mkConfigureNetworkRequest ip_address gateway prefix_len device mac, inp)
  | 18 => '(gateway, inp) ← read_string inp;
      Ok (mkConfigureNetworkRequest ip_address gateway prefix_len device mac, inp)
  | 24 => '(prefix_len, inp) ← read_uint32 inp;
      Ok (mkConfigureNetworkRequest ip_address gateway prefix_len device mac, inp)
  | 34 => '(device, inp) ← read_string inp;
      Ok (mkConfigureNetworkRequest ip_address gateway prefix_len device mac, inp)
  | 42 => '(mac, inp) ← read_string inp;
      Ok (mkConfigureNetworkRequest ip_address gateway prefix_len device mac, inp)
  | _ => inp ← read_unknown_or_skip_group tag inp; Ok (m, inp)
  end.

Definition size_ConfigureNetworkRequest (m : ConfigureNetworkRequest) : Z :=
  let '(mkConfigureNetworkRequest ip_address gateway prefix_len device mac) := m in
  (if is_empty ip_address then 0 else string_size 1 ip_address) +
  (if is_empty gateway then 0 else string_size 2 gateway) +
  (if prefix_len =? 0 then 0 else uint32_size 3 prefix_len) +
  (if is_empty device then 0 else string_size 4 device) +
  (if is_empty mac then 0 else string_size 5 mac).

Definition write_ConfigureNetworkRequest (m : ConfigureNetworkRequest) : bytes :=
  let '(mkConfigureNetworkRequest ip_address gateway prefix_len device mac) := m in
  (if is_empty ip_address then [] else write_string 1 ip_address) ++
  (if is_empty gateway then [] else write_string 2 gateway) ++
  (if prefix_len =? 0 then [] else write_uint32 3 prefix_len) ++
  (if is_empty device then [] else write_string 4 device) ++
  (if is_empty mac then [] else write_string 5 mac).

Definition clear_ConfigureNetworkRequest (m : ConfigureNetworkRequest) : ConfigureNetworkRequest := mkConfigureNetworkRequest "" "" 0 "" "".

#[export] Instance ConfigureNetworkRequest_message : Message ConfigureNetworkRequest := {
  new := new_ConfigureNetworkRequest; merge_field := merge_ConfigureNetworkRequest; compute_size := size_ConfigureNetworkRequest; write_to := write_ConfigureNetworkRequest;
  clear := clear_ConfigureNetworkRequest }.

Definition valid_ConfigureNetworkRequest (m : ConfigureNetworkRequest) : Prop :=
  let '(mkConfigureNetworkRequest ip_address gateway prefix_len device mac) := m in
  text ip_address /\ text gateway /\ in_range 32 prefix_len /\ text device /\ text mac.

#[export, refine] Instance ConfigureNetworkRequest_lawful : Lawful ConfigureNetworkRequest := { valid := valid_ConfigureNetworkRequest }.
Proof.
  - intros [ip_address gateway prefix_len device mac] (H0 & H1 & H2 & H3 & H4). cbn [write_to ConfigureNetworkRequest_message write_ConfigureNetworkRequest].
    carry (fun x => mkConfigureNetworkRequest x "" 0 "" "").
    carry (fun x => mkConfigureNetworkRequest ip_address x 0 "" "").
    carry (fun x => mkConfigureNetworkRequest ip_address gateway x "" "").
    carry (fun x => mkConfigureNetworkRequest ip_address gateway prefix_len x "").
    carry_opt (fun x => mkConfigureNetworkRequest ip_address gateway prefix_len device x).
  - intros [ip_address gateway prefix_len device mac] (H0 & H1 & H2 & H3 & H4). cbn [write_to compute_size ConfigureNetworkRequest_message write_ConfigureNetworkRequest size_ConfigureNetworkRequest]. sizes.
Defined.

(** ** [ConfigureNetworkResponse] *)

Definition new_ConfigureNetworkResponse : ConfigureNetworkResponse := mkConfigureNetworkResponse.

Definition merge_ConfigureNetworkResponse (tag : Z) (inp : bytes) (m : ConfigureNetworkResponse) : result (ConfigureNetworkResponse * bytes) :=
  inp ← read_unknown_or_skip_group tag inp; Ok (m, inp).

Definition size_ConfigureNetworkResponse (m : ConfigureNetworkResponse) : Z :=
  0.

Definition write_ConfigureNetworkResponse (m : ConfigureNetworkResponse) : bytes :=
  [].

Definition clear_ConfigureNetworkResponse (m : ConfigureNetworkResponse) : ConfigureNetworkResponse := mkConfigureNetworkResponse.

#[export] Instance ConfigureNetworkResponse_message : Message ConfigureNetworkResponse := {
  new := new_ConfigureNetworkResponse; merge_field := merge_ConfigureNetworkResponse; compute_size := size_ConfigureNetworkResponse; write_to := write_ConfigureNetworkResponse;
  clear := clear_ConfigureNetworkResponse }.

Definition valid_ConfigureNetworkResponse (m : ConfigureNetworkResponse) : Prop := True.

#[export, refine] Instance ConfigureNetworkResponse_lawful : Lawful ConfigureNetworkResponse := { valid := valid_ConfigureNetworkResponse }.
Proof.
  - intros [] _. apply carries_nil.
  - done.
Defined.

(** ** [AdoptContainerRequest] *)

Definition new_AdoptContainerRequest : AdoptContainerRequest := mkAdoptContainerRequest "" "".

Definition merge_AdoptContainerRequest (tag : Z) (inp : bytes) (m : AdoptContainerRequest) : result (AdoptContainerRequest * bytes) :=
  let '(mkAdoptContainerRequest old_container_id new_container_id) := m in
  match tag with
  | 10 => '(old_container_id, inp) ← read_string inp; Ok (mkAdoptContainerRequest old_container_id new_container_id, inp)
  | 18 => '(new_container_id, inp) ← read_string inp; Ok (mkAdoptContainerRequest old_container_id new_container_id, inp)
  | _ => inp ← read_unknown_or_skip_group tag inp; Ok (m, inp)
  end.

Definition size_AdoptContainerRequest (m : AdoptContainerRequest) : Z :=
  let '(mkAdoptContainerRequest old_container_id new_container_id) := m in
  (if is_empty old_container_id then 0 else string_size 1 old_container_id) +
  (if is_empty new_container_id then 0 else string_size 2 new_container_id).

Definition write_AdoptContainerRequest (m : AdoptContainerRequest) : bytes :=
  let '(mkAdoptContainerRequest old_container_id new_container_id) := m in
  (if is_empty old_container_id then [] else write_string 1 old_container_id) ++
  (if is_empty new_container_id then [] else write_string 2 new_container_id).

Definition clear_AdoptContainerRequest (m : AdoptContainerRequest) : AdoptContainerRequest := mkAdoptContainerRequest "" "".

#[export] Instance AdoptContainerRequest_message : Message AdoptContainerRequest := {
  new := new_AdoptContainerRequest; merge_field := merge_AdoptContainerRequest; compute_size := size_AdoptContainerRequest; write_to := write_AdoptContainerRequest;
  clear := clear_AdoptContainerRequest }.

Definition valid_AdoptContainerRequest (m : AdoptContainerRequest) : Prop :=
  let '(mkAdoptContainerRequest old_container_id new_container_id) := m in
  text old_container_id /\ text new_container_id.

#[export, refine] Instance AdoptContainerRequest_lawful : Lawful AdoptContainerRequest := { valid := valid_AdoptContainerRequest }.
Proof.
  - intros [old_container_id new_container_id] (H0 & H1). cbn [write_to AdoptContainerRequest_message write_AdoptContainerRequest].
    carry (fun x => mkAdoptContainerRequest x "").
    carry_opt (fun x => mkAdoptContainerRequest old_container_id x).
  - intros [old_container_id new_container_id] (H0 & H1). cbn [write_to compute_size AdoptContainerRequest_message write_AdoptContainerRequest size_AdoptContainerRequest]. sizes.
Defined.

(** ** [AdoptContainerResponse] *)

Definition new_AdoptContainerResponse : AdoptContainerResponse := mkAdoptContainerResponse 0.

Definition merge_AdoptContainerResponse (tag : Z) (inp : bytes) (m : AdoptContainerResponse) : result (AdoptContainerResponse * bytes) :=
  let '(mkAdoptContainerResponse pid) := m in
  match tag with
  | 8 => '(pid, inp) ← read_uint32 inp; Ok (mkAdoptContainerResponse pid, inp)
  | _ => inp ← read_unknown_or_skip_group tag inp; Ok (m, inp)
  end.

Definition size_AdoptContainerResponse (m : AdoptContainerResponse) : Z :=
  let '(mkAdoptContainerResponse pid) := m in
  (if pid =? 0 then 0 else uint32_size 1 pid).

Definition write_AdoptContainerResponse (m : AdoptContainerResponse) : bytes :=
  let '(mkAdoptContainerResponse pid) := m in
  (if pid =? 0 then [] else write_uint32 1 pid).

Definition clear_AdoptContainerResponse (m : AdoptContainerResponse) : AdoptContainerResponse := mkAdoptContainerResponse 0.

#[export] Instance AdoptContainerResponse_message : Message AdoptContainerResponse := {
  new := new_AdoptContainerResponse; merge_field := merge_AdoptContainerResponse; compute_size := size_AdoptContainerResponse; write_to := write_AdoptContainerResponse;
  clear := clear_AdoptContainerResponse }.

Definition valid_AdoptContainerResponse (m : AdoptContainerResponse) : Prop :=
  let '(mkAdoptContainerResponse pid) := m in
  in_range 32 pid.

#[export, refine] Instance AdoptContainerResponse_lawful : Lawful AdoptContainerResponse := { valid := valid_AdoptContainerResponse }.
Proof.
  - intros [pid] H0. cbn [write_to AdoptContainerResponse_message write_AdoptContainerResponse].
    carry_opt (fun x => mkAdoptContainerResponse x).
  - intros [pid] H0. cbn [write_to compute_size AdoptContainerResponse_message write_AdoptContainerResponse size_AdoptContainerResponse]. sizes.
Defined.

(** ** All of them *)

Inductive message :=
| M_InlineFile (m : InlineFile)
| M_VolumeMount (m : VolumeMount)
| M_CreateContainerRequest (m : CreateContainerRequest)
| M_CreateContainerResponse (m : CreateContainerResponse)
| M_StartContainerRequest (m : StartContainerRequest)
| M_StartContainerResponse (m : StartContainerResponse)
| M_KillContainerRequest (m : KillContainerRequest)
| M_KillContainerResponse (m : KillContainerResponse)
| M_DeleteContainerRequest (m : DeleteContainerRequest)
| M_DeleteContainerResponse (m : DeleteContainerResponse)
| M_WaitContainerRequest (m : WaitContainerRequest)
| M_WaitContainerResponse (m : WaitContainerResponse)
| M_ExecProcessRequest (m : ExecProcessRequest)
| M_ExecProcessResponse (m : ExecProcessResponse)
| M_StateContainerRequest (m : StateContainerRequest)
| M_StateContainerResponse (m : StateContainerResponse)
| M_CheckRequest (m : CheckRequest)
| M_CheckResponse (m : CheckResponse)
| M_GetMemInfoRequest (m : GetMemInfoRequest)
| M_GetMemInfoResponse (m : GetMemInfoResponse)
| M_GetContainerLogsRequest (m : GetContainerLogsRequest)
| M_GetContainerLogsResponse (m : GetContainerLogsResponse)
| M_ConfigureNetworkRequest (m : ConfigureNetworkRequest)
| M_ConfigureNetworkResponse (m : ConfigureNetworkResponse)
| M_AdoptContainerRequest (m : AdoptContainerRequest)
| M_AdoptContainerResponse (m : AdoptContainerResponse).

Definition valid_message (m : message) : Prop :=
  match m with
  | M_InlineFile m => valid m
  | M_VolumeMount m => valid m
  | M_CreateContainerRequest m => valid m
  | M_CreateContainerResponse m => valid m
  | M_StartContainerRequest m => valid m
  | M_StartContainerResponse m => valid m
  | M_KillContainerRequest m => valid m
  | M_KillContainerResponse m => valid m
  | M_DeleteContainerRequest m => valid m
  | M_DeleteContainerResponse m => valid m
  | M_WaitContainerRequest m => valid m
  | M_WaitContainerResponse m => valid m
  | M_ExecProcessRequest m => valid m
  | M_ExecProcessResponse m => valid m
  | M_StateContainerRequest m => valid m
  | M_StateContainerResponse m => valid m
  | M_CheckRequest m => valid m
  | M_CheckResponse m => valid m
  | M_GetMemInfoRequest m => valid m
  | M_GetMemInfoResponse m => valid m
  | M_GetContainerLogsRequest m => valid m
  | M_GetContainerLogsResponse m => valid m
  | M_ConfigureNetworkRequest m => valid m
  | M_ConfigureNetworkResponse m => valid m
  | M_AdoptContainerRequest m => valid m
  | M_AdoptContainerResponse m => valid m
  end.

(** Decoding the encoding gives the message back, and [compute_size] is the
    encoding's length. *)
Definition roundtrips `{Message A} (m : A) : Prop :=
  merge_from new (write_to m) = Ok m /\ compute_size m = Z.of_nat (length (write_to m)).

Definition message_roundtrips (m : message) : Prop :=
  match m with
  | M_InlineFile m => roundtrips m
  | M_VolumeMount m => roundtrips m
  | M_CreateContainerRequest m => roundtrips m
  | M_CreateContainerResponse m => roundtrips m
  | M_StartContainerRequest m => roundtrips m
  | M_StartContainerResponse m => roundtrips m
  | M_KillContainerRequest m => roundtrips m
  | M_KillContainerResponse m => roundtrips m
  | M_DeleteContainerRequest m => roundtrips m
  | M_DeleteContainerResponse m => roundtrips m
  | M_WaitContainerRequest m => roundtrips m
  | M_WaitContainerResponse m => roundtrips m
  | M_ExecProcessRequest m => roundtrips m
  | M_ExecProcessResponse m => roundtrips m
  | M_StateContainerRequest m => roundtrips m
  | M_StateContainerResponse m => roundtrips m
  | M_CheckRequest m => roundtrips m
  | M_CheckResponse m => roundtrips m
  | M_GetMemInfoRequest m => roundtrips m
  | M_GetMemInfoResponse m => roundtrips m
  | M_GetContainerLogsRequest m => roundtrips m
  | M_GetContainerLogsResponse m => roundtrips m
  | M_ConfigureNetworkRequest m => roundtrips m
  | M_ConfigureNetworkResponse m => roundtrips m
  | M_AdoptContainerRequest m => roundtrips m
  | M_AdoptContainerResponse m => roundtrips m
  end.

Lemma lawful_roundtrips `{Message A, !Lawful A} (m : A) : valid m -> roundtrips m.
Proof. intros Hv. split; [by apply lawful_roundtrip|by apply valid_size]. Qed.

(** C16: every message of the agent protocol, of values its fields can hold, is what
    decoding makes of its encoding, field by field, and the size computed for it
    (which the transport and the enclosing message announce) is the length of that
    encoding. *)
Theorem every_message_roundtrips (m : message) : valid_message m -> message_roundtrips m.
Proof. destruct m; apply lawful_roundtrips. Qed.
End Messages.

Definition sample_volume : VolumeMount :=
  mkVolumeMount "/etc/app" "vol0" ["ro"; "nosuid"] true (inl BLOCK) "ext4" [mkInlineFile "app.conf" "key=1" 420].
Definition sample_request : CreateContainerRequest :=
  mkCreateContainerRequest "c1" "/run/c1" "" "" "" true [sample_volume; sample_volume] "{}" true (2 ^ 32 - 1).

Ltac fits := repeat first [split | apply Forall_nil | apply Forall_cons | reflexivity | discriminate | unfold short, blob, in_range; cbn; lia].

Lemma every_message_roundtrips_witness :
  @message_roundtrips Wire.wire (M_CreateContainerRequest sample_request) /\
  @message_roundtrips Wire.wire (M_StateContainerResponse (mkStateContainerResponse "c1" 7 (inr 9) 0 "now")).
Proof.
  split; apply (@every_message_roundtrips Wire.wire).
  - cbn. fits.
  - cbn. fits.
Defined.
