(* ===== verification/ProtoCompat.v ===== *)
(** * Unknown fields

    The last branch of every generated [merge_from]: a tag that is none of the message's
    is skipped. So the two ends of the agent protocol need not be of the same version: the
    fields a newer one adds do not change what an older one reads. *)

From S2P Require Import Prelude RustStr Bytes Netlink ProtoRt Proto Wire ProtoMsg.
Local Open Scope Z_scope.

(** A message's own tags, and that it skips the others. *)
Class Extensible A `{Protobuf, Message A} := {
  tags : list Z;
  skips_unknown tag inp (m : A) : tag ∉ tags ->
    merge_field tag inp m = (inp' ← read_unknown_or_skip_group tag inp; Ok (m, inp'));
}.

(** [chunk] is one field with the tag [tag], which the runtime can skip. *)
Definition skippable `{Protobuf} (tag : Z) (chunk : bytes) : Prop :=
  chunk <> [] /\ forall rest, exists body,
    read_raw_tag_or_eof (chunk ++ rest) = Ok (Some tag, body) /\ read_unknown_or_skip_group tag body = Ok rest.

(** [l] is a sequence of fields none of which is one of the message's. *)
Definition foreign A `{Extensible A} (l : list bytes) : Prop :=
  Forall (fun chunk => exists tag, (tag ∉ tags (A := A)) /\ skippable tag chunk) l.

Section Skip.
Context `{Extensible A}.

Lemma carries_foreign l (m : A) : foreign A l -> carries m (concat l) m.
Proof.
  intros Hl. induction Hl as [|c l (tag & Hn & Hne & Hs) Hl IH]; cbn [concat]; [apply carries_nil|].
  eapply carries_app; [|exact IH]. intros rest m' Hp. destruct (Hs rest) as (body & Ht & Hb).
  eapply parse_field; [exact Ht|rewrite skips_unknown by done; by rewrite Hb| |exact Hp].
  rewrite length_app. destruct c; [done|cbn; lia].
Qed.

Lemma extended_read `{!Lawful A} (m : A) before after :
  valid m -> foreign A before -> foreign A after ->
  merge_from new (concat before ++ write_to m ++ concat after) = Ok m.
Proof.
  intros Hv Hb Ha. apply carries_merge. eapply carries_app; [by apply carries_foreign|].
  eapply carries_app; [by apply valid_carries|by apply carries_foreign].
Qed.
End Skip.

(** ** The messages *)

Section Messages.
Context `{Protobuf}.

(** The tag is one of the message's, or the last branch is taken. *)
Ltac skips_others :=
  intros tag inp m Hn; destruct m; cbn;
  repeat (first [reflexivity | exfalso; apply Hn, (bool_decide_unpack _); exact I | case_match; try subst]).

#[export, refine] Instance InlineFile_extensible : Extensible InlineFile := { tags := [10; 18; 24] }.
Proof. skips_others. Defined.
#[export, refine] Instance VolumeMount_extensible : Extensible VolumeMount := { tags := [10; 18; 26; 32; 40; 50; 58] }.
Proof. skips_others. Defined.
#[export, refine] Instance CreateContainerRequest_extensible : Extensible CreateContainerRequest := { tags := [10; 18; 26; 34; 42; 48; 58; 66; 80; 88] }.
Proof. skips_others. Defined.
#[export, refine] Instance CreateContainerResponse_extensible : Extensible CreateContainerResponse := { tags := [8] }.
Proof. skips_others. Defined.
#[export, refine] Instance StartContainerRequest_extensible : Extensible StartContainerRequest := { tags := [10] }.
Proof. skips_others. Defined.
#[export, refine] Instance StartContainerResponse_extensible : Extensible StartContainerResponse := { tags := [8] }.
Proof. skips_others. Defined.
#[export, refine] Instance KillContainerRequest_extensible : Extensible KillContainerRequest := { tags := [10; 16; 24] }.
Proof. skips_others. Defined.
#[export, refine] Instance KillContainerResponse_extensible : Extensible KillContainerResponse := { tags := [] }.
Proof. skips_others. Defined.
#[export, refine] Instance DeleteContainerRequest_extensible : Extensible DeleteContainerRequest := { tags := [10] }.
Proof. skips_others. Defined.
#[export, refine] Instance DeleteContainerResponse_extensible : Extensible DeleteContainerResponse := { tags := [8; 16] }.
Proof. skips_others. Defined.
#[export, refine] Instance WaitContainerRequest_extensible : Extensible WaitContainerRequest := { tags := [10] }.
Proof. skips_others. Defined.
#[export, refine] Instance WaitContainerResponse_extensible : Extensible WaitContainerResponse := { tags := [8; 18] }.
Proof. skips_others. Defined.
#[export, refine] Instance ExecProcessRequest_extensible : Extensible ExecProcessRequest := { tags := [10; 18; 26; 34; 42; 50; 56] }.
Proof. skips_others. Defined.
#[export, refine] Instance ExecProcessResponse_extensible : Extensible ExecProcessResponse := { tags := [8] }.
Proof. skips_others. Defined.
#[export, refine] Instance StateContainerRequest_extensible : Extensible StateContainerRequest := { tags := [10] }.
Proof. skips_others. Defined.
#[export, refine] Instance StateContainerResponse_extensible : Extensible StateContainerResponse := { tags := [10; 16; 24; 32; 42] }.
Proof. skips_others. Defined.
#[export, refine] Instance CheckRequest_extensible : Extensible CheckRequest := { tags := [] }.
Proof. skips_others. Defined.
#[export, refine] Instance CheckResponse_extensible : Extensible CheckResponse := { tags := [8; 18] }.
Proof. skips_others. Defined.
#[export, refine] Instance GetMemInfoRequest_extensible : Extensible GetMemInfoRequest := { tags := [] }.
Proof. skips_others. Defined.
#[export, refine] Instance GetMemInfoResponse_extensible : Extensible GetMemInfoResponse := { tags := [8; 16; 24; 32; 40; 48; 56] }.
Proof. skips_others. Defined.
#[export, refine] Instance GetContainerLogsRequest_extensible : Extensible GetContainerLogsRequest := { tags := [10; 16] }.
Proof. skips_others. Defined.
#[export, refine] Instance GetContainerLogsResponse_extensible : Extensible GetContainerLogsResponse := { tags := [10; 18; 24; 32] }.
Proof. skips_others. Defined.
#[export, refine] Instance ConfigureNetworkRequest_extensible : Extensible ConfigureNetworkRequest := { tags := [10; 18; 24; 34; 42] }.
Proof. skips_others. Defined.
#[export, refine] Instance ConfigureNetworkResponse_extensible : Extensible ConfigureNetworkResponse := { tags := [] }.
Proof. skips_others. Defined.
#[export, refine] Instance AdoptContainerRequest_extensible : Extensible AdoptContainerRequest := { tags := [10; 18] }.
Proof. skips_others. Defined.
#[export, refine] Instance AdoptContainerResponse_extensible : Extensible AdoptContainerResponse := { tags := [8] }.
Proof. skips_others. Defined.

(** The unknown fields [before] and [after] those of the message change nothing. *)
Definition extended `{Extensible A} (m : A) : Prop :=
  forall before after, foreign A before -> foreign A after ->
    merge_from new (concat before ++ write_to m ++ concat after) = Ok m.

Definition message_extended (m : message) : Prop :=
  match m with
  | M_InlineFile m => extended m
  | M_VolumeMount m => extended m
  | M_CreateContainerRequest m => extended m
  | M_CreateContainerResponse m => extended m
  | M_StartContainerRequest m => extended m
  | M_StartContainerResponse m => extended m
  | M_KillContainerRequest m => extended m
  | M_KillContainerResponse m => extended m
  | M_DeleteContainerRequest m => extended m
  | M_DeleteContainerResponse m => extended m
  | M_WaitContainerRequest m => extended m
  | M_WaitContainerResponse m => extended m
  | M_ExecProcessRequest m => extended m
  | M_ExecProcessResponse m => extended m
  | M_StateContainerRequest m => extended m
  | M_StateContainerResponse m => extended m
  | M_CheckRequest m => extended m
  | M_CheckResponse m => extended m
  | M_GetMemInfoRequest m => extended m
  | M_GetMemInfoResponse m => extended m
  | M_GetContainerLogsRequest m => extended m
  | M_GetContainerLogsResponse m => extended m
  | M_ConfigureNetworkRequest m => extended m
  | M_ConfigureNetworkResponse m => extended m
  | M_AdoptContainerRequest m => extended m
  | M_AdoptContainerResponse m => extended m
  end.

Lemma lawful_extended `{Extensible A, !Lawful A} (m : A) : valid m -> extended m.
Proof. intros Hv before after. by apply extended_read. Qed.

(** C18: every message of the agent protocol is read as it was written also when the
    encoding holds, before or after its fields, any fields the message does not have:
    an agent or a daemon of another version that adds fields is still understood. *)
Theorem unknown_fields_skipped (m : message) : valid_message m -> message_extended m.
Proof. destruct m; apply lawful_extended. Qed.
End Messages.

(** ** Fields that the wire's own reader can skip *)

Lemma number_skippable n z : small n -> @skippable Wire.wire (8 * n) (Wire.number n z).
Proof.
  intros Hn. split; [done|]. intros rest. exists (Wire.put (wrap 64 z) ++ rest). split.
  - apply Wire.tag_spec. unfold small in Hn. lia.
  - cbn [read_unknown_or_skip_group Wire.wire]. unfold Wire.skip. replace (8 * n mod 8) with 0 by (rewrite Z.mul_comm; symmetry; apply Z.mod_mul; lia).
    rewrite Wire.get_put by (apply wrap_range; lia). reflexivity.
Qed.

Lemma delimited_skippable n b : small n -> short (Z.of_nat (length b)) -> @skippable Wire.wire (8 * n + 2) (Wire.delimited n b).
Proof.
  intros Hn Hb. split; [done|]. intros rest. exists (Wire.put (Z.of_nat (length b)) ++ b ++ rest). split.
  - unfold Wire.delimited, Wire.header. rewrite <- app_assoc. cbn [app]. apply Wire.tag_spec. unfold small in Hn. lia.
  - cbn [read_unknown_or_skip_group Wire.wire]. unfold Wire.skip.
    replace ((8 * n + 2) mod 8) with 2 by (rewrite Z.mul_comm, Z.add_comm, Z.mod_add; [reflexivity|lia]).
    rewrite Wire.get_len_spec by done. reflexivity.
Qed.

(** A request to kill from a daemon that also sends a field 9 and a field 12. *)
Lemma unknown_fields_skipped_witness :
  let m := mkKillContainerRequest "c" 15 true in
  @merge_from Wire.wire _ (@KillContainerRequest_message Wire.wire) (@new _ (@KillContainerRequest_message Wire.wire))
    (concat [Wire.number 9 7] ++ @write_to _ (@KillContainerRequest_message Wire.wire) m ++
     concat [Wire.delimited 12 [104; 105] ]) = Ok m.
Proof.
  apply (@unknown_fields_skipped Wire.wire (M_KillContainerRequest (mkKillContainerRequest "c" 15 true))).
  - cbn. fits.
  - apply Forall_singleton. exists 72. split; [apply (bool_decide_unpack _); exact I|]. apply (number_skippable 9). unfold small. lia.
  - apply Forall_singleton. exists 98. split; [apply (bool_decide_unpack _); exact I|].
    apply (delimited_skippable 12); [unfold small; lia|unfold short; cbn; lia].
Defined.
