(* ===== verification/Ttrpc.v ===== *)
(** * The agent's RPC stubs and method tables

    [crates/*/src/generated/agent_ttrpc.rs]: the clients the daemon calls
    ([AgentServiceClient], [HealthServiceClient]; the proto crate's copy), and the
    traits, method handlers and tables the agent serves (its own copy). The [ttrpc]
    crate is the class [Ttrpc]: its two macros and the way a request gets from a
    client to the server's table, with what they are documented to do as laws.
    [AgentServer] implements the traits. *)

From S2P Require Import Prelude RustStr Bytes Proto ProtoRt Wire ProtoMsg.
Local Open Scope Z_scope.

(** ** The crate *)

Record Request := mkRequest { rq_service : string; rq_method : string; rq_payload : bytes }.

Abbreviation MethodHandler S := (bytes -> M S bytes).
Abbreviation Service S := (gmap string (MethodHandler S)).

(** [y] passes [x] on: the same state, a success (through [f]) for a success,
    never a success for anything else. *)
Definition relays {S A B} (f : A -> result B) (x : result A * S) (y : result B * S) : Prop :=
  y.2 = x.2 /\ match x.1 with Ok a => y.1 = f a | _ => is_Ok y.1 = false end.

Lemma relays_Ok {S A} (x y : result A * S) a s : relays Ok x y -> y = (Ok a, s) -> x = (Ok a, s).
Proof. intros [Hs Hr] ->. cbn in *. destruct x as [r s1]. cbn in *. subst s1. destruct r; try done. by injection Hr as <-. Qed.

(** Messages up to [rpc_limit] bytes are carried. *)
Class Ttrpc `{Protobuf} := {
  rpc_limit : Z;
  async_request_handler {S A B} `{Message A, Message B} : (A -> M S B) -> MethodHandler S;
  async_client_request {S A B} `{Message A, Message B} : (Request -> M S bytes) -> string -> string -> A -> M S B;
  request {S} : gmap string (Service S) -> Request -> M S bytes;
  handler_law {S A B} `{Message A, Message B} (h : A -> M S B) payload req s :
    merge_from new payload = Ok req ->
    (forall b, (h req s).1 = Ok b -> compute_size b <= rpc_limit) ->
    relays (fun b => Ok (write_to b)) (h req s) (async_request_handler h payload s);
  client_law {S A B} `{Message A, Message B} (send : Request -> M S bytes) service method (req : A) s :
    compute_size req <= rpc_limit ->
    relays (B := B) (merge_from new) (send (mkRequest service method (write_to req)) s)
      (async_client_request send service method req s);
  request_law {S} (table : gmap string (Service S)) service methods method h payload s :
    table !! service = Some methods -> methods !! method = Some h ->
    request table (mkRequest service method payload) s = h payload s;
}.

(** A message the crate carries. *)
Definition carried `{Ttrpc} `{Message A, !Lawful A} (m : A) : Prop := valid m /\ compute_size m <= rpc_limit.

(** ** The traits *)

Record AgentService (S : Type) := mkAgentService {
  svc_create_container : CreateContainerRequest -> M S CreateContainerResponse;
  svc_start_container : StartContainerRequest -> M S StartContainerResponse;
  svc_run_container : CreateContainerRequest -> M S StartContainerResponse;
  svc_kill_container : KillContainerRequest -> M S KillContainerResponse;
  svc_delete_container : DeleteContainerRequest -> M S DeleteContainerResponse;
  svc_wait_container : WaitContainerRequest -> M S WaitContainerResponse;
  svc_exec_process : ExecProcessRequest -> M S ExecProcessResponse;
  svc_state_container : StateContainerRequest -> M S StateContainerResponse;
  svc_get_mem_info : GetMemInfoRequest -> M S GetMemInfoResponse;
  svc_get_container_logs : GetContainerLogsRequest -> M S GetContainerLogsResponse;
  svc_configure_network : ConfigureNetworkRequest -> M S ConfigureNetworkResponse;
  svc_adopt_container : AdoptContainerRequest -> M S AdoptContainerResponse }.

Record HealthService (S : Type) := mkHealthService {
  svc_check : CheckRequest -> M S CheckResponse }.

Arguments svc_create_container {_} _ _.
Arguments svc_start_container {_} _ _.
Arguments svc_run_container {_} _ _.
Arguments svc_kill_container {_} _ _.
Arguments svc_delete_container {_} _ _.
Arguments svc_wait_container {_} _ _.
Arguments svc_exec_process {_} _ _.
Arguments svc_state_container {_} _ _.
Arguments svc_get_mem_info {_} _ _.
Arguments svc_get_container_logs {_} _ _.
Arguments svc_configure_network {_} _ _.
Arguments svc_adopt_container {_} _ _.
Arguments svc_check {_} _ _.

Definition unsupported {S A B} (path : string) (req : A) : M S B := fail (Msg (path +:+ " is not supported")).

(** The traits' own methods. *)
Definition default_agent_service {S} : AgentService S := mkAgentService S
  (unsupported "/cloudhv.agent.AgentService/CreateContainer")
  (unsupported "/cloudhv.agent.AgentService/StartContainer")
  (unsupported "/cloudhv.agent.AgentService/RunContainer")
  (unsupported "/cloudhv.agent.AgentService/KillContainer")
  (unsupported "/cloudhv.agent.AgentService/DeleteContainer")
  (unsupported "/cloudhv.agent.AgentService/WaitContainer")
  (unsupported "/cloudhv.agent.AgentService/ExecProcess")
  (unsupported "/cloudhv.agent.AgentService/StateContainer")
  (unsupported "/cloudhv.agent.AgentService/GetMemInfo")
  (unsupported "/cloudhv.agent.AgentService/GetContainerLogs")
  (unsupported "/cloudhv.agent.AgentService/ConfigureNetwork")
  (unsupported "/cloudhv.agent.AgentService/AdoptContainer").

Definition default_health_service {S} : HealthService S := mkHealthService S (unsupported "/cloudhv.agent.HealthService/Check").

Section Stubs.
Context `{Ttrpc} {S : Type}.

(** ** The server *)

Definition CreateContainerMethod (service : AgentService S) : MethodHandler S :=
  async_request_handler (A := CreateContainerRequest) (svc_create_container service).

Definition StartContainerMethod (service : AgentService S) : MethodHandler S :=
  async_request_handler (A := StartContainerRequest) (svc_start_container service).

Definition RunContainerMethod (service : AgentService S) : MethodHandler S :=
  async_request_handler (A := CreateContainerRequest) (svc_run_container service).

Definition KillContainerMethod (service : AgentService S) : MethodHandler S :=
  async_request_handler (A := KillContainerRequest) (svc_kill_container service).

Definition DeleteContainerMethod (service : AgentService S) : MethodHandler S :=
  async_request_handler (A := DeleteContainerRequest) (svc_delete_container service).

Definition WaitContainerMethod (service : AgentService S) : MethodHandler S :=
  async_request_handler (A := WaitContainerRequest) (svc_wait_container service).

Definition ExecProcessMethod (service : AgentService S) : MethodHandler S :=
  async_request_handler (A := ExecProcessRequest) (svc_exec_process service).

Definition StateContainerMethod (service : AgentService S) : MethodHandler S :=
  async_request_handler (A := StateContainerRequest) (svc_state_container service).

Definition GetMemInfoMethod (service : AgentService S) : MethodHandler S :=
  async_request_handler (A := GetMemInfoRequest) (svc_get_mem_info service).

Definition GetContainerLogsMethod (service : AgentService S) : MethodHandler S :=
  async_request_handler (A := GetContainerLogsRequest) (svc_get_container_logs service).

Definition ConfigureNetworkMethod (service : AgentService S) : MethodHandler S :=
  async_request_handler (A := ConfigureNetworkRequest) (svc_configure_network service).

Definition AdoptContainerMethod (service : AgentService S) : MethodHandler S :=
  async_request_handler (A := AdoptContainerRequest) (svc_adopt_container service).

Definition CheckMethod (service : HealthService S) : MethodHandler S :=
  async_request_handler (A := CheckRequest) (svc_check service).

Definition create_agent_service (service : AgentService S) : gmap string (Service S) :=
  let methods : Service S := ∅ in
  let methods := <["CreateContainer" := CreateContainerMethod service]> methods in
  let methods := <["StartContainer" := StartContainerMethod service]> methods in
  let methods := <["RunContainer" := RunContainerMethod service]> methods in
  let methods := <["KillContainer" := KillContainerMethod service]> methods in
  let methods := <["DeleteContainer" := DeleteContainerMethod service]> methods in
  let methods := <["WaitContainer" := WaitContainerMethod service]> methods in
  let methods := <["ExecProcess" := ExecProcessMethod service]> methods in
  let methods := <["StateContainer" := StateContainerMethod service]> methods in
  let methods := <["GetMemInfo" := GetMemInfoMethod service]> methods in
  let methods := <["GetContainerLogs" := GetContainerLogsMethod service]> methods in
  let methods := <["ConfigureNetwork" := ConfigureNetworkMethod service]> methods in
  let methods := <["AdoptContainer" := AdoptContainerMethod service]> methods in
  <["cloudhv.agent.AgentService" := methods]> ∅.

Definition create_health_service (service : HealthService S) : gmap string (Service S) :=
  <["cloudhv.agent.HealthService" := <["Check" := CheckMethod service]> ∅]> ∅.

(** [register_service] twice, as [AgentServer::run] does. *)
Definition register_services (agent_svc : AgentService S) (health_svc : HealthService S) : gmap string (Service S) :=
  create_health_service health_svc ∪ create_agent_service agent_svc.

(** ** The clients *)

Section Client.
Context (client : Request -> M S bytes).

Definition client_create_container (req : CreateContainerRequest) : M S CreateContainerResponse :=
  async_client_request client "cloudhv.agent.AgentService" "CreateContainer" req.

Definition client_start_container (req : StartContainerRequest) : M S StartContainerResponse :=
  async_client_request client "cloudhv.agent.AgentService" "StartContainer" req.

Definition client_run_container (req : CreateContainerRequest) : M S StartContainerResponse :=
  async_client_request client "cloudhv.agent.AgentService" "RunContainer" req.

Definition client_kill_container (req : KillContainerRequest) : M S KillContainerResponse :=
  async_client_request client "cloudhv.agent.AgentService" "KillContainer" req.

Definition client_delete_container (req : DeleteContainerRequest) : M S DeleteContainerResponse :=
  async_client_request client "cloudhv.agent.AgentService" "DeleteContainer" req.

Definition client_wait_container (req : WaitContainerRequest) : M S WaitContainerResponse :=
  async_client_request client "cloudhv.agent.AgentService" "WaitContainer" req.

Definition client_exec_process (req : ExecProcessRequest) : M S ExecProcessResponse :=
  async_client_request client "cloudhv.agent.AgentService" "ExecProcess" req.

Definition client_state_container (req : StateContainerRequest) : M S StateContainerResponse :=
  async_client_request client "cloudhv.agent.AgentService" "StateContainer" req.

Definition client_get_mem_info (req : GetMemInfoRequest) : M S GetMemInfoResponse :=
  async_client_request client "cloudhv.agent.AgentService" "GetMemInfo" req.

Definition client_get_container_logs (req : GetContainerLogsRequest) : M S GetContainerLogsResponse :=
  async_client_request client "cloudhv.agent.AgentService" "GetContainerLogs" req.

Definition client_configure_network (req : ConfigureNetworkRequest) : M S ConfigureNetworkResponse :=
  async_client_request client "cloudhv.agent.AgentService" "ConfigureNetwork" req.

Definition client_adopt_container (req : AdoptContainerRequest) : M S AdoptContainerResponse :=
  async_client_request client "cloudhv.agent.AgentService" "AdoptContainer" req.

Definition client_check (req : CheckRequest) : M S CheckResponse :=
  async_client_request client "cloudhv.agent.HealthService" "Check" req.

End Client.

(** ** Calls *)

Inductive agent_call : Type -> Type :=
| C_create_container (req : CreateContainerRequest) : agent_call CreateContainerResponse
| C_start_container (req : StartContainerRequest) : agent_call StartContainerResponse
| C_run_container (req : CreateContainerRequest) : agent_call StartContainerResponse
| C_kill_container (req : KillContainerRequest) : agent_call KillContainerResponse
| C_delete_container (req : DeleteContainerRequest) : agent_call DeleteContainerResponse
| C_wait_container (req : WaitContainerRequest) : agent_call WaitContainerResponse
| C_exec_process (req : ExecProcessRequest) : agent_call ExecProcessResponse
| C_state_container (req : StateContainerRequest) : agent_call StateContainerResponse
| C_get_mem_info (req : GetMemInfoRequest) : agent_call GetMemInfoResponse
| C_get_container_logs (req : GetContainerLogsRequest) : agent_call GetContainerLogsResponse
| C_configure_network (req : ConfigureNetworkRequest) : agent_call ConfigureNetworkResponse
| C_adopt_container (req : AdoptContainerRequest) : agent_call AdoptContainerResponse
| C_check (req : CheckRequest) : agent_call CheckResponse.

(** The implementation, called directly. *)
Definition direct {B} (a : AgentService S) (h : HealthService S) (c : agent_call B) : M S B :=
  match c with
  | C_create_container req => svc_create_container a req
  | C_start_container req => svc_start_container a req
  | C_run_container req => svc_run_container a req
  | C_kill_container req => svc_kill_container a req
  | C_delete_container req => svc_delete_container a req
  | C_wait_container req => svc_wait_container a req
  | C_exec_process req => svc_exec_process a req
  | C_state_container req => svc_state_container a req
  | C_get_mem_info req => svc_get_mem_info a req
  | C_get_container_logs req => svc_get_container_logs a req
  | C_configure_network req => svc_configure_network a req
  | C_adopt_container req => svc_adopt_container a req
  | C_check req => svc_check h req
  end.

(** The stub, over the wire. *)
Definition remote {B} (a : AgentService S) (h : HealthService S) (c : agent_call B) : M S B :=
  let client := request (register_services a h) in
  match c with
  | C_create_container req => client_create_container client req
  | C_start_container req => client_start_container client req
  | C_run_container req => client_run_container client req
  | C_kill_container req => client_kill_container client req
  | C_delete_container req => client_delete_container client req
  | C_wait_container req => client_wait_container client req
  | C_exec_process req => client_exec_process client req
  | C_state_container req => client_state_container client req
  | C_get_mem_info req => client_get_mem_info client req
  | C_get_container_logs req => client_get_container_logs client req
  | C_configure_network req => client_configure_network client req
  | C_adopt_container req => client_adopt_container client req
  | C_check req => client_check client req
  end.

Definition sendable {B} (c : agent_call B) : Prop :=
  match c with
  | C_create_container req => carried req
  | C_start_container req => carried req
  | C_run_container req => carried req
  | C_kill_container req => carried req
  | C_delete_container req => carried req
  | C_wait_container req => carried req
  | C_exec_process req => carried req
  | C_state_container req => carried req
  | C_get_mem_info req => carried req
  | C_get_container_logs req => carried req
  | C_configure_network req => carried req
  | C_adopt_container req => carried req
  | C_check req => carried req
  end.

Definition answerable {B} (c : agent_call B) : B -> Prop :=
  match c with
  | C_create_container _ => carried
  | C_start_container _ => carried
  | C_run_container _ => carried
  | C_kill_container _ => carried
  | C_delete_container _ => carried
  | C_wait_container _ => carried
  | C_exec_process _ => carried
  | C_state_container _ => carried
  | C_get_mem_info _ => carried
  | C_get_container_logs _ => carried
  | C_configure_network _ => carried
  | C_adopt_container _ => carried
  | C_check _ => carried
  end.

Lemma relayed {A B} `{Message A, !Lawful A, Message B, !Lawful B} table service methods method (h : A -> M S B) req s :
  table !! service = Some methods -> methods !! method = Some (async_request_handler h) -> carried req ->
  (forall b, (h req s).1 = Ok b -> carried b) ->
  relays Ok (h req s) (async_client_request (request table) service method req s).
Proof.
  intros Ht Hm [Hv Hl] Hb.
  destruct (handler_law h (write_to req) req s) as [Hs1 Hr1]; [by apply lawful_roundtrip|by intros b Eb; apply (Hb b Eb)|].
  destruct (client_law (B := B) (request table) service method req s Hl) as [Hs2 Hr2].
  rewrite (request_law table service methods method _ _ _ Ht Hm) in Hs2, Hr2. split; [congruence|].
  destruct (h req s) as [r s1] eqn:Er. cbn [fst snd] in *. destruct r as [b|e| |].
  1: { rewrite Hr1 in Hr2. rewrite Hr2. apply lawful_roundtrip. by apply (Hb b). }
  all: by destruct (async_request_handler h (write_to req) s).1.
Qed.

(** C15: a remote procedure call to the agent is the call of its handler: the stub
    the daemon calls, through the encoding of the request, the table the agent
    registers and the encoding of the response, comes back with the very response the
    handler for that method gave to that request, with the state the handler left;
    and it does not succeed unless the handler did. *)
Theorem rpc_transparent {B} a h (c : agent_call B) s :
  sendable c -> (forall b, (direct a h c s).1 = Ok b -> answerable c b) ->
  relays Ok (direct a h c s) (remote a h c s).
Proof. destruct c; cbn [sendable direct remote answerable]; intros Hq Hb; (eapply relayed; [reflexivity|reflexivity|done|done]). Qed.
End Stubs.

(** ** A crate that obeys the laws *)

#[export, refine] Instance plain_ttrpc `{Protobuf} : Ttrpc := {
  rpc_limit := 4 * 2 ^ 20;
  async_request_handler S A B _ _ h payload := req ← lift (merge_from new payload); resp ← h req; mret (write_to resp);
  async_client_request S A B _ _ send service method req :=
    payload ← send (mkRequest service method (write_to req)); lift (merge_from new payload);
  request S table rq :=
    match table !! rq_service rq ≫= (fun methods : Service S => methods !! rq_method rq) with
    | Some h => h (rq_payload rq)
    | None => fail (Msg "not found")
    end;
}.
Proof.
  - intros S A B HA HB h payload req s Hm _. unfold mbind, M_bind, lift. rewrite Hm.
    by destruct (h req s) as [ [] s'].
  - intros S A B HA HB send service method req s _. unfold mbind, M_bind, lift.
    by destruct (send _ s) as [ [] s'].
  - intros S table service methods method h payload s Ht Hm. cbn [rq_service rq_method rq_payload]. rewrite Ht.
    unfold mbind, option_bind. match goal with |- (match ?x with _ => _ end) s = _ => by replace x with (Some h) by (symmetry; exact Hm) end.
Defined.

(** A service that counts the calls of one method. *)
Definition counting_service : AgentService Z :=
  mkAgentService Z
    (unsupported "create") (unsupported "start") (fun req n => (Ok (mkStartContainerResponse n), n + 1))
    (unsupported "kill") (unsupported "delete") (unsupported "wait") (unsupported "exec") (unsupported "state")
    (unsupported "mem") (unsupported "logs") (unsupported "net") (unsupported "adopt").

Lemma rpc_transparent_witness :
  relays Ok (Ok (mkStartContainerResponse 41), 42)
    (remote (H0 := @plain_ttrpc Wire.wire) counting_service default_health_service (C_run_container sample_request) 41).
Proof.
  apply (rpc_transparent (H0 := @plain_ttrpc Wire.wire) counting_service default_health_service (C_run_container sample_request) 41).
  - split; [cbn; fits|vm_compute; discriminate].
  - intros b [= <-]. split; [cbn; fits|vm_compute; discriminate].
Defined.
