(* ===== verification/Schema.v ===== *)
(** * The schema the generated messages carry

    The generated code ends with the schema it was made from, [proto/agent.proto] as a
    serialized [FileDescriptorProto] ([file_descriptor_proto_data] of
    [crates/proto/src/generated/agent.rs]), and registers for every message the names
    of its fields with accessors ([generated_message_descriptor_data]). Here the schema is
    decoded with the reader of [Wire], and an encoder that knows nothing of the messages
    but the schema and those accessors, and a decoder that knows nothing of them but the
    schema, are the references the generated code is compared with. *)

From S2P Require Import Prelude RustStr Bytes Netlink ProtoRt Proto Wire ProtoMsg ProtoCompat Ttrpc.
From Stdlib Require Import Ascii.
From Stdlib Require String.
Local Open Scope Z_scope.

(** ** The data, a line of the source per line, in hexadecimal *)

Definition hex_digit (c : ascii) : Z :=
  let b := byte_of c in if b <? 58 then b - 48 else b - 87.
Fixpoint of_hex (s : string) : bytes :=
  match s with
  | String a (String b s') => 16 * hex_digit a + hex_digit b :: of_hex s'
  | _ => []
  end.

Definition file_descriptor_proto_data : bytes := concat (map of_hex [
  "0a0b6167656e742e70726f746f120d636c6f756468762e6167656e7422e7020a16437265617465436f6e7461696e65725265717565";
  "737412210a0c636f6e7461696e65725f6964180120012809520b636f6e7461696e65724964121f0a";
  "0b62756e646c655f70617468180220012809520a62756e646c655061746812140a05737464696e18";
  "03200128095205737464696e12160a067374646f75741804200128095206737464";
  "6f757412160a067374646572721805200128095206737464657272121a0a087465726d69";
  "6e616c18062001280852087465726d696e616c12340a07766f6c756d65731807200328";
  "0b321a2e636c6f756468762e6167656e742e566f6c756d654d6f756e745207766f6c756d6573121f0a0b636f6e6669675f6a736f6e";
  "18082001280c520a636f6e6669674a736f6e122d0a12726f6f7466735f7072656174746163686564180a";
  "200128085211726f6f746673507265617474616368656412210a0c65726f66735f6c6179657273180b20";
  "01280d520b65726f66734c61796572732283020a0b566f6c756d654d6f756e7412200a0b64657374696e6174";
  "696f6e180120012809520b64657374696e6174696f6e12160a06736f75726365180220";
  "0128095206736f7572636512180a076f7074696f6e7318032003280952076f7074696f6e73";
  "121a0a08726561646f6e6c791804200128085208726561646f6e6c79123a0a0b766f6c756d";
  "655f7479706518052001280e32192e636c6f756468762e6167656e742e566f6c756d6554797065520a766f6c756d6554797065";
  "12170a0766735f747970651806200128095206667354797065122f0a0566696c657318";
  "072003280b32192e636c6f756468762e6167656e742e496e6c696e6546696c65520566696c6573224e0a0a496e6c696e654669";
  "6c6512120a047061746818012001280952047061746812180a07636f6e74656e74";
  "18022001280c5207636f6e74656e7412120a046d6f646518032001280d52";
  "046d6f6465222b0a17437265617465436f6e7461696e6572526573706f6e736512100a03706964180120";
  "01280d5203706964223a0a155374617274436f6e7461696e65725265717565737412210a0c636f6e7461696e65725f696418";
  "0120012809520b636f6e7461696e65724964222a0a165374617274436f6e7461696e6572526573706f6e736512100a";
  "0370696418012001280d520370696422630a144b696c6c436f6e7461696e65725265717565737412210a";
  "0c636f6e7461696e65725f6964180120012809520b636f6e7461696e6572496412160a067369676e616c";
  "18022001280d52067369676e616c12100a03616c6c18032001280852";
  "03616c6c22170a154b696c6c436f6e7461696e6572526573706f6e7365223b0a1644656c657465436f6e7461696e657252657175657374";
  "12210a0c636f6e7461696e65725f6964180120012809520b636f6e7461696e65724964224c0a1744656c6574";
  "65436f6e7461696e6572526573706f6e7365121f0a0b657869745f73746174757318012001280d520a65786974537461";
  "74757312100a0370696418022001280d520370696422390a1457616974436f6e7461696e6572526571";
  "7565737412210a0c636f6e7461696e65725f6964180120012809520b636f6e7461696e6572496422550a1557";
  "616974436f6e7461696e6572526573706f6e7365121f0a0b657869745f73746174757318012001280d520a6578697453";
  "7461747573121b0a096578697465645f61741802200128095208657869746564417422cf010a";
  "124578656350726f636573735265717565737412210a0c636f6e7461696e65725f6964180120012809520b636f6e";
  "7461696e6572496412170a07657865635f69641802200128095206657865634964121b0a0973";
  "7065635f6a736f6e1803200128095208737065634a736f6e12140a05737464696e180420";
  "0128095205737464696e12160a067374646f757418052001280952067374646f757412";
  "160a067374646572721806200128095206737464657272121a0a087465726d696e616c18";
  "072001280852087465726d696e616c22270a134578656350726f63657373526573706f6e736512100a03";
  "70696418012001280d5203706964223a0a155374617465436f6e7461696e65725265717565737412210a0c63";
  "6f6e7461696e65725f6964180120012809520b636f6e7461696e6572496422c2010a165374617465436f6e7461";
  "696e6572526573706f6e736512210a0c636f6e7461696e65725f6964180120012809520b636f6e7461696e65724964";
  "12100a0370696418022001280d520370696412350a067374617475731803";
  "2001280e321d2e636c6f756468762e6167656e742e436f6e7461696e657253746174655206737461747573121f0a0b";
  "657869745f73746174757318042001280d520a65786974537461747573121b0a096578697465645f61741805";
  "2001280952086578697465644174220e0a0c436865636b52657175657374223f0a0d436865636b526573706f6e736512";
  "140a0572656164791801200128085205726561647912180a0776657273696f6e18";
  "0220012809520776657273696f6e22130a114765744d656d496e666f526571756573742282020a12";
  "4765744d656d496e666f526573706f6e736512200a0c6d656d5f746f74616c5f6b62180120012804520a6d656d54";
  "6f74616c4b62121e0a0b6d656d5f667265655f6b6218022001280452096d656d467265654b6212280a";
  "106d656d5f617661696c61626c655f6b62180320012804520e6d656d417661696c61626c654b62121d0a0a";
  "627566666572735f6b621804200128045209627566666572734b62121b0a096361636865645f6b621805";
  "2001280452086361636865644b6212220a0d737761705f746f74616c5f6b6218062001280452";
  "0b73776170546f74616c4b6212200a0c737761705f667265655f6b62180720012804520a73776170467265";
  "654b6222540a17476574436f6e7461696e65724c6f67735265717565737412210a0c636f6e7461696e65725f6964180120";
  "012809520b636f6e7461696e6572496412160a066f666673657418022001280452066f6666";
  "73657422740a18476574436f6e7461696e65724c6f6773526573706f6e736512160a067374646f757418012001";
  "280c52067374646f757412160a0673746465727218022001280c520673746465727212";
  "160a066f666673657418032001280452066f666673657412100a03656f6618";
  "04200128085203656f66229b010a17436f6e6669677572654e6574776f726b52657175657374121d";
  "0a0a69705f61646472657373180120012809520969704164647265737312180a076761746577617918";
  "0220012809520767617465776179121d0a0a7072656669785f6c656e18032001280d520970";
  "72656669784c656e12160a06646576696365180420012809520664657669636512100a03";
  "6d616318052001280952036d6163221a0a18436f6e6669677572654e6574776f726b526573706f6e7365226b0a";
  "1541646f7074436f6e7461696e65725265717565737412280a106f6c645f636f6e7461696e65725f696418012001280952";
  "0e6f6c64436f6e7461696e6572496412280a106e65775f636f6e7461696e65725f6964180220012809520e6e6577";
  "436f6e7461696e65724964222a0a1641646f7074436f6e7461696e6572526573706f6e736512100a03706964180120";
  "01280d52037069642a270a0a566f6c756d6554797065120e0a0a46494c4553595354454d100012090a0542";
  "4c4f434b10012a500a0e436f6e7461696e65725374617465120b0a07554e4b4e4f574e1000120b0a";
  "07435245415445441001120b0a0752554e4e494e471002120b0a0753544f50504544";
  "1003120a0a06504155534544100432f8080a0c4167656e745365727669636512600a0f";
  "437265617465436f6e7461696e657212252e636c6f756468762e6167656e742e437265617465436f6e7461696e6572526571756573741a262e636c6f756468762e61";
  "67656e742e437265617465436f6e7461696e6572526573706f6e7365125d0a0e5374617274436f6e7461696e657212242e636c6f756468762e6167656e74";
  "2e5374617274436f6e7461696e6572526571756573741a252e636c6f756468762e6167656e742e5374617274436f6e7461696e6572526573706f6e7365125c0a";
  "0c52756e436f6e7461696e657212252e636c6f756468762e6167656e742e437265617465436f6e7461696e6572526571756573741a252e636c6f756468762e";
  "6167656e742e5374617274436f6e7461696e6572526573706f6e7365125a0a0d4b696c6c436f6e7461696e657212232e636c6f756468762e6167656e742e4b69";
  "6c6c436f6e7461696e6572526571756573741a242e636c6f756468762e6167656e742e4b696c6c436f6e7461696e6572526573706f6e736512600a0f4465";
  "6c657465436f6e7461696e657212252e636c6f756468762e6167656e742e44656c657465436f6e7461696e6572526571756573741a262e636c6f756468762e616765";
  "6e742e44656c657465436f6e7461696e6572526573706f6e7365125a0a0d57616974436f6e7461696e657212232e636c6f756468762e6167656e742e57616974";
  "436f6e7461696e6572526571756573741a242e636c6f756468762e6167656e742e57616974436f6e7461696e6572526573706f6e736512540a0b45786563";
  "50726f6365737312212e636c6f756468762e6167656e742e4578656350726f63657373526571756573741a222e636c6f756468762e6167656e742e457865635072";
  "6f63657373526573706f6e7365125d0a0e5374617465436f6e7461696e657212242e636c6f756468762e6167656e742e5374617465436f6e7461696e6572";
  "526571756573741a252e636c6f756468762e6167656e742e5374617465436f6e7461696e6572526573706f6e736512510a0a4765744d656d496e666f12";
  "202e636c6f756468762e6167656e742e4765744d656d496e666f526571756573741a212e636c6f756468762e6167656e742e4765744d656d496e666f526573706f6e";
  "736512630a10476574436f6e7461696e65724c6f677312262e636c6f756468762e6167656e742e476574436f6e7461696e65724c6f677352657175657374";
  "1a272e636c6f756468762e6167656e742e476574436f6e7461696e65724c6f6773526573706f6e736512630a10436f6e6669677572654e6574776f726b";
  "12262e636c6f756468762e6167656e742e436f6e6669677572654e6574776f726b526571756573741a272e636c6f756468762e6167656e742e436f6e666967757265";
  "4e6574776f726b526573706f6e7365125d0a0e41646f7074436f6e7461696e657212242e636c6f756468762e6167656e742e41646f7074436f6e7461696e";
  "6572526571756573741a252e636c6f756468762e6167656e742e41646f7074436f6e7461696e6572526573706f6e736532530a0d4865616c746853657276696365";
  "12420a05436865636b121b2e636c6f756468762e6167656e742e436865636b526571756573741a1c2e636c6f756468762e6167656e";
  "742e436865636b526573706f6e736542365a346769746875622e636f6d2f64657669676e65642f636f6e7461696e6572642d636c6f756468797065727669736f722f70726f746f62";
  "0670726f746f33"]).

(** ** Decoding a schema

    The parts of [descriptor.proto] that say how messages are encoded: a file's messages
    (4), enums (5) and services (6); a message's name (1) and fields (2); a field's name
    (1), number (3), label (4), type (5) and type name (6); an enum's name and values; a
    service's name and methods, each with the types it takes and gives. *)

Inductive raw := RNum (z : Z) | RLen (b : bytes).

(** The fields of any encoded message, in order. *)
Fixpoint raw_fields (fuel : nat) (l : bytes) : option (list (Z * raw)) :=
  match fuel, l with
  | O, _ => None
  | _, [] => Some []
  | S fuel', _ =>
      match Wire.get l with
      | Ok (t, r) =>
          if t mod 8 =? 0 then
            match Wire.get r with Ok (z, r') => cons (t / 8, RNum z) <$> raw_fields fuel' r' | _ => None end
          else if t mod 8 =? 2 then
            match Wire.get_len r with Ok (b, r') => cons (t / 8, RLen b) <$> raw_fields fuel' r' | _ => None end
          else None
      | _ => None
      end
  end.
Definition raws (b : bytes) : list (Z * raw) := default [] (raw_fields (S (length b)) b).

Definition nums (n : Z) (l : list (Z * raw)) : list Z :=
  omap (fun '(k, r) => match r with RNum z => if k =? n then Some z else None | _ => None end) l.
Definition lens (n : Z) (l : list (Z * raw)) : list bytes :=
  omap (fun '(k, r) => match r with RLen b => if k =? n then Some b else None | _ => None end) l.
Definition num (n : Z) (l : list (Z * raw)) : Z := default 0 (last (nums n l)).
Definition str (n : Z) (l : list (Z * raw)) : string := str_of_bytes (default [] (last (lens n l))).

Record field_desc := mkFieldDesc {
  fd_name : string; fd_number : Z; fd_label : Z; fd_type : Z; fd_type_name : string }.
Record message_desc := mkMessageDesc { md_name : string; md_fields : list field_desc }.
Record enum_desc := mkEnumDesc { ed_name : string; ed_values : list (string * Z) }.
Record method_desc := mkMethodDesc { me_name : string; me_input : string; me_output : string }.
Record service_desc := mkServiceDesc { sd_name : string; sd_methods : list method_desc }.
Record file_desc := mkFileDesc {
  fi_package : string; fi_messages : list message_desc; fi_enums : list enum_desc; fi_services : list service_desc }.

Definition field_of (b : bytes) : field_desc :=
  let l := raws b in mkFieldDesc (str 1 l) (num 3 l) (num 4 l) (num 5 l) (str 6 l).
Definition message_of (b : bytes) : message_desc :=
  let l := raws b in mkMessageDesc (str 1 l) (map field_of (lens 2 l)).
Definition enum_desc_of (b : bytes) : enum_desc :=
  let l := raws b in mkEnumDesc (str 1 l) (map (fun v => let r := raws v in (str 1 r, num 2 r)) (lens 2 l)).
Definition method_of (b : bytes) : method_desc :=
  let l := raws b in mkMethodDesc (str 1 l) (str 2 l) (str 3 l).
Definition service_of (b : bytes) : service_desc :=
  let l := raws b in mkServiceDesc (str 1 l) (map method_of (lens 2 l)).
Definition file_of (b : bytes) : file_desc :=
  let l := raws b in
  mkFileDesc (str 2 l) (map message_of (lens 4 l)) (map enum_desc_of (lens 5 l)) (map service_of (lens 6 l)).

(** The schema, evaluated. *)
Definition schema : file_desc := Eval vm_compute in file_of file_descriptor_proto_data.
Lemma schema_decoded : file_of file_descriptor_proto_data = schema.
Proof. vm_compute. reflexivity. Qed.

Definition find_message (fd : file_desc) (name : string) : option message_desc :=
  List.find (fun m => String.eqb (md_name m) name) (fi_messages fd).
Definition find_field (m : message_desc) (name : string) : option field_desc :=
  List.find (fun f => String.eqb (fd_name f) name) (md_fields m).

(** ** Encoding by the schema *)

(** A field's value as an accessor gives it. *)
#[warnings="-register-all"]
Inductive pval :=
| PStr (s : string)
| PBytes (s : string)
| PBool (b : bool)
| PNum (z : Z)
| PEnum (z : Z)
| PMsg (name : string) (fs : list (string * pval))
| PRep (l : list pval).

(** The numbers [descriptor.proto] gives types and the label of a repeated field. *)
Definition TYPE_UINT64 : Z := 4.
Definition TYPE_BOOL : Z := 8.
Definition TYPE_STRING : Z := 9.
Definition TYPE_MESSAGE : Z := 11.
Definition TYPE_BYTES : Z := 12.
Definition TYPE_UINT32 : Z := 13.
Definition TYPE_ENUM : Z := 14.
Definition LABEL_REPEATED : Z := 3.

(** proto3 does not write a singular field that has its type's default. *)
Definition is_default (v : pval) : bool :=
  match v with
  | PStr s | PBytes s => is_empty s
  | PBool b => negb b
  | PNum z | PEnum z => z =? 0
  | PMsg _ _ => false
  | PRep l => match l with [] => true | _ => false end
  end.
Definition is_rep (v : pval) : bool := match v with PRep _ => true | _ => false end.

Section Encode.
Context `{Protobuf} (fd : file_desc).

Definition encode_scalar (f : field_desc) (v : pval) : option bytes :=
  let n := fd_number f in
  match v with
  | PStr s => if fd_type f =? TYPE_STRING then Some (write_string n s) else None
  | PBytes s => if fd_type f =? TYPE_BYTES then Some (write_bytes n s) else None
  | PBool b => if fd_type f =? TYPE_BOOL then Some (write_bool n b) else None
  | PNum z => if fd_type f =? TYPE_UINT32 then Some (write_uint32 n z)
              else if fd_type f =? TYPE_UINT64 then Some (write_uint64 n z) else None
  | PEnum z => if fd_type f =? TYPE_ENUM then Some (write_enum n z) else None
  | _ => None
  end.

(** The fields of a message, in the order of their accessors, each value encoded by
    [enc]. *)
Definition fields_with (enc : field_desc -> pval -> option bytes) (md : message_desc) : list (string * pval) -> option bytes :=
  fix go fs := match fs with
  | [] => Some []
  | (k, v) :: fs' =>
      f ← find_field md k;
      b ← (if negb (Bool.eqb (is_rep v) (fd_label f =? LABEL_REPEATED)) then None
           else if is_default v then Some [] else enc f v);
      rest ← go fs';
      Some (b ++ rest)
  end.

(** A value of the field [f]; nothing for a value that is not of the field's type. The
    elements of a repeated field are written one by one, a nested message after its
    length. *)
Fixpoint encode_val (f : field_desc) (v : pval) {struct v} : option bytes :=
  match v with
  | PRep l =>
      (fix each l := match l with
       | [] => Some []
       | v :: l' => b ← encode_val f v; rest ← each l'; Some (b ++ rest)
       end) l
  | PMsg name fs =>
      if (fd_type f =? TYPE_MESSAGE) && String.eqb (fd_type_name f) ("." +:+ fi_package fd +:+ "." +:+ name) then
        md ← find_message fd name;
        body ← fields_with encode_val md fs;
        Some (write_header (fd_number f) (wrap 32 (Z.of_nat (length body))) ++ body)
      else None
  | _ => encode_scalar f v
  end.

Definition encode_fields (md : message_desc) (fs : list (string * pval)) : option bytes := fields_with encode_val md fs.

Definition encode_message (m : string * list (string * pval)) : option bytes :=
  md ← find_message fd m.1; encode_fields md m.2.
End Encode.

(** The tag of a field on the wire: numbers, booleans and enums are varints, the rest has
    a length. *)
Definition tag_of (f : field_desc) : Z :=
  8 * fd_number f + (if bool_decide (fd_type f ∈ [TYPE_STRING; TYPE_BYTES; TYPE_MESSAGE]) then 2 else 0).

(** ** What each message registers *)

Section Reflection.
Context `{Protobuf}.

Definition reflect_InlineFile (m : InlineFile) : string * list (string * pval) :=
  let '(mkInlineFile path content mode) := m in
  ("InlineFile", [("path", PStr path);
    ("content", PBytes content);
    ("mode", PNum mode)]).

Definition reflect_VolumeMount (m : VolumeMount) : string * list (string * pval) :=
  let '(mkVolumeMount destination source options readonly volume_type fs_type files) := m in
  ("VolumeMount", [("destination", PStr destination);
    ("source", PStr source);
    ("options", PRep (map (fun x => PStr x) options));
    ("readonly", PBool readonly);
    ("volume_type", PEnum (enum_value volume_type));
    ("fs_type", PStr fs_type);
    ("files", PRep (map (fun x => let (n, fs) := reflect_InlineFile x in PMsg n fs) files))]).

Definition reflect_CreateContainerRequest (m : CreateContainerRequest) : string * list (string * pval) :=
  let '(mkCreateContainerRequest container_id bundle_path stdin stdout stderr terminal volumes config_json rootfs_preattached erofs_layers) := m in
  ("CreateContainerRequest", [("container_id", PStr container_id);
    ("bundle_path", PStr bundle_path);
    ("stdin", PStr stdin);
    ("stdout", PStr stdout);
    ("stderr", PStr stderr);
    ("terminal", PBool terminal);
    ("volumes", PRep (map (fun x => let (n, fs) := reflect_VolumeMount x in PMsg n fs) volumes));
    ("config_json", PBytes config_json);
    ("rootfs_preattached", PBool rootfs_preattached);
    ("erofs_layers", PNum erofs_layers)]).

Definition reflect_CreateContainerResponse (m : CreateContainerResponse) : string * list (string * pval) :=
  let '(mkCreateContainerResponse pid) := m in
  ("CreateContainerResponse", [("pid", PNum pid)]).

Definition reflect_StartContainerRequest (m : StartContainerRequest) : string * list (string * pval) :=
  let '(mkStartContainerRequest container_id) := m in
  ("StartContainerRequest", [("container_id", PStr container_id)]).

Definition reflect_StartContainerResponse (m : StartContainerResponse) : string * list (string * pval) :=
  let '(mkStartContainerResponse pid) := m in
  ("StartContainerResponse", [("pid", PNum pid)]).

Definition reflect_KillContainerRequest (m : KillContainerRequest) : string * list (string * pval) :=
  let '(mkKillContainerRequest container_id signal all_) := m in
  ("KillContainerRequest", [("container_id", PStr container_id);
    ("signal", PNum signal);
    ("all", PBool all_)]).

Definition reflect_KillContainerResponse (m : KillContainerResponse) : string * list (string * pval) := ("KillContainerResponse", []).

Definition reflect_DeleteContainerRequest (m : DeleteContainerRequest) : string * list (string * pval) :=
  let '(mkDeleteContainerRequest container_id) := m in
  ("DeleteContainerRequest", [("container_id", PStr container_id)]).

Definition reflect_DeleteContainerResponse (m : DeleteContainerResponse) : string * list (string * pval) :=
  let '(mkDeleteContainerResponse exit_status pid) := m in
  ("DeleteContainerResponse", [("exit_status", PNum exit_status);
    ("pid", PNum pid)]).

Definition reflect_WaitContainerRequest (m : WaitContainerRequest) : string * list (string * pval) :=
  let '(mkWaitContainerRequest container_id) := m in
  ("WaitContainerRequest", [("container_id", PStr container_id)]).

Definition reflect_WaitContainerResponse (m : WaitContainerResponse) : string * list (string * pval) :=
  let '(mkWaitContainerResponse exit_status exited_at) := m in
  ("WaitContainerResponse", [("exit_status", PNum exit_status);
    ("exited_at", PStr exited_at)]).

Definition reflect_ExecProcessRequest (m : ExecProcessRequest) : string * list (string * pval) :=
  let '(mkExecProcessRequest container_id exec_id spec_json stdin stdout stderr terminal) := m in
  ("ExecProcessRequest", [("container_id", PStr container_id);
    ("exec_id", PStr exec_id);
    ("spec_json", PStr spec_json);
    ("stdin", PStr stdin);
    ("stdout", PStr stdout);
    ("stderr", PStr stderr);
    ("terminal", PBool terminal)]).

Definition reflect_ExecProcessResponse (m : ExecProcessResponse) : string * list (string * pval) :=
  let '(mkExecProcessResponse pid) := m in
  ("ExecProcessResponse", [("pid", PNum pid)]).

Definition reflect_StateContainerRequest (m : StateContainerRequest) : string * list (string * pval) :=
  let '(mkStateContainerRequest container_id) := m in
  ("StateContainerRequest", [("container_id", PStr container_id)]).

Definition reflect_StateContainerResponse (m : StateContainerResponse) : string * list (string * pval) :=
  let '(mkStateContainerResponse container_id pid status exit_status exited_at) := m in
  ("StateContainerResponse", [("container_id", PStr container_id);
    ("pid", PNum pid);
    ("status", PEnum (enum_value status));
    ("exit_status", PNum exit_status);
    ("exited_at", PStr exited_at)]).

Definition reflect_CheckRequest (m : CheckRequest) : string * list (string * pval) := ("CheckRequest", []).

Definition reflect_CheckResponse (m : CheckResponse) : string * list (string * pval) :=
  let '(mkCheckResponse ready version) := m in
  ("CheckResponse", [("ready", PBool ready);
    ("version", PStr version)]).

Definition reflect_GetMemInfoRequest (m : GetMemInfoRequest) : string * list (string * pval) := ("GetMemInfoRequest", []).

Definition reflect_GetMemInfoResponse (m : GetMemInfoResponse) : string * list (string * pval) :=
  let '(mkGetMemInfoResponse mem_total_kb mem_free_kb mem_available_kb buffers_kb cached_kb swap_total_kb swap_free_kb) := m in
  ("GetMemInfoResponse", [("mem_total_kb", PNum mem_total_kb);
    ("mem_free_kb", PNum mem_free_kb);
    ("mem_available_kb", PNum mem_available_kb);
    ("buffers_kb", PNum buffers_kb);
    ("cached_kb", PNum cached_kb);
    ("swap_total_kb", PNum swap_total_kb);
    ("swap_free_kb", PNum swap_free_kb)]).

Definition reflect_GetContainerLogsRequest (m : GetContainerLogsRequest) : string * list (string * pval) :=
  let '(mkGetContainerLogsRequest container_id offset) := m in
  ("GetContainerLogsRequest", [("container_id", PStr container_id);
    ("offset", PNum offset)]).

Definition reflect_GetContainerLogsResponse (m : GetContainerLogsResponse) : string * list (string * pval) :=
  let '(mkGetContainerLogsResponse stdout stderr offset eof) := m in
  ("GetContainerLogsResponse", [("stdout", PBytes stdout);
    ("stderr", PBytes stderr);
    ("offset", PNum offset);
    ("eof", PBool eof)]).

Definition reflect_ConfigureNetworkRequest (m : ConfigureNetworkRequest) : string * list (string * pval) :=
  let '(mkConfigureNetworkRequest ip_address gateway prefix_len device mac) := m in
  ("ConfigureNetworkRequest", [("ip_address", PStr ip_address);
    ("gateway", PStr gateway);
    ("prefix_len", PNum prefix_len);
    ("device", PStr device);
    ("mac", PStr mac)]).

Definition reflect_ConfigureNetworkResponse (m : ConfigureNetworkResponse) : string * list (string * pval) := ("ConfigureNetworkResponse", []).

Definition reflect_AdoptContainerRequest (m : AdoptContainerRequest) : string * list (string * pval) :=
  let '(mkAdoptContainerRequest old_container_id new_container_id) := m in
  ("AdoptContainerRequest", [("old_container_id", PStr old_container_id);
    ("new_container_id", PStr new_container_id)]).

Definition reflect_AdoptContainerResponse (m : AdoptContainerResponse) : string * list (string * pval) :=
  let '(mkAdoptContainerResponse pid) := m in
  ("AdoptContainerResponse", [("pid", PNum pid)]).

(** The messages and enums [file_descriptor] registers, in its order. *)
Definition file_messages : list string :=
  ["CreateContainerRequest"; "VolumeMount"; "InlineFile"; "CreateContainerResponse";
   "StartContainerRequest"; "StartContainerResponse"; "KillContainerRequest";
   "KillContainerResponse"; "DeleteContainerRequest"; "DeleteContainerResponse";
   "WaitContainerRequest"; "WaitContainerResponse"; "ExecProcessRequest";
   "ExecProcessResponse"; "StateContainerRequest"; "StateContainerResponse"; "CheckRequest";
   "CheckResponse"; "GetMemInfoRequest"; "GetMemInfoResponse"; "GetContainerLogsRequest";
   "GetContainerLogsResponse"; "ConfigureNetworkRequest"; "ConfigureNetworkResponse";
   "AdoptContainerRequest"; "AdoptContainerResponse"].
Definition file_enums : list string := ["VolumeType"; "ContainerState"].

Definition reflect_message (m : message) : string * list (string * pval) :=
  match m with
  | M_InlineFile m => reflect_InlineFile m
  | M_VolumeMount m => reflect_VolumeMount m
  | M_CreateContainerRequest m => reflect_CreateContainerRequest m
  | M_CreateContainerResponse m => reflect_CreateContainerResponse m
  | M_StartContainerRequest m => reflect_StartContainerRequest m
  | M_StartContainerResponse m => reflect_StartContainerResponse m
  | M_KillContainerRequest m => reflect_KillContainerRequest m
  | M_KillContainerResponse m => reflect_KillContainerResponse m
  | M_DeleteContainerRequest m => reflect_DeleteContainerRequest m
  | M_DeleteContainerResponse m => reflect_DeleteContainerResponse m
  | M_WaitContainerRequest m => reflect_WaitContainerRequest m
  | M_WaitContainerResponse m => reflect_WaitContainerResponse m
  | M_ExecProcessRequest m => reflect_ExecProcessRequest m
  | M_ExecProcessResponse m => reflect_ExecProcessResponse m
  | M_StateContainerRequest m => reflect_StateContainerRequest m
  | M_StateContainerResponse m => reflect_StateContainerResponse m
  | M_CheckRequest m => reflect_CheckRequest m
  | M_CheckResponse m => reflect_CheckResponse m
  | M_GetMemInfoRequest m => reflect_GetMemInfoRequest m
  | M_GetMemInfoResponse m => reflect_GetMemInfoResponse m
  | M_GetContainerLogsRequest m => reflect_GetContainerLogsRequest m
  | M_GetContainerLogsResponse m => reflect_GetContainerLogsResponse m
  | M_ConfigureNetworkRequest m => reflect_ConfigureNetworkRequest m
  | M_ConfigureNetworkResponse m => reflect_ConfigureNetworkResponse m
  | M_AdoptContainerRequest m => reflect_AdoptContainerRequest m
  | M_AdoptContainerResponse m => reflect_AdoptContainerResponse m
  end.
Definition message_bytes (m : message) : bytes :=
  match m with
  | M_InlineFile m => write_to m
  | M_VolumeMount m => write_to m
  | M_CreateContainerRequest m => write_to m
  | M_CreateContainerResponse m => write_to m
  | M_StartContainerRequest m => write_to m
  | M_StartContainerResponse m => write_to m
  | M_KillContainerRequest m => write_to m
  | M_KillContainerResponse m => write_to m
  | M_DeleteContainerRequest m => write_to m
  | M_DeleteContainerResponse m => write_to m
  | M_WaitContainerRequest m => write_to m
  | M_WaitContainerResponse m => write_to m
  | M_ExecProcessRequest m => write_to m
  | M_ExecProcessResponse m => write_to m
  | M_StateContainerRequest m => write_to m
  | M_StateContainerResponse m => write_to m
  | M_CheckRequest m => write_to m
  | M_CheckResponse m => write_to m
  | M_GetMemInfoRequest m => write_to m
  | M_GetMemInfoResponse m => write_to m
  | M_GetContainerLogsRequest m => write_to m
  | M_GetContainerLogsResponse m => write_to m
  | M_ConfigureNetworkRequest m => write_to m
  | M_ConfigureNetworkResponse m => write_to m
  | M_AdoptContainerRequest m => write_to m
  | M_AdoptContainerResponse m => write_to m
  end.
Definition message_tags (m : message) : list Z :=
  match m with
  | M_InlineFile m => tags (A := InlineFile)
  | M_VolumeMount m => tags (A := VolumeMount)
  | M_CreateContainerRequest m => tags (A := CreateContainerRequest)
  | M_CreateContainerResponse m => tags (A := CreateContainerResponse)
  | M_StartContainerRequest m => tags (A := StartContainerRequest)
  | M_StartContainerResponse m => tags (A := StartContainerResponse)
  | M_KillContainerRequest m => tags (A := KillContainerRequest)
  | M_KillContainerResponse m => tags (A := KillContainerResponse)
  | M_DeleteContainerRequest m => tags (A := DeleteContainerRequest)
  | M_DeleteContainerResponse m => tags (A := DeleteContainerResponse)
  | M_WaitContainerRequest m => tags (A := WaitContainerRequest)
  | M_WaitContainerResponse m => tags (A := WaitContainerResponse)
  | M_ExecProcessRequest m => tags (A := ExecProcessRequest)
  | M_ExecProcessResponse m => tags (A := ExecProcessResponse)
  | M_StateContainerRequest m => tags (A := StateContainerRequest)
  | M_StateContainerResponse m => tags (A := StateContainerResponse)
  | M_CheckRequest m => tags (A := CheckRequest)
  | M_CheckResponse m => tags (A := CheckResponse)
  | M_GetMemInfoRequest m => tags (A := GetMemInfoRequest)
  | M_GetMemInfoResponse m => tags (A := GetMemInfoResponse)
  | M_GetContainerLogsRequest m => tags (A := GetContainerLogsRequest)
  | M_GetContainerLogsResponse m => tags (A := GetContainerLogsResponse)
  | M_ConfigureNetworkRequest m => tags (A := ConfigureNetworkRequest)
  | M_ConfigureNetworkResponse m => tags (A := ConfigureNetworkResponse)
  | M_AdoptContainerRequest m => tags (A := AdoptContainerRequest)
  | M_AdoptContainerResponse m => tags (A := AdoptContainerResponse)
  end.
Definition message_clear (m : message) : message :=
  match m with
  | M_InlineFile m => M_InlineFile (clear m)
  | M_VolumeMount m => M_VolumeMount (clear m)
  | M_CreateContainerRequest m => M_CreateContainerRequest (clear m)
  | M_CreateContainerResponse m => M_CreateContainerResponse (clear m)
  | M_StartContainerRequest m => M_StartContainerRequest (clear m)
  | M_StartContainerResponse m => M_StartContainerResponse (clear m)
  | M_KillContainerRequest m => M_KillContainerRequest (clear m)
  | M_KillContainerResponse m => M_KillContainerResponse (clear m)
  | M_DeleteContainerRequest m => M_DeleteContainerRequest (clear m)
  | M_DeleteContainerResponse m => M_DeleteContainerResponse (clear m)
  | M_WaitContainerRequest m => M_WaitContainerRequest (clear m)
  | M_WaitContainerResponse m => M_WaitContainerResponse (clear m)
  | M_ExecProcessRequest m => M_ExecProcessRequest (clear m)
  | M_ExecProcessResponse m => M_ExecProcessResponse (clear m)
  | M_StateContainerRequest m => M_StateContainerRequest (clear m)
  | M_StateContainerResponse m => M_StateContainerResponse (clear m)
  | M_CheckRequest m => M_CheckRequest (clear m)
  | M_CheckResponse m => M_CheckResponse (clear m)
  | M_GetMemInfoRequest m => M_GetMemInfoRequest (clear m)
  | M_GetMemInfoResponse m => M_GetMemInfoResponse (clear m)
  | M_GetContainerLogsRequest m => M_GetContainerLogsRequest (clear m)
  | M_GetContainerLogsResponse m => M_GetContainerLogsResponse (clear m)
  | M_ConfigureNetworkRequest m => M_ConfigureNetworkRequest (clear m)
  | M_ConfigureNetworkResponse m => M_ConfigureNetworkResponse (clear m)
  | M_AdoptContainerRequest m => M_AdoptContainerRequest (clear m)
  | M_AdoptContainerResponse m => M_AdoptContainerResponse (clear m)
  end.
(** [inp] decoded into the message. *)
Definition message_merge (m : message) (inp : bytes) : result message :=
  match m with
  | M_InlineFile m => M_InlineFile <$> merge_from m inp
  | M_VolumeMount m => M_VolumeMount <$> merge_from m inp
  | M_CreateContainerRequest m => M_CreateContainerRequest <$> merge_from m inp
  | M_CreateContainerResponse m => M_CreateContainerResponse <$> merge_from m inp
  | M_StartContainerRequest m => M_StartContainerRequest <$> merge_from m inp
  | M_StartContainerResponse m => M_StartContainerResponse <$> merge_from m inp
  | M_KillContainerRequest m => M_KillContainerRequest <$> merge_from m inp
  | M_KillContainerResponse m => M_KillContainerResponse <$> merge_from m inp
  | M_DeleteContainerRequest m => M_DeleteContainerRequest <$> merge_from m inp
  | M_DeleteContainerResponse m => M_DeleteContainerResponse <$> merge_from m inp
  | M_WaitContainerRequest m => M_WaitContainerRequest <$> merge_from m inp
  | M_WaitContainerResponse m => M_WaitContainerResponse <$> merge_from m inp
  | M_ExecProcessRequest m => M_ExecProcessRequest <$> merge_from m inp
  | M_ExecProcessResponse m => M_ExecProcessResponse <$> merge_from m inp
  | M_StateContainerRequest m => M_StateContainerRequest <$> merge_from m inp
  | M_StateContainerResponse m => M_StateContainerResponse <$> merge_from m inp
  | M_CheckRequest m => M_CheckRequest <$> merge_from m inp
  | M_CheckResponse m => M_CheckResponse <$> merge_from m inp
  | M_GetMemInfoRequest m => M_GetMemInfoRequest <$> merge_from m inp
  | M_GetMemInfoResponse m => M_GetMemInfoResponse <$> merge_from m inp
  | M_GetContainerLogsRequest m => M_GetContainerLogsRequest <$> merge_from m inp
  | M_GetContainerLogsResponse m => M_GetContainerLogsResponse <$> merge_from m inp
  | M_ConfigureNetworkRequest m => M_ConfigureNetworkRequest <$> merge_from m inp
  | M_ConfigureNetworkResponse m => M_ConfigureNetworkResponse <$> merge_from m inp
  | M_AdoptContainerRequest m => M_AdoptContainerRequest <$> merge_from m inp
  | M_AdoptContainerResponse m => M_AdoptContainerResponse <$> merge_from m inp
  end.
End Reflection.

(** ** Decoding by the schema *)

Section Decode.
Context `{Protobuf} (fd : file_desc).

(** A field that was not sent. A singular field of a message's type would be absent; the
    schema has none. *)
Definition default_val (f : field_desc) : option pval :=
  if fd_label f =? LABEL_REPEATED then Some (PRep [])
  else if fd_type f =? TYPE_STRING then Some (PStr "")
  else if fd_type f =? TYPE_BYTES then Some (PBytes "")
  else if fd_type f =? TYPE_BOOL then Some (PBool false)
  else if (fd_type f =? TYPE_UINT32) || (fd_type f =? TYPE_UINT64) then Some (PNum 0)
  else if fd_type f =? TYPE_ENUM then Some (PEnum 0)
  else None.
Definition defaults (md : message_desc) : option (list (string * pval)) :=
  mapM (fun f => pair (fd_name f) <$> default_val f) (md_fields md).

Definition read_as {A} (g : A -> pval) (rd : bytes -> result (A * bytes)) (inp : bytes) : result (pval * bytes) :=
  '(v, inp') ← rd inp; Ok (g v, inp').
(** Nothing for a type that is not a scalar's of the schema. *)
Definition read_scalar (f : field_desc) (inp : bytes) : option (result (pval * bytes)) :=
  if fd_type f =? TYPE_STRING then Some (read_as PStr read_string inp)
  else if fd_type f =? TYPE_BYTES then Some (read_as PBytes read_bytes inp)
  else if fd_type f =? TYPE_BOOL then Some (read_as PBool read_bool inp)
  else if fd_type f =? TYPE_UINT32 then Some (read_as PNum read_uint32 inp)
  else if fd_type f =? TYPE_UINT64 then Some (read_as PNum read_uint64 inp)
  else if fd_type f =? TYPE_ENUM then Some (read_as PEnum read_int32 inp)
  else None.

(** A repeated field grows, the last value of a singular one stays. *)
Definition put_val (f : field_desc) (v : pval) : list (string * pval) -> list (string * pval) :=
  map (fun '(k, old) => if String.eqb k (fd_name f)
                        then (k, match old with PRep l => PRep (l ++ [v]) | _ => v end) else (k, old)).
Definition field_by_tag (md : message_desc) (tag : Z) : option field_desc :=
  List.find (fun f => tag_of f =? tag) (md_fields md).

Section Loop.
Context (rd : field_desc -> bytes -> result (pval * bytes)) (md : message_desc).

Definition decode_field (tag : Z) (inp : bytes) (fs : list (string * pval)) : result (list (string * pval) * bytes) :=
  match field_by_tag md tag with
  | Some f => '(v, inp') ← rd f inp; Ok (put_val f v fs, inp')
  | None => inp' ← read_unknown_or_skip_group tag inp; Ok (fs, inp')
  end.
Fixpoint decode_go (fuel : nat) (fs : list (string * pval)) (inp : bytes) : result (list (string * pval)) :=
  match fuel with
  | O => Hang
  | S fuel' =>
      '(o, inp1) ← read_raw_tag_or_eof inp;
      match o with
      | None => Ok fs
      | Some tag => '(fs', inp2) ← decode_field tag inp1 fs; decode_go fuel' fs' inp2
      end
  end.
Definition decode_loop (fs : list (string * pval)) (inp : bytes) : result (list (string * pval)) :=
  decode_go (S (length inp)) fs inp.
End Loop.

Definition message_by_type (t : string) : option message_desc :=
  List.find (fun m => String.eqb ("." +:+ fi_package fd +:+ "." +:+ md_name m) t) (fi_messages fd).

(** A value of the field [f]; messages are nested [depth] deep at most. A schema that
    lacks a type it names makes a reader that stops. *)
Fixpoint read_val (depth : nat) (f : field_desc) (inp : bytes) : result (pval * bytes) :=
  match depth, read_scalar f inp with
  | O, _ => Panic
  | _, Some r => r
  | S depth', None =>
      match md ← message_by_type (fd_type_name f); pair md <$> defaults md with
      | Some (md, fs) =>
          '(sub, inp') ← read_len inp;
          fs' ← decode_loop (read_val depth') md fs sub;
          Ok (PMsg (md_name md) fs', inp')
      | None => Panic
      end
  end.

(** [inp] decoded into the message [m], by its name and its fields. No message of a schema
    without recursive messages nests deeper than there are messages. *)
Definition decode_into (m : string * list (string * pval)) (inp : bytes) : result (list (string * pval)) :=
  match find_message fd m.1 with
  | Some md => decode_loop (read_val (length (fi_messages fd))) md m.2 inp
  | None => Panic
  end.
End Decode.

(** ** The generated encoders agree with the schema *)

Section Agree.
Context `{Protobuf}.
#[local] Abbreviation encode_val := (encode_val schema).
#[local] Abbreviation encode_fields := (encode_fields schema).

Lemma encode_val_msg f name fs :
  encode_val f (PMsg name fs) =
    if (fd_type f =? TYPE_MESSAGE) && String.eqb (fd_type_name f) ("." +:+ fi_package schema +:+ "." +:+ name) then
      md ← find_message schema name;
      body ← encode_fields md fs;
      Some (write_header (fd_number f) (wrap 32 (Z.of_nat (length body))) ++ body)
    else None.
Proof. reflexivity. Qed.

Lemma encode_val_rep {A} f (g : A -> pval) (h : A -> bytes) l :
  Forall (fun x => encode_val f (g x) = Some (h x)) l ->
  (if is_default (PRep (map g l)) then Some [] else encode_val f (PRep (map g l))) = Some (concat (map h l)).
Proof.
  intros Hl. assert (E : encode_val f (PRep (map g l)) = Some (concat (map h l))); [|by rewrite E; destruct l].
  induction Hl as [|x l Hx Hl IH]; [done|]. cbn in IH |- *. rewrite Hx. cbn. by rewrite IH.
Qed.

Lemma slot_some (c : bool) (w : bytes) : (if c then Some [] else Some w) = Some (if c then [] else w).
Proof. by destruct c. Qed.

(** A nested message that is encoded by the schema, in the field [f]. *)
Lemma encode_nested `{Message A, !Lawful A} f (r : string * list (string * pval)) (m : A) :
  nested m -> fd_type f = TYPE_MESSAGE -> fd_type_name f = "." +:+ fi_package schema +:+ "." +:+ r.1 ->
  encode_message schema r = Some (write_to m) ->
  encode_val f (let (n, fs) := r in PMsg n fs) = Some (write_message (fd_number f) m).
Proof.
  destruct r as [name fs]. intros [Hv _] Ht Hn Hm. unfold encode_message in Hm. cbn [fst snd] in Hn, Hm.
  rewrite encode_val_msg, Ht, Hn, String.eqb_refl. destruct (find_message schema name) as [md|]; [|done].
  cbn [mbind option_bind] in Hm. cbn [mbind option_bind andb Z.eqb TYPE_MESSAGE Pos.eqb].
  rewrite Hm. cbn [mbind option_bind]. unfold write_message. by rewrite (valid_size m Hv).
Qed.

(** Follow the encoder through a message: the descriptors are looked up by evaluation. *)
Ltac look :=
  match goal with
  | |- context [find_message schema ?n] =>
      let r := eval vm_compute in (find_message schema n) in change (find_message schema n) with r
  | |- context [find_field ?md ?n] =>
      let r := eval vm_compute in (find_field md n) in change (find_field md n) with r
  end; cbn [mbind option_bind].
Ltac slots tac := unfold encode_message; cbn [fst snd]; look;
  unfold Schema.encode_fields; cbn [fields_with]; repeat look;
  cbn [is_rep fd_label Bool.eqb negb Z.eqb Pos.eqb LABEL_REPEATED];
  repeat (erewrite encode_val_rep by tac);
  cbn [is_default Schema.encode_val encode_scalar fd_type fd_number Z.eqb Pos.eqb TYPE_STRING TYPE_BYTES TYPE_BOOL TYPE_UINT32 TYPE_UINT64 TYPE_ENUM];
  rewrite ?slot_some; cbn [mbind option_bind]; rewrite ?app_nil_r; reflexivity.

Ltac plain := apply Forall_true; intros; reflexivity.

Lemma schema_InlineFile m : encode_message schema (reflect_InlineFile m) = Some (write_to m).
Proof. destruct m. unfold reflect_InlineFile. slots idtac. Qed.

Lemma schema_VolumeMount m : valid m -> encode_message schema (reflect_VolumeMount m) = Some (write_to m).
Proof.
  destruct m as [dest source options readonly type_ fs files]. intros Hv. unfold reflect_VolumeMount.
  destruct Hv as (_ & _ & _ & _ & _ & Hf).
  slots ltac:(first [plain|eapply Forall_impl; [exact Hf|]; intros x Hx;
    apply (encode_nested _ (reflect_InlineFile x) x); [exact Hx|reflexivity|by destruct x|apply schema_InlineFile] ]).
Qed.

Lemma schema_CreateContainerRequest m : valid m -> encode_message schema (reflect_CreateContainerRequest m) = Some (write_to m).
Proof.
  destruct m as [id bundle a b c d vols cfg hot count]. intros Hv. unfold reflect_CreateContainerRequest.
  assert (Hf : Forall nested vols) by by destruct Hv as (_ & _ & _ & _ & _ & Hf & _).
  slots ltac:(first [plain|eapply Forall_impl; [exact Hf|]; intros x Hx;
    apply (encode_nested _ (reflect_VolumeMount x) x); [exact Hx|reflexivity|by destruct x|apply schema_VolumeMount, Hx] ]).
Qed.

Lemma schema_message m : valid_message m -> encode_message schema (reflect_message m) = Some (message_bytes m).
Proof.
  destruct m as [m|m|m|m|m|m|m|m|m|m|m|m|m|m|m|m|m|m|m|m|m|m|m|m|m|m]; intros Hv; cbn [reflect_message message_bytes].
  1: apply schema_InlineFile.
  1: by apply schema_VolumeMount.
  1: by apply schema_CreateContainerRequest.
  all: destruct m; clear Hv;
    match goal with |- encode_message schema (?r ?x) = _ => unfold r end; slots plain.
Qed.

(** ** The generated decoders agree with the schema *)

Lemma decode_go_sim `{Message A} (g : A -> list (string * pval)) rd md :
  (forall tag inp m, decode_field rd md tag inp (g m) = (fun '(m', i) => (g m', i)) <$> merge_field tag inp m) ->
  forall fuel m inp, decode_go rd md fuel (g m) inp = g <$> merge_go fuel m inp.
Proof.
  intros Hf fuel. induction fuel as [|fuel IH]; intros m inp; [done|]. cbn [decode_go merge_go].
  destruct (read_raw_tag_or_eof inp) as [ [ [tag|] inp1]| | |]; [|done..]. cbn [mbind result_bind]. rewrite Hf.
  destruct (merge_field tag inp1 m) as [ [m' inp2]| | |]; [|done..]. cbn. apply IH.
Qed.

Lemma field_by_tag_None md tag : tag ∉ map tag_of (md_fields md) -> field_by_tag md tag = None.
Proof.
  unfold field_by_tag. induction (md_fields md) as [|f l IH]; intros Hn; [done|]. cbn [List.find].
  cbn [map] in Hn. apply not_elem_of_cons in Hn as [Hf Hl]. destruct (Z.eqb_spec (tag_of f) tag); [by subst|by apply IH].
Qed.

(** A decoder of a message type that does on each tag what the schema says. *)
Definition mirrors `{Message A} (depth : nat) (r : A -> string * list (string * pval)) : Prop :=
  exists md, find_message schema (r new).1 = Some md /\ (forall m, (r m).1 = md_name md) /\
    (forall m, defaults md = Some (r (clear m)).2) /\ (forall m : A, clear m = new) /\
    forall tag inp m, decode_field (read_val schema depth) md tag inp (r m).2
      = (fun '(m', i) => ((r m').2, i)) <$> merge_field tag inp m.

Lemma mirrors_read `{Message A} depth (r : A -> string * list (string * pval)) f inp :
  mirrors depth r -> read_scalar f inp = None -> message_by_type schema (fd_type_name f) = find_message schema (r new).1 ->
  read_val schema (S depth) f inp = read_as (fun x => let (n, fs) := r x in PMsg n fs) read_message inp.
Proof.
  intros (md & Hm & Hn & Hd & Hc & Hf) Hs Ht. cbn [read_val]. rewrite Hs, Ht, Hm. cbn [mbind option_bind].
  rewrite (Hd new), Hc. cbn [fmap option_fmap option_map]. unfold read_as, read_message.
  destruct (read_len inp) as [ [sub inp']| | |]; [|done..]. cbn [mbind result_bind].
  unfold decode_loop, merge_from. rewrite (decode_go_sim (fun m => (r m).2) _ _ Hf).
  destruct (merge_go _ new sub) as [m| | |]; [|done..]. cbn. specialize (Hn m). by destruct (r m) as [n fs]; cbn in *; subst.
Qed.

Lemma mirrors_loop `{Message A} depth (r : A -> string * list (string * pval)) (m : A) inp :
  mirrors depth r -> length (fi_messages schema) = depth ->
  decode_into schema (r m) inp = snd ∘ r <$> merge_from m inp.
Proof.
  intros (md & Hm & Hn & _ & _ & Hf) <-. unfold decode_into.
  rewrite (Hn m), <- (Hn new), Hm. apply (decode_go_sim (fun m => (r m).2) _ _ Hf).
Qed.

Lemma enum_value_of `{ProtoEnum E} (vals : forall z e, from_i32 z = Some e -> value e = z) z :
  enum_value (enum_of z) = z.
Proof. unfold enum_of. destruct (from_i32 z) eqn:Hz; [by apply vals|done]. Qed.
Lemma VolumeType_of z : enum_value (enum_of (E := VolumeType) z) = z.
Proof. apply enum_value_of. intros [|[p|p|]|p] e; cbn; intros [= <-]; reflexivity. Qed.
Lemma ContainerState_of z : enum_value (enum_of (E := ProtoState) z) = z.
Proof. apply enum_value_of. intros [|[ [p|p|]|[p|[p|p|]|]|]|p] e; cbn; intros [= <-]; reflexivity. Qed.

(** A tag that is none of the message's is skipped by both; on one of its own both read
    the same value and put it in the same place. *)
Lemma mirrors_fields `{Message A, !Extensible A} depth (r : A -> string * list (string * pval)) md :
  find_message schema (r new).1 = Some md -> (forall m, (r m).1 = md_name md) ->
  (forall m, defaults md = Some (r (clear m)).2) -> (forall m : A, clear m = new) ->
  tags (A := A) = map tag_of (md_fields md) ->
  Forall (fun tag => forall inp m, decode_field (read_val schema depth) md tag inp (r m).2
    = (fun '(m', i) => ((r m').2, i)) <$> merge_field tag inp m) (tags (A := A)) ->
  mirrors depth r.
Proof.
  intros Hm Hn Hd Hc Ht Hall. exists md. do 4 (split; [done|]). intros tag inp m.
  destruct (decide (tag ∈ tags (A := A))) as [Hin|Hout]; [by eapply Forall_forall in Hall; [apply Hall|]|].
  rewrite (skips_unknown tag inp m Hout). unfold decode_field. rewrite field_by_tag_None by by rewrite <- Ht.
  by destruct (read_unknown_or_skip_group tag inp).
Qed.

Ltac read_field rd :=
  match goal with |- context [field_by_tag ?md ?tag] =>
    let x := eval vm_compute in (field_by_tag md tag) in change (field_by_tag md tag) with x end; cbv beta iota;
  rd; cbn; unfold read_as, read_enum_or_unknown;
  match goal with i : bytes |- _ => match goal with |- context [?f i] => destruct (f i) as [ [? ?]| | |] end end;
  cbn; rewrite ?map_app, ?VolumeType_of, ?ContainerState_of; reflexivity.
Ltac mirror rd :=
  eapply mirrors_fields; [vm_compute; reflexivity|by intros []|reflexivity|reflexivity|reflexivity|];
  match goal with |- Forall _ ?t => let x := eval vm_compute in t in change t with x end;
  repeat (apply Forall_cons_2; [intros inp []; unfold decode_field; read_field rd|]); apply Forall_nil_2.

Lemma mirrors_InlineFile depth : mirrors (S depth) reflect_InlineFile.
Proof. mirror idtac. Qed.
Lemma mirrors_VolumeMount depth : mirrors (S (S depth)) reflect_VolumeMount.
Proof. mirror ltac:(try rewrite (mirrors_read _ _ _ _ (mirrors_InlineFile depth)) by reflexivity). Qed.
Lemma mirrors_CreateContainerRequest depth : mirrors (S (S (S depth))) reflect_CreateContainerRequest.
Proof. mirror ltac:(try rewrite (mirrors_read _ _ _ _ (mirrors_VolumeMount depth)) by reflexivity). Qed.

Lemma mirrored_merge `{Message A} (r : A -> string * list (string * pval)) (mk : A -> message) (m : A) inp :
  (forall x, reflect_message (mk x) = r x) -> mirrors (length (fi_messages schema)) r ->
  decode_into schema (reflect_message (mk m)) inp = (fun m' => (reflect_message m').2) <$> (mk <$> merge_from m inp).
Proof.
  intros Hr Hm. rewrite Hr, (mirrors_loop _ r m inp Hm eq_refl).
  destruct (merge_from m inp) as [x| | |]; [|done..]. cbn. by rewrite Hr.
Qed.

Lemma schema_merge m inp :
  decode_into schema (reflect_message m) inp = (fun m' => (reflect_message m').2) <$> message_merge m inp.
Proof.
  destruct m; cbn [message_merge]; (eapply mirrored_merge; [intros x; cbn [reflect_message]; reflexivity|]).
  1: apply mirrors_InlineFile.
  1: apply mirrors_VolumeMount.
  1: apply mirrors_CreateContainerRequest.
  all: clear; mirror idtac.
Qed.

(** The message's name, fields, tags and bytes are those of the schema; cleared it has the
    schema's defaults, and whatever is decoded into it, well formed or not, comes to what
    the schema says. *)
Definition follows_schema (m : message) : Prop :=
  exists md, find_message schema (reflect_message m).1 = Some md /\
    map fst (reflect_message m).2 = map fd_name (md_fields md) /\
    message_tags m = map tag_of (md_fields md) /\
    encode_message schema (reflect_message m) = Some (message_bytes m) /\
    defaults md = Some (reflect_message (message_clear m)).2 /\
    forall inp, decode_into schema (reflect_message m) inp = (fun m' => (reflect_message m').2) <$> message_merge m inp.

Lemma message_follows m : valid_message m -> follows_schema m.
Proof.
  intros Hv. pose proof (schema_message m Hv) as He. unfold follows_schema. rewrite He.
  pose proof (schema_merge m) as Hd. revert Hd. generalize (decode_into schema (reflect_message m)). intros dec Hd.
  revert Hd. generalize (fun inp => (fun m' => (reflect_message m').2) <$> message_merge m inp). intros mrg Hd. clear He Hv.
  destruct m as [m|m|m|m|m|m|m|m|m|m|m|m|m|m|m|m|m|m|m|m|m|m|m|m|m|m]; destruct m; cbn [reflect_message message_tags];
    match goal with |- context [(?r ?x).1] => unfold r end; cbn [fst snd];
    (eexists; split; [vm_compute; reflexivity|]; do 4 (split; [reflexivity|]); exact Hd).
Qed.

(** The numbers of an enum's variants. *)
Definition VolumeType_values : list (string * Z) := [("FILESYSTEM", value FILESYSTEM); ("BLOCK", value BLOCK)].
Definition ContainerState_values : list (string * Z) :=
  [("UNKNOWN", value UNKNOWN); ("CREATED", value CREATED); ("RUNNING", value RUNNING); ("STOPPED", value STOPPED);
   ("PAUSED", value PAUSED)].

(** Two disjunctions of the same equations. *)
Ltac same_cases := split; intros Hk; repeat destruct Hk as [Hk|Hk];
  first [subst; by auto 20|by destruct Hk|by inversion Hk].

(** C17: the generated code is the schema it carries: the messages and enums it registers
    are those of the schema, with the same numbers; every message registers the schema's
    fields by their names, decodes exactly their tags, and encodes, for values its fields
    can hold, to the bytes an encoder makes of it that knows only the schema and the
    registered accessors; a cleared message has the schema's default in every field; any
    bytes at all decode into the message as a decoder says that knows only the schema, with
    the same values, or the same error; and the services the agent registers have exactly the methods
    of the schema's. *)
Theorem generated_code_follows_schema `{HT : @Ttrpc H} {S} (a : AgentService S) (h : HealthService S) (m : message) :
  valid_message m ->
  file_of file_descriptor_proto_data = schema /\
  map md_name (fi_messages schema) = file_messages /\ map ed_name (fi_enums schema) = file_enums /\
  map ed_values (fi_enums schema) = [VolumeType_values; ContainerState_values] /\
  follows_schema m /\
  forall svc, svc ∈ fi_services schema ->
    exists methods, register_services a h !! (fi_package schema +:+ "." +:+ sd_name svc) = Some methods /\
      forall k, is_Some (methods !! k) <-> k ∈ map me_name (sd_methods svc).
Proof.
  intros Hv. split; [apply schema_decoded|]. do 3 (split; [vm_compute; reflexivity|]). split; [by apply message_follows|].
  intros svc Hs. apply list_elem_of_In in Hs. cbn [schema fi_services fi_package In] in *. destruct Hs as [<-|[<-|[] ] ]; cbn [sd_name sd_methods].
  - eexists. split; [unfold register_services; rewrite lookup_union_r by reflexivity; apply lookup_insert_eq|]. intros k.
    rewrite !lookup_insert_is_Some', lookup_empty. cbn [map me_name]. rewrite !elem_of_cons, elem_of_nil. same_cases.
  - eexists. split; [apply lookup_union_Some_l, lookup_insert_eq|]. intros k.
    rewrite !lookup_insert_is_Some', lookup_empty. cbn [map me_name]. rewrite !elem_of_cons, elem_of_nil. same_cases.
Qed.
End Agree.

Lemma generated_code_follows_schema_witness :
  @follows_schema Wire.wire (M_CreateContainerRequest sample_request) /\
  exists methods, @register_services Wire.wire plain_ttrpc unit default_agent_service default_health_service
    !! "cloudhv.agent.HealthService" = Some methods.
Proof.
  destruct (@generated_code_follows_schema Wire.wire plain_ttrpc unit default_agent_service default_health_service
    (M_CreateContainerRequest sample_request)) as (_ & _ & _ & _ & Hf & Hs).
  - cbn. fits.
  - split; [exact Hf|]. destruct (Hs (mkServiceDesc "HealthService" [mkMethodDesc "Check" ".cloudhv.agent.CheckRequest" ".cloudhv.agent.CheckResponse"]))
      as (methods & Hm & _); [by right; left|]. exists methods. exact Hm.
Defined.
