(* ===== verification/Sys.v ===== *)
(** * The environment of the programs

    The operating system, the hypervisor's API, the guest agent seen from the
    host, containerd and the other programs the crates run are one oracle [env]:
    what a call answers may depend on every call made before it. A program's world
    carries the list of the calls it made. The operations of the programs are
    state-passing functions over their world ([M W]); [sys] is the only one that
    talks to the environment. *)

From S2P Require Import Prelude Proto.
Local Open Scope Z_scope.

Inductive call :=
(* files *)
| CreateDirAll (p : string)
| RemoveDirAll (p : string)
| RemoveFile (p : string)
| CreateFile (p : string)
| WriteFile (p s : string)
| ReadToString (p : string)
| ReadBytes (p : string)                      (* std::fs::read *)
| HardLink (src dst : string)
| CopyFile (src dst : string)
| Rename (src dst : string)
| Symlink (src dst : string)
| SetPermissions (p : string) (mode : Z)
| Exists (p : string)
| ReadDir (p : string)
| Mtime (p : string)                          (* metadata(p).ok().modified().ok() *)
| Flock (p : string)
(* time: the clock, a sleep, and how many rounds of a loop the clock lets begin
   before a deadline this many milliseconds away *)
| Instant
| Sleep (ms : Z)
| RoundsBefore (ms : Z)
(* processes *)
| Spawn (prog : string) (args : list string)  (* the child's id, if it still has one *)
| Output (prog : string) (args : list string) (* success and stderr *)
| SendSignal (pid sig : Z)
(* unix sockets: connect, write, read one line (with a timeout in seconds) *)
| ConnectUnix (p : string)
| WriteAll (p s : string)
| ReadLine (p : string) (timeout : option Z)
| Reunite (p : string)
(* the hypervisor's HTTP API *)
| HttpHandshake (p : string)
| HttpSend (p meth path : string) (body : option string)
| HttpBody (p : string)
(* the guest agent's ttrpc service at the other end of a vsock socket *)
| AgentRun (sock : string) (req : CreateContainerRequest)
| AgentKill (sock : string) (req : KillContainerRequest)
| AgentWait (sock id : string)
| AgentDelete (sock id : string)
| AgentConfigure (sock : string) (req : ConfigureNetworkRequest)
| AgentAdopt (sock : string) (req : AdoptContainerRequest)
(* network namespaces and TAP devices *)
| OpenNs (p : string)
| SetNs (p : string)
| OpenTun                                     (* open /dev/net/tun *)
| TunSetIff (ifr : list Z)                    (* ioctl TUNSETIFF *)
| TunSetPersist                               (* ioctl TUNSETPERSIST, 1 *)
(* mounts *)
| MountFs (src target fstype : string) (flags : list string) (data : option string)
(* device nodes, umask, the subreaper flag *)
| Chmod (p : string) (mode : Z)
| Mknod (p : string) (mode dev : Z)
| Umask (mask : Z)
| SetSubreaper
(* inotify: a watch on a directory, poll and read on its descriptor *)
| InotifyInit
| InotifyAddWatch (dir : string)
| PollIn                                      (* for a second at most: readiness *)
| InotifyRead                                 (* at most 4096 bytes *)
(* a child process: pidfd_open, AsyncFd::new, readable, try_wait, wait *)
| PidfdOpen (pid : Z)
| AsyncFdNew
| AsyncFdReadable
| TryWait (pid : Z)                           (* the status's code, if it has one *)
| ChildWait (pid : Z)
(* vsock sockets *)
| VsockSocket
| VsockBind (fd port : Z)
| Listen (fd backlog : Z)
| CloseFd (fd : Z)
(* the daemon's and the agent's listeners, the agent's process id, signal streams *)
| BindUnix (p : string)
| AddVsockListener (fd : Z)
| ServerStart
| ServerShutdown
| GetPid
| SignalStream (sig : Z)
(* containerd's gRPC service: connect, and Images.Get in a namespace *)
| ContainerdConnect (p : string)
| GetImage (ns name : string).

#[export] Instance call_eq_dec : EqDecision call.
Proof. solve_decision. Defined.

(** What each call answers; [Z + A] is an OS error number or a value, [error + A]
    a library's error or a value. *)
Definition ans (c : call) : Type :=
  match c with
  | CreateDirAll _ | RemoveDirAll _ | RemoveFile _ | CreateFile _ | WriteFile _ _
  | HardLink _ _ | CopyFile _ _ | Rename _ _ | Symlink _ _ | SetPermissions _ _
  | Flock _ | ConnectUnix _ | WriteAll _ _ | Reunite _ | SetNs _
  | OpenTun | TunSetIff _ | TunSetPersist | MountFs _ _ _ _ _ => Z + unit
  | OpenNs _ => Z + Z                         (* the descriptor *)
  | ReadToString _ | ReadBytes _ => Z + string
  | Exists _ => bool
  | ReadDir _ => Z + list string
  | Mtime _ => option Z
  | Instant => Z
  | Sleep _ | SendSignal _ _ => unit
  | RoundsBefore _ => nat
  | Spawn _ _ => Z + option Z
  | Output _ _ => Z + (bool * string)
  | ReadLine _ _ => option (Z + string)       (* None: the timeout passed *)
  | HttpHandshake _ => error + unit
  | HttpSend _ _ _ _ => error + (bool * string)  (* success class and its text *)
  | HttpBody _ => error + string
  | AgentRun _ _ => error + Z
  | AgentKill _ _ => error + unit
  | AgentWait _ _ => error + WaitContainerResponse
  | AgentDelete _ _ => error + DeleteContainerResponse
  | AgentConfigure _ _ => error + unit
  | AgentAdopt _ _ => error + Z
  | Chmod _ _ | Mknod _ _ _ | CloseFd _ => unit   (* results the code drops *)
  | Umask _ => Z
  | SetSubreaper | InotifyInit | InotifyAddWatch _ => Z + unit
  | PollIn => Z + bool
  | InotifyRead => option (list Z)
  | PidfdOpen _ | AsyncFdNew | AsyncFdReadable => bool
  | TryWait _ => Z + option (option Z)
  | ChildWait _ => Z + option Z
  | VsockSocket => Z + Z
  | VsockBind _ _ | Listen _ _ | BindUnix _ | SignalStream _ => Z + unit
  | AddVsockListener _ | ServerStart | ServerShutdown => error + unit
  | GetPid => Z
  | ContainerdConnect _ => error + unit
  | GetImage _ _ => error + option (option string)   (* the image, if there is one, and its target's digest *)
  end.

Class Env := {
  env : list call -> forall c : call, ans c;
  process_id : Z;                             (* std::process::id() *)
}.

(** A program's world holds the calls made so far. *)
Class World (W : Type) := {
  trace : W -> list call;
  set_trace : list call -> W -> W;
  trace_set t w : trace (set_trace t w) = t;
  set_trace_set t t' w : set_trace t (set_trace t' w) = set_trace t w;
  set_trace_id w : set_trace (trace w) w = w;
}.

Section Calls.
Context `{Env, World W}.

Definition sys (c : call) : M W (ans c) := fun w =>
  (Ok (env (trace w) c), set_trace (trace w ++ [c]) w).

Definition io_res {A} (r : Z + A) : result A :=
  match r with inl n => Err (Io n) | inr a => Ok a end.
Definition lib_res {A} (r : error + A) : result A :=
  match r with inl e => Err e | inr a => Ok a end.

Definition create_dir_all (p : string) : M W unit := r ← sys (CreateDirAll p); lift (io_res r).
Definition remove_dir_all (p : string) : M W unit := r ← sys (RemoveDirAll p); lift (io_res r).
Definition remove_file (p : string) : M W unit := r ← sys (RemoveFile p); lift (io_res r).
Definition create_file (p : string) : M W unit := r ← sys (CreateFile p); lift (io_res r).
Definition write_file (p s : string) : M W unit := r ← sys (WriteFile p s); lift (io_res r).
Definition read_to_string (p : string) : M W string := r ← sys (ReadToString p); lift (io_res r).
Definition exists_path (p : string) : M W bool := sys (Exists p).

(** [let _ = m] / [.ok()]: the outcome is dropped. *)
Definition ignore {A} (m : M W A) : M W unit := attempt m;; mret tt.
End Calls.

(** ** Operations that only talk to the environment

    [io_only m]: whatever happens, [m] changes nothing of the world but its
    trace, which it extends. [no_panic m]: [m] comes back. *)

Definition io_only `{World W} {A} (m : M W A) : Prop :=
  forall w, exists t, (m w).2 = set_trace (trace w ++ t) w.

Definition no_panic {W A} (m : M W A) : Prop := forall w, returns (m w).1 = true.

Section IoOnly.
Context `{Env, World W}.

Lemma io_only_sys c : io_only (sys c).
Proof. intros w. by exists [c]. Qed.

Lemma io_only_same {A} (m : M W A) : (forall w, (m w).2 = w) -> io_only m.
Proof. intros Hm w. exists []. by rewrite Hm, app_nil_r, set_trace_id. Qed.

Lemma io_only_ret {A} (a : A) : io_only (W := W) (mret a).
Proof. by apply io_only_same. Qed.

Lemma io_only_lift {A} (r : result A) : io_only (W := W) (lift r).
Proof. by apply io_only_same. Qed.

Lemma io_only_fail {A} e : io_only (W := W) (A := A) (fail e).
Proof. by apply io_only_same. Qed.

Lemma io_only_gets {A} (f : W -> A) : io_only (gets f).
Proof. by apply io_only_same. Qed.

Lemma io_only_bind {A B} (m : M W A) (f : A -> M W B) :
  io_only m -> (forall a, io_only (f a)) -> io_only (m ≫= f).
Proof.
  intros Hm Hf w. unfold mbind, M_bind. destruct (Hm w) as [t Ht].
  destruct (m w) as [r w']. cbn in Ht. subst w'. destruct r as [a|e| |]; [|by exists t..].
  destruct (Hf a (set_trace (trace w ++ t) w)) as [t' Ht'].
  exists (t ++ t'). by rewrite Ht', trace_set, set_trace_set, app_assoc.
Qed.

Lemma io_only_attempt {A} (m : M W A) : io_only m -> io_only (attempt m).
Proof.
  intros Hm w. destruct (Hm w) as [t Ht]. exists t. unfold attempt.
  destruct (m w) as [r w']. by destruct r.
Qed.

Lemma io_only_ctx {A} c (m : M W A) : io_only m -> io_only (m_ctx c m).
Proof. intros Hm w. destruct (Hm w) as [t Ht]. exists t. unfold m_ctx. by destruct (m w). Qed.

Lemma io_only_ignore {A} (m : M W A) : io_only m -> io_only (ignore m).
Proof. intros Hm. apply io_only_bind; [by apply io_only_attempt|intros; apply io_only_ret]. Qed.

Lemma no_panic_sys c : no_panic (sys (W := W) c).
Proof. by intros w. Qed.

Lemma no_panic_lift {A} (r : result A) : returns r = true -> no_panic (W := W) (lift r).
Proof. by intros Hr w. Qed.

Lemma returns_io_res {A} (r : Z + A) : returns (io_res r) = true.
Proof. by destruct r. Qed.
Lemma returns_lib_res {A} (r : error + A) : returns (lib_res r) = true.
Proof. by destruct r. Qed.

Lemma no_panic_bind {A B} (m : M W A) (f : A -> M W B) :
  no_panic m -> (forall a, no_panic (f a)) -> no_panic (m ≫= f).
Proof.
  intros Hm Hf w. unfold mbind, M_bind. specialize (Hm w).
  destruct (m w) as [r w']. destruct r; try done. apply Hf.
Qed.

Lemma no_panic_attempt {A} (m : M W A) : no_panic m -> no_panic (attempt m).
Proof. intros Hm w. specialize (Hm w). unfold attempt. destruct (m w) as [r w']. by destruct r. Qed.

Lemma no_panic_ctx {A} c (m : M W A) : no_panic m -> no_panic (m_ctx c m).
Proof. intros Hm w. specialize (Hm w). unfold m_ctx. destruct (m w) as [r w']. by destruct r. Qed.

Lemma no_panic_ret {A} (a : A) : no_panic (W := W) (mret a).
Proof. done. Qed.
Lemma no_panic_fail {A} e : no_panic (W := W) (A := A) (fail e).
Proof. done. Qed.
Lemma no_panic_gets {A} (f : W -> A) : no_panic (gets f).
Proof. done. Qed.
Lemma no_panic_modify (f : W -> W) : no_panic (modify f).
Proof. done. Qed.
Lemma no_panic_ignore {A} (m : M W A) : no_panic m -> no_panic (ignore m).
Proof. intros Hm. apply no_panic_bind; [by apply no_panic_attempt|done]. Qed.
End IoOnly.

(** Operations that cannot fail. *)
Definition infallible {W A} (m : M W A) : Prop := forall w, is_Ok (m w).1 = true.

Section Infallible.
Context `{Env, World W}.

Lemma infallible_sys c : infallible (sys (W := W) c).
Proof. done. Qed.
Lemma infallible_ret {A} (a : A) : infallible (W := W) (mret a).
Proof. done. Qed.
Lemma infallible_gets {A} (f : W -> A) : infallible (gets f).
Proof. done. Qed.
Lemma infallible_modify (f : W -> W) : infallible (modify f).
Proof. done. Qed.
Lemma infallible_bind {A B} (m : M W A) (f : A -> M W B) :
  infallible m -> (forall a, infallible (f a)) -> infallible (m ≫= f).
Proof.
  intros Hm Hf w. unfold mbind, M_bind. specialize (Hm w).
  destruct (m w) as [r w']. destruct r; try done. apply Hf.
Qed.
Lemma infallible_attempt {A} (m : M W A) : no_panic m -> infallible (attempt m).
Proof. intros Hm w. specialize (Hm w). unfold attempt. destruct (m w) as [r w']. by destruct r. Qed.
Lemma infallible_ignore {A} (m : M W A) : no_panic m -> infallible (ignore m).
Proof. intros Hm. apply infallible_bind; [by apply infallible_attempt|done]. Qed.
Lemma infallible_no_panic {A} (m : M W A) : infallible m -> no_panic m.
Proof. intros Hm w. specialize (Hm w). by destruct (m w).1. Qed.

Lemma infallible_run {A} (m : M W A) w : infallible m -> io_only m ->
  exists a t, m w = (Ok a, set_trace (trace w ++ t) w).
Proof.
  intros Hi Hm. specialize (Hi w). destruct (Hm w) as [t Ht]. destruct (m w) as [r w'].
  cbn in *. subst. destruct r as [a| | |]; try done. eauto.
Qed.
End Infallible.

Section RunLemmas.
Context `{Env, World W}.

Lemma sys_run (c : call) (w : W) : sys c w = (Ok (env (trace w) c), set_trace (trace w ++ [c]) w).
Proof. reflexivity. Qed.

Lemma lib_res_Ok {A} (r : error + A) a : lib_res r = Ok a -> r = inr a.
Proof. destruct r; [done|]. by intros [= ->]. Qed.

Lemma read_to_string_Ok p (w w' : W) s :
  read_to_string p w = (Ok s, w') ->
  env (trace w) (ReadToString p) = inr s /\ w' = set_trace (trace w ++ [ReadToString p]) w.
Proof.
  unfold read_to_string, mbind, M_bind. rewrite sys_run. unfold lift.
  destruct (env (trace w) (ReadToString p)); [done|]. by intros [= -> ->].
Qed.

Lemma write_file_Ok p s (w w' : W) u :
  write_file p s w = (Ok u, w') -> w' = set_trace (trace w ++ [WriteFile p s]) w.
Proof.
  unfold write_file, mbind, M_bind. rewrite sys_run. unfold lift. by intros [= _ ->].
Qed.
End RunLemmas.

(** ** What an operation may ask of the environment

    [emits P m]: the calls [m] adds to the trace all satisfy [P], however it
    ends. *)

Definition emits `{World W} {A} (P : call -> Prop) (m : M W A) : Prop :=
  forall w, exists t, trace (m w).2 = trace w ++ t /\ Forall P t.

Section Emits.
Context `{Env, World W} (P : call -> Prop).

Lemma emits_sys c : P c -> emits P (sys c).
Proof. intros Hc w. exists [c]. cbn. rewrite trace_set. by repeat constructor. Qed.

Lemma emits_quiet {A} (m : M W A) : (forall w, trace (m w).2 = trace w) -> emits P m.
Proof. intros Hm w. exists []. by rewrite Hm, app_nil_r. Qed.

Lemma emits_ret {A} (a : A) : emits (W := W) P (mret a).
Proof. by apply emits_quiet. Qed.
Lemma emits_lift {A} (r : result A) : emits (W := W) P (lift r).
Proof. by apply emits_quiet. Qed.
Lemma emits_fail {A} e : emits (W := W) (A := A) P (fail e).
Proof. by apply emits_quiet. Qed.
Lemma emits_gets {A} (f : W -> A) : emits P (gets f).
Proof. by apply emits_quiet. Qed.

Lemma emits_bind {A B} (m : M W A) (f : A -> M W B) :
  emits P m -> (forall a, emits P (f a)) -> emits P (m ≫= f).
Proof.
  intros Hm Hf w. unfold mbind, M_bind. destruct (Hm w) as (t & Ht & HP).
  destruct (m w) as [r w']. cbn in Ht. destruct r as [a|e| |]; [|by exists t..].
  destruct (Hf a w') as (t' & Ht' & HP'). exists (t ++ t').
  rewrite Ht', Ht, app_assoc. split; [done|by apply Forall_app].
Qed.

Lemma emits_attempt {A} (m : M W A) : emits P m -> emits P (attempt m).
Proof.
  intros Hm w. destruct (Hm w) as (t & Ht & HP). exists t. unfold attempt.
  destruct (m w) as [r w']. by destruct r.
Qed.
Lemma emits_ctx {A} c (m : M W A) : emits P m -> emits P (m_ctx c m).
Proof. intros Hm w. destruct (Hm w) as (t & Ht & HP). exists t. unfold m_ctx. by destruct (m w). Qed.
Lemma emits_ignore {A} (m : M W A) : emits P m -> emits P (ignore m).
Proof. intros Hm. apply emits_bind; [by apply emits_attempt|intros; apply emits_ret]. Qed.
End Emits.

Lemma emits_weaken `{World W} {A} (P Q : call -> Prop) (m : M W A) :
  (forall c, P c -> Q c) -> emits P m -> emits Q m.
Proof.
  intros HPQ Hm w. destruct (Hm w) as (t & Ht & HP). exists t. split; [done|].
  eapply Forall_impl; [exact HP|]. auto.
Qed.

Create HintDb emit.
#[export] Hint Resolve emits_ret emits_lift emits_fail emits_gets emits_attempt emits_ctx
  emits_ignore : emit.

(** Take an operation apart down to its calls and check each with [tac]. *)
Ltac emit_solve tac :=
  repeat (first [solve [eauto 3 with emit nocore]
                |apply emits_bind; [|intros ?]
                |apply emits_attempt|apply emits_ctx|apply emits_ignore
                |match goal with |- emits _ (sys ?c) => apply (emits_sys _ c); solve [tac] end
                |case_match|progress intros]).

#[export] Hint Resolve io_only_ret io_only_lift io_only_fail io_only_gets
  io_only_attempt io_only_ctx io_only_ignore no_panic_ret no_panic_fail
  no_panic_gets no_panic_modify no_panic_attempt no_panic_ctx no_panic_ignore
  returns_io_res returns_lib_res infallible_ret infallible_gets infallible_modify
  infallible_attempt infallible_ignore : rust.
#[export] Hint Extern 1 (infallible (sys ?c)) => exact (infallible_sys c) : rust.
#[export] Hint Extern 1 (io_only (sys ?c)) => exact (io_only_sys c) : rust.
#[export] Hint Extern 1 (no_panic (sys ?c)) => exact (no_panic_sys c) : rust.
#[export] Hint Extern 2 (no_panic (lift _)) => apply no_panic_lift : rust.

(** Take an operation apart at its binds and branches and close the leaves with
    the library of operations already treated. *)
Ltac io_solve :=
  repeat (first [solve [eauto 4 with rust nocore]
                |apply io_only_bind; [|intros ?]|apply no_panic_bind; [|intros ?]
                |apply infallible_bind; [|intros ?]
                |apply io_only_attempt|apply no_panic_attempt|apply io_only_ctx|apply no_panic_ctx
                |case_match|progress intros]).

(** ** What an operation does to the state

    [moves R m]: however [m] ends, the state it leaves is [R]-related to the one
    it started from. *)

Definition moves {W A} (R : W -> W -> Prop) (m : M W A) : Prop := forall w, R w (m w).2.

Section Moves.
Context {W : Type} (R : W -> W -> Prop) `{!PreOrder R}.

Lemma moves_same {A} (m : M W A) : (forall w, (m w).2 = w) -> moves R m.
Proof. intros Hm w. rewrite Hm. reflexivity. Qed.
Lemma moves_ret {A} (a : A) : moves R (mret a).
Proof. by apply moves_same. Qed.
Lemma moves_lift {A} (r : result A) : moves R (lift r).
Proof. by apply moves_same. Qed.
Lemma moves_fail {A} e : moves R (fail (A := A) e).
Proof. by apply moves_same. Qed.
Lemma moves_gets {A} (f : W -> A) : moves R (gets f).
Proof. by apply moves_same. Qed.
Lemma moves_modify f : (forall w, R w (f w)) -> moves R (modify f).
Proof. intros Hf w. apply Hf. Qed.
Lemma moves_bind {A B} (m : M W A) (f : A -> M W B) :
  moves R m -> (forall a, moves R (f a)) -> moves R (m ≫= f).
Proof.
  intros Hm Hf w. unfold mbind, M_bind. specialize (Hm w). destruct (m w) as [r w'].
  destruct r; try done. etrans; [exact Hm|apply Hf].
Qed.
Lemma moves_attempt {A} (m : M W A) : moves R m -> moves R (attempt m).
Proof. intros Hm w. specialize (Hm w). unfold attempt. destruct (m w) as [r w']. by destruct r. Qed.
Lemma moves_ctx {A} c (m : M W A) : moves R m -> moves R (m_ctx c m).
Proof. intros Hm w. specialize (Hm w). unfold m_ctx. by destruct (m w). Qed.
Lemma moves_ignore {A} (m : M W A) : moves R m -> moves R (ignore m).
Proof. intros Hm. apply moves_bind; [by apply moves_attempt|]. intros _. apply moves_ret. Qed.
Lemma moves_io `{World W} {A} (m : M W A) : (forall t w, R w (set_trace t w)) -> io_only m -> moves R m.
Proof. intros Ht Hm w. destruct (Hm w) as [t ->]. apply Ht. Qed.
End Moves.

(** ** Calls made in order *)

(** From [w] to [w'] the calls [l] were made, in that order, among others. *)
Definition did `{World W} (w w' : W) (l : list call) : Prop :=
  exists t, trace w' = trace w ++ t /\ l `sublist_of` t.

Section Did.
Context `{Env, World W}.

Lemma did_refl (w : W) : did w w [].
Proof. exists []. by rewrite app_nil_r. Qed.

Lemma did_trans (w1 w2 w3 : W) l l' : did w1 w2 l -> did w2 w3 l' -> did w1 w3 (l ++ l').
Proof.
  intros (t & E & Hl) (t' & E' & Hl'). exists (t ++ t'). rewrite E', E, app_assoc.
  split; [done|]. by apply sublist_app.
Qed.

Lemma did_emits {A} P (m : M W A) w r w' : emits P m -> m w = (r, w') -> did w w' [].
Proof. intros Hm E. destruct (Hm w) as (t & Ht & _). rewrite E in Ht. exists t. split; [done|apply sublist_nil_l]. Qed.

Lemma did_io {A} (m : M W A) w r w' : io_only m -> m w = (r, w') -> did w w' [].
Proof.
  intros Hm E. destruct (Hm w) as [t Ht]. rewrite E in Ht. cbn in Ht. subst. exists t.
  rewrite trace_set. split; [done|apply sublist_nil_l].
Qed.

Lemma did_sys c (w : W) r w' : sys c w = (r, w') -> did w w' [c].
Proof. rewrite sys_run. intros [= _ <-]. exists [c]. by rewrite trace_set. Qed.

Lemma did_write p s (w : W) u w' : write_file p s w = (Ok u, w') -> did w w' [WriteFile p s].
Proof. intros ->%write_file_Ok. exists [WriteFile p s]. by rewrite trace_set. Qed.

Lemma did_read p (w : W) s w' : read_to_string p w = (Ok s, w') -> did w w' [ReadToString p].
Proof. intros [_ ->]%read_to_string_Ok. exists [ReadToString p]. by rewrite trace_set. Qed.

Lemma m_ctx_Ok {A} c (m : M W A) w a w' : m_ctx c m w = (Ok a, w') -> m w = (Ok a, w').
Proof. unfold m_ctx. destruct (m w) as [r w1]. by destruct r. Qed.
End Did.

(** Chain what was done from [w] on. *)
Ltac did_chain w :=
  repeat match goal with
  | Ha : did w ?x _, Hb : did ?x ?y _ |- _ => pose proof (did_trans _ _ _ _ _ Ha Hb); clear Ha Hb
  end.

(** ** A concrete environment, for witnesses

    Every call succeeds: files read from a table (a file exists when it is in
    the table or named by [up]), spawned processes get pid 4242, agents answer. *)

Definition calm (files : string -> option string) (up : string -> bool) (c : call) : ans c :=
  match c return ans c with
  | CreateDirAll _ | RemoveDirAll _ | RemoveFile _ | CreateFile _ | WriteFile _ _
  | HardLink _ _ | CopyFile _ _ | Rename _ _ | Symlink _ _ | SetPermissions _ _
  | Flock _ | ConnectUnix _ | WriteAll _ _ | Reunite _ | SetNs _
  | OpenTun | TunSetIff _ | TunSetPersist | MountFs _ _ _ _ _ => inr tt
  | OpenNs _ => inr 7
  | ReadToString p | ReadBytes p => match files p with Some s => inr s | None => inl 2 end
  | Exists p => match files p with Some _ => true | None => up p end
  | ReadDir _ => inr []
  | Mtime _ => Some 1
  | Instant => 1
  | Sleep _ | SendSignal _ _ => tt
  | RoundsBefore _ => 3%nat
  | Spawn _ _ => inr (Some 4242)
  | Output _ _ => inr (true, "")
  | ReadLine _ _ => Some (inr "OK 1")
  | HttpHandshake _ => inr tt
  | HttpSend _ _ _ _ => inr (true, "204 No Content")
  | HttpBody _ => inr ""
  | AgentRun _ _ => inr 17
  | AgentKill _ _ => inr tt
  | AgentWait _ _ => inr (mkWaitContainerResponse 0 "")
  | AgentDelete _ _ => inr (mkDeleteContainerResponse 0 0)
  | AgentConfigure _ _ => inr tt
  | AgentAdopt _ _ => inr 17
  | Chmod _ _ | Mknod _ _ _ | CloseFd _ => tt
  | Umask _ => 18
  | SetSubreaper | InotifyInit | InotifyAddWatch _ => inr tt
  | PollIn => inr false
  | InotifyRead => None
  | PidfdOpen _ | AsyncFdNew | AsyncFdReadable => true
  | TryWait _ => inr (Some (Some 0))
  | ChildWait _ => inr (Some 0)
  | VsockSocket => inr 3
  | VsockBind _ _ | Listen _ _ | BindUnix _ | SignalStream _ => inr tt
  | AddVsockListener _ | ServerStart | ServerShutdown => inr tt
  | GetPid => 1
  | ContainerdConnect _ => inr tt
  | GetImage _ _ => inr None
  end.

Definition calm_env (files : string -> option string) (up : string -> bool) : Env :=
  Build_Env (fun _ c => calm files up c) 1000.

(** The smallest world: its trace. *)
Definition trace_world : World (list call) :=
  Build_World (list call) (fun t => t) (fun t _ => t)
    (fun _ _ => eq_refl) (fun _ _ _ => eq_refl) (fun _ => eq_refl).
