(* ===== verification/Lifecycle.v ===== *)
(** * VM lifecycle operations ([crates/daemon/src/vm_lifecycle.rs])

    Each function talks to Cloud Hypervisor over its API socket, to the guest
    agent over the vsock proxy socket, and to the file system; none of them keeps
    state. Logging is left out. *)

From S2P Require Import Prelude RustStr Proto Sys Json.
From Stdlib Require Import Ascii.
From Stdlib Require String.
Local Open Scope Z_scope.

(** [crates/daemon/src/config.rs] *)
Record DaemonConfig := mkDaemonConfig {
  pool_size : Z; max_pool_size : Z; replenish_delay_ms : Z; vm_idle_timeout_secs : Z;
  default_vcpus : Z; default_memory_mb : Z; cloud_hypervisor_binary : string;
  kernel_path : string; rootfs_path : string; kernel_args : string;
  socket_path : string; state_dir : string; warmup_duration_secs : Z; max_snapshots : Z }.

Definition base_snapshot_dir (c : DaemonConfig) : string := path_join (state_dir c) "base-snapshot".
Definition snapshot_cache_dir (c : DaemonConfig) : string := path_join (state_dir c) "snapshot-cache".

Definition AGENT_VSOCK_PORT : Z := 10789.

Section Lifecycle.
Context `{Env, SerdeJson, World W}.

(** ** The hypervisor's API *)

Definition api_request (sock meth path : string) (body : option string) : M W unit :=
  c ← sys (ConnectUnix sock);
  lift (with_ctx ("connect to CH API: " +:+ sock) (io_res c));;
  h ← sys (HttpHandshake sock);
  lift (with_ctx "HTTP handshake with CH API" (lib_res h));;
  r ← sys (HttpSend sock meth path body);
  '(success, status) ← lift (with_ctx "send request" (lib_res r));
  if success : bool then mret tt
  else
    b ← sys (HttpBody sock);
    body_str ← lift (lib_res b);
    fail (Msg ("CH API " +:+ meth +:+ " " +:+ path +:+ ": " +:+ status +:+ " " +:+ body_str)).

Definition api_request_with_body (sock meth path body : string) : M W unit :=
  api_request sock meth path (Some body).

Definition pause_vm (api_socket : string) : M W unit :=
  api_request api_socket "PUT" "/api/v1/vm.pause" None.

Definition resume_vm (api_socket : string) : M W unit :=
  api_request api_socket "PUT" "/api/v1/vm.resume" None.

Definition snapshot_body (dest_dir : string) : string :=
  to_string (of_lit (LObj [("destination_url", LStr ("file://" +:+ dest_dir))])).

Definition snapshot_vm (api_socket dest_dir : string) : M W unit :=
  api_request api_socket "PUT" "/api/v1/vm.snapshot" (Some (snapshot_body dest_dir)).

Definition restore_body (source_dir : string) : string :=
  to_string (of_lit (LObj [("source_url", LStr ("file://" +:+ source_dir));
                           ("prefault", LBool false);
                           ("memory_restore_mode", LStr "OnDemand")])).

Definition restore_vm (api_socket source_dir : string) : M W unit :=
  api_request api_socket "PUT" "/api/v1/vm.restore" (Some (restore_body source_dir)).

(** ** Starting a hypervisor process and waiting for it *)

Definition spawn_ch (config : DaemonConfig) (dir : string) : M W Z :=
  let api_socket := path_join dir "api.sock" in
  r ← sys (Spawn (cloud_hypervisor_binary config) ["--api-socket"; api_socket]);
  id ← lift (with_ctx "spawn cloud-hypervisor" (io_res r));
  pid ← lift (ok_or id (Msg "get CH pid"));
  write_file (path_join dir "ch.pid") (pretty pid);;
  mret pid.

(** The polling loops run as many rounds as the clock lets begin before their
    deadline. *)
Fixpoint wait_ch_ready_go (rounds : nat) (api_socket : string) : M W unit :=
  match rounds with
  | O => fail (Msg ("CH API socket not ready: " +:+ api_socket))
  | S n =>
      e ← exists_path api_socket;
      ok ← (if e : bool then c ← sys (ConnectUnix api_socket); mret (is_Ok (io_res c))
            else mret false : M W bool);
      if ok : bool then mret tt else sys (Sleep 10);; wait_ch_ready_go n api_socket
  end.

Definition wait_ch_ready (api_socket : string) : M W unit :=
  n ← sys (RoundsBefore 10000); wait_ch_ready_go n api_socket.

Definition connect_cmd : string := "CONNECT " +:+ pretty AGENT_VSOCK_PORT +:+ String lf "".

Definition try_agent_health (vsock_socket : string) : M W unit :=
  c ← sys (ConnectUnix vsock_socket);
  lift (io_res c);;
  w ← sys (WriteAll vsock_socket connect_cmd);
  lift (io_res w);;
  l ← sys (ReadLine vsock_socket (Some 2));
  r ← lift (ok_or l (Msg "deadline has elapsed"));
  response ← lift (io_res r);
  if starts_with response "OK" then mret tt
  else fail (Msg ("vsock CONNECT failed: " +:+ trim response)).

Fixpoint wait_for_agent_go (rounds : nat) (vsock_socket : string) : M W unit :=
  match rounds with
  | O => fail (Msg ("agent not responding on vsock: " +:+ vsock_socket))
  | S n =>
      e ← exists_path vsock_socket;
      r ← (if e : bool then attempt (try_agent_health vsock_socket)
           else mret (inr (Msg "")) : M W (unit + error));
      match r with
      | inl _ => mret tt
      | inr _ => wait_for_agent_go n vsock_socket
      end
  end.

Definition wait_for_agent (vsock_socket : string) : M W unit :=
  n ← sys (RoundsBefore 30000); wait_for_agent_go n vsock_socket.

(** The connected client is known by its socket. *)
Definition connect_agent (vsock_socket : string) : M W string :=
  c ← sys (ConnectUnix vsock_socket);
  lift (with_ctx ("connect vsock: " +:+ vsock_socket) (io_res c));;
  w ← sys (WriteAll vsock_socket connect_cmd);
  lift (io_res w);;
  l ← sys (ReadLine vsock_socket (Some 5));
  r ← lift (ok_or l (Msg "vsock CONNECT handshake timed out"));
  response ← lift (with_ctx "vsock read" (io_res r));
  if starts_with response "OK" then
    u ← sys (Reunite vsock_socket);
    lift (io_res u);;
    mret vsock_socket
  else fail (Msg ("vsock CONNECT failed: " +:+ trim response)).

(** ** Cold boot *)

Definition disk_lit (path : string) (readonly : bool) (id : string) : lit :=
  LObj [("path", LStr path); ("readonly", LBool readonly); ("id", LStr id)].

Definition vm_config (config : DaemonConfig) (dir : string) (cid : Z)
    (tap_name tap_mac : option string) (extra_disks : list (string * string * bool)) : lit :=
  let disks := disk_lit (rootfs_path config) true "_disk0"
    :: map (fun '(path, id, readonly) => disk_lit path readonly id) extra_disks in
  let net := match tap_name, tap_mac with
             | Some tap, Some mac => [LObj [("tap", LStr tap); ("mac", LStr mac)]]
             | _, _ => []
             end in
  LObj [("payload", LObj [("kernel", LStr (kernel_path config)); ("cmdline", LStr (kernel_args config))]);
        ("cpus", LObj [("boot_vcpus", LNum (default_vcpus config)); ("max_vcpus", LNum (default_vcpus config))]);
        ("memory", LObj [("size", LNum (wrap 64 (default_memory_mb config * 1024 * 1024))); ("shared", LBool true)]);
        ("disks", LArr disks);
        ("net", LArr net);
        ("serial", LObj [("mode", LStr "File"); ("file", LStr (path_join dir "console.log"))]);
        ("console", LObj [("mode", LStr "Off")]);
        ("vsock", LObj [("cid", LNum cid); ("socket", LStr (path_join dir "vsock.sock"))])].

Definition boot_vm (config : DaemonConfig) (vm_id dir : string) (cid : Z)
    (tap_name tap_mac : option string) (extra_disks : list (string * string * bool)) : M W Z :=
  ch_pid ← spawn_ch config dir;
  let api_socket := path_join dir "api.sock" in
  wait_ch_ready api_socket;;
  create_file (path_join dir "console.log");;
  api_request api_socket "PUT" "/api/v1/vm.create"
    (Some (to_string (of_lit (vm_config config dir cid tap_name tap_mac extra_disks))));;
  api_request api_socket "PUT" "/api/v1/vm.boot" None;;
  write_file (path_join dir "ch.pid") (pretty ch_pid);;
  mret ch_pid.

(** ** Snapshots *)

(** Hard link, or copy when the link would cross devices (EXDEV = 18). *)
Definition link_or_copy (src dst : string) : M W unit :=
  r ← sys (HardLink src dst);
  match r with
  | inr _ => mret tt
  | inl e => if e =? 18 then c ← sys (CopyFile src dst); lift (io_res c) else fail (Io e)
  end.

Definition link_from_base (base_dir work_dir name : string) : M W unit :=
  m_ctx ("link " +:+ name +:+ " from base snapshot")
    (link_or_copy (path_join base_dir name) (path_join work_dir name)).

(** The edits of [config.json]: the VM's own vsock and, when the serial console
    is a file, its own log. *)
Definition patch_vsock (cid : Z) (socket : string) : value -> value :=
  edit_object "vsock" (fun obj =>
    obj_insert "socket" (of_lit (LStr socket)) (obj_insert "cid" (of_lit (LNum cid)) obj)).

Definition patch_serial (console_path : string) : value -> value :=
  edit_object "serial" (fun obj =>
    if decide (get "mode" obj ≫= as_str = Some "File")
    then obj_insert "file" (of_lit (LStr console_path)) obj else obj).

Definition prepare_snapshot (base_dir vm_state_dir : string) (new_cid : Z)
    (new_vsock_socket : string) : M W string :=
  let work_dir := path_join vm_state_dir "snapshot" in
  create_dir_all work_dir;;
  link_from_base base_dir work_dir "memory-ranges";;
  link_from_base base_dir work_dir "state.json";;
  config_str ← read_to_string (path_join base_dir "config.json");
  config ← lift (lib_res (from_str config_str));
  let config := patch_vsock new_cid new_vsock_socket config in
  let console_path := path_join vm_state_dir "console.log" in
  create_file console_path;;
  let config := patch_serial console_path config in
  write_file (path_join work_dir "config.json") (to_string_pretty config);;
  mret work_dir.

(** ** Shutting down *)

Definition SIGTERM : Z := 15.
Definition SIGKILL : Z := 9.

(** Up to [n] more looks at [/proc/<pid>]; whether the process was seen gone. *)
Fixpoint poll_exit (n : nat) (proc_path : string) : M W bool :=
  match n with
  | O => mret false
  | S n' =>
      alive ← exists_path proc_path;
      if alive : bool then sys (Sleep 5);; poll_exit n' proc_path else mret true
  end.

Definition shutdown_and_destroy (api_socket : string) (ch_pid : Z) (dir : string) : M W unit :=
  sys (SendSignal (swrap 32 ch_pid) SIGTERM);;
  gone ← poll_exit 200 ("/proc/" +:+ pretty ch_pid);
  if gone : bool then ignore (remove_dir_all dir)
  else
    sys (SendSignal (swrap 32 ch_pid) SIGKILL);;
    sys (Sleep 10);;
    ignore (remove_dir_all dir).

(** ** None of them keeps state, and all of them come back *)

Lemma io_only_create_dir_all p : io_only (create_dir_all p).
Proof. unfold create_dir_all. io_solve. Qed.
Lemma io_only_remove_dir_all p : io_only (remove_dir_all p).
Proof. unfold remove_dir_all. io_solve. Qed.
Lemma io_only_create_file p : io_only (create_file p).
Proof. unfold create_file. io_solve. Qed.
Lemma io_only_write_file p s : io_only (write_file p s).
Proof. unfold write_file. io_solve. Qed.
Lemma io_only_read_to_string p : io_only (read_to_string p).
Proof. unfold read_to_string. io_solve. Qed.
Lemma io_only_exists p : io_only (exists_path p).
Proof. unfold exists_path. io_solve. Qed.
Lemma no_panic_create_dir_all p : no_panic (create_dir_all p).
Proof. unfold create_dir_all. io_solve. Qed.
Lemma no_panic_remove_dir_all p : no_panic (remove_dir_all p).
Proof. unfold remove_dir_all. io_solve. Qed.
Lemma no_panic_create_file p : no_panic (create_file p).
Proof. unfold create_file. io_solve. Qed.
Lemma no_panic_write_file p s : no_panic (write_file p s).
Proof. unfold write_file. io_solve. Qed.
Lemma no_panic_read_to_string p : no_panic (read_to_string p).
Proof. unfold read_to_string. io_solve. Qed.
Lemma no_panic_exists p : no_panic (exists_path p).
Proof. unfold exists_path. io_solve. Qed.
End Lifecycle.

#[export] Hint Resolve io_only_create_dir_all io_only_remove_dir_all io_only_create_file
  io_only_write_file io_only_read_to_string io_only_exists
  no_panic_create_dir_all no_panic_remove_dir_all no_panic_create_file
  no_panic_write_file no_panic_read_to_string no_panic_exists : rust.

Section LifecycleFrames.
Context `{Env, SerdeJson, World W}.

Lemma returns_ctx {A} c (r : result A) : returns r = true -> returns (with_ctx c r) = true.
Proof. by destruct r. Qed.
Lemma returns_ok_or {A} (o : option A) e : returns (ok_or o e) = true.
Proof. by destruct o. Qed.
#[local] Hint Resolve returns_ctx returns_ok_or : rust.

Lemma io_only_api_request s m p b : io_only (api_request s m p b).
Proof. unfold api_request. io_solve. Qed.
Lemma no_panic_api_request s m p b : no_panic (api_request s m p b).
Proof. unfold api_request. io_solve. Qed.
#[local] Hint Resolve io_only_api_request no_panic_api_request : rust.

Lemma io_only_spawn_ch c d : io_only (spawn_ch c d).
Proof. unfold spawn_ch. io_solve. Qed.
Lemma no_panic_spawn_ch c d : no_panic (spawn_ch c d).
Proof. unfold spawn_ch. io_solve. Qed.

Lemma io_only_wait_ch_ready s : io_only (wait_ch_ready s).
Proof.
  unfold wait_ch_ready. apply io_only_bind; [io_solve|]. intros n.
  induction n; cbn [wait_ch_ready_go]; io_solve.
Qed.
Lemma no_panic_wait_ch_ready s : no_panic (wait_ch_ready s).
Proof.
  unfold wait_ch_ready. apply no_panic_bind; [io_solve|]. intros n.
  induction n; cbn [wait_ch_ready_go]; io_solve.
Qed.

Lemma io_only_try_agent_health s : io_only (try_agent_health s).
Proof. unfold try_agent_health. io_solve. Qed.
Lemma no_panic_try_agent_health s : no_panic (try_agent_health s).
Proof. unfold try_agent_health. io_solve. Qed.
#[local] Hint Resolve io_only_try_agent_health no_panic_try_agent_health : rust.

Lemma io_only_wait_for_agent s : io_only (wait_for_agent s).
Proof.
  unfold wait_for_agent. apply io_only_bind; [io_solve|]. intros n.
  induction n; cbn [wait_for_agent_go]; io_solve.
Qed.
Lemma no_panic_wait_for_agent s : no_panic (wait_for_agent s).
Proof.
  unfold wait_for_agent. apply no_panic_bind; [io_solve|]. intros n.
  induction n; cbn [wait_for_agent_go]; io_solve.
Qed.
#[local] Hint Resolve io_only_spawn_ch no_panic_spawn_ch io_only_wait_ch_ready no_panic_wait_ch_ready : rust.

Lemma io_only_connect_agent s : io_only (connect_agent s).
Proof. unfold connect_agent. io_solve. Qed.
Lemma no_panic_connect_agent s : no_panic (connect_agent s).
Proof. unfold connect_agent. io_solve. Qed.

Lemma io_only_boot_vm c v d k t m x : io_only (boot_vm c v d k t m x).
Proof. unfold boot_vm. io_solve. Qed.
Lemma no_panic_boot_vm c v d k t m x : no_panic (boot_vm c v d k t m x).
Proof. unfold boot_vm. io_solve. Qed.

Lemma io_only_link b k n : io_only (link_from_base b k n).
Proof. unfold link_from_base. apply io_only_ctx. unfold link_or_copy. io_solve. Qed.
Lemma no_panic_link b k n : no_panic (link_from_base b k n).
Proof. unfold link_from_base. apply no_panic_ctx. unfold link_or_copy. io_solve. Qed.
#[local] Hint Resolve io_only_link no_panic_link : rust.

Lemma io_only_prepare_snapshot b d c s : io_only (prepare_snapshot b d c s).
Proof. unfold prepare_snapshot. io_solve. Qed.
Lemma no_panic_prepare_snapshot b d c s : no_panic (prepare_snapshot b d c s).
Proof. unfold prepare_snapshot. io_solve. Qed.

Lemma io_only_poll_exit n p : io_only (poll_exit n p).
Proof. induction n; cbn [poll_exit]; io_solve. Qed.
Lemma no_panic_poll_exit n p : no_panic (poll_exit n p).
Proof. induction n; cbn [poll_exit]; io_solve. Qed.
#[local] Hint Resolve io_only_poll_exit no_panic_poll_exit : rust.

Lemma io_only_shutdown a p d : io_only (shutdown_and_destroy a p d).
Proof. unfold shutdown_and_destroy. io_solve. Qed.
Lemma no_panic_shutdown a p d : no_panic (shutdown_and_destroy a p d).
Proof. unfold shutdown_and_destroy. io_solve. Qed.
Lemma infallible_exists p : infallible (exists_path p).
Proof. done. Qed.
Lemma infallible_poll_exit n p : infallible (poll_exit n p).
Proof. pose proof infallible_exists. induction n; cbn [poll_exit]; io_solve. Qed.
Lemma infallible_shutdown a p d : infallible (shutdown_and_destroy a p d).
Proof. unfold shutdown_and_destroy. pose proof infallible_poll_exit. io_solve. Qed.
End LifecycleFrames.

#[export] Hint Resolve returns_ctx returns_ok_or
  io_only_api_request no_panic_api_request io_only_spawn_ch no_panic_spawn_ch
  io_only_wait_ch_ready no_panic_wait_ch_ready io_only_wait_for_agent no_panic_wait_for_agent
  io_only_connect_agent no_panic_connect_agent io_only_boot_vm no_panic_boot_vm
  io_only_prepare_snapshot no_panic_prepare_snapshot io_only_shutdown no_panic_shutdown infallible_exists infallible_shutdown : rust.
#[export] Hint Unfold pause_vm resume_vm snapshot_vm restore_vm api_request_with_body : rust.

(** ** Properties *)

Section LifecycleProps.
Context `{Env, SerdeJson, World W}.

(** [k] looks at a process that was still there, each followed by a sleep. *)
Fixpoint polls (k : nat) (proc_path : string) : list call :=
  match k with O => [] | S k' => Exists proc_path :: Sleep 5 :: polls k' proc_path end.

Lemma poll_exit_run n p (w : W) :
  exists k b, (k <= n)%nat /\
    poll_exit n p w = (Ok b, set_trace (trace w ++ polls k p ++ (if b : bool then [Exists p] else [])) w) /\
    (forall j, (j < k)%nat -> env (trace w ++ polls j p) (Exists p) = true) /\
    (if b then env (trace w ++ polls k p) (Exists p) = false else k = n).
Proof.
  revert w. induction n as [|n IH]; intros w.
  - exists 0%nat, false. cbn. rewrite app_nil_r, set_trace_id. split_and!; try done. lia.
  - cbn [poll_exit]. unfold mbind, M_bind, exists_path. rewrite sys_run.
    destruct (env (trace w) (Exists p)) eqn:E.
    + rewrite sys_run, trace_set, set_trace_set.
      destruct (IH (set_trace ((trace w ++ [Exists p]) ++ [Sleep 5]) w)) as (k & b & Hk & Er & Ha & Hb).
      rewrite Er, trace_set, set_trace_set. exists (S k), b. cbn [polls].
      rewrite trace_set in Ha, Hb. rewrite <- !app_assoc in *. cbn [app] in *.
      split_and!; [lia|done| |].
      * intros [|j] Hj; cbn [polls]; [by rewrite app_nil_r|].
        rewrite <- (Ha j) by lia. by rewrite <- (app_assoc _ _ (polls j p)).
      * destruct b; [done|lia].
    + exists 0%nat, true. cbn. rewrite app_nil_r. split_and!; [lia|done|lia|done].
Qed.

Lemma shutdown_run a pid dir (w : W) :
  let proc := "/proc/" +:+ pretty pid in
  let sigterm := SendSignal (swrap 32 pid) SIGTERM in
  exists k tail,
    shutdown_and_destroy a pid dir w =
      (Ok tt, set_trace (trace w ++ sigterm :: polls k proc ++ tail) w) /\
    (forall j, (j < k)%nat -> env (trace w ++ sigterm :: polls j proc) (Exists proc) = true) /\
    ((k <= 200)%nat /\ env (trace w ++ sigterm :: polls k proc) (Exists proc) = false /\
       tail = [Exists proc; RemoveDirAll dir]
     \/ k = 200%nat /\ tail = [SendSignal (swrap 32 pid) SIGKILL; Sleep 10; RemoveDirAll dir]).
Proof.
  intros proc sigterm. unfold shutdown_and_destroy. fold proc sigterm.
  unfold mbind, M_bind at 1. rewrite sys_run.
  destruct (poll_exit_run 200 proc (set_trace (trace w ++ [sigterm]) w)) as (k & b & Hk & Er & Ha & Hb).
  rewrite trace_set in *. rewrite set_trace_set in Er. rewrite <- !app_assoc in *. cbn [app] in *.
  unfold M_bind at 1. rewrite Er.
  assert (Hassoc : forall j, (trace w ++ [sigterm]) ++ polls j proc = trace w ++ sigterm :: polls j proc)
    by (intros; by rewrite <- app_assoc).
  assert (Ha' : forall j, (j < k)%nat -> env (trace w ++ sigterm :: polls j proc) (Exists proc) = true)
    by (intros j Hj; rewrite <- Hassoc; auto).
  assert (Hrm : forall u, (ignore (remove_dir_all dir)) (set_trace u w) = (Ok tt, set_trace (u ++ [RemoveDirAll dir]) w)).
  { intros u. unfold ignore, remove_dir_all, attempt, mbind, M_bind. rewrite sys_run, trace_set, set_trace_set.
    unfold lift. by destruct (env u (RemoveDirAll dir)). }
  destruct b.
  - rewrite Hrm. exists k, [Exists proc; RemoveDirAll dir]. rewrite <- !app_assoc. cbn [app].
    rewrite <- app_assoc. cbn [app]. split_and!; [done|done|left]. done.
  - exists k, [SendSignal (swrap 32 pid) SIGKILL; Sleep 10; RemoveDirAll dir].
    unfold M_bind. rewrite sys_run, trace_set, set_trace_set, sys_run, trace_set, set_trace_set, Hrm.
    repeat (rewrite <- !app_assoc; cbn [app]). split_and!; [done|done|by right].
Qed.

(** C30: shutting a VM down always comes back and makes exactly these calls:
    SIGTERM first; then looks at the process until it is gone, at most 200; SIGKILL
    only when all 200 saw it alive; the state directory is removed last, on both
    ways out. Nothing else of the world changes. *)
Theorem shutdown_and_destroy_calls a pid dir (w : W) :
  let proc := "/proc/" +:+ pretty pid in
  let sigterm := SendSignal (swrap 32 pid) SIGTERM in
  exists k tail,
    shutdown_and_destroy a pid dir w =
      (Ok tt, set_trace (trace w ++ sigterm :: polls k proc ++ tail) w) /\
    (forall j, (j < k)%nat -> env (trace w ++ sigterm :: polls j proc) (Exists proc) = true) /\
    ((k <= 200)%nat /\ env (trace w ++ sigterm :: polls k proc) (Exists proc) = false /\
       tail = [Exists proc; RemoveDirAll dir]
     \/ k = 200%nat /\ tail = [SendSignal (swrap 32 pid) SIGKILL; Sleep 10; RemoveDirAll dir]).
Proof. apply shutdown_run. Qed.

Lemma patch_vsock_other cid s v k : k <> "vsock" -> get k (patch_vsock cid s v) = get k v.
Proof. apply edit_object_other. Qed.
Lemma patch_serial_other c v k : k <> "serial" -> get k (patch_serial c v) = get k v.
Proof. apply edit_object_other. Qed.

Lemma patch_vsock_fields cid s v vs :
  get "vsock" v = Some vs -> is_object vs = true ->
  exists vs', get "vsock" (patch_vsock cid s v) = Some vs' /\
    get "cid" vs' = Some (of_lit (LNum cid)) /\ get "socket" vs' = Some (of_lit (LStr s)) /\
    forall k, k <> "cid" -> k <> "socket" -> get k vs' = get k vs.
Proof.
  intros Hg Ho. eexists. split; [by apply edit_object_field|].
  pose proof (insert_object "cid" (of_lit (LNum cid)) vs Ho) as Ho'. split_and!.
  - rewrite get_insert_ne, get_insert; done.
  - by rewrite get_insert.
  - intros k H1' H2'. by rewrite !get_insert_ne.
Qed.

Lemma patch_serial_file c v sr :
  get "serial" v = Some sr -> is_object sr = true -> get "mode" sr ≫= as_str = Some "File" ->
  exists sr', get "serial" (patch_serial c v) = Some sr' /\
    get "file" sr' = Some (of_lit (LStr c)) /\ forall k, k <> "file" -> get k sr' = get k sr.
Proof.
  intros Hg Ho Hm. eexists. split; [by apply edit_object_field|]. cbn beta.
  rewrite decide_True by done. split; [by apply get_insert|]. intros k Hk. by rewrite get_insert_ne.
Qed.

(** The path a call creates, changes or removes, if any. *)
Definition writes_to (c : call) : option string :=
  match c with
  | CreateDirAll p | RemoveDirAll p | RemoveFile p | CreateFile p | WriteFile p _ | SetPermissions p _
  | HardLink _ p | CopyFile _ p | Rename _ p | Symlink _ p => Some p
  | _ => None
  end.

(** Preparing a snapshot for a VM writes only into that VM's own state
    directory, however it ends: the base snapshot it is made from stays as it is
    for the next VM. *)
Theorem prepare_snapshot_writes b d cid s :
  let wd := path_join d "snapshot" in
  emits (W := W) (fun c => forall p, writes_to c = Some p ->
      p ∈ [wd; path_join wd "memory-ranges"; path_join wd "state.json";
           path_join d "console.log"; path_join wd "config.json"])
    (prepare_snapshot b d cid s).
Proof.
  intros wd. unfold prepare_snapshot, link_from_base, link_or_copy, create_dir_all, create_file,
    write_file, read_to_string. fold wd.
  emit_solve ltac:(cbn; intros ? [= <-]; set_solver).
Qed.

End LifecycleProps.

(** A base snapshot's configuration, as the concrete runs read it. *)
Definition sample_config : lit :=
  LObj [("vsock", LObj [("cid", LNum 3); ("socket", LStr "/old"); ("id", LStr "v")]);
        ("serial", LObj [("mode", LStr "File"); ("file", LStr "/old.log")]);
        ("cpus", LNum 1)].
Definition base_files (p : string) : option string :=
  if String.eqb p "/base/config.json" then Some (lit_print sample_config) else None.

