(* ===== verification/Pool.v ===== *)
(** * The VM pool ([crates/daemon/src/pool.rs])

    The daemon's state, shared by the pool, the snapshot manager and the API
    server, and the operations of [Pool]. Each operation is modelled as one
    uninterrupted run; [PoolConc] has the interleavings. *)

From S2P Require Import Prelude RustStr NetAddr Proto Sys Json NetlinkOps Lifecycle.
From Stdlib Require Import Ascii.
From Stdlib Require String.
Local Open Scope Z_scope.

Record PoolVm := mkPoolVm {
  pv_id : string; pv_api : string; pv_vsock : string; pv_cid : Z; pv_pid : Z; pv_created : Z }.

(** [SnapshotEntry] of [shadow.rs]. *)
Record SnapshotEntry := mkSnapshotEntry {
  se_dir : string; se_last_used : Z; se_mtime : option Z }.

(** Background work handed to [tokio::spawn]. *)
Inductive task :=
| TReplenish                          (* after 100 ms, replenish_one *)
| TShadow (image_key erofs_path : string).

(** [Pool], [SnapshotManager], [ApiServer] and the counter of [api.rs]; the
    agent connections are known by their vsock sockets. *)
Record daemon := mkDaemon {
  d_ready : list PoolVm;
  d_active : gmap string PoolVm;
  d_active_count : Z;
  d_next_cid : Z;
  d_snapshots : gmap string SnapshotEntry;
  d_shadows : gmap string unit;
  d_agents : gmap string string;
  d_warm : Z;
  d_tasks : list task;
  d_ns : string;                      (* the network namespace of the worker thread *)
  d_sock : sock;
  d_trace : list call }.

Definition set_ready (x : list PoolVm) (d : daemon) : daemon :=
  mkDaemon x (d_active d) (d_active_count d) (d_next_cid d) (d_snapshots d) (d_shadows d)
    (d_agents d) (d_warm d) (d_tasks d) (d_ns d) (d_sock d) (d_trace d).
Definition set_active (x : gmap string PoolVm) (n : Z) (d : daemon) : daemon :=
  mkDaemon (d_ready d) x n (d_next_cid d) (d_snapshots d) (d_shadows d)
    (d_agents d) (d_warm d) (d_tasks d) (d_ns d) (d_sock d) (d_trace d).
Definition set_next_cid (x : Z) (d : daemon) : daemon :=
  mkDaemon (d_ready d) (d_active d) (d_active_count d) x (d_snapshots d) (d_shadows d)
    (d_agents d) (d_warm d) (d_tasks d) (d_ns d) (d_sock d) (d_trace d).
Definition set_snapshots (x : gmap string SnapshotEntry) (d : daemon) : daemon :=
  mkDaemon (d_ready d) (d_active d) (d_active_count d) (d_next_cid d) x (d_shadows d)
    (d_agents d) (d_warm d) (d_tasks d) (d_ns d) (d_sock d) (d_trace d).
Definition set_shadows (x : gmap string unit) (d : daemon) : daemon :=
  mkDaemon (d_ready d) (d_active d) (d_active_count d) (d_next_cid d) (d_snapshots d) x
    (d_agents d) (d_warm d) (d_tasks d) (d_ns d) (d_sock d) (d_trace d).
Definition set_agents (x : gmap string string) (d : daemon) : daemon :=
  mkDaemon (d_ready d) (d_active d) (d_active_count d) (d_next_cid d) (d_snapshots d) (d_shadows d)
    x (d_warm d) (d_tasks d) (d_ns d) (d_sock d) (d_trace d).
Definition set_warm (x : Z) (d : daemon) : daemon :=
  mkDaemon (d_ready d) (d_active d) (d_active_count d) (d_next_cid d) (d_snapshots d) (d_shadows d)
    (d_agents d) x (d_tasks d) (d_ns d) (d_sock d) (d_trace d).
Definition set_tasks (x : list task) (d : daemon) : daemon :=
  mkDaemon (d_ready d) (d_active d) (d_active_count d) (d_next_cid d) (d_snapshots d) (d_shadows d)
    (d_agents d) (d_warm d) x (d_ns d) (d_sock d) (d_trace d).
Definition set_ns (x : string) (d : daemon) : daemon :=
  mkDaemon (d_ready d) (d_active d) (d_active_count d) (d_next_cid d) (d_snapshots d) (d_shadows d)
    (d_agents d) (d_warm d) (d_tasks d) x (d_sock d) (d_trace d).
Definition set_sock (x : sock) (d : daemon) : daemon :=
  mkDaemon (d_ready d) (d_active d) (d_active_count d) (d_next_cid d) (d_snapshots d) (d_shadows d)
    (d_agents d) (d_warm d) (d_tasks d) (d_ns d) x (d_trace d).
Definition set_d_trace (x : list call) (d : daemon) : daemon :=
  mkDaemon (d_ready d) (d_active d) (d_active_count d) (d_next_cid d) (d_snapshots d) (d_shadows d)
    (d_agents d) (d_warm d) (d_tasks d) (d_ns d) (d_sock d) x.

#[export] Instance daemon_world : World daemon := {|
  trace := d_trace; set_trace := set_d_trace;
  trace_set t w := eq_refl; set_trace_set t t' w := eq_refl;
  set_trace_id w := match w return set_d_trace (d_trace w) w = w with mkDaemon _ _ _ _ _ _ _ _ _ _ _ _ => eq_refl end;
|}.

(** [Vec::pop] takes the last element. *)
Definition vec_pop {A} (l : list A) : option (A * list A) :=
  match rev l with [] => None | a :: r => Some (a, rev r) end.

Section Pool.
Context `{Env, SerdeJson} (config : DaemonConfig).

Definition pool_new (s : sock) : daemon := mkDaemon [] ∅ 0 3 ∅ ∅ ∅ 0 [] "" s [].

Definition next_cid : M daemon Z := fun d =>
  (Ok (d_next_cid d), set_next_cid (wrap 64 (d_next_cid d + 1)) d).

Definition base_snapshot_valid (base_dir : string) : M daemon bool :=
  c ← exists_path (path_join base_dir "config.json");
  if c : bool then
    m ← exists_path (path_join base_dir "memory-ranges");
    if m : bool then exists_path (path_join base_dir "state.json") else mret false
  else mret false.

Definition create_base_snapshot (base_dir : string) : M daemon unit :=
  create_dir_all base_dir;;
  let vm_id := "base-snapshot-" +:+ pretty process_id in
  cid ← next_cid;
  let dir := path_join (state_dir config) vm_id in
  create_dir_all dir;;
  ch_pid ← m_ctx "boot base VM" (boot_vm config vm_id dir cid None None []);
  let api_socket := path_join dir "api.sock" in
  let vsock_socket := path_join dir "vsock.sock" in
  m_ctx "agent connect for base snapshot" (wait_for_agent vsock_socket);;
  pause_vm api_socket;;
  snapshot_vm api_socket base_dir;;
  shutdown_and_destroy api_socket ch_pid dir.

(** [restore_one] after its name and CID are drawn. *)
Definition restore_named (vm_id : string) (cid : Z) : M daemon PoolVm :=
  let dir := path_join (state_dir config) vm_id in
  create_dir_all dir;;
  let base_dir := base_snapshot_dir config in
  let vsock_socket := path_join dir "vsock.sock" in
  snapshot_dir ← prepare_snapshot base_dir dir cid vsock_socket;
  ch_pid ← spawn_ch config dir;
  let api_socket := path_join dir "api.sock" in
  wait_ch_ready api_socket;;
  restore_vm api_socket snapshot_dir;;
  resume_vm api_socket;;
  m_ctx "agent connect after restore" (wait_for_agent vsock_socket);;
  now ← sys Instant;
  mret (mkPoolVm vm_id api_socket vsock_socket cid ch_pid now).

(** The VM's name holds the counter as loaded; the CID is what the increment
    after it returns. *)
Definition restore_one : M daemon PoolVm :=
  n ← gets d_next_cid;
  let vm_id := pool_vm_id process_id n in
  cid ← next_cid;
  restore_named vm_id cid.

Definition push_ready (vm : PoolVm) : M daemon unit :=
  modify (fun d => set_ready (d_ready d ++ [vm]) d).

(** The fill loop of [initialize]; a VM that fails is skipped. *)
Fixpoint fill (n : nat) : M daemon unit :=
  match n with
  | O => mret tt
  | S n' =>
      r ← attempt restore_one;
      match r with inl vm => push_ready vm | inr _ => mret tt end;;
      fill n'
  end.

Definition initialize : M daemon unit :=
  let base_dir := base_snapshot_dir config in
  v ← base_snapshot_valid base_dir;
  (if v : bool then mret tt else create_base_snapshot base_dir);;
  fill (Z.to_nat (pool_size config)).

Definition mark_active (vm : PoolVm) : M daemon unit :=
  modify (fun d => set_active (<[pv_id vm := vm]> (d_active d)) (wrap 64 (d_active_count d + 1)) d).

Definition acquire : M daemon PoolVm := fun d =>
  match vec_pop (d_ready d) with
  | Some (vm, rest) => (mark_active vm;; mret vm) (set_ready rest d)
  | None => (vm ← restore_one; mark_active vm;; mret vm) d
  end.

(** The entries of the state directory, one by one; whether the VM was shut
    down. *)
Fixpoint destroy_from (entries : list string) (dir api_socket : string) : M daemon bool :=
  match entries with
  | [] => mret false
  | name :: rest =>
      if String.eqb name "ch.pid" then
        r ← attempt (read_to_string (path_join dir name));
        match r with
        | inl pid_str =>
            match parse_uint 32 (trim pid_str) with
            | Some pid => shutdown_and_destroy api_socket pid dir;; mret true
            | None => destroy_from rest dir api_socket
            end
        | inr _ => destroy_from rest dir api_socket
        end
      else destroy_from rest dir api_socket
  end.

Definition destroy_vm (vm_id : string) : M daemon unit :=
  let dir := path_join (state_dir config) vm_id in
  let api_socket := path_join dir "api.sock" in
  r ← sys (ReadDir dir);
  fin ← match r with
         | inr entries => destroy_from entries dir api_socket
         | inl _ => mret false
         end;
  if fin : bool then mret tt else ignore (remove_dir_all dir).

Definition release (vm_id : string) : M daemon unit :=
  modify (fun d =>
    set_active (delete vm_id (d_active d))
      (match d_active d !! vm_id with
       | Some _ => wrap 64 (d_active_count d - 1)
       | None => d_active_count d
       end) d);;
  destroy_vm vm_id.

Definition get_active (vm_id : string) : M daemon (option PoolVm) :=
  gets (fun d => d_active d !! vm_id).

Definition register_active (vm : PoolVm) : M daemon unit := mark_active vm.

Definition replenish_one : M daemon unit :=
  current ← gets (fun d => Z.of_nat (length (d_ready d)));
  if pool_size config <=? current then mret tt
  else
    r ← attempt restore_one;
    match r with inl vm => push_ready vm | inr _ => mret tt end.
End Pool.

(** ** How each operation moves the state *)

Section PoolRuns.
Context `{Env, SerdeJson} (config : DaemonConfig).

(** The VM that [restore_named] makes. *)
Definition made_vm (vm_id : string) (cid : Z) (vm : PoolVm) : Prop :=
  pv_id vm = vm_id /\ pv_cid vm = cid /\
  pv_api vm = path_join (path_join (state_dir config) vm_id) "api.sock" /\
  pv_vsock vm = path_join (path_join (state_dir config) vm_id) "vsock.sock".

Definition bump (d : daemon) : daemon := set_next_cid (wrap 64 (d_next_cid d + 1)) d.

Lemma io_only_restore_named v c : io_only (restore_named config v c).
Proof. unfold restore_named, restore_vm, resume_vm. io_solve. Qed.
Lemma no_panic_restore_named v c : no_panic (restore_named config v c).
Proof. unfold restore_named, restore_vm, resume_vm. io_solve. Qed.

Lemma restore_named_Ok v c d vm d' : restore_named config v c d = (Ok vm, d') -> made_vm v c vm.
Proof. unfold restore_named. intros Hr. inv_ok. by repeat split. Qed.

(** Every outcome of [restore_one]: the counter moves by one, only the trace
    changes besides, and on success the VM carries the old counter in its name and
    as its CID. *)
Lemma restore_one_run d :
  exists t r, restore_one config d = (r, set_d_trace (d_trace d ++ t) (bump d)) /\
    match r with
    | Ok vm => made_vm (pool_vm_id process_id (d_next_cid d)) (d_next_cid d) vm
    | Err _ => True
    | _ => False
    end.
Proof.
  unfold restore_one, mbind, M_bind, gets, next_cid. fold (bump d).
  set (v := pool_vm_id _ _). set (c := d_next_cid d).
  destruct (io_only_restore_named v c (bump d)) as [t Ht].
  pose proof (no_panic_restore_named v c (bump d)) as Hn.
  destruct (restore_named config v c (bump d)) as [r d'] eqn:E. cbn in Ht, Hn. subst d'.
  exists t, r. split; [done|]. destruct r; try done. by eapply restore_named_Ok.
Qed.

Lemma io_only_destroy_from es dir a : io_only (destroy_from es dir a).
Proof. induction es; cbn [destroy_from]; io_solve. Qed.
Lemma no_panic_destroy_from es dir a : no_panic (destroy_from es dir a).
Proof. induction es; cbn [destroy_from]; io_solve. Qed.

Lemma io_only_destroy_vm v : io_only (destroy_vm config v).
Proof. unfold destroy_vm. pose proof io_only_destroy_from. io_solve. Qed.
Lemma no_panic_destroy_vm v : no_panic (destroy_vm config v).
Proof. unfold destroy_vm. pose proof no_panic_destroy_from. io_solve. Qed.

Lemma infallible_destroy_from es dir a : infallible (destroy_from es dir a).
Proof. induction es; cbn [destroy_from]; io_solve. Qed.
Lemma infallible_destroy_vm v : infallible (destroy_vm config v).
Proof. unfold destroy_vm. pose proof infallible_destroy_from. io_solve. Qed.

Definition released (vm_id : string) (d : daemon) : daemon :=
  set_active (delete vm_id (d_active d))
    (match d_active d !! vm_id with
     | Some _ => wrap 64 (d_active_count d - 1)
     | None => d_active_count d
     end) d.

Lemma release_run v d : exists t, release config v d = (Ok tt, set_d_trace (d_trace d ++ t) (released v d)).
Proof.
  unfold release, mbind, M_bind, modify. fold (released v d).
  destruct (infallible_run (destroy_vm config v) (released v d) (infallible_destroy_vm v) (io_only_destroy_vm v))
    as (u & t & E). rewrite E. destruct u. by exists t.
Qed.
End PoolRuns.

(** ** The pool's invariant *)

Section PoolInv.
Context `{Env, SerdeJson} (config : DaemonConfig).

Definition warm_name (s : string) : bool := starts_with s "warm-".

(** CIDs of live VMs are handed out, never shared; the active map is keyed by
    the VM's name; names are a pool VM's (its CID in it) or, for an active VM, a warm
    VM's; the counter of acquired VMs counts the map. *)
Record pool_wf (d : daemon) : Prop := {
  wf_low : 3 <= d_next_cid d < 2 ^ 64;
  wf_ready_cid vm : vm ∈ d_ready d -> 3 <= pv_cid vm < d_next_cid d;
  wf_active_cid k vm : d_active d !! k = Some vm -> 3 <= pv_cid vm < d_next_cid d;
  wf_ready_nodup : NoDup (map pv_cid (d_ready d));
  wf_apart vm k vm' : vm ∈ d_ready d -> d_active d !! k = Some vm' -> pv_cid vm <> pv_cid vm';
  wf_active_inj k k' vm vm' : d_active d !! k = Some vm -> d_active d !! k' = Some vm' ->
    pv_cid vm = pv_cid vm' -> k = k';
  wf_key k vm : d_active d !! k = Some vm -> pv_id vm = k;
  wf_ready_name vm : vm ∈ d_ready d -> pv_id vm = pool_vm_id process_id (pv_cid vm);
  wf_active_name k vm : d_active d !! k = Some vm ->
    pv_id vm = pool_vm_id process_id (pv_cid vm) \/ warm_name (pv_id vm) = true;
  wf_count : d_active_count d = Z.of_nat (size (d_active d));
}.

(** A VM that can join the live ones. *)
Record fresh_vm (d : daemon) (vm : PoolVm) : Prop := {
  fr_cid : 3 <= pv_cid vm < d_next_cid d;
  fr_ready vm' : vm' ∈ d_ready d -> pv_cid vm' <> pv_cid vm;
  fr_active k vm' : d_active d !! k = Some vm' -> pv_cid vm' <> pv_cid vm;
  fr_name : pv_id vm = pool_vm_id process_id (pv_cid vm) \/ warm_name (pv_id vm) = true;
  fr_key : d_active d !! pv_id vm = None;
}.

Lemma pool_vm_id_inj p c c' : pool_vm_id p c = pool_vm_id p c' -> c = c'.
Proof. unfold pool_vm_id. intros E. repeat apply sapp_inv_head in E. by apply (inj pretty). Qed.

Lemma pool_not_warm p c : warm_name (pool_vm_id p c) = false.
Proof. reflexivity. Qed.

Lemma wf_trace d t : pool_wf d -> pool_wf (set_d_trace t d).
Proof. by intros []; constructor. Qed.

Lemma wf_bump d : pool_wf d -> d_next_cid d < 2 ^ 64 - 1 -> pool_wf (bump d).
Proof.
  intros Hd Hn. assert (Hw : wrap 64 (d_next_cid d + 1) = d_next_cid d + 1).
  { pose proof (wf_low _ Hd). apply wrap_small. unfold in_range. lia. }
  destruct Hd. constructor; cbn; rewrite ?Hw; try done; intros; try lia.
  - by pose proof (wf_ready_cid0 vm H1); lia.
  - by pose proof (wf_active_cid0 k vm H1); lia.
Qed.

Lemma size_active_bound d : pool_wf d -> Z.of_nat (size (d_active d)) <= d_next_cid d - 3.
Proof.
  intros Hd. set (cids := map (fun kv => pv_cid kv.2) (map_to_list (d_active d))).
  assert (Hl : length cids = size (d_active d)) by (unfold cids; by rewrite length_map, length_map_to_list).
  assert (HN : NoDup cids).
  { unfold cids. apply NoDup_fmap_2_strong.
    - intros [k v] [k' v'] H1%elem_of_map_to_list H2%elem_of_map_to_list E. cbn in *.
      pose proof (wf_active_inj _ Hd _ _ _ _ H1 H2 E) as ->. congruence.
    - apply NoDup_map_to_list. }
  assert (Hi : incl cids (map (fun i => 3 + Z.of_nat i) (List.seq 0 (Z.to_nat (d_next_cid d - 3))))).
  { intros c Hc%list_elem_of_In. unfold cids in Hc. apply list_elem_of_fmap in Hc as ([k v] & -> & Hk).
    apply elem_of_map_to_list in Hk. pose proof (wf_active_cid _ Hd _ _ Hk). apply in_map_iff.
    exists (Z.to_nat (pv_cid v - 3)). split; [cbn; lia|]. apply in_seq. cbn. lia. }
  apply List.NoDup_incl_length in Hi; [|by apply NoDup_ListNoDup].
  rewrite length_map, length_seq in Hi. pose proof (wf_low _ Hd). lia.
Qed.

Lemma wf_push d vm :
  pool_wf d -> fresh_vm d vm -> pv_id vm = pool_vm_id process_id (pv_cid vm) ->
  pool_wf (set_ready (d_ready d ++ [vm]) d).
Proof.
  intros [] [] Hname. constructor; cbn; try done.
  - intros vm'. rewrite elem_of_app, list_elem_of_singleton. intros [Hv| ->]; eauto.
  - rewrite map_app. apply NoDup_app. split_and!; [done| |apply NoDup_singleton].
    intros c [vm' [-> Hv] ]%list_elem_of_fmap. cbn. rewrite list_elem_of_singleton. by apply fr_ready0.
  - intros vm' k vm''. rewrite elem_of_app, list_elem_of_singleton. intros [Hv| ->]; eauto.
    intros Hk E. by apply (fr_active0 _ _ Hk).
  - intros vm'. rewrite elem_of_app, list_elem_of_singleton. intros [Hv| ->]; eauto.
Qed.

Lemma wf_mark d vm :
  pool_wf d -> fresh_vm d vm ->
  pool_wf (set_active (<[pv_id vm := vm]> (d_active d)) (wrap 64 (d_active_count d + 1)) d).
Proof.
  intros Hd Hf. pose proof (size_active_bound d Hd) as Hs. pose proof (wf_count _ Hd) as Hc.
  pose proof (wf_low _ Hd) as Hn.
  assert (Hw : wrap 64 (d_active_count d + 1) = Z.of_nat (size (<[pv_id vm := vm]> (d_active d)))).
  { rewrite map_size_insert_None by apply (fr_key _ _ Hf). rewrite wrap_small; [lia|]. unfold in_range. lia. }
  destruct Hd, Hf. constructor; cbn; rewrite ?Hw; try done.
  - intros k vm' [ [<- <-]|[_ Hk] ]%lookup_insert_Some; eauto.
  - intros vm' k vm'' Hv [ [<- <-]|[_ Hk] ]%lookup_insert_Some; eauto.
  - intros k k' v v' [ [<- <-]|[Hk1 Hk] ]%lookup_insert_Some [ [<- <-]|[Hk1' Hk'] ]%lookup_insert_Some E; eauto.
    + by destruct (fr_active0 _ _ Hk').
    + by destruct (fr_active0 _ _ Hk).
  - intros k vm' [ [<- <-]|[_ Hk] ]%lookup_insert_Some; eauto.
  - intros k vm' [ [<- <-]|[_ Hk] ]%lookup_insert_Some; eauto.
Qed.

(** The VM that a restore made is fresh once the counter has moved. *)
Lemma fresh_made d vm :
  pool_wf d -> d_next_cid d < 2 ^ 64 - 1 ->
  made_vm config (pool_vm_id process_id (d_next_cid d)) (d_next_cid d) vm -> fresh_vm (bump d) vm.
Proof.
  intros Hd Hn (Hid & Hcid & _). pose proof (wf_low _ Hd).
  assert (Hw : wrap 64 (d_next_cid d + 1) = d_next_cid d + 1) by (apply wrap_small; unfold in_range; lia).
  constructor; cbn; rewrite ?Hw, ?Hcid.
  - lia.
  - intros vm' Hv. pose proof (wf_ready_cid _ Hd _ Hv). lia.
  - intros k vm' Hk. pose proof (wf_active_cid _ Hd _ _ Hk). lia.
  - by left.
  - destruct (d_active d !! pv_id vm) as [vm'|] eqn:E; [|done].
    pose proof (wf_key _ Hd _ _ E) as Hk. pose proof (wf_active_cid _ Hd _ _ E).
    destruct (wf_active_name _ Hd _ _ E) as [Hn'|Hn'].
    + rewrite Hk, Hid in Hn'. apply pool_vm_id_inj in Hn'. lia.
    + rewrite Hk, Hid, pool_not_warm in Hn'. done.
Qed.

Lemma vec_pop_Some {A} (l : list A) a r : vec_pop l = Some (a, r) -> l = r ++ [a].
Proof.
  unfold vec_pop. destruct (rev l) as [|b l'] eqn:E; [done|]. intros [= <- <-].
  rewrite <- (rev_involutive l), E. reflexivity.
Qed.
Lemma vec_pop_snoc {A} (l : list A) a : vec_pop (l ++ [a]) = Some (a, l).
Proof. unfold vec_pop. rewrite rev_app_distr. cbn. by rewrite rev_involutive. Qed.
Lemma vec_pop_None {A} (l : list A) : vec_pop l = None -> l = [].
Proof. unfold vec_pop. destruct (rev l) eqn:E; [|done]. intros _. rewrite <- (rev_involutive l), E. reflexivity. Qed.

Lemma wf_pop d vm rest :
  pool_wf d -> d_ready d = rest ++ [vm] -> pool_wf (set_ready rest d) /\ fresh_vm (set_ready rest d) vm.
Proof.
  intros Hd Er. assert (Hsub : forall v, v ∈ rest -> v ∈ d_ready d) by (intros v Hv; rewrite Er; set_solver).
  assert (Hvm : vm ∈ d_ready d) by (rewrite Er; set_solver).
  pose proof (wf_ready_nodup _ Hd) as HN. rewrite Er, map_app in HN. apply NoDup_app in HN as (HN & Hdis & _).
  split.
  - destruct Hd. constructor; cbn; eauto.
  - constructor; cbn.
    + by apply (wf_ready_cid _ Hd).
    + intros vm' Hv E. apply (Hdis (pv_cid vm')); [by apply list_elem_of_fmap_2|]. rewrite E. by left.
    + intros k vm' Hk E. by apply (wf_apart _ Hd _ _ _ Hvm Hk).
    + left. by apply (wf_ready_name _ Hd).
    + destruct (d_active d !! pv_id vm) as [vm'|] eqn:E; [|done].
      pose proof (wf_key _ Hd _ _ E) as Hk. rewrite (wf_ready_name _ Hd _ Hvm) in Hk.
      destruct (wf_active_name _ Hd _ _ E) as [Hn'|Hn'].
      * rewrite Hk in Hn'. apply pool_vm_id_inj in Hn'. by destruct (wf_apart _ Hd _ _ _ Hvm E).
      * rewrite Hk, pool_not_warm in Hn'. done.
Qed.

Lemma wf_released d v : pool_wf d -> pool_wf (released v d).
Proof.
  intros Hd. pose proof (wf_count _ Hd) as Hc. pose proof (size_active_bound d Hd) as Hs.
  assert (Hw : d_active_count (released v d) = Z.of_nat (size (delete v (d_active d)))).
  { cbn. destruct (d_active d !! v) as [vm|] eqn:E; [|by rewrite delete_id].
    assert (0 < size (d_active d))%nat.
    { destruct (size (d_active d)) eqn:Es; [|lia]. apply map_size_empty_inv in Es. by rewrite Es, lookup_empty in E. }
    rewrite map_size_delete_Some by eauto. pose proof (wf_low _ Hd). rewrite wrap_small; [lia|].
    unfold in_range. lia. }
  destruct Hd. constructor; cbn in *; try done.
  - intros k vm [_ Hk]%lookup_delete_Some. eauto.
  - intros vm k vm' Hv [_ Hk]%lookup_delete_Some. eauto.
  - intros k k' vm vm' [_ Hk]%lookup_delete_Some [_ Hk']%lookup_delete_Some. eauto.
  - intros k vm [_ Hk]%lookup_delete_Some. eauto.
  - intros k vm [_ Hk]%lookup_delete_Some. eauto.
Qed.
End PoolInv.

(** ** Properties *)

Section PoolProps.
Context `{Env, SerdeJson} (config : DaemonConfig).

Lemma mark_active_run vm d :
  mark_active vm d = (Ok tt, set_active (<[pv_id vm := vm]> (d_active d)) (wrap 64 (d_active_count d + 1)) d).
Proof. reflexivity. Qed.

(** How [acquire] goes on each branch. *)
Lemma acquire_run d :
  match vec_pop (d_ready d) with
  | Some (vm, rest) =>
      acquire config d = (Ok vm, set_active (<[pv_id vm := vm]> (d_active d)) (wrap 64 (d_active_count d + 1)) (set_ready rest d))
  | None => exists t r, restore_one config d = (r, set_d_trace (d_trace d ++ t) (bump d)) /\
      let d1 := set_d_trace (d_trace d ++ t) (bump d) in
      match r with
      | Ok vm => made_vm config (pool_vm_id process_id (d_next_cid d)) (d_next_cid d) vm /\
          acquire config d = (Ok vm, set_active (<[pv_id vm := vm]> (d_active d)) (wrap 64 (d_active_count d + 1)) d1)
      | Err e => acquire config d = (Err e, d1)
      | _ => False
      end
  end.
Proof.
  unfold acquire. destruct (vec_pop (d_ready d)) as [ [vm rest]|]; [done|].
  destruct (restore_one_run config d) as (t & r & E & Hr). exists t, r. split; [done|].
  unfold mbind, M_bind. rewrite E. destruct r; try done.
Qed.

Lemma wf_acquire d : pool_wf d -> d_next_cid d < 2 ^ 64 - 1 ->
  pool_wf (acquire config d).2 /\ d_next_cid (acquire config d).2 <= d_next_cid d + 1.
Proof.
  intros Hd Hn. pose proof (acquire_run d) as Hr. pose proof (wf_low _ Hd).
  assert (Hw : wrap 64 (d_next_cid d + 1) = d_next_cid d + 1) by (apply wrap_small; unfold in_range; lia).
  destruct (vec_pop (d_ready d)) as [ [vm rest]|] eqn:Ep.
  - rewrite Hr. cbn. split; [|lia].
    destruct (wf_pop d vm rest Hd (vec_pop_Some _ _ _ Ep)) as [Hd' Hf]. exact (wf_mark _ vm Hd' Hf).
  - destruct Hr as (t & r & E & Hr). cbv zeta in Hr. destruct r as [vm|e| |]; try done.
    + destruct Hr as [Hm Hr]. rewrite Hr. cbn. rewrite Hw. split; [|lia].
      apply (wf_mark (set_d_trace (d_trace d ++ t) (bump d)) vm).
      * by apply wf_trace, wf_bump.
      * pose proof (fresh_made config d vm Hd Hn Hm) as []. by constructor.
    + rewrite Hr. cbn. rewrite Hw. split; [|lia]. by apply wf_trace, wf_bump.
Qed.

Lemma wf_release v d : pool_wf d ->
  pool_wf (release config v d).2 /\ d_next_cid (release config v d).2 = d_next_cid d.
Proof. intros Hd. destruct (release_run config v d) as [t ->]. cbn. split; [by apply wf_trace, wf_released|done]. Qed.

Lemma replenish_run d :
  (replenish_one config d = (Ok tt, d) /\ pool_size config <= Z.of_nat (length (d_ready d))) \/
  Z.of_nat (length (d_ready d)) < pool_size config /\
  exists t, let d1 := set_d_trace (d_trace d ++ t) (bump d) in
    replenish_one config d = (Ok tt, d1) \/
    exists vm, made_vm config (pool_vm_id process_id (d_next_cid d)) (d_next_cid d) vm /\
      replenish_one config d = (Ok tt, set_ready (d_ready d ++ [vm]) d1).
Proof.
  unfold replenish_one. unfold mbind, M_bind, gets.
  destruct (Z.leb_spec (pool_size config) (Z.of_nat (length (d_ready d)))); [by left|right].
  split; [done|]. destruct (restore_one_run config d) as (t & r & E & Hr). exists t. cbv zeta.
  unfold attempt. rewrite E. destruct r as [vm| | |]; [right|by left|done..]. by exists vm.
Qed.

Lemma wf_replenish d : pool_wf d -> d_next_cid d < 2 ^ 64 - 1 ->
  pool_wf (replenish_one config d).2 /\ d_next_cid (replenish_one config d).2 <= d_next_cid d + 1.
Proof.
  intros Hd Hn. pose proof (wf_low _ Hd).
  assert (Hw : wrap 64 (d_next_cid d + 1) = d_next_cid d + 1) by (apply wrap_small; unfold in_range; lia).
  destruct (replenish_run d) as [ [-> _]|[_ [t [->|(vm & Hm & ->)] ] ] ]; cbn; rewrite ?Hw; (split; [|lia]).
  - done.
  - by apply wf_trace, wf_bump.
  - apply (wf_push (set_d_trace (d_trace d ++ t) (bump d)) vm).
    + by apply wf_trace, wf_bump.
    + pose proof (fresh_made config d vm Hd Hn Hm) as []. by constructor.
    + destruct Hm as (-> & -> & _). done.
Qed.

(** Acquiring while the pool holds a VM is immediate: the VM restored last
    is handed out without a single call to the hypervisor, the file system or the
    agent, and moves from the ready list to the active map under its own name,
    where [get_active] finds it. *)
Theorem acquire_hit d vm rest :
  d_ready d = rest ++ [vm] ->
  exists d', acquire config d = (Ok vm, d') /\ d_trace d' = d_trace d /\ d_ready d' = rest /\
    d_active d' = <[pv_id vm := vm]> (d_active d) /\
    get_active (pv_id vm) d' = (Ok (Some vm), d').
Proof.
  intros Er. pose proof (acquire_run d) as Hr. rewrite Er, vec_pop_snoc in Hr.
  eexists. split; [exact Hr|]. split_and!; try done.
  unfold get_active, gets. cbn. by rewrite lookup_insert_eq.
Qed.

(** C27: with the pool empty, acquiring restores one VM on the spot, whose CID
    is the counter's value and was no live VM's; if that fails the error is
    reported and no VM is added or lost. *)
Theorem acquire_miss d :
  pool_wf d -> d_next_cid d < 2 ^ 64 - 1 -> d_ready d = [] ->
  match acquire config d with
  | (Ok vm, d') =>
      pv_cid vm = d_next_cid d /\ d_next_cid d' = d_next_cid d + 1 /\ d_ready d' = [] /\
      d_active d' = <[pv_id vm := vm]> (d_active d) /\ d_active d !! pv_id vm = None /\
      (forall k vm', d_active d !! k = Some vm' -> pv_cid vm' <> pv_cid vm)
  | (Err _, d') => d_active d' = d_active d /\ d_ready d' = [] /\ d_active_count d' = d_active_count d
  | _ => False
  end.
Proof.
  intros Hd Hn Er. pose proof (acquire_run d) as Hr. rewrite Er in Hr. cbn in Hr.
  destruct Hr as (t & r & E & Hr). destruct r as [vm|e| |]; try done.
  - destruct Hr as [Hm Hr]. rewrite Hr. pose proof (fresh_made config d vm Hd Hn Hm) as [].
    destruct Hm as (_ & Hc & _). pose proof (wf_low _ Hd). cbn. rewrite wrap_small by (unfold in_range; lia).
    split_and!; try done.
  - by rewrite Hr.
Qed.

(** A background replenishment never takes the ready list beyond
    [pool_size], adds at most one VM, and leaves the VMs in use alone. *)
Theorem replenish_within_size d :
  Z.of_nat (length (d_ready d)) <= pool_size config ->
  let d' := (replenish_one config d).2 in
  Z.of_nat (length (d_ready d)) <= Z.of_nat (length (d_ready d')) <= pool_size config /\
  d_ready d `prefix_of` d_ready d' /\ (length (d_ready d') <= S (length (d_ready d)))%nat /\
  d_active d' = d_active d.
Proof.
  intros Hs d'. subst d'.
  destruct (replenish_run d) as [ [-> _]|[Hlt [t [->|(vm & Hm & ->)] ] ] ]; cbn; rewrite ?length_app; cbn.
  - split_and!; try done; lia.
  - split_and!; try done; lia.
  - split_and!; [lia|lia|by apply prefix_app_r|lia|done].
Qed.

Lemma remove_dir_run dir d :
  ignore (remove_dir_all dir) d = (Ok tt, set_d_trace (d_trace d ++ [RemoveDirAll dir]) d).
Proof.
  unfold ignore, remove_dir_all, attempt, mbind, M_bind. rewrite sys_run. unfold lift.
  by destruct (env (trace d) (RemoveDirAll dir)).
Qed.

Lemma shutdown_last a pid dir (d : daemon) :
  last (d_trace (shutdown_and_destroy a pid dir d).2) = Some (RemoveDirAll dir).
Proof.
  destruct (shutdown_run a pid dir d) as (k & tail & E & _ & Hor). rewrite E. cbn.
  assert (exists l, tail = l ++ [RemoveDirAll dir]) as [l ->].
  { destruct Hor as [ (_ & _ & ->)|[_ ->] ]; [by exists [Exists ("/proc/" +:+ pretty pid)]|].
    by exists [SendSignal (swrap 32 pid) SIGKILL; Sleep 10]. }
  rewrite app_comm_cons, !app_assoc. apply last_snoc.
Qed.

(** What [destroy_from] leaves: if it shut the VM down, the directory went last;
    if the directory lists [ch.pid] and it reads as the number of a process, it did
    shut that process down. *)
Lemma destroy_from_run es dir a d :
  exists b t, destroy_from es dir a d = (Ok b, set_d_trace (d_trace d ++ t) d) /\
    (b = true -> last (d_trace d ++ t) = Some (RemoveDirAll dir)) /\
    (forall txt pid, "ch.pid" ∈ es ->
       (forall h, env h (ReadToString (path_join dir "ch.pid")) = inr txt) ->
       parse_uint 32 (trim txt) = Some pid -> b = true /\ SendSignal (swrap 32 pid) SIGTERM ∈ t).
Proof.
  revert d. induction es as [|name es IH]; intros d.
  - exists false, []. cbn. rewrite app_nil_r. destruct d. split_and!; [done..|set_solver].
  - cbn [destroy_from]. destruct (String.eqb_spec name "ch.pid") as [->|Hne].
    + unfold mbind, M_bind, attempt at 1, read_to_string, mbind, M_bind. rewrite sys_run. unfold lift.
      destruct (env (trace d) (ReadToString (path_join dir "ch.pid"))) as [e|s] eqn:Er; cbn [io_res].
      * destruct (IH (set_trace (trace d ++ [ReadToString (path_join dir "ch.pid")]) d)) as (b & t & E & Hl & Hs).
        rewrite E. exists b, (ReadToString (path_join dir "ch.pid") :: t). cbn in *. rewrite <- app_assoc in *.
        split_and!; [done|done|]. intros txt pid _ Hread. by rewrite Hread in Er.
      * destruct (parse_uint 32 (trim s)) as [pid|] eqn:Ep.
        -- destruct (shutdown_run a pid dir (set_trace (trace d ++ [ReadToString (path_join dir "ch.pid")]) d))
             as (k & tail & E & _).
           pose proof (shutdown_last a pid dir (set_trace (trace d ++ [ReadToString (path_join dir "ch.pid")]) d)) as Hl.
           cbv zeta in E. rewrite E in *. cbn in Hl |- *. rewrite <- app_assoc in *. cbn [app] in *.
           eexists true, _. split_and!; [done|done|].
           intros txt pid' _ Hread Hp. rewrite Hread in Er. injection Er as ->. rewrite Ep in Hp.
           injection Hp as <-. split; [done|]. by right; left.
        -- destruct (IH (set_trace (trace d ++ [ReadToString (path_join dir "ch.pid")]) d)) as (b & t & E & Hl & Hs).
           rewrite E. exists b, (ReadToString (path_join dir "ch.pid") :: t). cbn in *. rewrite <- app_assoc in *.
           split_and!; [done|done|]. intros txt pid _ Hread Hp. rewrite Hread in Er. injection Er as ->. by rewrite Ep in Hp.
    + destruct (IH d) as (b & t & E & Hl & Hs). exists b, t. split_and!; [done|done|].
      intros txt pid [?|?]%elem_of_cons; [congruence|]. by apply Hs.
Qed.

Lemma destroy_vm_run v d :
  let dir := path_join (state_dir config) v in
  exists t, destroy_vm config v d = (Ok tt, set_d_trace (d_trace d ++ t) d) /\
    last (d_trace d ++ t) = Some (RemoveDirAll dir) /\
    (forall es txt pid, env (d_trace d) (ReadDir dir) = inr es -> "ch.pid" ∈ es ->
       (forall h, env h (ReadToString (path_join dir "ch.pid")) = inr txt) ->
       parse_uint 32 (trim txt) = Some pid -> SendSignal (swrap 32 pid) SIGTERM ∈ t).
Proof.
  intros dir. unfold destroy_vm. fold dir. unfold mbind, M_bind. rewrite sys_run.
  set (d1 := set_trace _ d). destruct (env (trace d) (ReadDir dir)) as [e|es] eqn:Er.
  - unfold mret, M_ret. rewrite remove_dir_run. exists [ReadDir dir; RemoveDirAll dir]. cbn. rewrite <- app_assoc.
    split_and!; [done|by rewrite last_app|]. intros es txt pid. cbn in Er. by rewrite Er.
  - destruct (destroy_from_run es dir (path_join dir "api.sock") d1) as (b & t & E & Hl & Hs). rewrite E.
    cbn in Hl, Hs, E |- *. destruct b.
    + exists (ReadDir dir :: t). unfold mret, M_ret. cbn. rewrite <- app_assoc in *. cbn [app] in *.
      split_and!; [done|by apply Hl|]. intros es' txt pid Er' Hin Hread Hp. cbn in Er. rewrite Er in Er'.
      injection Er' as <-. right. by apply (Hs txt pid Hin Hread Hp).
    + rewrite remove_dir_run. cbn. exists (ReadDir dir :: t ++ [RemoveDirAll dir]).
      rewrite <- !app_assoc. cbn [app]. split_and!.
      * done.
      * by rewrite last_app, app_comm_cons, last_snoc.
      * intros es' txt pid Er' Hin Hread Hp. cbn in Er. rewrite Er in Er'. injection Er' as <-.
        by destruct (Hs txt pid Hin Hread Hp).
Qed.

(** C26: releasing a VM always succeeds, also for a name the pool never heard
    of; the VM leaves the active map and the count, every other VM stays, and the
    last thing done is the removal of its state directory. Releasing it again changes
    neither the map nor the count. *)
Theorem release_spec v d :
  pool_wf d ->
  exists d', release config v d = (Ok tt, d') /\
    d_active d' = delete v (d_active d) /\ d_ready d' = d_ready d /\
    d_active_count d' = Z.of_nat (size (d_active d')) /\
    last (d_trace d') = Some (RemoveDirAll (path_join (state_dir config) v)) /\
    (let d'' := (release config v d').2 in
     d_active d'' = d_active d' /\ d_active_count d'' = d_active_count d').
Proof.
  intros Hd. pose proof (wf_released d v Hd) as Hd'.
  unfold release, mbind, M_bind, modify. fold (released v d).
  destruct (destroy_vm_run v (released v d)) as (t & E & Hl & _). rewrite E.
  eexists. split; [done|]. split_and!; try done.
  1: apply (wf_count _ Hd').
  all: set (d1 := set_d_trace _ (released v d)); fold (released v d1);
    destruct (destroy_vm_run v (released v d1)) as (t' & E' & _ & _); rewrite E';
    subst d1; unfold released; cbn; by rewrite ?lookup_delete_eq, ?delete_delete_eq.
Qed.

Lemma parse_pid pid : 0 <= pid < 2 ^ 31 -> parse_uint 32 (trim (pretty pid)) = Some pid.
Proof.
  intros Hp. rewrite trim_plain.
  - apply parse_pretty. unfold in_range. lia.
  - eapply Forall_impl; [apply pretty_bytes; lia|]. intros b [? ?]. unfold no_ws_byte. lia.
Qed.

(** Releasing a VM whose state directory holds the [ch.pid] that
    [spawn_ch] wrote signals exactly that hypervisor process: what is printed there is
    parsed back. *)
Theorem release_signals_hypervisor v d pid es :
  let dir := path_join (state_dir config) v in
  0 <= pid < 2 ^ 31 ->
  env (d_trace d) (ReadDir dir) = inr es -> "ch.pid" ∈ es ->
  (forall h, env h (ReadToString (path_join dir "ch.pid")) = inr (pretty pid)) ->
  exists t, d_trace (release config v d).2 = d_trace d ++ t /\ SendSignal pid SIGTERM ∈ t.
Proof.
  intros dir Hp Hes Hin Hread. unfold release, mbind, M_bind, modify. fold (released v d).
  destruct (destroy_vm_run v (released v d)) as (t & E & _ & Hs). rewrite E.
  exists t. split; [done|]. rewrite <- (swrap_small 32 pid) by lia.
  by apply (Hs es (pretty pid) pid Hes Hin Hread), parse_pid.
Qed.

(** Calls that stop a process or remove what was set up. *)
Definition cleans_up (c : call) : bool :=
  match c with SendSignal _ _ | RemoveDirAll _ | RemoveFile _ => true | _ => false end.

Lemma emits_restore_named v c : emits (fun c => cleans_up c = false) (restore_named config v c).
Proof.
  unfold restore_named, prepare_snapshot, link_from_base, link_or_copy, spawn_ch, wait_ch_ready,
    restore_vm, resume_vm, api_request, wait_for_agent, create_dir_all, create_file, write_file, read_to_string.
  assert (Hready : forall n s, emits (W := daemon) (fun c => cleans_up c = false) (wait_ch_ready_go n s)).
  { induction n; intros s; cbn [wait_ch_ready_go]; unfold exists_path; emit_solve ltac:(done). }
  assert (Hagent : forall n s, emits (W := daemon) (fun c => cleans_up c = false) (wait_for_agent_go n s)).
  { induction n; intros s; cbn [wait_for_agent_go]; unfold exists_path, try_agent_health; emit_solve ltac:(done). }
  emit_solve ltac:(done).
Qed.

(** A restore that fails part-way undoes nothing: the hypervisor process it
    spawned is not signalled, the state directory is not removed, and since the VM
    is in neither list no later operation of the pool will do it. *)
Theorem failed_restore_leaks d e d' :
  restore_one config d = (Err e, d') ->
  exists t, d_trace d' = d_trace d ++ t /\ Forall (fun c => cleans_up c = false) t /\
    d_ready d' = d_ready d /\ d_active d' = d_active d.
Proof.
  intros Hr. destruct (restore_one_run config d) as (t0 & r & E & _).
  unfold restore_one, mbind, M_bind, gets, next_cid in Hr, E. fold (bump d) in Hr, E.
  destruct (emits_restore_named (pool_vm_id process_id (d_next_cid d)) (d_next_cid d) (bump d)) as (t & Ht & HF).
  rewrite Hr in Ht. rewrite Hr in E. injection E as <- ->. exists t. done.
Qed.

Lemma fill_run n d :
  (length (d_ready (fill config n d).2) <= length (d_ready d) + n)%nat /\
  is_Ok (fill config n d).1 = true /\
  ((forall d, is_Ok (restore_one config d).1 = true) ->
   length (d_ready (fill config n d).2) = (length (d_ready d) + n)%nat).
Proof.
  revert d. induction n as [|n IH]; intros d; cbn [fill].
  - split_and!; cbn; [lia|done|intros; lia].
  - unfold mbind, M_bind, attempt. destruct (restore_one_run config d) as (t & r & E & Hr). rewrite E.
    destruct r as [vm|e| |]; try done; cbn [push_ready modify mret M_ret].
    + specialize (IH (set_ready (d_ready (set_d_trace (d_trace d ++ t) (bump d)) ++ [vm])
        (set_d_trace (d_trace d ++ t) (bump d)))). unfold push_ready, modify. cbn in IH |- *.
      rewrite length_app in IH. cbn in IH. destruct IH as (H1 & H2 & H3).
      split_and!; [lia|done|]. intros Hok. rewrite H3 by done. lia.
    + specialize (IH (set_d_trace (d_trace d ++ t) (bump d))). cbn in IH |- *. destruct IH as (H1 & H2 & H3).
      split_and!; [lia|done|]. intros Hok. specialize (Hok d). by rewrite E in Hok.
Qed.

Lemma wf_fill n d : pool_wf d -> d_next_cid d + Z.of_nat n < 2 ^ 64 -> pool_wf (fill config n d).2.
Proof.
  revert d. induction n as [|n IH]; intros d Hd Hn; [done|]. cbn [fill].
  unfold mbind, M_bind, attempt. destruct (restore_one_run config d) as (t & r & E & Hr). rewrite E.
  pose proof (wf_low _ Hd). assert (Hn' : d_next_cid d < 2 ^ 64 - 1) by lia.
  assert (Hw : wrap 64 (d_next_cid d + 1) = d_next_cid d + 1) by (apply wrap_small; unfold in_range; lia).
  destruct r as [vm|e| |]; try done; cbn [push_ready modify mret M_ret]; unfold push_ready, modify; apply IH.
  - apply wf_push; [by apply wf_trace, wf_bump| |by destruct Hr as (-> & -> & _)].
    pose proof (fresh_made config d vm Hd Hn' Hr) as []. by constructor.
  - cbn. rewrite Hw. lia.
  - by apply wf_trace, wf_bump.
  - cbn. rewrite Hw. lia.
Qed.

Lemma base_valid_run b d : exists v t, base_snapshot_valid b d = (Ok v, set_d_trace (d_trace d ++ t) d).
Proof.
  refine (infallible_run (base_snapshot_valid b) d _ _); unfold base_snapshot_valid; io_solve.
Qed.

Lemma create_base_run b d :
  exists t r d1, create_base_snapshot config b d = (r, set_d_trace t d1) /\
    (d1 = d \/ d1 = bump d) /\ returns r = true.
Proof.
  unfold create_base_snapshot. unfold mbind, M_bind at 1.
  destruct (io_only_create_dir_all b d) as [t0 E0]. pose proof (no_panic_create_dir_all b d) as N0.
  destruct (create_dir_all b d) as [r0 d0]. cbn in E0, N0. subst d0.
  destruct r0 as [u|e| |]; try done; [|by exists (d_trace d ++ t0), (Err e), d; split_and!; [done|by left|done] ].
  match goal with |- context [@M_bind _ _ _ ?f next_cid _] => set (rest := f) end.
  assert (Hi : forall c, io_only (rest c)) by (intros c; unfold rest, pause_vm, snapshot_vm; io_solve).
  assert (Hn : forall c, no_panic (rest c)) by (intros c; unfold rest, pause_vm, snapshot_vm; io_solve).
  unfold M_bind, next_cid. set (d1 := set_next_cid _ _). set (c := d_next_cid _).
  destruct (Hi c d1) as [t E]. specialize (Hn c d1). destruct (rest c d1) as [r d2]. cbn in E, Hn. subst d2.
  exists (d_trace d1 ++ t), r, (bump d). split_and!; [done|by right|done].
Qed.

Lemma wf_new s : pool_wf (pool_new s).
Proof.
  constructor; cbn; try done; try apply NoDup_nil_2;
    first [by intros * ?%elem_of_nil|by intros * ?%lookup_empty_Some].
Qed.

(** Starting the daemon with an empty pool: if the base snapshot is there
    or can be made, the pool is filled with at most [pool_size] VMs, exactly that
    many when every restore succeeds, and the invariant holds; otherwise
    initialization fails and the pool stays empty. *)
Theorem initialize_fills s t0 :
  0 <= pool_size config < 2 ^ 64 - 5 ->
  match initialize config (set_d_trace t0 (pool_new s)) with
  | (Ok _, d') => pool_wf d' /\ Z.of_nat (length (d_ready d')) <= pool_size config /\
      ((forall d, is_Ok (restore_one config d).1 = true) ->
       Z.of_nat (length (d_ready d')) = pool_size config)
  | (Err _, d') => d_ready d' = [] /\ d_active d' = ∅
  | _ => False
  end.
Proof.
  intros Hp. set (d := set_d_trace t0 (pool_new s)).
  assert (Hwf : pool_wf d) by apply wf_trace, wf_new.
  unfold initialize. unfold mbind, M_bind at 1.
  destruct (base_valid_run (base_snapshot_dir config) d) as (v & t & ->). set (d1 := set_d_trace _ d).
  assert (Hbase : exists r d2, (if v then mret tt else create_base_snapshot config (base_snapshot_dir config)) d1
     = (r, d2) /\ returns r = true /\ pool_wf d2 /\ d_ready d2 = [] /\ d_active d2 = ∅ /\ d_next_cid d2 <= 4).
  { destruct v; [by exists (Ok tt), d1; split_and!; try done; apply wf_trace|].
    destruct (create_base_run (base_snapshot_dir config) d1) as (t' & r & d2 & E & Hor & Hr).
    exists r, (set_d_trace t' d2). split_and!; [done|done| | | |]; destruct Hor as [-> | ->]; try done.
    - by apply wf_trace, wf_trace.
    - by apply wf_trace, wf_bump; [apply wf_trace|]. }
  destruct Hbase as (r & d2 & E & Hr & Hd2 & Hr2 & Ha2 & Hc2).
  unfold mbind, M_bind. rewrite E. destruct r as [u|e| |]; try done.
  destruct (fill_run (Z.to_nat (pool_size config)) d2) as (Hle & Hok & Hfull).
  pose proof (wf_fill (Z.to_nat (pool_size config)) d2 Hd2 ltac:(lia)) as Hf.
  destruct (fill config (Z.to_nat (pool_size config)) d2) as [rf df]. cbn in *.
  destruct rf; try done. rewrite Hr2 in *. cbn in *. split_and!; [done|lia|].
  intros Hall. rewrite Hfull by done. lia.
Qed.
End PoolProps.

(** ** Witnesses *)

Definition sample_sock0 : sock := mkSock 1 [] [] [] [].
Definition sample_cfg : DaemonConfig :=
  mkDaemonConfig 2 10 100 300 1 512 "/bin/ch" "/k" "/r" "console=ttyS0" "/run/d.sock" "/st" 30 2.

(** The base snapshot is on disk, sockets come up, processes go away. *)
Definition sample_files (p : string) : option string :=
  if String.eqb p "/st/base-snapshot/config.json" then Some (lit_print sample_config)
  else if String.eqb p "/st/pool-1000-3/ch.pid" then Some "4242" else None.
Definition sample_up (p : string) : bool := negb (starts_with p "/proc/").
Definition sample_env : Env := calm_env sample_files sample_up.
Definition sample_vm : PoolVm := mkPoolVm "pool-1000-3" "/st/pool-1000-3/api.sock" "/st/pool-1000-3/vsock.sock" 3 4242 1.
Definition sample_pool : daemon := set_ready [sample_vm] (set_next_cid 4 (pool_new sample_sock0)).

Lemma acquire_hit_witness :
  (@acquire sample_env bit_json sample_cfg sample_pool).1 = Ok sample_vm.
Proof.
  destruct (@acquire_hit sample_env bit_json sample_cfg sample_pool sample_vm [] eq_refl) as (d' & E & _).
  rewrite E. reflexivity.
Defined.

Lemma acquire_miss_witness :
  exists vm, (@acquire sample_env bit_json sample_cfg (pool_new sample_sock0)).1 = Ok vm /\ pv_cid vm = 3.
Proof.
  pose proof (@acquire_miss sample_env bit_json sample_cfg (pool_new sample_sock0)
    (@wf_new sample_env sample_sock0) ltac:(done) eq_refl) as Hm.
  destruct (@acquire sample_env bit_json sample_cfg (pool_new sample_sock0)) as [r d'] eqn:E.
  assert (Er : r = (@acquire sample_env bit_json sample_cfg (pool_new sample_sock0)).1) by (by rewrite E).
  vm_compute in Er. subst r. eexists. split; [reflexivity|]. apply Hm.
Defined.

Lemma replenish_within_size_witness :
  Z.of_nat (length (d_ready (@replenish_one sample_env bit_json sample_cfg sample_pool).2)) <= 2.
Proof. apply (@replenish_within_size sample_env bit_json sample_cfg sample_pool). cbn. lia. Defined.

Lemma release_spec_witness :
  last (d_trace (@release sample_env sample_cfg "pool-1000-3" (pool_new sample_sock0)).2)
    = Some (RemoveDirAll "/st/pool-1000-3").
Proof.
  destruct (@release_spec sample_env sample_cfg "pool-1000-3" (pool_new sample_sock0) (@wf_new sample_env sample_sock0))
    as (d' & E & _ & _ & _ & Hl & _). rewrite E. exact Hl.
Defined.

(** The directory lists its [ch.pid]. *)
Definition listing_env : Env :=
  Build_Env (fun _ c => match c return ans c with
    | ReadDir p => inr ["ch.pid"; "api.sock"]
    | c => calm sample_files sample_up c end) 1000.

Lemma release_signals_hypervisor_witness :
  exists t, d_trace (@release listing_env sample_cfg "pool-1000-3" sample_pool).2 = t /\ SendSignal 4242 SIGTERM ∈ t.
Proof.
  destruct (@release_signals_hypervisor listing_env sample_cfg "pool-1000-3" sample_pool 4242 ["ch.pid"; "api.sock"])
    as (t & E & Hin); [lia|reflexivity|left|reflexivity|].
  exists ([] ++ t). split; [exact E|exact Hin].
Defined.

(** An agent that never answers: no round of the wait begins. *)
Definition dead_agent_env : Env :=
  Build_Env (fun _ c => match c return ans c with
    | RoundsBefore ms => if ms =? 30000 then O else 3%nat
    | c => calm sample_files sample_up c end) 1000.

Lemma failed_restore_leaks_witness :
  exists e d' t, @restore_one dead_agent_env bit_json sample_cfg (pool_new sample_sock0) = (Err e, d') /\
    d_trace d' = t /\ Spawn "/bin/ch" ["--api-socket"; "/st/pool-1000-3/api.sock"] ∈ t /\
    Forall (fun c => cleans_up c = false) t.
Proof.
  eexists _, _, _. split; [|split; [reflexivity|] ].
  - vm_compute. reflexivity.
  - match goal with |- _ /\ Forall _ (d_trace ?d') =>
      destruct (@failed_restore_leaks dead_agent_env bit_json sample_cfg (pool_new sample_sock0) 
        (Ctx "agent connect after restore" (Msg "agent not responding on vsock: /st/pool-1000-3/vsock.sock")) d')
        as (t & Et & HF & _) end.
    + vm_compute. reflexivity.
    + cbn in Et |- *. split; [|rewrite Et; exact HF].
      repeat first [left; reflexivity|right].
Defined.
