(* ===== verification/PoolConc.v ===== *)
(** * The pool under concurrency ([crates/daemon/src/pool.rs])

    Every request and every background replenishment is a task of its own, and
    a task can be overtaken at each lock and at each atomic access. Here the pool's
    operations are threads with a program counter that move one such access at a
    time, in any order; restoring a VM, which touches no shared state, is one step
    that succeeds or fails. *)

From S2P Require Import Prelude RustStr NetAddr Sys Pool.
From Stdlib Require String.
Local Open Scope Z_scope.

(** A VM, as far as the pool's bookkeeping goes. *)
Record cvm := mkCvm { cv_id : string; cv_cid : Z }.

Inductive pc :=
(* acquire *)
| AcqPop                          (* self.ready.lock().await.pop() *)
| AcqLoad                         (* restore_one: next_cid.load *)
| AcqFetch (id : string)          (* restore_one: next_cid.fetch_add *)
| AcqRestore (vm : cvm)           (* restore_one: the rest *)
| AcqCount (vm : cvm)             (* active_count.fetch_add *)
| AcqInsert (vm : cvm)            (* active.lock().await.insert *)
(* replenish_one *)
| RepLen                          (* ready.lock().await.len() *)
| RepLoad
| RepFetch (id : string)
| RepRestore (vm : cvm)
| RepPush (vm : cvm)              (* ready.lock().await.push *)
(* release *)
| RelRemove (id : string)         (* active.lock().await.remove *)
| RelCount.                       (* active_count.fetch_sub *)

Record cpool := mkCpool {
  c_ready : list cvm;
  c_active : gmap string cvm;
  c_count : Z;
  c_next : Z;
  c_threads : list pc }.

Section Conc.
Context (pid pool_size : Z).

Definition c_init : cpool := mkCpool [] ∅ 0 3 [].

(** A thread's access: the thread's next state (none when it is done) and the
    shared state after it. The CID counter is taken not to wrap around. *)
Inductive access : pc -> list cvm -> gmap string cvm -> Z -> Z ->
                   option pc -> list cvm -> gmap string cvm -> Z -> Z -> Prop :=
| acc_pop_some vm r rest a n c : vec_pop r = Some (vm, rest) ->
    access AcqPop r a n c (Some (AcqCount vm)) rest a n c
| acc_pop_none r a n c : vec_pop r = None -> access AcqPop r a n c (Some AcqLoad) r a n c
| acc_load r a n c : access AcqLoad r a n c (Some (AcqFetch (pool_vm_id pid c))) r a n c
| acc_fetch id r a n c : c + 1 < 2 ^ 64 ->
    access (AcqFetch id) r a n c (Some (AcqRestore (mkCvm id c))) r a n (c + 1)
| acc_restore_ok vm r a n c : access (AcqRestore vm) r a n c (Some (AcqCount vm)) r a n c
| acc_restore_err vm r a n c : access (AcqRestore vm) r a n c None r a n c
| acc_count vm r a n c : access (AcqCount vm) r a n c (Some (AcqInsert vm)) r a (n + 1) c
| acc_insert vm r a n c : access (AcqInsert vm) r a n c None r (<[cv_id vm := vm]> a) n c
| rep_full r a n c : pool_size <= Z.of_nat (length r) -> access RepLen r a n c None r a n c
| rep_room r a n c : Z.of_nat (length r) < pool_size -> access RepLen r a n c (Some RepLoad) r a n c
| rep_load r a n c : access RepLoad r a n c (Some (RepFetch (pool_vm_id pid c))) r a n c
| rep_fetch id r a n c : c + 1 < 2 ^ 64 ->
    access (RepFetch id) r a n c (Some (RepRestore (mkCvm id c))) r a n (c + 1)
| rep_restore_ok vm r a n c : access (RepRestore vm) r a n c (Some (RepPush vm)) r a n c
| rep_restore_err vm r a n c : access (RepRestore vm) r a n c None r a n c
| rep_push vm r a n c : access (RepPush vm) r a n c None (r ++ [vm]) a n c
| rel_hit id vm r a n c : a !! id = Some vm ->
    access (RelRemove id) r a n c (Some RelCount) r (delete id a) n c
| rel_miss id r a n c : a !! id = None -> access (RelRemove id) r a n c None r a n c
| rel_count r a n c : access RelCount r a n c None r a (n - 1) c.

(** The first access of an operation. *)
Inductive entry : pc -> Prop :=
| ent_acquire : entry AcqPop
| ent_replenish : entry RepLen
| ent_release id : entry (RelRemove id).

Inductive cstep : cpool -> cpool -> Prop :=
| st_start p r a n c ts : entry p -> cstep (mkCpool r a n c ts) (mkCpool r a n c (ts ++ [p]))
| st_access l p l' r a n c p' r' a' n' c' :
    access p r a n c p' r' a' n' c' ->
    cstep (mkCpool r a n c (l ++ p :: l')) (mkCpool r' a' n' c' (l ++ option_list p' ++ l')).

Definition c_reachable : cpool -> Prop := reachable (fun s => s = c_init) cstep.

(** ** CIDs are never shared *)

Definition thread_vm (p : pc) : option cvm :=
  match p with
  | AcqRestore vm | AcqCount vm | AcqInsert vm | RepRestore vm | RepPush vm => Some vm
  | _ => None
  end.

Definition held (ts : list pc) : list Z := map cv_cid (omap thread_vm ts).
Definition act_cids (a : gmap string cvm) : list Z := map (fun kv => cv_cid kv.2) (map_to_list a).

(** The CIDs of all VMs there are: ready, active, or in a task's hands. *)
Definition live_cids (s : cpool) : list Z :=
  map cv_cid (c_ready s) ++ act_cids (c_active s) ++ held (c_threads s).

Definition cids_inv (s : cpool) : Prop :=
  NoDup (live_cids s) /\ Forall (fun c => 3 <= c < c_next s) (live_cids s) /\ 3 <= c_next s.

Lemma held_app l l' : held (l ++ l') = held l ++ held l'.
Proof. unfold held. by rewrite omap_app, map_app. Qed.

Lemma act_cids_delete id a : act_cids (delete id a) ⊆+ act_cids a.
Proof.
  unfold act_cids. destruct (a !! id) as [vm|] eqn:E; [|by rewrite delete_id].
  rewrite <- (map_to_list_delete a id vm E). cbn. by apply submseteq_cons.
Qed.

Lemma act_cids_insert id vm a : act_cids (<[id := vm]> a) ⊆+ cv_cid vm :: act_cids a.
Proof.
  rewrite <- insert_delete_eq. unfold act_cids at 1.
  rewrite map_to_list_insert by apply lookup_delete_eq. cbn. apply submseteq_skip, act_cids_delete.
Qed.

(** Shrinking or reordering the live VMs keeps the invariant. *)
Lemma cids_inv_shrink l l' c : l' ⊆+ l -> NoDup l -> Forall (fun x => 3 <= x < c) l ->
  NoDup l' /\ Forall (fun x => 3 <= x < c) l'.
Proof.
  intros [k Hk]%submseteq_Permutation HN HF. rewrite Hk in HN, HF.
  apply NoDup_app in HN as [HN _]. apply Forall_app in HF as [HF _]. done.
Qed.

Definition pc_cids (p : option pc) : list Z := held (option_list p).

Lemma held_thread l p l' : held (l ++ p :: l') = held l ++ pc_cids (Some p) ++ held l'.
Proof. rewrite held_app. f_equal. exact (held_app [p] l'). Qed.

(** One access neither invents nor duplicates a VM, except that a fetch of the
    counter brings one VM with the counter's old value. *)
Lemma access_cids p r a n c p' r' a' n' c' :
  access p r a n c p' r' a' n' c' ->
  (c' = c /\ map cv_cid r' ++ act_cids a' ++ pc_cids p' ⊆+ map cv_cid r ++ act_cids a ++ pc_cids (Some p)) \/
  (c' = c + 1 /\ map cv_cid r' ++ act_cids a' ++ pc_cids p' ⊆+ c :: map cv_cid r ++ act_cids a ++ pc_cids (Some p)).
Proof.
  intros Ha. destruct Ha; cbn; rewrite ?app_nil_r.
  - left. split; [done|]. rewrite (vec_pop_Some _ _ _ H), map_app. cbn. solve_submseteq.
  - by left.
  - by left.
  - right. split; [done|]. solve_submseteq.
  - by left.
  - left. split; [done|]. solve_submseteq.
  - by left.
  - left. split; [done|]. rewrite (Permutation_app_comm (act_cids a)). apply submseteq_app; [done|].
    apply act_cids_insert.
  - by left.
  - by left.
  - by left.
  - right. split; [done|]. solve_submseteq.
  - by left.
  - left. split; [done|]. solve_submseteq.
  - left. split; [done|]. rewrite map_app. cbn. solve_submseteq.
  - left. split; [done|]. apply submseteq_app; [done|]. apply act_cids_delete.
  - by left.
  - by left.
Qed.

Lemma cstep_cids s s' : cids_inv s -> cstep s s' -> cids_inv s'.
Proof.
  intros (HN & HF & H3) Hs. destruct Hs as [p r a n c ts He|l p l' r a n c p' r' a' n' c' Ha].
  - unfold cids_inv, live_cids in *. cbn [c_ready c_active c_threads c_next] in *. rewrite held_app.
    assert (held [p] = []) as -> by (by destruct He). by rewrite app_nil_r.
  - unfold cids_inv, live_cids in *. cbn [c_ready c_active c_threads c_next] in *. rewrite held_thread in HN, HF.
    rewrite !held_app. fold (pc_cids p').
    assert (Hperm : forall (x y z u v : list Z), x ++ y ++ z ++ u ++ v ≡ₚ (x ++ y ++ u) ++ z ++ v)
      by (intros; solve_Permutation).
    rewrite Hperm in HN, HF.
    destruct (access_cids _ _ _ _ _ _ _ _ _ _ Ha) as [ [-> Hsub]|[-> Hsub] ].
    + destruct (cids_inv_shrink ((map cv_cid r ++ act_cids a ++ pc_cids (Some p)) ++ held l ++ held l')
        (map cv_cid r' ++ act_cids a' ++ held l ++ pc_cids p' ++ held l') c) as [HN' HF']; try done.
      rewrite Hperm. by apply submseteq_app.
    + destruct (cids_inv_shrink (c :: (map cv_cid r ++ act_cids a ++ pc_cids (Some p)) ++ held l ++ held l')
        (map cv_cid r' ++ act_cids a' ++ held l ++ pc_cids p' ++ held l') (c + 1)) as [HN' HF'].
      * rewrite Hperm, app_comm_cons. by apply submseteq_app.
      * constructor; [|done]. intros Hin. rewrite Forall_forall in HF. specialize (HF _ Hin). lia.
      * constructor; [lia|]. eapply Forall_impl; [exact HF|]. cbn. lia.
      * split_and!; [done|done|lia].
Qed.

(** However acquisitions, replenishments and releases interleave, no two
    VMs that exist at the same time (ready, in use, or being set up) have the same
    vsock CID. *)
Theorem cids_unique s : c_reachable s -> NoDup (live_cids s).
Proof.
  intros Hr. apply (reachable_inv (fun s => s = c_init) cstep cids_inv); [| |done].
  - intros ? ->. split_and!; cbn; [apply NoDup_nil_2|constructor|lia].
  - apply cstep_cids.
Qed.

(** ** The count of acquired VMs *)

Definition pending (p : pc) : Z :=
  match p with AcqInsert _ | RelCount => 1 | _ => 0 end.
Definition pendings (ts : list pc) : Z := foldr (fun p z => pending p + z) 0 ts.

Lemma pendings_app l l' : pendings (l ++ l') = pendings l + pendings l'.
Proof. unfold pendings. induction l as [|p l IH]; cbn in *; lia. Qed.

Lemma pendings_cons p l : pendings (p :: l) = pending p + pendings l.
Proof. reflexivity. Qed.

Definition count_inv (s : cpool) : Prop :=
  Z.of_nat (size (c_active s)) + pendings (c_threads s) <= c_count s.

Lemma size_insert_le {A} (m : gmap string A) k v : (size (<[k := v]> m) <= S (size m))%nat.
Proof. rewrite map_size_insert. destruct (m !! k); unfold id; lia. Qed.

Lemma cstep_count s s' : count_inv s -> cstep s s' -> count_inv s'.
Proof.
  unfold count_inv. intros Hi Hs. destruct Hs as [p r a n c ts He|l p l' r a n c p' r' a' n' c' Ha].
  - cbn [c_active c_threads c_count] in *. rewrite pendings_app.
    assert (pendings [p] = 0) as -> by (by destruct He). lia.
  - cbn [c_active c_threads c_count] in *. rewrite !pendings_app, pendings_cons in *.
    destruct Ha; unfold option_list; cbn [option_rect]; rewrite ?pendings_cons; cbn [pending] in *;
      change (pendings []) with 0; try lia.
    + pose proof (size_insert_le a (cv_id vm) vm). lia.
    + assert (size a <> 0)%nat.
      { intros Hz%map_size_empty_inv. subst. by rewrite lookup_empty in H. }
      rewrite map_size_delete_Some by eauto. lia.
Qed.

(** In every reachable state the count of acquired VMs is at least the
    number of VMs in the active map plus the tasks between its two updates, so with
    no operation under way it never under-counts. *)
Theorem active_count_bound s :
  c_reachable s -> Z.of_nat (size (c_active s)) + pendings (c_threads s) <= c_count s.
Proof.
  intros Hr. apply (reachable_inv (fun s => s = c_init) cstep count_inv); [| |done].
  - by intros ? ->.
  - apply cstep_count.
Qed.

(** ** Executions *)

Lemma run_start s p : c_reachable s -> entry p ->
  c_reachable (mkCpool (c_ready s) (c_active s) (c_count s) (c_next s) (c_threads s ++ [p])).
Proof. intros Hr He. destruct s. by eapply reach_step, st_start. Qed.

(** Let the [i]-th thread make its next access. *)
Lemma run_access i s p p' r' a' n' c' :
  c_reachable s -> c_threads s !! i = Some p ->
  access p (c_ready s) (c_active s) (c_count s) (c_next s) p' r' a' n' c' ->
  c_reachable (mkCpool r' a' n' c' (take i (c_threads s) ++ option_list p' ++ drop (S i) (c_threads s))).
Proof.
  intros Hr Hi Ha. destruct s as [r a n c ts]. cbn in *.
  eapply reach_step; [exact Hr|]. rewrite <- (take_drop_middle ts i p Hi) at 1. by apply st_access.
Qed.

Lemma c_init_reachable : c_reachable c_init.
Proof. by apply reach_init. Qed.

(** Two acquisitions from an empty pool that both read the counter before
    either increments it name their VMs alike; both complete, but the active map has
    one entry for them while the count says two, so one VM can no longer be found
    or released. *)
Theorem same_name_acquisitions :
  exists s vm, c_reachable s /\ c_threads s = [] /\ c_count s = 2 /\ c_next s = 5 /\
    c_active s = {[ pool_vm_id pid 3 := vm ]} /\ cv_id vm = pool_vm_id pid 3 /\ cv_cid vm = 4.
Proof.
  pose proof (run_start _ AcqPop c_init_reachable ent_acquire) as R.
  apply (fun R => run_start _ AcqPop R ent_acquire) in R. cbn in R.
  eapply (run_access 0) in R; [|reflexivity|by apply acc_pop_none]. cbn in R.
  eapply (run_access 1) in R; [|reflexivity|by apply acc_pop_none]. cbn in R.
  eapply (run_access 0) in R; [|reflexivity|apply acc_load]. cbn in R.
  eapply (run_access 1) in R; [|reflexivity|apply acc_load]. cbn in R.
  eapply (run_access 0) in R; [|reflexivity|by apply acc_fetch]. cbn in R.
  eapply (run_access 1) in R; [|reflexivity|by apply acc_fetch]. cbn in R.
  do 2 (eapply (run_access 0) in R; [|reflexivity|constructor]; cbn in R).
  eapply (run_access 0) in R; [|reflexivity|apply acc_insert]. cbn in R.
  do 2 (eapply (run_access 0) in R; [|reflexivity|constructor]; cbn in R).
  eapply (run_access 0) in R; [|reflexivity|apply acc_insert]. cbn in R.
  eexists _, (mkCvm (pool_vm_id pid 3) 4). split; [exact R|]. cbn.
  split_and!; try done. by rewrite insert_insert_eq.
Qed.
End Conc.

(** With [pool_size] 1, two replenishments that both see the empty ready
    list leave it with two VMs: the bound of a single replenishment does not survive
    interleaving. *)
Theorem replenish_overfills pid :
  exists s, c_reachable pid 1 s /\ c_threads s = [] /\ length (c_ready s) = 2%nat.
Proof.
  pose proof (run_start pid 1 _ RepLen (c_init_reachable pid 1) ent_replenish) as R.
  apply (fun R => run_start pid 1 _ RepLen R ent_replenish) in R. cbn in R.
  eapply (run_access pid 1 0) in R; [|reflexivity|by apply rep_room]. cbn in R.
  eapply (run_access pid 1 1) in R; [|reflexivity|by apply rep_room]. cbn in R.
  eapply (run_access pid 1 0) in R; [|reflexivity|apply rep_load]. cbn in R.
  eapply (run_access pid 1 0) in R; [|reflexivity|by apply rep_fetch]. cbn in R.
  do 2 (eapply (run_access pid 1 0) in R; [|reflexivity|constructor]; cbn in R).
  eapply (run_access pid 1 0) in R; [|reflexivity|apply rep_load]. cbn in R.
  eapply (run_access pid 1 0) in R; [|reflexivity|by apply rep_fetch]. cbn in R.
  do 2 (eapply (run_access pid 1 0) in R; [|reflexivity|constructor]; cbn in R).
  eexists. split; [exact R|]. done.
Qed.

Lemma cids_unique_witness : NoDup (live_cids (mkCpool [] ∅ 0 3 [AcqPop])).
Proof. apply (cids_unique 1 1). exact (run_start 1 1 _ AcqPop (c_init_reachable 1 1) ent_acquire). Defined.

Lemma active_count_bound_witness : Z.of_nat (size (∅ : gmap string cvm)) + pendings [AcqPop] <= 0.
Proof.
  apply (active_count_bound 1 1 (mkCpool [] ∅ 0 3 [AcqPop])).
  exact (run_start 1 1 _ AcqPop (c_init_reachable 1 1) ent_acquire).
Defined.
