(* ===== verification/Shadow.v ===== *)
(** * Workload snapshots and shadow VMs ([crates/daemon/src/shadow.rs])

    The snapshot cache with its staleness check and least-recently-used
    eviction, the restore from a cached snapshot, the shadow VM that makes one, and
    the rewriting of the kernel command line. *)

From S2P Require Import Prelude RustStr Proto Sys Json NetlinkOps Lifecycle Pool.
From Stdlib Require Import Ascii.
From Stdlib Require String.
Local Open Scope Z_scope.

Section Shadow.
Context `{Env, SerdeJson} (config : DaemonConfig).

(** ** The cache *)

Definition has_snapshot (image_key : string) (erofs_path : option string) : M daemon bool :=
  snaps ← gets d_snapshots;
  match snaps !! image_key with
  | None => mret false
  | Some entry =>
      match erofs_path, se_mtime entry with
      | Some erofs, Some snap_mtime =>
          current ← sys (Mtime erofs);
          match current with
          | Some current_mtime =>
              if current_mtime =? snap_mtime then mret true
              else
                modify (fun d => set_snapshots (delete image_key (d_snapshots d)) d);;
                ignore (remove_dir_all (se_dir entry));;
                mret false
          | None => mret true
          end
      | _, _ => mret true
      end
  end.

Definition get_snapshot_dir (image_key : string) : M daemon (option string) :=
  snaps ← gets d_snapshots;
  match snaps !! image_key with
  | None => mret None
  | Some entry =>
      now ← sys Instant;
      modify (fun d => set_snapshots
        (<[image_key := mkSnapshotEntry (se_dir entry) now (se_mtime entry)]> (d_snapshots d)) d);;
      mret (Some (se_dir entry))
  end.

(** [iter().min_by_key(last_used)]: the first entry, in iteration order, of
    the least time. *)
Definition older (a b : string * SnapshotEntry) : string * SnapshotEntry :=
  if se_last_used b.2 <? se_last_used a.2 then b else a.

Definition lru_key (snaps : gmap string SnapshotEntry) : option string :=
  match map_to_list snaps with
  | [] => None
  | kv :: l => Some (foldl older kv l).1
  end.

(** [while snapshots.len() >= max_snapshots]; every round removes an entry or
    leaves the loop, so one more round than there are entries is enough. *)
Fixpoint evict (fuel : nat) : M daemon unit :=
  match fuel with
  | O => lift Hang
  | S fuel' =>
      snaps ← gets d_snapshots;
      if Z.of_nat (size snaps) <? max_snapshots config then mret tt
      else
        match lru_key snaps with
        | None => mret tt
        | Some key =>
            match snaps !! key with
            | Some entry =>
                modify (fun d => set_snapshots (delete key (d_snapshots d)) d);;
                ignore (remove_dir_all (se_dir entry))
            | None => mret tt
            end;;
            evict fuel'
        end
  end.

Definition cache_snapshot (image_key snap_dir : string) (mtime : option Z) : M daemon unit :=
  snaps ← gets d_snapshots;
  evict (S (size snaps));;
  now ← sys Instant;
  modify (fun d => set_snapshots
    (<[image_key := mkSnapshotEntry snap_dir now mtime]> (d_snapshots d)) d).

Definition snapshot_keys : M daemon (list string) :=
  gets (fun d => map fst (map_to_list (d_snapshots d))).

(** ** Restoring from the cache *)

Definition restore_from_snapshot (image_key vm_id : string) (cid : Z) (dir : string)
    : M daemon (Z * string * string) :=
  o ← get_snapshot_dir image_key;
  snap_dir ← lift (ok_or o (Msg "snapshot not found"));
  let vsock_socket := path_join dir "vsock.sock" in
  snapshot_work_dir ← prepare_snapshot snap_dir dir cid vsock_socket;
  ch_pid ← spawn_ch config dir;
  let api_socket := path_join dir "api.sock" in
  wait_ch_ready api_socket;;
  restore_vm api_socket snapshot_work_dir;;
  resume_vm api_socket;;
  mret (ch_pid, api_socket, vsock_socket).

(** ** The kernel command line *)

Definition strip_ip (s : string) : string :=
  join " " (filter (fun part => starts_with part "ip=" = false) (split_whitespace s)).

(** [pointer_mut("/payload/cmdline")], replaced when it is a string. *)
Definition strip_cmdline (config_v : value) : value :=
  match get "payload" config_v with
  | Some payload =>
      match get "cmdline" payload with
      | Some cmdline =>
          match as_str cmdline with
          | Some s => obj_insert "payload" (obj_insert "cmdline" (of_lit (LStr (strip_ip s))) payload) config_v
          | None => config_v
          end
      | None => config_v
      end
  | None => config_v
  end.

Definition strip_kernel_ip (snap_dir : string) : M daemon unit :=
  let config_path := path_join snap_dir "config.json" in
  config_str ← read_to_string config_path;
  v ← lift (lib_res (from_str config_str));
  write_file config_path (to_string_pretty (strip_cmdline v)).

(** ** The shadow VM *)

Definition shadow_request (image_key : string) : CreateContainerRequest :=
  mkCreateContainerRequest ("shadow-ctr-" +:+ image_key) "" "" "" "" false [] "{}" false 1.

(** Steps 2 to 5 on the acquired VM: hot-plug, run, warm up, pause, snapshot,
    rewrite; the snapshot's directory. *)
Definition shadow_snapshot (pool_vm : PoolVm) (image_key erofs_path : string) : M daemon string :=
  let api_socket := pv_api pool_vm in
  m_ctx "hot-plug rootfs for shadow"
    (api_request_with_body api_socket "PUT" "/api/v1/vm.add-disk"
       (to_string (of_lit (disk_lit erofs_path true "ctr-rootfs"))));;
  agent ← connect_agent (pv_vsock pool_vm);
  r ← sys (AgentRun agent (shadow_request image_key));
  lift (with_ctx "RunContainer in shadow VM" (lib_res r));;
  sys (Sleep (warmup_duration_secs config * 1000));;
  let snap_dir := path_join (snapshot_cache_dir config) image_key in
  create_dir_all snap_dir;;
  pause_vm api_socket;;
  snapshot_vm api_socket snap_dir;;
  strip_kernel_ip snap_dir;;
  mret snap_dir.

Definition run_shadow (image_key erofs_path : string) : M daemon unit :=
  let vm_id := "shadow-" +:+ image_key +:+ "-" +:+ pretty process_id in
  let dir := path_join (state_dir config) vm_id in
  create_dir_all dir;;
  pool_vm ← m_ctx "acquire for shadow" (acquire config);
  snap_dir ← shadow_snapshot pool_vm image_key erofs_path;
  erofs_mtime ← sys (Mtime erofs_path);
  cache_snapshot image_key snap_dir erofs_mtime;;
  release config (pv_id pool_vm).

(** The spawned task, and the call that spawns it. *)
Definition shadow_task (image_key erofs_path : string) : M daemon unit :=
  attempt (run_shadow image_key erofs_path);;
  modify (fun d => set_shadows (delete image_key (d_shadows d)) d).

Definition spawn_task (t : task) : M daemon unit :=
  modify (fun d => set_tasks (d_tasks d ++ [t]) d).

Definition trigger_shadow (image_key erofs_path : string) : M daemon unit :=
  has ← has_snapshot image_key (Some erofs_path);
  if has : bool then mret tt
  else
    shadows ← gets d_shadows;
    match shadows !! image_key with
    | Some _ => mret tt
    | None =>
        spawn_task (TShadow image_key erofs_path);;
        modify (fun d => set_shadows (<[image_key := tt]> (d_shadows d)) d)
    end.

Definition active_shadow_count : M daemon Z := gets (fun d => Z.of_nat (size (d_shadows d))).
End Shadow.

(** ** The cache: eviction *)

Section Cache.
Context `{Env, SerdeJson} (config : DaemonConfig).

Lemma older_min l kv :
  let m := foldl older kv l in
  m ∈ kv :: l /\ forall x, x ∈ kv :: l -> se_last_used m.2 <= se_last_used x.2.
Proof.
  revert kv. induction l as [|y l IH]; intros kv; cbn.
  - split; [by left|]. intros x ->%list_elem_of_singleton. lia.
  - destruct (IH (older kv y)) as [Hin Hmin].
    assert (Hle : se_last_used (older kv y).2 <= se_last_used kv.2 /\ se_last_used (older kv y).2 <= se_last_used y.2).
    { unfold older. destruct (Z.ltb_spec (se_last_used y.2) (se_last_used kv.2)); lia. }
    assert (Hor : older kv y = kv \/ older kv y = y) by (unfold older; case_match; auto).
    split.
    + apply elem_of_cons in Hin as [->|Hin]; [|by right; right].
      destruct Hor as [-> | ->]; [left|right; left].
    + intros x [->|[->|Hx]%elem_of_cons]%elem_of_cons.
      * specialize (Hmin (older kv y) ltac:(left)). lia.
      * specialize (Hmin (older kv y) ltac:(left)). lia.
      * apply Hmin. by right.
Qed.

Lemma lru_key_Some m k : lru_key m = Some k ->
  exists e, m !! k = Some e /\ forall k' e', m !! k' = Some e' -> se_last_used e <= se_last_used e'.
Proof.
  unfold lru_key. destruct (map_to_list m) as [|kv l] eqn:El; [done|]. intros [= <-].
  destruct (older_min l kv) as [Hin Hmin]. rewrite <- El in Hin, Hmin.
  destruct (foldl older kv l) as [k e] eqn:Em. exists e. split; [by apply elem_of_map_to_list|].
  intros k' e' Hk'. by apply (Hmin (k', e')), elem_of_map_to_list.
Qed.

Lemma lru_key_None m : lru_key m = None -> m = ∅.
Proof. unfold lru_key. destruct (map_to_list m) eqn:E; [|done]. intros _. by apply map_to_list_empty_iff. Qed.

(** What the eviction loop leaves of the cache. *)
Record evicted (m kept : gmap string SnapshotEntry) (t : list call) : Prop := {
  ev_sub : kept ⊆ m;
  ev_size : Z.of_nat (size kept) < max_snapshots config \/ kept = ∅;
  ev_noop : Z.of_nat (size m) < max_snapshots config -> kept = m;
  ev_lru k e k' e' : m !! k = Some e -> kept !! k = None -> kept !! k' = Some e' ->
    se_last_used e <= se_last_used e';
  ev_dirs k e : m !! k = Some e -> kept !! k = None -> RemoveDirAll (se_dir e) ∈ t;
}.

Lemma daemon_same d : set_d_trace (d_trace d ++ []) (set_snapshots (d_snapshots d) d) = d.
Proof. rewrite app_nil_r. by destruct d. Qed.

Lemma evict_run fuel d : (size (d_snapshots d) < fuel)%nat ->
  exists kept t, evict config fuel d = (Ok tt, set_d_trace (d_trace d ++ t) (set_snapshots kept d)) /\
    evicted (d_snapshots d) kept t.
Proof.
  revert d. induction fuel as [|fuel IH]; intros d Hf; [lia|]. cbn [evict]. unfold mbind, M_bind, gets.
  destruct (Z.ltb_spec (Z.of_nat (size (d_snapshots d))) (max_snapshots config)) as [Hlt|Hge].
  - exists (d_snapshots d), []. rewrite daemon_same. split; [done|].
    constructor; try done; [by left|congruence..].
  - destruct (lru_key (d_snapshots d)) as [key|] eqn:El.
    + destruct (lru_key_Some _ _ El) as (e & Ek & Hmin). rewrite Ek. unfold modify.
      rewrite remove_dir_run.
      set (d1 := set_d_trace _ (set_snapshots (delete key (d_snapshots d)) d)).
      assert (Hs : size (delete key (d_snapshots d)) = pred (size (d_snapshots d)))
        by (rewrite map_size_delete_Some; eauto).
      destruct (IH d1) as (kept & t & E & Hev).
      { assert (size (d_snapshots d) <> 0)%nat; [|cbn; lia].
        intros Hz%map_size_empty_inv. by rewrite Hz, lookup_empty in Ek. }
      rewrite E. exists kept, (RemoveDirAll (se_dir e) :: t). cbn in *. rewrite <- app_assoc.
      split; [done|]. destruct Hev. constructor.
      * etrans; [done|]. apply delete_subseteq.
      * done.
      * lia.
      * intros k e0 k' e' Hk Hno Hk'. destruct (decide (k = key)) as [->|Hne].
        -- rewrite Ek in Hk. injection Hk as <-. eapply Hmin, lookup_weaken; [exact Hk'|].
           etrans; [done|]. apply delete_subseteq.
        -- by eapply ev_lru0; [rewrite lookup_delete_ne|..].
      * intros k e0 Hk Hno. destruct (decide (k = key)) as [->|Hne].
        -- rewrite Ek in Hk. injection Hk as <-. left.
        -- right. eapply ev_dirs0; [by rewrite lookup_delete_ne|done].
    + apply lru_key_None in El. exists (d_snapshots d), []. rewrite daemon_same. split; [done|].
      constructor; try done; [by right|congruence..].
Qed.

(** One more entry fits into what eviction leaves. *)
Lemma evicted_room m kept t key e : evicted m kept t ->
  Z.of_nat (size (<[key := e]> kept)) <= Z.max 1 (max_snapshots config).
Proof.
  intros Hev. rewrite map_size_insert. destruct (ev_size _ _ _ Hev) as [Hs| ->].
  - destruct (kept !! key); unfold id; lia.
  - rewrite lookup_empty, map_size_empty. lia.
Qed.

(** C31: caching a snapshot always succeeds and keeps the cache within
    [max_snapshots] (one entry when that is 0). Nothing is evicted while there is
    room; otherwise only entries at least as old as every entry kept are, and the
    directory of each evicted one is removed. *)
Theorem cache_snapshot_lru key dir mt d :
  exists kept t now,
    cache_snapshot config key dir mt d =
      (Ok tt, set_d_trace (d_trace d ++ t) (set_snapshots (<[key := mkSnapshotEntry dir now mt]> kept) d)) /\
    kept ⊆ d_snapshots d /\
    Z.of_nat (size (<[key := mkSnapshotEntry dir now mt]> kept)) <= Z.max 1 (max_snapshots config) /\
    (Z.of_nat (size (d_snapshots d)) < max_snapshots config -> kept = d_snapshots d) /\
    (forall k e, d_snapshots d !! k = Some e -> kept !! k = None ->
       RemoveDirAll (se_dir e) ∈ t /\
       forall k' e', kept !! k' = Some e' -> se_last_used e <= se_last_used e').
Proof.
  unfold cache_snapshot, mbind, M_bind, gets.
  destruct (evict_run (S (size (d_snapshots d))) d ltac:(lia)) as (kept & t & -> & Hev).
  rewrite sys_run. unfold modify. set (now := env _ Instant).
  exists kept, (t ++ [Instant]), now. cbn. rewrite <- app_assoc. split_and!; [done|apply Hev| |apply Hev|].
  - eapply evicted_room; exact Hev.
  - intros k e Hk Hno. split; [apply elem_of_app; left; by eapply ev_dirs|].
    intros k' e' Hk'. by eapply ev_lru.
Qed.

(** Whether the cached snapshot is known to be older than the image. *)
Definition stale (d : daemon) (entry : SnapshotEntry) (erofs : option string) : bool :=
  match erofs, se_mtime entry with
  | Some p, Some m => match env (d_trace d) (Mtime p) with Some m' => negb (m' =? m) | None => false end
  | _, _ => false
  end.

(** A snapshot is offered exactly when one is cached and the image is not
    known to have changed since; a stale one is dropped from the cache and its
    directory removed, and no other entry is touched. *)
Theorem has_snapshot_spec key erofs d :
  exists b t, has_snapshot key erofs d =
    (Ok b, set_d_trace (d_trace d ++ t)
             (set_snapshots (if b : bool then d_snapshots d else delete key (d_snapshots d)) d)) /\
    (b = true <-> exists e, d_snapshots d !! key = Some e /\ stale d e erofs = false) /\
    (forall e, d_snapshots d !! key = Some e -> stale d e erofs = true -> RemoveDirAll (se_dir e) ∈ t).
Proof.
  unfold has_snapshot, mbind, M_bind, gets. destruct (d_snapshots d !! key) as [e|] eqn:Ek.
  2: { exists false, []. rewrite delete_id, daemon_same by done. split_and!; [done| |done].
       split; [done|]. by intros (e & [=] & _). }
  assert (Htrue : forall t d2, stale d e erofs = false -> d2 = set_d_trace (d_trace d ++ t) d ->
    exists b t', (Ok true, d2) =
      (Ok b, set_d_trace (d_trace d ++ t') (set_snapshots (if b : bool then d_snapshots d else delete key (d_snapshots d)) d)) /\
      (b = true <-> exists e0, Some e = Some e0 /\ stale d e0 erofs = false) /\
      (forall e0, Some e = Some e0 -> stale d e0 erofs = true -> RemoveDirAll (se_dir e0) ∈ t')).
  { intros t d2 Hs ->. exists true, t. split_and!; [by destruct d| |].
    - split; [by exists e|done].
    - intros e0 [= <-]. congruence. }
  assert (Hd : d = set_d_trace (d_trace d ++ []) d) by (rewrite app_nil_r; by destruct d).
  unfold stale in *. destruct erofs as [p|]; [|by apply (Htrue [])].
  destruct (se_mtime e) as [m|] eqn:Em; [|by apply (Htrue []) ].
  rewrite sys_run. cbn in *. destruct (env (d_trace d) (Mtime p)) as [m'|] eqn:Emt.
  - destruct (Z.eqb_spec m' m) as [->|Hne].
    + by apply (Htrue [Mtime p]).
    + unfold modify. rewrite remove_dir_run. exists false, [Mtime p; RemoveDirAll (se_dir e)].
      assert (Hst : (m' =? m) = false) by (by apply Z.eqb_neq). split_and!.
      * cbn. by rewrite <- app_assoc.
      * split; [done|]. intros (e0 & [= <-] & Hs). by rewrite ?Em, ?Emt, Hst in Hs.
      * intros e0 [= <-] _. by right; left.
  - by apply (Htrue [Mtime p]).
Qed.
End Cache.

(** ** The kernel command line *)

(** The rewritten command line has exactly the words of the old one, in
    order, without those that begin with [ip=]; rewriting it again changes nothing. *)
Theorem strip_ip_words s :
  split_whitespace (strip_ip s) = filter (fun part => starts_with part "ip=" = false) (split_whitespace s) /\
  strip_ip (strip_ip s) = strip_ip s.
Proof.
  assert (Hsplit : split_whitespace (strip_ip s) =
    filter (fun part => starts_with part "ip=" = false) (split_whitespace s)).
  { apply split_whitespace_join. apply Forall_forall. intros w [_ Hw]%list_elem_of_filter.
    by apply (proj1 (Forall_forall _ _) (split_whitespace_words s)). }
  split; [done|]. unfold strip_ip at 1. rewrite Hsplit, list_filter_filter_l; [done|]. by intros.
Qed.

(** ** The shadow VM *)

Section ShadowVm.
Context `{Env, SerdeJson} (config : DaemonConfig).

Lemma io_only_strip dir : io_only (strip_kernel_ip dir).
Proof. unfold strip_kernel_ip. io_solve. Qed.
Lemma no_panic_strip dir : no_panic (strip_kernel_ip dir).
Proof. unfold strip_kernel_ip. io_solve. Qed.
#[local] Hint Resolve io_only_strip no_panic_strip : rust.

Lemma io_only_shadow_snapshot vm k p : io_only (shadow_snapshot config vm k p).
Proof. unfold shadow_snapshot, pause_vm, snapshot_vm, api_request_with_body. io_solve. Qed.
Lemma no_panic_shadow_snapshot vm k p : no_panic (shadow_snapshot config vm k p).
Proof. unfold shadow_snapshot, pause_vm, snapshot_vm, api_request_with_body. io_solve. Qed.

Lemma emits_shadow_snapshot vm k p : emits (fun c => cleans_up c = false) (shadow_snapshot config vm k p).
Proof.
  unfold shadow_snapshot, pause_vm, snapshot_vm, api_request_with_body, api_request, connect_agent,
    strip_kernel_ip, create_dir_all, read_to_string, write_file.
  emit_solve ltac:(done).
Qed.

Lemma cache_snapshot_run key dir mt d :
  exists m t, cache_snapshot config key dir mt d = (Ok tt, set_d_trace (d_trace d ++ t) (set_snapshots m d)) /\
    (exists now, m !! key = Some (mkSnapshotEntry dir now mt)) /\
    Z.of_nat (size m) <= Z.max 1 (max_snapshots config).
Proof.
  unfold cache_snapshot, mbind, M_bind, gets.
  destruct (evict_run config (S (size (d_snapshots d))) d ltac:(lia)) as (kept & t & -> & Hev).
  rewrite sys_run. unfold modify. set (now := env _ Instant).
  exists (<[key := mkSnapshotEntry dir now mt]> kept), (t ++ [Instant]). cbn. rewrite <- app_assoc.
  split_and!; [done|exists now; by rewrite lookup_insert_eq|]. eapply evicted_room; exact Hev.
Qed.

(** The run of a shadow from a pool that holds a VM. *)
Lemma run_shadow_run key erofs d vm rest :
  d_ready d = rest ++ [vm] ->
  let dir := path_join (state_dir config) ("shadow-" +:+ key +:+ "-" +:+ pretty process_id) in
  env (d_trace d) (CreateDirAll dir) = inr tt ->
  let d1 := set_active (<[pv_id vm := vm]> (d_active d)) (wrap 64 (d_active_count d + 1))
              (set_ready rest (set_d_trace (d_trace d ++ [CreateDirAll dir]) d)) in
  exists r t, shadow_snapshot config vm key erofs d1 = (r, set_d_trace (d_trace d1 ++ t) d1) /\
    match r with
    | Ok snap_dir => exists m t' now mt,
        run_shadow config key erofs d = (Ok tt, set_d_trace (d_trace d1 ++ t ++ t') (released (pv_id vm) (set_snapshots m d1))) /\
        m !! key = Some (mkSnapshotEntry snap_dir now mt)
    | Err e => run_shadow config key erofs d = (Err e, set_d_trace (d_trace d1 ++ t) d1)
    | _ => False
    end.
Proof.
  intros Er dir Hmk d1. pose proof (acquire_run config (set_d_trace (d_trace d ++ [CreateDirAll dir]) d)) as Ha.
  cbn in Ha. rewrite Er, vec_pop_snoc in Ha.
  destruct (io_only_shadow_snapshot vm key erofs d1) as [t Ht]. pose proof (no_panic_shadow_snapshot vm key erofs d1) as Hn.
  destruct (shadow_snapshot config vm key erofs d1) as [r d2] eqn:Es. cbn in Ht, Hn. subst d2.
  exists r, t. split; [done|].
  assert (Hrun : run_shadow config key erofs d =
    (snap_dir ← shadow_snapshot config vm key erofs; erofs_mtime ← sys (Mtime erofs);
     cache_snapshot config key snap_dir erofs_mtime;; release config (pv_id vm)) d1).
  { unfold run_shadow. fold dir. unfold mbind, M_bind, create_dir_all, m_ctx, mbind, M_bind. rewrite sys_run.
    cbn [trace set_trace daemon_world]. rewrite Hmk. unfold lift, io_res. by rewrite Ha. }
  rewrite Hrun. unfold mbind, M_bind. rewrite Es. destruct r as [snap_dir|e| |]; try done.
  rewrite sys_run. cbn [trace set_trace daemon_world].
  match goal with |- context [cache_snapshot config key snap_dir ?mt ?st] =>
    destruct (cache_snapshot_run key snap_dir mt st) as (m & t' & -> & (now & Hm) & _); set (mt0 := mt) in * end.
  match goal with |- context [release config (pv_id vm) ?st] =>
    destruct (release_run config (pv_id vm) st) as [t'' ->] end.
  exists m, ([Mtime erofs] ++ t' ++ t''), now, mt0. split; [|done].
  cbn. by rewrite <- !app_assoc.
Qed.


(** A shadow run that fails after it took a VM keeps it: the VM stays in
    the active map, is never released, and nothing is stopped or removed. *)
Theorem shadow_failure_leaks key erofs d vm rest e d' :
  d_ready d = rest ++ [vm] -> run_shadow config key erofs d = (Err e, d') ->
  env (d_trace d) (CreateDirAll (path_join (state_dir config) ("shadow-" +:+ key +:+ "-" +:+ pretty process_id))) = inr tt ->
  d_active d' !! pv_id vm = Some vm /\ d_ready d' = rest /\
  exists t, d_trace d' = d_trace d ++ t /\ Forall (fun c => cleans_up c = false) t.
Proof.
  intros Er Hrun Hmk. destruct (run_shadow_run key erofs d vm rest Er Hmk) as (r & t & Es & Hr). cbv zeta in *.
  destruct r as [snap_dir|e'| |]; try done; [destruct Hr as (? & ? & ? & ? & E & _); congruence|].
  rewrite Hr in Hrun. injection Hrun as <- <-. cbn. rewrite lookup_insert_eq. split_and!; [done..|].
  match type of Es with shadow_snapshot _ _ _ _ ?d1 = _ =>
    destruct (emits_shadow_snapshot vm key erofs d1) as (t' & Ht' & HF) end.
  rewrite Es in Ht'. cbn in Ht'. rewrite Ht', <- app_assoc. eexists. split; [done|]. by constructor.
Qed.

Lemma api_request_Ok s m p b (d d' : daemon) u :
  api_request s m p b d = (Ok u, d') ->
  d' = set_d_trace (d_trace d ++ [ConnectUnix s; HttpHandshake s; HttpSend s m p b]) d.
Proof.
  unfold api_request, mbind, M_bind. rewrite sys_run. unfold lift.
  destruct (env _ (ConnectUnix s)); [done|]. cbn [with_ctx io_res]. rewrite sys_run.
  destruct (env _ (HttpHandshake s)); [done|]. cbn [with_ctx lib_res]. rewrite sys_run.
  destruct (env _ (HttpSend s m p b)) as [|[ [] ?] ]; [done| |].
  - cbn. intros [= _ <-]. by rewrite <- !app_assoc.
  - cbn. by destruct (env _ (HttpBody s)).
Qed.

Lemma did_api s m p b d u d' : api_request s m p b d = (Ok u, d') -> did d d' [HttpSend s m p b].
Proof.
  intros ->%api_request_Ok. eexists. split; [done|]. do 2 apply sublist_cons. done.
Qed.

Lemma connect_agent_Ok s (d d' : daemon) a : connect_agent s d = (Ok a, d') -> a = s.
Proof. unfold connect_agent. intros Hr. inv_ok. revert Hr. case_match; intros Hr; [by inv_ok|done]. Qed.

End ShadowVm.

(** ** Triggers and shadow tasks, interleaved

    [trigger_shadow] looks at the active shadows, spawns the task and only then
    records it; the task removes the record when it ends. A task that ends first
    leaves its record behind. *)

Section ShadowConc.

Inductive spc :=
| TrigLook (key : string)          (* shadows.contains_key, after has_snapshot *)
| TrigInsert (key : string)        (* the task is spawned; active_shadows.insert *)
| ShadowTask (key : string).       (* run_shadow, then active_shadows.remove *)

Record sstate := mkSstate { ss_shadows : gset string; ss_threads : list spc }.

Inductive sstep : sstate -> sstate -> Prop :=
| ss_trigger key m ts : sstep (mkSstate m ts) (mkSstate m (ts ++ [TrigLook key]))
| ss_cached key m l l' :           (* has_snapshot was true *)
    sstep (mkSstate m (l ++ TrigLook key :: l')) (mkSstate m (l ++ l'))
| ss_running key m l l' : key ∈ m ->
    sstep (mkSstate m (l ++ TrigLook key :: l')) (mkSstate m (l ++ l'))
| ss_spawn key m l l' : key ∉ m ->
    sstep (mkSstate m (l ++ TrigLook key :: l')) (mkSstate m (l ++ [TrigInsert key; ShadowTask key] ++ l'))
| ss_insert key m l l' :
    sstep (mkSstate m (l ++ TrigInsert key :: l')) (mkSstate ({[key]} ∪ m) (l ++ l'))
| ss_finish key m l l' :
    sstep (mkSstate m (l ++ ShadowTask key :: l')) (mkSstate (m ∖ {[ key ]}) (l ++ l')).

Definition s_reachable : sstate -> Prop := reachable (fun s => s = mkSstate ∅ []) sstep.

(** A record with nothing behind it: no task for the key, none about to be
    recorded. *)
Definition stuck (key : string) (s : sstate) : Prop :=
  (key ∈ ss_shadows s) /\ (TrigInsert key ∉ ss_threads s) /\ (ShadowTask key ∉ ss_threads s).

Lemma stuck_step key s s' : stuck key s -> sstep s s' -> stuck key s'.
Proof.
  unfold stuck. intros (Hm & H1 & H2) Hs.
  destruct Hs as [k m ts|k m l l'|k m l l' Hin|k m l l' Hno|k m l l'|k m l l']; cbn in *;
    rewrite ?not_elem_of_app, ?not_elem_of_cons in *;
    try (assert (k <> key) by (intros ->; intuition congruence));
    split_and!; try (intuition congruence); try (by apply not_elem_of_nil); set_solver.
Qed.

(** A shadow task may end before the trigger that spawned it records it;
    the record then stays although no task runs, and from there on, whatever
    happens, no shadow for that image is ever started again. *)
Theorem shadow_record_stuck key :
  exists s, s_reachable s /\ ss_threads s = [] /\
    forall s', reachable (fun x => x = s) sstep s' -> ShadowTask key ∉ ss_threads s'.
Proof.
  exists (mkSstate {[key]} []). split_and!; [|done|].
  - assert (R : s_reachable (mkSstate ∅ [])) by (by apply reach_init).
    assert (R1 : s_reachable (mkSstate ∅ [TrigLook key])) by (eapply reach_step; [exact R|apply (ss_trigger key ∅ [])]).
    assert (R2 : s_reachable (mkSstate ∅ [TrigInsert key; ShadowTask key])).
    { eapply reach_step; [exact R1|]. apply (ss_spawn key ∅ [] []). set_solver. }
    assert (R3 : s_reachable (mkSstate (∅ ∖ {[key]}) [TrigInsert key])).
    { eapply reach_step; [exact R2|]. apply (ss_finish key ∅ [TrigInsert key] []). }
    replace ({[key]} : gset string) with (({[key]} : gset string) ∪ (∅ ∖ {[key]})) by set_solver.
    eapply reach_step; [exact R3|]. apply (ss_insert key (∅ ∖ {[key]}) [] []).
  - intros s' Hr. assert (Hst : stuck key s'); [|by apply Hst].
    apply (reachable_inv (fun x => x = mkSstate {[key]} []) sstep (stuck key)); [| |done].
    + intros ? ->. unfold stuck. cbn. rewrite !elem_of_nil. set_solver.
    + apply stuck_step.
Qed.
End ShadowConc.

(** ** Witnesses *)

Definition shadow_files (p : string) : option string :=
  if String.eqb p "/st/snapshot-cache/img/config.json" then Some (lit_print sample_config) else None.
Definition shadow_env : Env := calm_env shadow_files sample_up.

Lemma sample_pool_wf : @pool_wf shadow_env sample_pool.
Proof.
  constructor; cbn; try done; try (by intros * ?%lookup_empty_Some).
  - intros vm ->%list_elem_of_singleton. cbn. lia.
  - apply NoDup_singleton.
  - intros vm ->%list_elem_of_singleton. reflexivity.
Qed.


(** The agent refuses to run the container. *)
Definition no_run_env : Env :=
  Build_Env (fun _ c => match c return ans c with
    | AgentRun _ _ => inl (Msg "no")
    | c => calm shadow_files sample_up c end) 1000.

Lemma shadow_failure_leaks_witness :
  exists e d', @run_shadow no_run_env bit_json sample_cfg "img" "/img.erofs" sample_pool = (Err e, d') /\
    d_active d' !! "pool-1000-3" = Some sample_vm.
Proof.
  destruct (@run_shadow no_run_env bit_json sample_cfg "img" "/img.erofs" sample_pool) as [r d'] eqn:E.
  assert (Er : r = (@run_shadow no_run_env bit_json sample_cfg "img" "/img.erofs" sample_pool).1) by (by rewrite E).
  vm_compute in Er. subst r. eexists _, d'. split; [reflexivity|].
  by destruct (@shadow_failure_leaks no_run_env bit_json sample_cfg "img" "/img.erofs" sample_pool sample_vm [] _ d'
    eq_refl E eq_refl) as [Ha _].
Defined.

