(* ===== verification/DaemonNet.v ===== *)
(** * Pod networking in the daemon ([crates/daemon/src/netns.rs])

    Entering a pod's network namespace, probing its veth, creating the TAP in
    the host namespace and wiring it to the veth, with [create_tap] of
    [crates/common/src/netlink.rs]. The namespace of the worker thread is [d_ns]. *)

From S2P Require Import Prelude RustStr NetAddr Bytes Proto Sys Json Netlink NetlinkOps Lifecycle Pool.
From Stdlib Require Import Ascii.
From Stdlib Require String.
Local Open Scope Z_scope.

Record PodNetInfo := mkPodNetInfo { ni_ip_cidr : string; ni_gateway : string; ni_mac : string }.

Section DaemonNet.
Context `{Env, Anyhow}.

(** Run a netlink operation on the daemon's socket. *)
Definition nl {A} (m : M sock A) : M daemon A := fun d =>
  match m (d_sock d) with (r, s) => (r, set_sock s d) end.

Definition NUL : ascii := "000"%char.

Definition open_ns (path : string) : M daemon Z :=
  if str_elem NUL path then fail (Msg "nul byte found in provided data")
  else r ← sys (OpenNs path); lift (with_ctx ("open " +:+ path) (io_res r)).

(** [setns] to the namespace opened as [path], known by [name]. *)
Definition setns (name : string) : M daemon unit := fun d =>
  match sys (SetNs name) d with
  | (Ok (inr _), d') => (Ok tt, set_ns name d')
  | (Ok (inl e), d') => (Err (Io e), d')
  | (_, d') => (Panic, d')
  end.

(** The wait for the namespace to appear, [left] looks left. *)
Fixpoint wait_netns (left : nat) (path : string) : M daemon unit :=
  match left with
  | O => mret tt
  | S left' =>
      e ← exists_path path;
      if e : bool then mret tt
      else match left' with
           | O => fail (Msg ("netns " +:+ path +:+ " did not appear after 2s"))
           | _ => sys (Sleep 100);; wait_netns left' path
           end
  end.

(** Run [f] and, however it comes back (a panic unwinds too), [NetnsGuard::drop]
    returns to [orig], the result of which is dropped. *)
Definition guarded {A} (orig : string) (f : M daemon A) : M daemon A := fun d =>
  match f d with
  | (Hang, d') => (Hang, d')
  | (r, d') => (r, (ignore (setns orig) d').2)
  end.

Definition in_netns {A} (path : string) (f : M daemon A) : M daemon A :=
  wait_netns 20 path;;
  orig ← gets d_ns;
  open_ns "/proc/self/ns/net";;
  open_ns path;;
  m_ctx "setns into target" (setns path);;
  guarded orig f.

Fixpoint retry_go {A} (left : nat) (max ms : Z) (f : M daemon (option A)) : M daemon A :=
  match left with
  | O => fail (Msg ("not found after " +:+ pretty max +:+ " retries"))
  | S left' =>
      o ← f;
      match o with
      | Some v => mret v
      | None => sys (Sleep ms);; retry_go left' max ms f
      end
  end.

Definition retry {A} (max : nat) (ms : Z) (f : M daemon (option A)) : M daemon A :=
  retry_go max (Z.of_nat max) ms f.

(** ** The TAP device *)

(** [struct ifreq]: 40 bytes, the name cut at 15, then IFF_TAP | IFF_NO_PI. *)
Definition tap_ifr (name : string) : result bytes :=
  ifr ← write_at 0 (take 15 (bytes_of name)) (zeros 40);
  write_at 16 (le 2 (Z.lor 2 4096)) ifr.

Definition create_tap (name : string) : M daemon unit :=
  o ← sys OpenTun;
  lift (with_ctx "open /dev/net/tun" (io_res o));;
  ifr ← lift (tap_ifr name);
  i ← sys (TunSetIff ifr);
  lift (with_ctx "TUNSETIFF" (io_res i));;
  p ← sys TunSetPersist;
  lift (with_ctx "TUNSETPERSIST" (io_res p)).

(** ** Phase 1 and phase 3 *)

Fixpoint probe_links (ls : list link) : M sock (option (string * string)) :=
  match ls with
  | [] => mret None
  | (idx, name, mac) :: rest =>
      if String.eqb name "lo" || String.eqb name "" then probe_links rest
      else
        o ← get_ipv4 idx;
        match o with
        | Some cidr => mret (Some (cidr, mac))
        | None => probe_links rest
        end
  end.

Definition probe_veth : M sock (option (string * string)) :=
  ls ← dump_links; probe_links ls.

Definition probe_pod : M daemon PodNetInfo :=
  m_ctx "netlink" (nl nl_open);;
  veth ← m_ctx "find veth" (retry 20 100 (nl probe_veth));
  g ← attempt (nl get_default_gw);
  let gw := match g with
            | inl (Some g) => g
            | _ => default "" (infer_gateway veth.1)
            end in
  mret (mkPodNetInfo veth.1 gw veth.2).

Definition prepare_tap (netns_path tap_name : string) : M daemon PodNetInfo :=
  info ← in_netns netns_path probe_pod;
  m_ctx "netlink" (nl nl_open);;
  ignore (nl (del_link tap_name));;
  m_ctx "create TAP" (create_tap tap_name);;
  mret info.

(** The wiring inside the pod's namespace. *)
Definition wire_tap (tap_name : string) : M daemon unit :=
  m_ctx "netlink" (nl nl_open);;
  tap_idx ← m_ctx "TAP index" (nl (get_link_index tap_name));
  m_ctx "TAP up" (nl (set_link_up tap_idx));;
  v ← m_ctx "find veth" (retry 20 100 (nl (find_veth tap_name)));
  let '(_, veth_idx, _, _) := v in
  m_ctx "ingress veth" (nl (add_ingress_qdisc veth_idx));;
  m_ctx "redir veth→tap" (nl (add_redirect_filter veth_idx tap_idx));;
  m_ctx "ingress tap" (nl (add_ingress_qdisc tap_idx));;
  m_ctx "redir tap→veth" (nl (add_redirect_filter tap_idx veth_idx));;
  ignore (nl (flush_addrs veth_idx)).

Definition activate_tap (netns_path tap_name : string) : M daemon unit :=
  m_ctx "netlink" (nl nl_open);;
  tap_idx ← m_ctx "TAP index" (nl (get_link_index tap_name));
  ns_fd ← open_ns netns_path;
  m_ctx "move TAP to pod netns" (nl (set_link_netns_fd tap_idx ns_fd));;
  in_netns netns_path (wire_tap tap_name).

(** ** The worker thread comes back to its namespace *)

(** [m], run in namespace [ns], ends in [ns], unless it never ends. *)
Definition back_in (ns : string) {A} (m : M daemon A) : Prop :=
  forall d, d_ns d = ns -> (m d).1 <> Hang -> d_ns (m d).2 = ns.

Lemma back_keep ns {A} (m : M daemon A) : (forall d, d_ns (m d).2 = d_ns d) -> back_in ns m.
Proof. intros Hm d Hd _. by rewrite Hm. Qed.

Lemma back_bind ns {A B} (m : M daemon A) (f : A -> M daemon B) :
  back_in ns m -> (forall a, back_in ns (f a)) -> back_in ns (m ≫= f).
Proof.
  intros Hm Hf d Hd. unfold mbind, M_bind. specialize (Hm d Hd).
  destruct (m d) as [r d']. destruct r; cbn in *; intros; [apply Hf|..]; auto.
Qed.

Lemma back_attempt ns {A} (m : M daemon A) : back_in ns m -> back_in ns (attempt m).
Proof. intros Hm d Hd. specialize (Hm d Hd). unfold attempt. destruct (m d) as [r d']. destruct r; cbn in *; auto. Qed.
Lemma back_ctx ns {A} c (m : M daemon A) : back_in ns m -> back_in ns (m_ctx c m).
Proof. intros Hm d Hd. specialize (Hm d Hd). unfold m_ctx. destruct (m d) as [r d']. destruct r; cbn in *; auto. Qed.
Lemma back_ignore ns {A} (m : M daemon A) : back_in ns m -> back_in ns (ignore m).
Proof. intros Hm. apply back_bind; [by apply back_attempt|]. intros _. by apply back_keep. Qed.
Lemma back_nl ns {A} (m : M sock A) : back_in ns (nl m).
Proof. apply back_keep. intros d. unfold nl. by destruct (m (d_sock d)). Qed.
Lemma back_sys ns c : back_in ns (sys c).
Proof. by apply back_keep. Qed.
Lemma back_ret ns {A} (a : A) : back_in ns (mret a).
Proof. by apply back_keep. Qed.
Lemma back_lift ns {A} (r : result A) : back_in ns (lift r).
Proof. by apply back_keep. Qed.
Lemma back_fail ns {A} e : back_in ns (fail (A := A) e).
Proof. by apply back_keep. Qed.
Lemma back_gets ns {A} (f : daemon -> A) : back_in ns (gets f).
Proof. by apply back_keep. Qed.

Lemma back_retry ns {A} n max ms (f : M daemon (option A)) : back_in ns f -> back_in ns (retry_go n max ms f).
Proof.
  intros Hf. induction n as [|n IH]; cbn [retry_go]; [apply back_fail|].
  apply back_bind; [done|]. intros [v|]; [apply back_ret|]. apply back_bind; [apply (back_sys _ (Sleep ms))|done].
Qed.

#[local] Ltac back_solve := repeat first
  [assumption
  |lazymatch goal with
   | |- back_in _ (retry_go _ _ _ _) => apply back_retry
   | |- back_in _ (nl _) => apply back_nl
   | |- back_in _ (attempt _) => apply back_attempt
   | |- back_in _ (m_ctx _ _) => apply back_ctx
   | |- back_in _ (ignore _) => apply back_ignore
   | |- back_in _ (sys ?c) => apply (back_sys _ c)
   | |- back_in _ (mret _) => apply back_ret
   | |- back_in _ (lift _) => apply back_lift
   | |- back_in _ (fail _) => apply back_fail
   | |- back_in _ (gets _) => apply back_gets
   | |- back_in _ (_ ≫= _) => apply back_bind; [|intros ?]
   end
  |case_match|progress intros].

Lemma back_wait_netns ns n p : back_in ns (wait_netns n p).
Proof. induction n; cbn [wait_netns]; unfold exists_path; back_solve. Qed.

Lemma back_probe ns : back_in ns probe_pod.
Proof. unfold probe_pod, retry. back_solve. Qed.

Lemma back_wire ns tap : back_in ns (wire_tap tap).
Proof. unfold wire_tap, retry. back_solve. Qed.

Lemma back_open_ns ns p : back_in ns (open_ns p).
Proof. unfold open_ns. back_solve. Qed.

(** The drop of the guard lands in [orig] if the kernel lets it. *)
Lemma guarded_back orig {A} (f : M daemon A) d :
  (forall h, env h (SetNs orig) = inr tt) -> (guarded orig f d).1 <> Hang -> d_ns (guarded orig f d).2 = orig.
Proof.
  intros Hset. unfold guarded. destruct (f d) as [r d'].
  assert (Hb : d_ns (ignore (setns orig) d').2 = orig).
  { unfold ignore, attempt, mbind, M_bind, setns. rewrite sys_run. cbn. by rewrite Hset. }
  by destruct r.
Qed.

Lemma back_gets_ns ns {B} (f : string -> M daemon B) : back_in ns (f ns) -> back_in ns (gets d_ns ≫= f).
Proof. intros Hf d Hd. unfold mbind, M_bind, gets. rewrite Hd. by apply Hf. Qed.

Lemma back_setns_guarded ns {A} c path (f : M daemon A) :
  (forall h, env h (SetNs ns) = inr tt) -> back_in ns (m_ctx c (setns path);; guarded ns f).
Proof.
  intros Hset d Hd. unfold mbind, M_bind, m_ctx, setns. rewrite sys_run.
  destruct (env (trace d) (SetNs path)) as [e|u]; [done|]. by apply guarded_back.
Qed.

Lemma back_in_netns ns {A} path (f : M daemon A) :
  (forall h, env h (SetNs ns) = inr tt) -> back_in ns (in_netns path f).
Proof.
  intros Hset. unfold in_netns. apply back_bind; [apply back_wait_netns|intros _]. apply back_gets_ns.
  apply back_bind; [apply back_open_ns|intros _]. apply back_bind; [apply back_open_ns|intros _].
  by apply back_setns_guarded.
Qed.

(** C34: both phases of the TAP set-up, which switch the worker thread into the
    pod's namespace, leave it in the namespace it came from, whether they succeed,
    fail half-way or panic (if the kernel lets the thread return). *)
Theorem tap_setup_restores_namespace netns_path tap d :
  (forall h, env h (SetNs (d_ns d)) = inr tt) ->
  ((prepare_tap netns_path tap d).1 <> Hang -> d_ns (prepare_tap netns_path tap d).2 = d_ns d) /\
  ((activate_tap netns_path tap d).1 <> Hang -> d_ns (activate_tap netns_path tap d).2 = d_ns d).
Proof.
  intros Hset.
  assert (Hp : back_in (d_ns d) (prepare_tap netns_path tap)).
  { unfold prepare_tap, create_tap. apply back_bind; [by apply back_in_netns|intros ?]. back_solve. }
  assert (Ha : back_in (d_ns d) (activate_tap netns_path tap)).
  { unfold activate_tap. back_solve; [apply back_open_ns|by apply back_in_netns]. }
  split; [by apply Hp|by apply Ha].
Qed.
End DaemonNet.

(** ** Traffic is redirected both ways *)

Section Redirects.
Context `{Env, Anyhow}.

#[local] Opaque zeros.

(** Netlink operations only add to what was sent. *)
Definition sends {A} (m : M sock A) : Prop := forall s, sk_sent s `prefix_of` sk_sent (m s).2.

Lemma sends_same {A} (m : M sock A) : (forall s, sk_sent (m s).2 = sk_sent s) -> sends m.
Proof. intros Hm s. by rewrite Hm. Qed.
Lemma sends_bind {A B} (m : M sock A) (f : A -> M sock B) : sends m -> (forall a, sends (f a)) -> sends (m ≫= f).
Proof.
  intros Hm Hf s. unfold mbind, M_bind. specialize (Hm s). destruct (m s) as [r s'].
  destruct r; try done. etrans; [exact Hm|apply Hf].
Qed.
Lemma sends_attempt {A} (m : M sock A) : sends m -> sends (attempt m).
Proof. intros Hm s. specialize (Hm s). unfold attempt. destruct (m s) as [r s']. by destruct r. Qed.
Lemma sends_ret {A} (a : A) : sends (mret a).
Proof. by apply sends_same. Qed.
Lemma sends_lift {A} (r : result A) : sends (lift r).
Proof. by apply sends_same. Qed.
Lemma sends_fail {A} e : sends (fail (A := A) e).
Proof. by apply sends_same. Qed.
Lemma sends_gets {A} (f : sock -> A) : sends (gets f).
Proof. by apply sends_same. Qed.
Lemma sends_seq : sends seq.
Proof. by apply sends_same. Qed.
Lemma sends_recv b : sends (recv_buf b).
Proof. apply sends_same. intros s. unfold recv_buf. by repeat case_match. Qed.
Lemma sends_send b : sends (send b).
Proof. intros s. unfold send. repeat case_match; cbn; try done; by apply prefix_app_r. Qed.

#[local] Ltac sends_solve := repeat first
  [assumption
  |lazymatch goal with
   | |- sends (attempt _) => apply sends_attempt
   | |- sends (mret _) => apply sends_ret
   | |- sends (lift _) => apply sends_lift
   | |- sends (fail _) => apply sends_fail
   | |- sends (gets _) => apply sends_gets
   | |- sends seq => apply sends_seq
   | |- sends (recv_buf _) => apply sends_recv
   | |- sends (send _) => apply sends_send
   | |- sends (_ ≫= _) => apply sends_bind; [|intros ?]
   end
  |case_match|progress intros].

Lemma sends_request b : sends (request b).
Proof. unfold request. sends_solve. Qed.
Lemma sends_with_seq f : sends (with_seq f).
Proof. unfold with_seq. sends_solve. Qed.
Lemma sends_dump b : sends (dump b).
Proof.
  unfold dump. apply sends_bind; [apply sends_send|intros _]. apply sends_bind; [apply sends_gets|intros k].
  generalize (zeros (Z.to_nat 32768)) ([] : list bytes).
  induction k as [|k IH]; intros r out; cbn [dump_recv]; sends_solve. apply IH.
Qed.
Lemma sends_flush_addrs i : sends (flush_addrs i).
Proof.
  unfold flush_addrs. pose proof sends_with_seq. pose proof sends_dump. pose proof sends_request.
  sends_solve; try apply sends_with_seq; try apply sends_dump.
  match goal with |- sends (flush_addrs_in _ ?l) => induction l; cbn [flush_addrs_in]; sends_solve; auto end.
Qed.
Lemma sends_ingress i : sends (add_ingress_qdisc i).
Proof.
  unfold add_ingress_qdisc. sends_solve; try apply sends_with_seq. apply sends_request.
Qed.
Lemma sends_redirect a b : sends (add_redirect_filter a b).
Proof. unfold add_redirect_filter. sends_solve; [apply sends_with_seq|apply sends_request]. Qed.

(** A redirect that was accepted was sent. *)
Lemma add_redirect_sent a b s u s' : add_redirect_filter a b s = (Ok u, s') ->
  exists q m, add_redirect_filter_msg a b q = Ok m /\ m ∈ sk_sent s'.
Proof.
  intros Hr. destruct (seq_request_acked (add_redirect_filter_msg a b) s u s' Hr) as (m & Em & Es). exists (sk_seq s), m. split; [exact Em|].
  rewrite Es. apply elem_of_app. right. by left.
Qed.

Lemma nl_Ok {A} (m : M sock A) d a d' : nl m d = (Ok a, d') -> m (d_sock d) = (Ok a, d_sock d') /\ d_sock d' = (m (d_sock d)).2.
Proof. unfold nl. destruct (m (d_sock d)) as [r s]. by intros [= -> <-]. Qed.

Lemma ctx_nl_Ok {A} c (m : M sock A) d a d' : m_ctx c (nl m) d = (Ok a, d') -> m (d_sock d) = (Ok a, d_sock d').
Proof.
  unfold m_ctx. destruct (nl m d) as [r d1] eqn:E. destruct r; try done. intros [= -> ->]. by apply nl_Ok in E as [E _].
Qed.

Lemma sends_run {A} (m : M sock A) s a s' : sends m -> m s = (Ok a, s') -> sk_sent s `prefix_of` sk_sent s'.
Proof. intros Hm E. specialize (Hm s). by rewrite E in Hm. Qed.

Lemma guarded_Ok {A} orig (f : M daemon A) d a d' : guarded orig f d = (Ok a, d') ->
  exists d1, f d = (Ok a, d1) /\ d_sock d' = d_sock d1.
Proof.
  unfold guarded. destruct (f d) as [r d1]. destruct r; try done. intros [= -> <-]. exists d1. split; [done|].
  unfold ignore, attempt, mbind, M_bind, setns. rewrite sys_run. by destruct (env (trace d1) (SetNs orig)).
Qed.

Lemma attempt_nl_sends {A} (m : M sock A) d r d' : sends m -> attempt (nl m) d = (Ok r, d') ->
  sk_sent (d_sock d) `prefix_of` sk_sent (d_sock d').
Proof.
  intros Hm. specialize (Hm (d_sock d)). unfold attempt, nl. destruct (m (d_sock d)) as [x s].
  destruct x; intros [= _ <-]; exact Hm.
Qed.

Lemma wire_tap_redirects tap d d' : wire_tap tap d = (Ok tt, d') ->
  exists veth tapi q1 q2 m1 m2,
    add_redirect_filter_msg veth tapi q1 = Ok m1 /\ m1 ∈ sk_sent (d_sock d') /\
    add_redirect_filter_msg tapi veth q2 = Ok m2 /\ m2 ∈ sk_sent (d_sock d').
Proof.
  unfold wire_tap. intros Hr.
  do 4 (apply M_bind_Ok in Hr as (? & ? & _ & Hr)).
  match type of Hr with (match ?v with _ => _ end) _ = _ => destruct v as [ [ [name veth] cidr] mac] end.
  apply M_bind_Ok in Hr as (? & ? & _ & Hr).
  apply M_bind_Ok in Hr as (? & ? & H1 & Hr). apply ctx_nl_Ok, add_redirect_sent in H1 as (q1 & m1 & E1 & I1).
  apply M_bind_Ok in Hr as (? & ? & H2 & Hr). apply ctx_nl_Ok, (sends_run _ _ _ _ (sends_ingress _)) in H2.
  apply M_bind_Ok in Hr as (? & ? & H3 & Hr). apply ctx_nl_Ok in H3.
  pose proof (sends_run _ _ _ _ (sends_redirect _ _) H3) as H4. apply add_redirect_sent in H3 as (q2 & m2 & E2 & I2).
  unfold ignore in Hr. apply M_bind_Ok in Hr as (? & ? & H5 & Hr). injection Hr as <-.
  apply (attempt_nl_sends _ _ _ _ (sends_flush_addrs veth)) in H5 as H6.
  exists veth. do 5 eexists. split; [exact E1|]. split; [|split; [exact E2|] ].
  - eapply elem_of_prefix; [exact I1|]. etrans; [exact H2|]. etrans; [exact H4|exact H6].
  - eapply elem_of_prefix; [exact I2|exact H6].
Qed.

End Redirects.

(** ** Witnesses *)

Definition no_netns_env : Env := calm_env (fun _ => None) (fun _ => false).
Definition host_daemon : daemon := set_ns "host" (pool_new sample_sock0).

Lemma tap_setup_restores_namespace_witness :
  d_ns (@prepare_tap no_netns_env "/run/netns/p" "tap_x" host_daemon).2 = "host".
Proof.
  destruct (@tap_setup_restores_namespace no_netns_env plain_anyhow "/run/netns/p" "tap_x" host_daemon
    ltac:(done)) as [Hp _].
  apply Hp. vm_compute. discriminate.
Defined.

(** A kernel for one pod: the TAP is interface 9, the pod's eth0 is 7 and has
    an address. *)
Definition k_ack : Z + bytes := inr (err_reply 0 0 (zeros 16)).
Definition k_link (i : Z) (n : string) : Z + bytes :=
  inr (link_msg (mkLink i n [102; 222; 8; 25; 181; 88] (zeros 4, zeros 8))).
Definition k_addr : bytes := nlmsg 20 2 0 ([2; 24; 0; 0] ++ le 4 7 ++ nla 1 [10; 0; 0; 5]).
Definition k_dump (m : bytes) : Z + bytes := inr (pad4 m ++ done_msg 0 0 []).
Definition pod_sock : sock := mkSock 1 [] [] []
  [k_link 9 "tap_x"; k_ack; k_link 9 "tap_x"; k_ack;
   k_dump (link_msg (mkLink 7 "eth0" [102; 222; 8; 25; 181; 88] (zeros 4, zeros 8)));
   k_dump k_addr; k_ack; k_ack; k_ack; k_ack; inr (done_msg 0 0 [])].

