(* ===== verification/Api.v ===== *)
(** * The daemon's API server ([crates/daemon/src/api.rs])

    One JSON object per line in, one per line out. Handlers are modelled whole;
    the work they hand to [tokio::spawn] is recorded in [d_tasks] and run by
    [run_task]. *)

From S2P Require Import Prelude RustStr NetAddr Bytes Proto Sys Json Netlink NetlinkOps Lifecycle Pool Shadow DaemonNet.
From Stdlib Require Import Ascii.
From Stdlib Require String.
Local Open Scope Z_scope.

(** The [base64] crate's standard engine, as the crates use it. *)
Class Base64 := {
  b64_encode : string -> string;
  b64_decode : string -> option string;
  b64_decode_encode s : b64_decode (b64_encode s) = Some s;
  b64_encode_empty s : b64_encode s = "" <-> s = "";
}.

Definition plain_base64 : Base64 :=
  Build_Base64 (fun s => s) Some (fun _ => eq_refl) (fun _ => conj (fun E => E) (fun E => E)).

Section Api.
Context `{Env, SerdeJson, Anyhow, Base64} (config : DaemonConfig).

Definition error_json (msg : string) : lit := LObj [("error", LStr msg)].

(** [spawn_blocking(f).await.context(c)?]: a panic of the blocking task comes
    back as a [JoinError]. *)
Definition blocking {A} (c : string) (m : M daemon A) : M daemon A := fun d =>
  match m d with
  | (Panic, d') => (Err (Ctx c (Msg "task panicked")), d')
  | x => x
  end.

(** ** Networking *)

Definition net_json (tap mac : string) : string :=
  to_string (of_lit (LObj [("tap", LStr tap); ("mac", LStr mac)])).

Definition setup_vm_networking (netns vm_id api_socket : string) : M daemon (string * PodNetInfo) :=
  tap_name ← lift (tap_name_of vm_id);
  info ← blocking "prepare_tap panicked" (m_ctx "prepare_tap" (prepare_tap netns tap_name));
  m_ctx "hot-plug TAP"
    (api_request_with_body api_socket "PUT" "/api/v1/vm.add-net" (net_json tap_name (ni_mac info)));;
  blocking "activate_tap panicked" (m_ctx "activate_tap" (activate_tap netns tap_name));;
  mret (tap_name, info).

Definition configure_guest_network (agent ip_cidr gateway : string) : M daemon unit :=
  let '(ip, prefix) := guest_net_params ip_cidr in
  r ← sys (AgentConfigure agent (mkConfigureNetworkRequest ip gateway prefix "eth0" ""));
  lift (with_ctx "configure_network RPC" (lib_res r)).

(** ** Running a container *)

Record RunContainerParams := mkRunContainerParams {
  rp_api_socket : string; rp_vsock_socket : string; rp_vm_id : string; rp_netns : string;
  rp_erofs_path : string; rp_container_id : string; rp_config_json_b64 : string }.

Definition agent_for (vm_id vsock_socket : string) : M daemon string :=
  agents ← gets d_agents;
  match agents !! vm_id with
  | Some a => mret a
  | None =>
      a ← m_ctx "agent connect for container" (connect_agent vsock_socket);
      modify (fun d => set_agents (<[vm_id := a]> (d_agents d)) d);;
      mret a
  end.

Definition decode_config (b64 : string) : string :=
  if String.eqb b64 "" then "{}" else default "{}" (b64_decode b64).

Definition run_request (container_id config_json : string) : CreateContainerRequest :=
  mkCreateContainerRequest container_id "" "" "" "" false [] config_json false 1.

Definition run_container_in_vm (p : RunContainerParams) : M daemon (Z * string) :=
  '(tap_name, net_info) ←
    (if String.eqb (rp_netns p) "" then mret ("", None)
     else '(tap, info) ← m_ctx "networking setup"
            (setup_vm_networking (rp_netns p) (rp_vm_id p) (rp_api_socket p));
          mret (tap, Some info));
  id ← lift (slice_to (rp_container_id p) (Nat.min 12 (String.length (rp_container_id p))));
  let disk_id := "ctr-" +:+ id in
  m_ctx "hot-plug rootfs"
    (api_request_with_body (rp_api_socket p) "PUT" "/api/v1/vm.add-disk"
       (to_string (of_lit (disk_lit (rp_erofs_path p) true disk_id))));;
  agent ← agent_for (rp_vm_id p) (rp_vsock_socket p);
  match net_info with
  | Some info => m_ctx "configure guest network"
      (configure_guest_network agent (ni_ip_cidr info) (ni_gateway info))
  | None => mret tt
  end;;
  r ← sys (AgentRun agent (run_request (rp_container_id p) (decode_config (rp_config_json_b64 p))));
  pid ← lift (with_ctx "RunContainer" (lib_res r));
  mret (pid, tap_name).

(** ** Handlers *)

Definition vm_json (vm_id api_socket vsock_socket : string) (cid ch_pid : Z) (from_snapshot : bool)
    (container_pid : Z) (tap_name : string) : lit :=
  LObj [("vm_id", LStr vm_id); ("api_socket", LStr api_socket); ("vsock_socket", LStr vsock_socket);
        ("cid", LNum cid); ("ch_pid", LNum ch_pid); ("from_snapshot", LBool from_snapshot);
        ("container_pid", LNum container_pid); ("tap_name", LStr tap_name)].

Definition warm_vm_id (image_key : string) (seq : Z) : string :=
  "warm-" +:+ image_key +:+ "-" +:+ pretty seq.

Definition next_warm : M daemon Z := fun d => (Ok (d_warm d), set_warm (wrap 64 (d_warm d + 1)) d).

(** Networking of a warm VM: the TAP's name, or the error to answer with. *)
Definition warm_network (netns vm_id api_socket vsock_socket : string) : M daemon (string + lit) :=
  if String.eqb netns "" then mret (inl "")
  else
    r ← attempt (setup_vm_networking netns vm_id api_socket);
    match r with
    | inl (tap, net_info) =>
        a ← attempt (connect_agent vsock_socket);
        match a with
        | inl agent =>
            modify (fun d => set_agents (<[vm_id := agent]> (d_agents d)) d);;
            ignore (configure_guest_network agent (ni_ip_cidr net_info) (ni_gateway net_info));;
            mret (inl tap)
        | inr e => mret (inr (error_json ("agent connect: " +:+ display_alt e)))
        end
    | inr e => mret (inr (error_json ("networking: " +:+ display_alt e)))
    end.

(** The warm path: [None] when it falls through to the pool. *)
Definition acquire_warm (netns image_key : string) : M daemon (option lit) :=
  seq ← next_warm;
  let vm_id := warm_vm_id image_key seq in
  let dir := path_join (state_dir config) vm_id in
  m ← attempt (create_dir_all dir);
  match m with
  | inr e => mret (Some (error_json ("create state dir: " +:+ display e)))
  | inl _ =>
      cid ← next_cid;
      r ← attempt (restore_from_snapshot config image_key vm_id cid dir);
      match r with
      | inr _ => mret None
      | inl (ch_pid, api_socket, vsock_socket) =>
          n ← warm_network netns vm_id api_socket vsock_socket;
          match n with
          | inr err => mret (Some err)
          | inl tap_name =>
              now ← sys Instant;
              register_active (mkPoolVm vm_id api_socket vsock_socket cid ch_pid now);;
              mret (Some (vm_json vm_id api_socket vsock_socket cid ch_pid true 0 tap_name))
          end
      end
  end.

Definition acquire_pool (netns image_key erofs_path container_id config_b64 : string) : M daemon lit :=
  a ← attempt (acquire config);
  match a with
  | inr e => mret (error_json ("acquire failed: " +:+ display_alt e))
  | inl vm =>
      spawn_task TReplenish;;
      (if negb (String.eqb image_key "") && negb (String.eqb erofs_path "")
       then trigger_shadow image_key erofs_path else mret tt);;
      r ← (if negb (String.eqb erofs_path "") && negb (String.eqb container_id "")
           then attempt (run_container_in_vm (mkRunContainerParams (pv_api vm) (pv_vsock vm) (pv_id vm)
                           netns erofs_path container_id config_b64))
           else mret (inl (0, "")));
      match r with
      | inr e => mret (error_json ("run container: " +:+ display_alt e))
      | inl (container_pid, tap_name) =>
          mret (vm_json (pv_id vm) (pv_api vm) (pv_vsock vm) (pv_cid vm) (pv_pid vm) false container_pid tap_name)
      end
  end.

Definition acquire_sandbox_with (netns image_key erofs_path container_id config_b64 : string) : M daemon lit :=
  warm ← (if String.eqb image_key "" then mret false
          else has_snapshot image_key (if String.eqb erofs_path "" then None else Some erofs_path));
  w ← (if warm : bool then acquire_warm netns image_key else mret None);
  match w with
  | Some resp => mret resp
  | None => acquire_pool netns image_key erofs_path container_id config_b64
  end.

Definition handle_acquire (request : value) : M daemon lit :=
  acquire_sandbox_with (str_field "netns" request "") (str_field "image_key" request "")
    (str_field "erofs_path" request "") (str_field "container_id" request "") (str_field "config_json" request "").

Definition handle_add_container (request : value) : M daemon lit :=
  let vm_id := str_field "vm_id" request "" in
  let erofs_path := str_field "erofs_path" request "" in
  let container_id := str_field "container_id" request "" in
  let config_b64 := str_field "config_json" request "" in
  if String.eqb vm_id "" || String.eqb container_id ""
  then mret (error_json "vm_id and container_id required")
  else
    o ← get_active vm_id;
    match o with
    | None => mret (error_json ("VM " +:+ vm_id +:+ " not found in active set"))
    | Some vm =>
        r ← attempt (run_container_in_vm (mkRunContainerParams (pv_api vm) (pv_vsock vm) vm_id ""
              erofs_path container_id config_b64));
        match r with
        | inl (pid, _) => mret (LObj [("container_pid", LNum pid)])
        | inr e => mret (error_json ("add container: " +:+ display_alt e))
        end
    end.

Definition handle_release (request : value) : M daemon lit :=
  let vm_id := str_field "vm_id" request "" in
  if String.eqb vm_id "" then mret (error_json "vm_id required")
  else
    modify (fun d => set_agents (delete vm_id (d_agents d)) d);;
    r ← attempt (release config vm_id);
    match r with
    | inl _ => mret (LObj [("ok", LBool true)])
    | inr e => mret (error_json ("release failed: " +:+ display_alt e))
    end.

Definition get_agent (vm_id : string) : M daemon (option string) := gets (fun d => d_agents d !! vm_id).

Definition handle_kill_container (request : value) : M daemon lit :=
  let vm_id := str_field "vm_id" request "" in
  let container_id := str_field "container_id" request "" in
  let signal := wrap 32 (default 15 (get "signal" request ≫= as_u64)) in
  o ← get_agent vm_id;
  match o with
  | None => mret (error_json ("no agent for VM " +:+ vm_id))
  | Some agent =>
      r ← sys (AgentKill agent (mkKillContainerRequest container_id signal false));
      match r with
      | inr _ => mret (LObj [("ok", LBool true)])
      | inl e => mret (error_json ("kill_container: " +:+ display e))
      end
  end.

Definition handle_wait_container (request : value) : M daemon lit :=
  let vm_id := str_field "vm_id" request "" in
  let container_id := str_field "container_id" request "" in
  o ← get_agent vm_id;
  match o with
  | None => mret (error_json ("no agent for VM " +:+ vm_id))
  | Some agent =>
      r ← sys (AgentWait agent container_id);
      match r with
      | inr resp => mret (LObj [("exit_status", LNum (wc_exit_status resp)); ("exited_at", LStr (wc_exited_at resp))])
      | inl e => mret (LObj [("exit_status", LNum 137); ("exited_at", LStr "");
                             ("error", LStr ("wait_container: " +:+ display e))])
      end
  end.

Definition handle_delete_container (request : value) : M daemon lit :=
  let vm_id := str_field "vm_id" request "" in
  let container_id := str_field "container_id" request "" in
  o ← get_agent vm_id;
  match o with
  | None => mret (LObj [("ok", LBool true)])
  | Some agent =>
      sys (AgentDelete agent container_id);;
      mret (LObj [("ok", LBool true)])
  end.

Definition handle_status : M daemon lit :=
  ready ← gets (fun d => Z.of_nat (length (d_ready d)));
  active ← gets d_active_count;
  shadows ← active_shadow_count;
  keys ← snapshot_keys;
  mret (LObj [("pool_ready", LNum ready); ("active_vms", LNum active);
              ("shadow_vms_running", LNum shadows); ("snapshot_keys", LArr (map LStr keys))]).

Definition dispatch (request : value) : M daemon lit :=
  let method := str_field "method" request "" in
  if String.eqb method "AcquireSandbox" then handle_acquire request
  else if String.eqb method "ReleaseSandbox" then handle_release request
  else if String.eqb method "AddContainer" then handle_add_container request
  else if String.eqb method "KillContainer" then handle_kill_container request
  else if String.eqb method "WaitContainer" then handle_wait_container request
  else if String.eqb method "DeleteContainer" then handle_delete_container request
  else if String.eqb method "Status" then handle_status
  else mret (error_json ("unknown method: " +:+ method)).

(** The lines a client sends and those it gets back; the error that ends the
    connection early, if one does. *)
Fixpoint handle_connection (lines : list string) : M daemon (list string * option error) :=
  match lines with
  | [] => mret ([], None)
  | line :: rest =>
      match from_str (trim line) with
      | inl e => mret ([], Some e)
      | inr request =>
          response ← dispatch request;
          '(out, e) ← handle_connection rest;
          mret (json_line (of_lit response) :: out, e)
      end
  end.

(** Background tasks. *)
Definition run_task (t : task) : M daemon unit :=
  match t with
  | TReplenish => sys (Sleep 100);; replenish_one config
  | TShadow key erofs => shadow_task config key erofs
  end.
End Api.

(** ** Frames: what leaves the pool alone *)

Definition pool_same (d d' : daemon) : Prop :=
  d_ready d' = d_ready d /\ d_active d' = d_active d /\ d_active_count d' = d_active_count d /\
  d_next_cid d' = d_next_cid d /\ d_warm d' = d_warm d.

#[export] Instance pool_same_refl : Reflexive pool_same.
Proof. by intros d. Qed.
#[export] Instance pool_same_trans : Transitive pool_same.
Proof. intros d1 d2 d3 (?&?&?&?&?) (?&?&?&?&?). repeat split; congruence. Qed.

Abbreviation neutral := (moves pool_same).

(** A relation between states that only what lies outside the tables has to do with:
    the trace, the netlink socket and the thread's namespace may change. *)
Class Frame (R : daemon -> daemon -> Prop) := {
  frame_pre :: PreOrder R;
  frame_trace d t : R d (set_d_trace t d);
  frame_sock d s : R d (set_sock s d);
  frame_ns d n : R d (set_ns n d);
}.

#[export] Instance pool_same_frame : Frame pool_same.
Proof. split; [split; apply _|by repeat split..]. Qed.

Section Frames.
Context `{Env} (R : daemon -> daemon -> Prop) `{!Frame R}.

Lemma outside_io {A} (m : M daemon A) : io_only m -> moves R m.
Proof. apply moves_io. intros t w. apply frame_trace. Qed.
Lemma frame_blocking {A} c (m : M daemon A) : moves R m -> moves R (blocking c m).
Proof. intros Hm d. specialize (Hm d). unfold blocking. destruct (m d) as [r d']. by destruct r. Qed.
Lemma frame_nl {A} (m : M sock A) : moves R (nl m).
Proof. intros d. unfold nl. destruct (m (d_sock d)). apply frame_sock. Qed.
Lemma frame_setns n : moves R (setns n).
Proof.
  intros d. unfold setns. rewrite sys_run. pose proof (frame_trace d (d_trace d ++ [SetNs n])) as Ht.
  destruct (env (trace d) (SetNs n)); [exact Ht|]. etrans; [exact Ht|apply frame_ns].
Qed.
Lemma frame_guarded {A} o (f : M daemon A) : moves R f -> moves R (guarded o f).
Proof.
  intros Hf d. specialize (Hf d). unfold guarded. destruct (f d) as [r d'].
  pose proof (moves_ignore R _ (frame_setns o) d') as Hs. cbn in Hf.
  destruct r; try done; etrans; done.
Qed.
Lemma frame_retry {A} n max ms (f : M daemon (option A)) : moves R f -> moves R (retry_go n max ms f).
Proof.
  intros Hf. induction n as [|n IH]; cbn [retry_go]; [by apply moves_fail, _|].
  apply moves_bind; [apply _|done|]. intros [v|]; [by apply moves_ret, _|].
  apply moves_bind; [apply _|apply outside_io, (io_only_sys (Sleep ms))|done].
Qed.
End Frames.

Ltac neutral_solve := repeat first
  [assumption
  |lazymatch goal with
   | |- moves _ (retry_go _ _ _ _) => apply frame_retry; try apply _
   | |- moves _ (nl _) => apply frame_nl; apply _
   | |- moves _ (attempt _) => apply moves_attempt; try apply _
   | |- moves _ (m_ctx _ _) => apply moves_ctx; try apply _
   | |- moves _ (ignore _) => apply moves_ignore; try apply _
   | |- moves _ (blocking _ _) => apply frame_blocking; try apply _
   | |- moves _ (guarded _ _) => apply frame_guarded; try apply _
   | |- moves _ (setns _) => apply frame_setns; apply _
   | |- moves _ (sys ?c) => apply outside_io; [apply _|apply (io_only_sys c)]
   | |- moves _ (mret _) => apply moves_ret; apply _
   | |- moves _ (lift _) => apply moves_lift; apply _
   | |- moves _ (fail _) => apply moves_fail; apply _
   | |- moves _ (gets _) => apply moves_gets; apply _
   | |- moves _ (modify _) => apply moves_modify; intros; by repeat split
   | |- moves _ (_ ≫= _) => apply moves_bind; [apply _| |intros ?]
   | |- moves _ (match _ with _ => _ end) => case_match
   | |- moves _ (let _ := _ in _) => cbv zeta
   end
  |apply outside_io; [apply _|]; solve [io_solve]|case_match|progress intros].

Section FrameOps.
Context `{Env, Anyhow} (R : daemon -> daemon -> Prop) `{!Frame R}.

Lemma frame_wait_netns k p : moves R (wait_netns k p).
Proof. apply outside_io; [apply _|]. induction k; cbn [wait_netns]; unfold exists_path; io_solve. Qed.
#[local] Hint Resolve frame_wait_netns : core.
Lemma frame_in_netns {A} p (f : M daemon A) : moves R f -> moves R (in_netns p f).
Proof. intros Hf. unfold in_netns, open_ns. apply moves_bind; [apply _|done|intros ?]. neutral_solve. Qed.
Lemma frame_prepare_tap n t : moves R (prepare_tap n t).
Proof.
  unfold prepare_tap. apply moves_bind; [apply _| |intros ?].
  - apply frame_in_netns. unfold probe_pod, retry. neutral_solve.
  - unfold create_tap. neutral_solve.
Qed.
Lemma frame_activate_tap n t : moves R (activate_tap n t).
Proof.
  unfold activate_tap. do 4 (apply moves_bind; [apply _|unfold open_ns; neutral_solve|intros ?]).
  apply frame_in_netns. unfold wire_tap, retry. neutral_solve.
Qed.
End FrameOps.

Lemma neutral_ret {A} (a : A) : neutral (mret a).
Proof. apply moves_ret; apply _. Qed.

Section NeutralOps.
Context `{Env, SerdeJson, Anyhow, Base64} (config : DaemonConfig).

Lemma neutral_setup n v a : neutral (setup_vm_networking n v a).
Proof.
  pose proof (frame_prepare_tap pool_same). pose proof (frame_activate_tap pool_same).
  unfold setup_vm_networking, api_request_with_body. neutral_solve; auto.
Qed.
Lemma neutral_configure a i g : neutral (configure_guest_network a i g).
Proof. unfold configure_guest_network. neutral_solve. Qed.
Lemma neutral_agent_for v s : neutral (agent_for v s).
Proof. unfold agent_for. neutral_solve. Qed.
Lemma neutral_run_container p : neutral (run_container_in_vm p).
Proof.
  pose proof neutral_setup. pose proof neutral_configure. pose proof neutral_agent_for.
  unfold run_container_in_vm, api_request_with_body. neutral_solve; auto.
Qed.
Lemma neutral_has_snapshot k e : neutral (has_snapshot k e).
Proof. unfold has_snapshot. neutral_solve. Qed.
Lemma neutral_get_snapshot_dir k : neutral (get_snapshot_dir k).
Proof. unfold get_snapshot_dir. neutral_solve. Qed.
Lemma neutral_restore_from k v c d : neutral (restore_from_snapshot config k v c d).
Proof.
  pose proof neutral_get_snapshot_dir. unfold restore_from_snapshot, restore_vm, resume_vm. neutral_solve; auto.
Qed.
Lemma neutral_trigger k e : neutral (trigger_shadow k e).
Proof. pose proof neutral_has_snapshot. unfold trigger_shadow, spawn_task. neutral_solve; auto. Qed.
Lemma neutral_cache k d m : neutral (cache_snapshot config k d m).
Proof.
  intros x. destruct (cache_snapshot_run config k d m x) as (mm & t & -> & _). by repeat split.
Qed.
Lemma neutral_shadow_snapshot v k e : neutral (shadow_snapshot config v k e).
Proof. apply outside_io; [apply _|apply io_only_shadow_snapshot]. Qed.
Lemma neutral_warm_network n v a s : neutral (warm_network n v a s).
Proof.
  pose proof neutral_setup. pose proof neutral_configure. unfold warm_network. neutral_solve; auto.
Qed.
Lemma neutral_add_container r : neutral (handle_add_container r).
Proof. pose proof neutral_run_container. unfold handle_add_container, get_active. neutral_solve; auto. Qed.
Lemma neutral_kill r : neutral (handle_kill_container r).
Proof. unfold handle_kill_container, get_agent. neutral_solve. Qed.
Lemma neutral_wait r : neutral (handle_wait_container r).
Proof. unfold handle_wait_container, get_agent. neutral_solve. Qed.
Lemma neutral_delete r : neutral (handle_delete_container r).
Proof. unfold handle_delete_container, get_agent. neutral_solve. Qed.
Lemma neutral_status : neutral handle_status.
Proof. unfold handle_status, active_shadow_count, snapshot_keys. neutral_solve. Qed.
End NeutralOps.

(** ** The daemon's invariant *)

Section Invariant.
Context `{Env, SerdeJson, Anyhow, Base64} (config : DaemonConfig).

(** The pool's invariant, and every warm name in use carries a number the
    counter has passed. *)
Record daemon_wf (d : daemon) : Prop := {
  dw_pool : pool_wf d;
  dw_warm : 0 <= d_warm d < 2 ^ 64;
  dw_names k vm : d_active d !! k = Some vm -> warm_name k = true ->
    exists key n, k = warm_vm_id key n /\ 0 <= n < d_warm d;
}.

Lemma wf_same d d' : pool_same d d' -> daemon_wf d -> daemon_wf d'.
Proof.
  intros (E1 & E2 & E3 & E4 & E5) [ [] ? ?].
  constructor; [constructor|..]; rewrite ?E1, ?E2, ?E3, ?E4, ?E5; eauto.
Qed.

(** [m] keeps the invariant and moves either counter by at most [k]. *)
Definition keeps (k : Z) {A} (m : M daemon A) : Prop :=
  forall d, daemon_wf d -> d_next_cid d + k < 2 ^ 64 -> d_warm d + k < 2 ^ 64 ->
    daemon_wf (m d).2 /\ d_next_cid (m d).2 <= d_next_cid d + k /\ d_warm (m d).2 <= d_warm d + k.

Lemma keeps_neutral {A} (m : M daemon A) : neutral m -> keeps 0 m.
Proof.
  intros Hm d Hd _ _. pose proof (Hm d) as Hs. split; [by eapply wf_same|].
  destruct Hs as (_ & _ & _ & -> & ->). lia.
Qed.

Lemma keeps_le k k' {A} (m : M daemon A) : keeps k m -> k <= k' -> keeps k' m.
Proof. intros Hm Hk d Hd H1' H2'. destruct (Hm d Hd) as (? & ? & ?); [lia..|]. split; [done|lia]. Qed.

Lemma keeps_bind j k {A B} (m : M daemon A) (f : A -> M daemon B) :
  0 <= j -> 0 <= k -> keeps j m -> (forall a, keeps k (f a)) -> keeps (j + k) (m ≫= f).
Proof.
  intros Hj Hk Hm Hf d Hd Hn Hw. unfold mbind, M_bind. specialize (Hm d Hd ltac:(lia) ltac:(lia)).
  destruct (m d) as [r d']. cbn in Hm. destruct Hm as (Hd' & ? & ?).
  destruct r as [a|e| |]; [|split; [done|cbn; lia]..].
  destruct (Hf a d' Hd') as (? & ? & ?); [lia..|]. split; [done|lia].
Qed.

Lemma keeps_attempt k {A} (m : M daemon A) : keeps k m -> keeps k (attempt m).
Proof.
  intros Hm d Hd Hn Hw. specialize (Hm d Hd Hn Hw). unfold attempt. destruct (m d) as [r d']. by destruct r.
Qed.
Lemma keeps_ctx k {A} c (m : M daemon A) : keeps k m -> keeps k (m_ctx c m).
Proof. intros Hm d Hd Hn Hw. specialize (Hm d Hd Hn Hw). unfold m_ctx. by destruct (m d). Qed.

(** The warm names are part of the active map, which these only shrink or
    extend by pool names. *)
Lemma names_mono d (a : gmap string PoolVm) n :
  daemon_wf d -> (forall k vm, a !! k = Some vm -> warm_name k = true -> d_active d !! k = Some vm) ->
  d_warm d <= n -> forall k vm, a !! k = Some vm -> warm_name k = true ->
  exists key i, k = warm_vm_id key i /\ 0 <= i < n.
Proof.
  intros Hd Ha Hn k vm Hk Hw. destruct (dw_names _ Hd k vm) as (key & i & -> & Hi); [by apply Ha|done|].
  exists key, i. split; [done|lia].
Qed.

Lemma keeps_acquire : keeps 1 (acquire config).
Proof.
  intros d Hd Hn Hw. destruct (wf_acquire config d (dw_pool _ Hd)) as [Hp Hc]; [lia|].
  assert (Hwarm : d_warm (acquire config d).2 = d_warm d /\
    forall k vm, d_active (acquire config d).2 !! k = Some vm -> warm_name k = true -> d_active d !! k = Some vm).
  { pose proof (acquire_run config d) as Hr. destruct (vec_pop (d_ready d)) as [ [vm rest]|] eqn:Ep.
    - rewrite Hr. cbn. split; [done|]. intros k v [ [<- <-]|[_ Hk] ]%lookup_insert_Some; [|done].
      rewrite (wf_ready_name _ (dw_pool _ Hd) vm), pool_not_warm; [done|].
      rewrite (vec_pop_Some _ _ _ Ep). apply elem_of_app. right. by left.
    - destruct Hr as (t & r & E & Hr). cbv zeta in Hr. destruct r as [vm|e| |]; try done.
      + destruct Hr as [Hm ->]. cbn. split; [done|]. intros k v [ [<- <-]|[_ Hk] ]%lookup_insert_Some; [|done].
        destruct Hm as (-> & _). by rewrite pool_not_warm.
      + rewrite Hr. done. }
  destruct Hwarm as [Ew Hnames]. split; [|rewrite Ew; lia].
  constructor; [done|rewrite Ew; apply Hd|]. eapply names_mono; [done|done|lia].
Qed.

Lemma keeps_release v : keeps 0 (release config v).
Proof.
  intros d Hd _ _. destruct (wf_release config v d (dw_pool _ Hd)) as [Hp Hc].
  destruct (release_run config v d) as [t E]. rewrite E in *. cbn in *. split; [|lia].
  constructor; [done|apply Hd|]. cbn. eapply names_mono; [done| |lia].
  by intros k vm [_ Hk]%lookup_delete_Some.
Qed.

Lemma keeps_replenish : keeps 1 (replenish_one config).
Proof.
  intros d Hd Hn Hw. destruct (wf_replenish config d (dw_pool _ Hd)) as [Hp Hc]; [lia|].
  assert (Ew : d_warm (replenish_one config d).2 = d_warm d /\ d_active (replenish_one config d).2 = d_active d).
  { by destruct (replenish_run config d) as [ [-> _]|[_ [t [->|(vm & Hm & ->)] ] ] ]. }
  destruct Ew as [Ew Ea]. split; [|rewrite Ew; lia].
  constructor; [done|rewrite Ew; apply Hd|]. rewrite Ea, Ew. apply Hd.
Qed.

(** ** The warm path *)

Lemma str_elem_mid (c : ascii) a t : str_elem c (a +:+ String c t) = true.
Proof.
  induction a as [|x a IH].
  - change ("" +:+ String c t) with (String c t). cbn [str_elem]. by rewrite Ascii.eqb_refl.
  - rewrite sapp_cons. cbn [str_elem]. by rewrite IH, orb_true_r.
Qed.

Lemma app_sep_last (c : ascii) a a' p p' :
  str_elem c p = false -> str_elem c p' = false ->
  a +:+ String c p = a' +:+ String c p' -> p = p'.
Proof.
  intros Hp Hp'. revert a'. induction a as [|x a IH]; intros a' E; destruct a' as [|y a'].
  - by injection E.
  - rewrite sapp_cons in E. injection E as _ E. change ("" +:+ p) with p in E. subst p.
    by rewrite str_elem_mid in Hp.
  - rewrite sapp_cons in E. injection E as _ E. change ("" +:+ p') with p' in E. subst p'.
    by rewrite str_elem_mid in Hp'.
  - rewrite !sapp_cons in E. injection E as _ E. by apply (IH a').
Qed.

Lemma warm_vm_id_inj k k' n n' : 0 <= n -> 0 <= n' -> warm_vm_id k n = warm_vm_id k' n' -> n = n'.
Proof.
  unfold warm_vm_id. intros Hn Hn' E. apply sapp_inv_head in E.
  apply (inj pretty). apply (app_sep_last "-" k k'); [by apply pretty_no_char..|done].
Qed.

Lemma warm_vm_id_warm k n : warm_name (warm_vm_id k n) = true.
Proof. apply starts_with_spec. by eexists. Qed.

(** Registering the VM of a warm restore, whose name and CID were drawn from
    the counters as they stood in [d]. *)
Lemma wf_register d d' vm key :
  daemon_wf d -> d_ready d' = d_ready d -> d_active d' = d_active d -> d_active_count d' = d_active_count d ->
  d_next_cid d' = d_next_cid d + 1 -> d_warm d' = d_warm d + 1 ->
  d_next_cid d' < 2 ^ 64 -> d_warm d' < 2 ^ 64 ->
  pv_id vm = warm_vm_id key (d_warm d) -> pv_cid vm = d_next_cid d ->
  daemon_wf (register_active vm d').2.
Proof.
  intros Hd Er Ea Ec En Ew Hn Hw Hid Hcid. pose proof (dw_pool _ Hd) as Hp. pose proof (wf_low _ Hp).
  pose proof (dw_warm _ Hd).
  assert (Hp' : pool_wf d').
  { constructor; rewrite ?Er, ?Ea, ?Ec, ?En; try apply Hp.
    - lia.
    - intros v Hv. pose proof (wf_ready_cid _ Hp v Hv). lia.
    - intros k v Hk. pose proof (wf_active_cid _ Hp k v Hk). lia. }
  assert (Hf : fresh_vm d' vm).
  { constructor; rewrite ?Er, ?Ea, ?En, ?Hcid.
    - lia.
    - intros v Hv. pose proof (wf_ready_cid _ Hp v Hv). lia.
    - intros k v Hk. pose proof (wf_active_cid _ Hp k v Hk). lia.
    - right. rewrite Hid. apply warm_vm_id_warm.
    - destruct (d_active d !! pv_id vm) as [v|] eqn:E; [|done]. rewrite Hid in E.
      destruct (dw_names _ Hd _ _ E (warm_vm_id_warm _ _)) as (key' & n & En' & Hlt).
      apply warm_vm_id_inj in En'; lia. }
  constructor.
  - exact (wf_mark d' vm Hp' Hf).
  - cbn. lia.
  - cbn. rewrite Ea. intros k v [ [<- <-]|[_ Hk] ]%lookup_insert_Some Hwn.
    + exists key, (d_warm d). split; [done|lia].
    + destruct (dw_names _ Hd k v Hk Hwn) as (key' & n & -> & Hlt). exists key', n. split; [done|lia].
Qed.

Lemma wf_counters d d' :
  daemon_wf d -> d_ready d' = d_ready d -> d_active d' = d_active d -> d_active_count d' = d_active_count d ->
  d_next_cid d <= d_next_cid d' < 2 ^ 64 -> d_warm d <= d_warm d' < 2 ^ 64 -> daemon_wf d'.
Proof.
  intros Hd Er Ea Ec En Ew. pose proof (dw_pool _ Hd) as Hp. pose proof (wf_low _ Hp).
  pose proof (dw_warm _ Hd). constructor; [|lia|].
  - constructor; rewrite ?Er, ?Ea, ?Ec; try apply Hp.
    + lia.
    + intros v Hv. pose proof (wf_ready_cid _ Hp v Hv). lia.
    + intros k v Hk. pose proof (wf_active_cid _ Hp k v Hk). lia.
  - rewrite Ea. eapply names_mono; [done|done|lia].
Qed.

Lemma keeps_acquire_warm netns key : keeps 1 (acquire_warm config netns key).
Proof.
  intros d Hd Hn Hw. pose proof (dw_pool _ Hd) as Hp. pose proof (wf_low _ Hp). pose proof (dw_warm _ Hd).
  assert (En : wrap 64 (d_next_cid d + 1) = d_next_cid d + 1) by (apply wrap_small; unfold in_range; lia).
  assert (Ew : wrap 64 (d_warm d + 1) = d_warm d + 1) by (apply wrap_small; unfold in_range; lia).
  set (Q := fun d' : daemon => daemon_wf d' /\ d_next_cid d' <= d_next_cid d + 1 /\ d_warm d' <= d_warm d + 1).
  change (Q (acquire_warm config netns key d).2).
  unfold acquire_warm. unfold mbind, M_bind at 1, next_warm. rewrite Ew.
  set (vm_id := warm_vm_id key (d_warm d)). set (dir := path_join (state_dir config) vm_id).
  set (d1 := set_warm (d_warm d + 1) d).
  pose proof (moves_attempt pool_same _ (outside_io pool_same _ (io_only_create_dir_all dir)) d1) as (S1 & S2 & S3 & S4 & S5).
  unfold M_bind at 1. destruct (attempt (create_dir_all dir) d1) as [rm d2] eqn:Em. cbn in S1, S2, S3, S4, S5.
  assert (Hd2 : Q d2).
  { unfold Q. split; [eapply wf_counters; try eassumption; lia|lia]. }
  destruct rm as [m|e| |]; [|exact Hd2..]. destruct m as [u|e]; [|exact Hd2]. clear Hd2.
  unfold M_bind at 1, next_cid. set (d3 := set_next_cid _ d2). rewrite S4. unfold M_bind at 1.
  pose proof (moves_attempt pool_same _ (neutral_restore_from config key vm_id (d_next_cid d) dir) d3) as (T1 & T2 & T3 & T4 & T5).
  destruct (attempt (restore_from_snapshot config key vm_id (d_next_cid d) dir) d3) as [rr d4]. cbn in T1, T2, T3, T4, T5.
  rewrite S4, En in T4.
  assert (Hout : forall d', pool_same d4 d' -> Q d').
  { intros d' (U1 & U2 & U3 & U4 & U5). unfold Q. split; [eapply wf_counters; try exact Hd; try congruence; lia|lia]. }
  destruct rr as [r|e| |]; [|by apply Hout..].
  destruct r as [ [ [ch_pid api] vsock]|e]; [|by apply Hout].
  unfold M_bind at 1.
  pose proof (neutral_warm_network netns vm_id api vsock d4) as Hs.
  destruct (warm_network netns vm_id api vsock d4) as [rn d5]. cbn in Hs.
  destruct rn as [n|e| |]; [|by apply Hout..]. destruct n as [tap|err]; [|by apply Hout].
  unfold M_bind at 1. rewrite sys_run. set (d6 := set_trace _ d5). unfold M_bind.
  destruct Hs as (U1 & U2 & U3 & U4 & U5).
  match goal with |- context [register_active ?v d6] => set (vm := v) end.
  assert (Hreg : daemon_wf (register_active vm d6).2)
    by (eapply (wf_register d d6 vm key); try done; cbn; try congruence; lia).
  unfold register_active, mark_active, modify, Q in *. cbn in *. split; [exact Hreg|lia].
Qed.

Lemma keeps_acquire_pool n i e c b : keeps 1 (acquire_pool config n i e c b).
Proof.
  unfold acquire_pool. apply (keeps_bind 1 0); [lia|lia|apply keeps_attempt, keeps_acquire|].
  intros a. apply keeps_neutral. pose proof neutral_trigger. pose proof neutral_run_container.
  unfold spawn_task. neutral_solve; auto.
Qed.

Lemma keeps_handle_acquire r : keeps 2 (handle_acquire config r).
Proof.
  unfold handle_acquire, acquire_sandbox_with. apply (keeps_bind 0 2); [lia|lia| |].
  - apply keeps_neutral. pose proof neutral_has_snapshot. neutral_solve; auto.
  - intros warm. apply (keeps_bind 1 1); [lia|lia| |].
    + destruct warm; [apply keeps_acquire_warm|]. eapply keeps_le; [apply keeps_neutral, neutral_ret|lia].
    + intros [resp|]; [|apply keeps_acquire_pool]. eapply keeps_le; [apply keeps_neutral, neutral_ret|lia].
Qed.

Lemma keeps_handle_release r : keeps 0 (handle_release config r).
Proof.
  unfold handle_release. case_match; [apply keeps_neutral, neutral_ret|].
  apply (keeps_bind 0 0); [lia|lia|apply keeps_neutral; neutral_solve|intros _].
  apply (keeps_bind 0 0); [lia|lia|apply keeps_attempt, keeps_release|].
  intros x. apply keeps_neutral. neutral_solve.
Qed.

Lemma keeps_dispatch r : keeps 2 (dispatch config r).
Proof.
  unfold dispatch. case_match; [apply keeps_handle_acquire|].
  apply (keeps_le 0); [|lia]. case_match; [apply keeps_handle_release|]. apply keeps_neutral.
  pose proof neutral_add_container. pose proof neutral_kill. pose proof neutral_wait.
  pose proof neutral_delete. pose proof neutral_status. repeat case_match; auto using neutral_ret.
Qed.

Lemma keeps_run_shadow k e : keeps 1 (run_shadow config k e).
Proof.
  unfold run_shadow. apply (keeps_bind 0 1); [lia|lia|apply keeps_neutral; neutral_solve|intros _].
  apply (keeps_bind 1 0); [lia|lia|apply keeps_ctx, keeps_acquire|intros vm].
  apply (keeps_bind 0 0); [lia|lia|apply keeps_neutral, neutral_shadow_snapshot|intros dir].
  apply (keeps_bind 0 0); [lia|lia|apply keeps_neutral; neutral_solve|intros mt].
  apply (keeps_bind 0 0); [lia|lia|apply keeps_neutral, neutral_cache|intros _]. apply keeps_release.
Qed.

Lemma keeps_run_task t : keeps 1 (run_task config t).
Proof.
  destruct t; cbn [run_task].
  - apply (keeps_bind 0 1); [lia|lia|apply keeps_neutral; neutral_solve|intros _; apply keeps_replenish].
  - unfold shadow_task. apply (keeps_bind 1 0); [lia|lia|apply keeps_attempt, keeps_run_shadow|intros _].
    apply keeps_neutral. neutral_solve.
Qed.

(** ** The daemon as a whole *)

(** What may happen to the daemon: a request arrives, or the [i]-th spawned
    task gets to run. *)
Inductive event := EvRequest (v : value) | EvTask (i : nat).

Definition handle_event (ev : event) (d : daemon) : daemon :=
  match ev with
  | EvRequest v => (dispatch config v d).2
  | EvTask i =>
      match d_tasks d !! i with
      | Some t => (run_task config t (set_tasks (take i (d_tasks d) ++ drop (S i) (d_tasks d)) d)).2
      | None => d
      end
  end.

Definition run_events (evs : list event) (d : daemon) : daemon := foldl (fun d ev => handle_event ev d) d evs.

Lemma event_keeps ev d : daemon_wf d -> d_next_cid d + 2 < 2 ^ 64 -> d_warm d + 2 < 2 ^ 64 ->
  daemon_wf (handle_event ev d) /\ d_next_cid (handle_event ev d) <= d_next_cid d + 2 /\
  d_warm (handle_event ev d) <= d_warm d + 2.
Proof.
  intros Hd Hn Hw. destruct ev as [v|i]; cbn [handle_event]; [by apply keeps_dispatch|].
  destruct (d_tasks d !! i) as [t|]; [|split; [done|lia] ].
  set (d1 := set_tasks _ d). assert (Hd1 : daemon_wf d1) by (eapply wf_same; [|exact Hd]; by repeat split).
  destruct (keeps_run_task t d1 Hd1) as (? & ? & ?); [cbn; lia..|]. split; [done|cbn in *; lia].
Qed.

Lemma events_keep evs d : daemon_wf d ->
  d_next_cid d + 2 * Z.of_nat (length evs) < 2 ^ 64 -> d_warm d + 2 * Z.of_nat (length evs) < 2 ^ 64 ->
  daemon_wf (run_events evs d).
Proof.
  revert d. induction evs as [|ev evs IH]; intros d Hd Hn Hw; [done|]. cbn [run_events foldl length] in *.
  destruct (event_keeps ev d Hd) as (Hd' & ? & ?); [lia..|]. apply IH; [done|lia..].
Qed.

Lemma keeps_restore_push :
  keeps 1 (r ← attempt (restore_one config); match r with inl vm => push_ready vm | inr _ => mret tt end).
Proof.
  intros d Hd Hn Hw. pose proof (wf_low _ (dw_pool _ Hd)).
  assert (Ew : wrap 64 (d_next_cid d + 1) = d_next_cid d + 1) by (apply wrap_small; unfold in_range; lia).
  unfold mbind, M_bind, attempt. destruct (restore_one_run config d) as (t & r & -> & Hr).
  assert (Hd1 : daemon_wf (set_d_trace (d_trace d ++ t) (bump d))).
  { eapply wf_counters; try exact Hd; cbn; try done; rewrite ?Ew; try lia. }
  destruct r as [vm|e| |]; try done; cbn; rewrite ?Ew; (split; [|lia]); [|exact Hd1].
  set (d1 := set_d_trace (d_trace d ++ t) (bump d)) in *.
  change (daemon_wf (set_ready (d_ready d1 ++ [vm]) d1)).
  constructor; [|exact (dw_warm _ Hd1)|exact (dw_names _ Hd1)].
  apply wf_push; [exact (dw_pool _ Hd1)| |by destruct Hr as (-> & -> & _)].
  destruct (fresh_made config d vm (dw_pool _ Hd) ltac:(lia) Hr). by constructor.
Qed.

Lemma keeps_fill n : keeps (Z.of_nat n) (fill config n).
Proof.
  induction n as [|n IH]; [apply keeps_neutral, neutral_ret|]. cbn [fill].
  intros d. rewrite <- M_bind_assoc. revert d. replace (Z.of_nat (S n)) with (1 + Z.of_nat n) by lia.
  apply keeps_bind; [lia|lia|apply keeps_restore_push|done].
Qed.

Lemma keeps_create_base b : keeps 1 (create_base_snapshot config b).
Proof.
  intros d Hd Hn Hw. pose proof (wf_low _ (dw_pool _ Hd)). pose proof (dw_warm _ Hd).
  assert (Ew : wrap 64 (d_next_cid d + 1) = d_next_cid d + 1) by (apply wrap_small; unfold in_range; lia).
  destruct (create_base_run config b d) as (t & r & d1 & E & Hor & _). rewrite E. cbn.
  destruct Hor as [-> | ->]; cbn; rewrite ?Ew; (split; [|lia]).
  - by eapply wf_same; [|exact Hd].
  - eapply wf_counters; try exact Hd; cbn; try done; rewrite ?Ew; lia.
Qed.

Lemma keeps_initialize : 0 <= pool_size config -> keeps (1 + pool_size config) (initialize config).
Proof.
  intros Hp. unfold initialize. apply (keeps_bind 0 (1 + pool_size config)); [lia|lia| |].
  - apply keeps_neutral. unfold base_snapshot_valid. neutral_solve.
  - intros v. apply (keeps_bind 1 (pool_size config)); [lia|lia| |].
    + destruct v; [eapply keeps_le; [apply keeps_neutral, neutral_ret|lia]|apply keeps_create_base].
    + intros _. eapply keeps_le; [apply keeps_fill|lia].
Qed.

Lemma daemon_wf_new s : daemon_wf (pool_new s).
Proof. constructor; [apply wf_new|cbn; lia|]. intros k vm Hk. cbn in Hk. by rewrite lookup_empty in Hk. Qed.

(** C1: from its start on, through any sequence of client requests (of any
    method, with any content) and background tasks, whatever the hypervisor, the
    agents and the kernel answer and however the handlers end, the daemon's books
    stay consistent: no two live VMs share a CID or a name, every active VM is filed
    under its own name, and the count of acquired VMs is the size of the active map.
    (The two 64-bit counters are taken not to wrap.) *)
Theorem daemon_invariant s evs :
  0 <= pool_size config -> 4 + pool_size config + 2 * Z.of_nat (length evs) < 2 ^ 64 ->
  daemon_wf (run_events evs (initialize config (pool_new s)).2).
Proof.
  intros Hp Hn. destruct (keeps_initialize Hp (pool_new s) (daemon_wf_new s)) as (Hd & Hc & Hw); [cbn; lia..|].
  cbn in Hc, Hw. apply events_keep; [done|lia..].
Qed.
End Invariant.

(** ** Witnesses *)

Definition status_request : lit := LObj [("method", LStr "Status")].
Definition sample_events : list (@event bit_json) :=
  [@EvRequest bit_json (LObj [("method", LStr "AcquireSandbox"); ("image_key", LStr "i")]); EvTask 0;
   @EvRequest bit_json status_request].

Lemma daemon_invariant_witness :
  @daemon_wf sample_env (@run_events sample_env bit_json plain_anyhow plain_base64 sample_cfg sample_events
    (@initialize sample_env bit_json sample_cfg (pool_new sample_sock0)).2).
Proof. apply daemon_invariant; cbn; lia. Defined.
