(* ===== verification/ApiProps.v ===== *)
(** * What the daemon's handlers do ([crates/daemon/src/api.rs])

    The wire protocol, the order in which a container is started, and what an
    error or a warm start leaves behind. *)

From S2P Require Import Prelude RustStr NetAddr Bytes Proto Sys Json Netlink NetlinkOps Lifecycle Pool Shadow DaemonNet Api.
From Stdlib Require Import Ascii.
From Stdlib Require String.
Local Open Scope Z_scope.

(** ** Calls made by the daemon's operations *)

Section DaemonEmits.
Context `{Env, SerdeJson, Anyhow, Base64} (P : call -> Prop).

Lemma emits_modify (f : daemon -> daemon) : (forall d, d_trace (f d) = d_trace d) -> emits P (modify f).
Proof. intros Hf. apply emits_quiet. exact Hf. Qed.
Lemma emits_nl {A} (m : M sock A) : emits P (nl m).
Proof. apply emits_quiet. intros d. unfold nl. by destruct (m (d_sock d)). Qed.
Lemma emits_blocking {A} c (m : M daemon A) : emits P m -> emits P (blocking c m).
Proof. intros Hm d. destruct (Hm d) as (t & Ht & HP). exists t. unfold blocking. destruct (m d) as [r d']. by destruct r. Qed.
Lemma emits_setns p : P (SetNs p) -> emits P (setns p).
Proof. intros Hp d. exists [SetNs p]. unfold setns. rewrite sys_run. split; [|by repeat constructor]. by destruct (env _ _). Qed.
Lemma emits_guarded {A} o (m : M daemon A) : P (SetNs o) -> emits P m -> emits P (guarded o m).
Proof.
  intros Ho Hm d. unfold guarded. destruct (Hm d) as (t & Ht & HP). destruct (m d) as [r d'].
  destruct (emits_ignore P _ (emits_setns o Ho) d') as (t' & Ht' & HP').
  destruct r; try (exists (t ++ t'); cbn in *; rewrite Ht', Ht, app_assoc; split; [done|by apply Forall_app]).
  by exists t.
Qed.
Lemma emits_retry {A} n max ms (m : M daemon (option A)) :
  P (Sleep ms) -> emits P m -> emits P (retry_go n max ms m).
Proof.
  intros Hs Hm. induction n as [|n IH]; cbn [retry_go]; [apply emits_fail|].
  apply emits_bind; [done|]. intros [v|]; [apply emits_ret|]. apply emits_bind; [|done].
  by apply (emits_sys P (Sleep ms)).
Qed.
End DaemonEmits.

Ltac demit tac := repeat first
  [assumption
  |lazymatch goal with
   | |- emits _ (retry_go _ _ _ _) => apply emits_retry; [solve [tac]|]
   | |- emits _ (nl _) => apply emits_nl
   | |- emits _ (attempt _) => apply emits_attempt
   | |- emits _ (m_ctx _ _) => apply emits_ctx
   | |- emits _ (ignore _) => apply emits_ignore
   | |- emits _ (blocking _ _) => apply emits_blocking
   | |- emits _ (guarded _ _) => apply emits_guarded; [solve [tac]|]
   | |- emits _ (setns _) => apply emits_setns; solve [tac]
   | |- emits _ (sys ?c) => apply (emits_sys _ c); solve [tac]
   | |- emits _ (mret _) => apply emits_ret
   | |- emits _ (lift _) => apply emits_lift
   | |- emits _ (fail _) => apply emits_fail
   | |- emits _ (gets _) => apply emits_gets
   | |- emits _ (modify _) => apply emits_modify; intros; reflexivity
   | |- emits _ (_ ≫= _) => apply emits_bind; [|intros ?]
   | |- emits _ (match _ with _ => _ end) => case_match
   | |- emits _ (let _ := _ in _) => cbv zeta
   end
  |solve [auto]|case_match|progress intros].

(** Calls the daemon makes while it starts a VM or a container, all but the two
    that hand the guest a container. *)
Definition runs_container (c : call) : bool :=
  match c with AgentRun _ _ | AgentAdopt _ _ => true | _ => false end.
Definition signals (c : call) : bool := match c with SendSignal _ _ => true | _ => false end.

Section Emissions.
Context `{Env, SerdeJson, Anyhow, Base64} (config : DaemonConfig) (P : call -> Prop).

(** [P] admits every call but a signal and the start of a container. *)
Hypothesis HP : forall c, runs_container c = false -> signals c = false -> P c.
Ltac ok := apply HP; reflexivity.

Lemma emits_wait_netns k p : emits (W := daemon) P (wait_netns k p).
Proof using HP. induction k; cbn [wait_netns]; unfold exists_path; demit ok. Qed.
Lemma emits_in_netns {A} p (m : M daemon A) : emits P m -> emits P (in_netns p m).
Proof using HP. pose proof emits_wait_netns. intros Hm. unfold in_netns, open_ns. demit ok. Qed.
Lemma emits_prepare_tap n t : emits P (prepare_tap n t).
Proof using HP.
  unfold prepare_tap. apply emits_bind; [apply emits_in_netns; unfold probe_pod, retry; demit ok|].
  intros ?. unfold create_tap. demit ok.
Qed.
Lemma emits_activate_tap n t : emits P (activate_tap n t).
Proof using HP.
  unfold activate_tap, open_ns.
  do 4 (apply emits_bind; [demit ok|intros ?]). apply emits_in_netns. unfold wire_tap, retry. demit ok.
Qed.
Lemma emits_setup n v a : emits P (setup_vm_networking n v a).
Proof using HP.
  pose proof emits_prepare_tap. pose proof emits_activate_tap.
  unfold setup_vm_networking, api_request_with_body, api_request. demit ok.
Qed.
Lemma emits_wait_agent s : emits (W := daemon) P (wait_for_agent s).
Proof using HP.
  assert (Hagent : forall n, emits (W := daemon) P (wait_for_agent_go n s)).
  { induction n; cbn [wait_for_agent_go]; unfold exists_path, try_agent_health; demit ok. }
  unfold wait_for_agent. demit ok.
Qed.
Lemma emits_wait_ch s : emits (W := daemon) P (wait_ch_ready s).
Proof using HP.
  assert (Hready : forall n, emits (W := daemon) P (wait_ch_ready_go n s)).
  { induction n; cbn [wait_ch_ready_go]; unfold exists_path; demit ok. }
  unfold wait_ch_ready. demit ok.
Qed.
Lemma emits_connect s : emits (W := daemon) P (connect_agent s).
Proof using HP. unfold connect_agent. demit ok. Qed.
Lemma emits_configure a i g : emits P (configure_guest_network a i g).
Proof using HP. unfold configure_guest_network. demit ok. Qed.
Lemma emits_warm_network n v a s : emits P (warm_network n v a s).
Proof using HP.
  pose proof emits_setup. pose proof emits_connect. pose proof emits_configure. unfold warm_network. demit ok.
Qed.
Lemma emits_restore_from k v c d : emits P (restore_from_snapshot config k v c d).
Proof using HP.
  pose proof emits_wait_ch. pose proof emits_wait_agent.
  unfold restore_from_snapshot, get_snapshot_dir, prepare_snapshot, link_from_base, link_or_copy, spawn_ch,
    restore_vm, resume_vm, api_request, create_dir_all, create_file, write_file, read_to_string.
  demit ok.
Qed.
Lemma emits_next_cid : emits P next_cid.
Proof using. by apply emits_quiet. Qed.
Lemma emits_next_warm : emits P next_warm.
Proof using. by apply emits_quiet. Qed.
Lemma emits_mark vm : emits P (mark_active vm).
Proof using. by apply emits_quiet. Qed.
Lemma emits_acquire_warm n k : emits P (acquire_warm config n k).
Proof using HP.
  pose proof emits_restore_from. pose proof emits_warm_network. pose proof emits_next_cid. pose proof emits_next_warm.
  pose proof emits_mark. unfold acquire_warm, register_active, create_dir_all. demit ok.
Qed.
Lemma emits_has_snapshot k e : emits P (has_snapshot k e).
Proof using HP. unfold has_snapshot, remove_dir_all. demit ok. Qed.
Lemma emits_trigger k e : emits P (trigger_shadow k e).
Proof using HP. pose proof emits_has_snapshot. unfold trigger_shadow, spawn_task. demit ok. Qed.
Lemma emits_run_container p : (forall a r, P (AgentRun a r)) -> emits P (run_container_in_vm p).
Proof using HP.
  intros Hrun. pose proof emits_setup. pose proof emits_connect. pose proof emits_configure.
  unfold run_container_in_vm, api_request_with_body, api_request, agent_for.
  demit ltac:(first [apply Hrun|ok]).
Qed.
Lemma emits_spawn t : emits P (spawn_task t).
Proof using. by apply emits_quiet. Qed.
End Emissions.

(** ** The wire *)

Section Wire.
Context `{Env, SerdeJson, Anyhow, Base64} (config : DaemonConfig).

(** What a connection is for: its requests in order, each answered once. *)
Fixpoint serve (requests : list value) : M daemon (list lit) :=
  match requests with
  | [] => mret []
  | r :: rest =>
      response ← dispatch config r;
      responses ← serve rest;
      mret (response :: responses)
  end.

Definition request_line (kvs : list (string * lit)) : string := json_line (of_lit (LObj kvs)).
Definition response_line (l : lit) : string := json_line (of_lit l).


(** A response line holds no newline but its last character, so the client's
    [read_line] returns exactly it. *)
Lemma response_line_one l : exists s, response_line l = s +:+ String lf "" /\ str_elem lf s = false.
Proof. exists (to_string (of_lit l)). split; [done|apply print_one_line]. Qed.
End Wire.

(** ** Starting a container *)

Section Starting.
Context `{Env, SerdeJson, Anyhow, Base64} (config : DaemonConfig).

Lemma setup_did netns v api d tap info d' :
  setup_vm_networking netns v api d = (Ok (tap, info), d') ->
  tap_name_of v = Ok tap /\
  did d d' [HttpSend api "PUT" "/api/v1/vm.add-net" (Some (net_json tap (ni_mac info)))].
Proof.
  unfold setup_vm_networking, api_request_with_body. intros Hr. inv_ok.
  repeat match goal with
  | Hs : lift _ _ = (Ok _, _) |- _ => apply lift_Ok in Hs as [? ->]
  | Hs : m_ctx _ (api_request _ _ _ _) _ = (Ok _, _) |- _ => apply m_ctx_Ok, did_api in Hs
  end.
  match goal with Hs : mret _ _ = _ |- _ => injection Hs as <- <- <- | _ => idtac end.
  split; [done|].
  repeat match goal with
  | Hs : blocking _ _ _ = (Ok _, _) |- _ => apply (did_emits (fun _ => True)) in Hs;
      [|apply emits_blocking, emits_ctx; first [by apply emits_prepare_tap|by apply emits_activate_tap] ]
  end.
  did_chain d. assumption.
Qed.

Definition configure_request (info : PodNetInfo) : ConfigureNetworkRequest :=
  let '(ip, prefix) := guest_net_params (ni_ip_cidr info) in
  mkConfigureNetworkRequest ip (ni_gateway info) prefix "eth0" "".

Lemma configure_did a info d u d' :
  configure_guest_network a (ni_ip_cidr info) (ni_gateway info) d = (Ok u, d') ->
  d' = set_d_trace (d_trace d ++ [AgentConfigure a (configure_request info)]) d.
Proof.
  unfold configure_guest_network, configure_request. destruct (guest_net_params _) as [ip prefix].
  intros Hr. inv_ok. apply lift_Ok in Hr as [_ ->].
  match goal with Hs : sys _ _ = _ |- _ => rewrite sys_run in Hs; injection Hs as _ <- end. done.
Qed.

Lemma agent_for_did v s d a d' :
  agent_for v s d = (Ok a, d') -> d_agents d' !! v = Some a /\ (a = s \/ d_agents d !! v = Some a) /\ did d d' [].
Proof.
  unfold agent_for. intros Hr. inv_ok. match goal with Hs : gets _ _ = _ |- _ => injection Hs as <- <- end.
  destruct (d_agents d !! v) as [a0|] eqn:Ea; inv_ok.
  - split_and!; [done|by right|apply did_refl].
  - match goal with Hs : m_ctx _ _ _ = _ |- _ => apply m_ctx_Ok in Hs; rename Hs into Hc end.
    match goal with Hs : modify _ _ = _ |- _ => injection Hs as <- <- end.
    pose proof (connect_agent_Ok _ _ _ _ Hc) as ->. apply (did_emits (fun _ => True)) in Hc; [|by apply emits_connect].
    cbn. rewrite lookup_insert_eq. split_and!; [done|by left|exact Hc].
Qed.

Lemma configure_accepted a info d u d' :
  configure_guest_network a (ni_ip_cidr info) (ni_gateway info) d = (Ok u, d') ->
  env (d_trace d) (AgentConfigure a (configure_request info)) = inr tt.
Proof.
  unfold configure_guest_network, configure_request. destruct (guest_net_params _) as [ip prefix].
  intros Hr. apply M_bind_Ok in Hr as (r & d1 & Hs & Hr). apply lift_Ok in Hr as [Hr _].
  rewrite sys_run in Hs. injection Hs as Hs _. change (trace d) with (d_trace d) in Hs.
  rewrite Hs. by destruct r as [e|[] ].
Qed.

(** In a pod's network, the agent was told the pod's address, and took it. *)
Lemma run_container_configured p d pid tap d' tap0 info d0 :
  rp_netns p <> "" -> setup_vm_networking (rp_netns p) (rp_vm_id p) (rp_api_socket p) d = (Ok (tap0, info), d0) ->
  run_container_in_vm p d = (Ok (pid, tap), d') ->
  exists agent t t', d_agents d' !! rp_vm_id p = Some agent /\
    d_trace d' = t ++ AgentConfigure agent (configure_request info) :: t' /\
    env t (AgentConfigure agent (configure_request info)) = inr tt.
Proof.
  intros Hne Hset Hr. unfold run_container_in_vm in Hr. rewrite (proj2 (String.eqb_neq _ _) Hne) in Hr.
  apply M_bind_Ok in Hr as ([tap' o] & d1 & Hn & Hr).
  apply M_bind_Ok in Hn as ([tap1 info'] & d1' & Hn & [= <- <- <-]). apply m_ctx_Ok in Hn. rewrite Hset in Hn.
  injection Hn as <- <- <-.
  apply M_bind_Ok in Hr as (id & d2 & _ & Hr). cbv zeta in Hr. apply M_bind_Ok in Hr as (u & d3 & _ & Hr).
  apply M_bind_Ok in Hr as (agent & d4 & Ha & Hr). apply agent_for_did in Ha as (Ha & _ & _).
  apply M_bind_Ok in Hr as (u' & d5 & Hc & Hr). apply m_ctx_Ok in Hc. pose proof (configure_accepted _ _ _ _ _ Hc) as He.
  apply configure_did in Hc. apply M_bind_Ok in Hr as (r & d6 & Hs & Hr). rewrite sys_run in Hs. injection Hs as _ <-.
  apply M_bind_Ok in Hr as (pid' & d7 & Hl & Hr). apply lift_Ok in Hl as [_ ->]. injection Hr as _ _ <-. subst d5.
  exists agent, (d_trace d4). eexists. split_and!; [exact Ha| |exact He]. cbn. by rewrite <- app_assoc.
Qed.

(** The last call is the agent's, and the pid is its answer. *)
Lemma run_container_agent p d pid tap d' :
  run_container_in_vm p d = (Ok (pid, tap), d') ->
  let req := run_request (rp_container_id p) (decode_config (rp_config_json_b64 p)) in
  exists agent t, d_agents d' !! rp_vm_id p = Some agent /\ d_trace d' = t ++ [AgentRun agent req] /\
    env t (AgentRun agent req) = inr pid.
Proof.
  intros Hr req. unfold run_container_in_vm in Hr.
  apply M_bind_Ok in Hr as ([tap' o] & d1 & _ & Hr). apply M_bind_Ok in Hr as (id & d2 & _ & Hr). cbv zeta in Hr.
  apply M_bind_Ok in Hr as (u & d3 & _ & Hr). apply M_bind_Ok in Hr as (agent & d4 & Ha & Hr).
  apply agent_for_did in Ha as (Ha & _ & _). apply M_bind_Ok in Hr as (u' & d5 & Hc & Hr).
  assert (Ea : d_agents d5 = d_agents d4).
  { destruct o as [info|]; [apply m_ctx_Ok, configure_did in Hc|injection Hc as _ <-]; by subst. }
  fold req in Hr. apply M_bind_Ok in Hr as (r & d6 & Hs & Hr). rewrite sys_run in Hs. injection Hs as <- <-.
  apply M_bind_Ok in Hr as (pid' & d7 & Hl & Hr). apply lift_Ok in Hl as [Hp ->]. injection Hr as <- _ <-.
  exists agent, (d_trace d5). cbn. rewrite Ea. split_and!; [done|done|].
  change (trace d5) with (d_trace d5) in Hp. destruct (env _ _); [done|]. cbn in Hp. congruence.
Qed.

End Starting.

(** ** Errors and warm starts *)

Section Outcomes.
Context `{Env, SerdeJson, Anyhow, Base64} (config : DaemonConfig).

Lemma get_error k msg : k <> "error" -> get k (of_lit (error_json msg)) = None.
Proof.
  intros Hk. unfold error_json. rewrite get_obj by done. cbn.
  by rewrite (proj2 (String.eqb_neq _ _) Hk).
Qed.

(** When the container cannot be started in a VM taken from the pool, the
    answer is an error without the VM's name, and nothing is undone: the VM stays in
    the active map, it is counted, and its hypervisor is not signalled. The caller,
    who was not told the name, cannot release it. *)
Theorem acquire_error_leaks netns key erofs cid cfg d vm rest resp d' :
  d_ready d = rest ++ [vm] -> erofs <> "" -> cid <> "" ->
  acquire_pool config netns key erofs cid cfg d = (Ok resp, d') ->
  get "vm_id" (of_lit resp) = None ->
  (exists msg, resp = error_json msg) /\ d_active d' !! pv_id vm = Some vm /\
  d_active_count d' = wrap 64 (d_active_count d + 1) /\
  exists t, d_trace d' = d_trace d ++ t /\ Forall (fun c => signals c = false) t.
Proof.
  intros Hready He Hc Hr Hno. unfold acquire_pool in Hr.
  pose proof (acquire_run config d) as Ha. rewrite Hready, vec_pop_snoc in Ha.
  apply M_bind_Ok in Hr as (a & d1 & Hacq & Hr). unfold attempt in Hacq. rewrite Ha in Hacq.
  injection Hacq as <- <-. cbv beta iota in Hr.
  match type of Hr with ?m ?d1 = _ =>
    assert (Hn : neutral m); [|assert (Hs : emits (fun c => signals c = false) m); [|pose proof (Hn d1) as Hs1; destruct (Hs d1) as (t & Ht & HF)]]
  end.
  - pose proof neutral_trigger. pose proof neutral_run_container. unfold spawn_task. neutral_solve; auto.
  - assert (Htr : forall k e, emits (fun c => signals c = false) (trigger_shadow k e)) by (intros; by apply emits_trigger).
    assert (Hrun : forall p, emits (fun c => signals c = false) (run_container_in_vm p))
      by (intros; by apply emits_run_container).
    unfold spawn_task. demit ltac:(done).
  - rewrite Hr in Ht, Hs1. cbn in Ht, Hs1. destruct Hs1 as (_ & Ea & Ec & _). clear Hn Hs.
    split_and!; [|rewrite Ea; cbn; apply lookup_insert_eq|exact Ec|by exists t].
    inv_ok. match goal with x : ((Z * string) + error)%type |- _ => destruct x as [ [pid tap]|e] end; inv_ok.
    + exfalso. revert Hno. unfold vm_json. by rewrite get_obj.
    + eauto.
Qed.

(** What an operation leaves as it was. *)
Definition frame {X} (f : daemon -> X) {A} (m : M daemon A) : Prop := forall d, f (m d).2 = f d.

Lemma frame_bind {X} (f : daemon -> X) {A B} (m : M daemon A) (g : A -> M daemon B) :
  frame f m -> (forall a, frame f (g a)) -> frame f (m ≫= g).
Proof.
  intros Hm Hg d. unfold mbind, M_bind. specialize (Hm d). destruct (m d) as [r d'].
  destruct r; try done. by rewrite Hg.
Qed.
Lemma frame_io {X} (f : daemon -> X) {A} (m : M daemon A) :
  (forall d t, f (set_d_trace t d) = f d) -> io_only m -> frame f m.
Proof. intros Hf Hm d. destruct (Hm d) as [t ->]. apply Hf. Qed.
Lemma frame_attempt {X} (f : daemon -> X) {A} (m : M daemon A) : frame f m -> frame f (attempt m).
Proof. intros Hm d. specialize (Hm d). unfold attempt. destruct (m d) as [r d']. by destruct r. Qed.
Lemma frame_same {X} (f : daemon -> X) {A} (m : M daemon A) : (forall d, f (m d).2 = f d) -> frame f m.
Proof. done. Qed.

Ltac frame_solve := repeat first
  [solve [apply frame_io; [done|io_solve] ]
  |lazymatch goal with
   | |- frame _ (_ ≫= _) => apply frame_bind; [|intros ?]
   | |- frame _ (attempt _) => apply frame_attempt
   | |- frame _ (match _ with _ => _ end) => case_match
   end
  |solve [by apply frame_same]|progress intros].

Lemma agents_restore_from k v c dir : frame d_agents (restore_from_snapshot config k v c dir).
Proof. unfold restore_from_snapshot, get_snapshot_dir, restore_vm, resume_vm. frame_solve. Qed.

Lemma agents_acquire_warm k : frame d_agents (acquire_warm config "" k).
Proof. pose proof agents_restore_from. unfold acquire_warm, warm_network, register_active. frame_solve; auto. Qed.

Lemma agents_has_snapshot k e : frame d_agents (has_snapshot k e).
Proof. unfold has_snapshot. frame_solve. Qed.

Lemma acquire_pool_cold netns key erofs cid cfg d resp d' :
  acquire_pool config netns key erofs cid cfg d = (Ok resp, d') ->
  get "from_snapshot" (of_lit resp) ≫= as_bool <> Some true.
Proof.
  unfold acquire_pool. intros Hr. apply M_bind_Ok in Hr as ([vm|e] & d1 & _ & Hr).
  - inv_ok. match goal with x : ((Z * string) + error)%type |- _ => destruct x as [ [pid tap]|e] end; inv_ok.
    + unfold vm_json. rewrite get_obj by done. cbn. by rewrite as_bool_lit.
    + by rewrite get_error.
  - inv_ok. by rewrite get_error.
Qed.

(** An acquisition answered from a workload snapshot never asks the guest
    to run or to adopt a container, so the container of the request is known to no
    agent; and when the request names no network namespace, no agent is put on
    record for the VM, so that every later [KillContainer] and [WaitContainer] for it
    is refused. *)
Theorem warm_start_runs_nothing request d resp d' :
  handle_acquire config request d = (Ok resp, d') ->
  get "from_snapshot" (of_lit resp) ≫= as_bool = Some true ->
  (exists t, d_trace d' = d_trace d ++ t /\ Forall (fun c => runs_container c = false) t) /\
  (str_field "netns" request "" = "" -> d_agents d' = d_agents d).
Proof.
  intros Hr Hs. unfold handle_acquire, acquire_sandbox_with in Hr. inv_ok.
  match goal with x : bool |- _ => destruct x end; [|inv_ok; by destruct (acquire_pool_cold _ _ _ _ _ _ _ _ Hr Hs)].
  match goal with x : option lit |- _ => destruct x as [l|] end;
    [|by destruct (acquire_pool_cold _ _ _ _ _ _ _ _ Hr Hs)].
  inv_ok.
  match goal with Ha : (if _ then _ else _) d = (Ok true, ?x), Hb : acquire_warm _ _ _ ?x = _ |- _ =>
    rename Ha into Hhas; rename Hb into Hwarm; rename x into d1 end.
  set (key := str_field "image_key" request "") in *. set (erofs := if String.eqb _ _ then None else _) in Hhas.
  assert (Hh : exists t, d_trace d1 = d_trace d ++ t /\ Forall (fun c => runs_container c = false) t).
  { destruct (String.eqb key ""); [by inv_ok|].
    assert (Hp : emits (fun c => runs_container c = false) (has_snapshot key erofs)) by (by apply emits_has_snapshot).
    destruct (Hp d) as (t & Ht & HF). rewrite Hhas in Ht. by exists t. }
  assert (Ea : d_agents d1 = d_agents d).
  { destruct (String.eqb key ""); [by inv_ok|]. pose proof (agents_has_snapshot key erofs d) as Ha. by rewrite Hhas in Ha. }
  split.
  - assert (Hp : emits (fun c => runs_container c = false) (acquire_warm config (str_field "netns" request "") key))
      by (by apply emits_acquire_warm).
    destruct Hh as (t & Ht & HF), (Hp d1) as (t' & Ht' & HF'). rewrite Hwarm in Ht'. cbn in Ht'.
    exists (t ++ t'). rewrite Ht', Ht, app_assoc. split; [done|by apply Forall_app].
  - intros En. rewrite En in Hwarm. rewrite <- Ea. pose proof (agents_acquire_warm key d1) as Ha. by rewrite Hwarm in Ha.
Qed.

(** The name in a release request is not checked against the pool: for a
    name that is an absolute path the directory removed, contents and all, is that
    path, wherever it is, and the answer is success. *)
Theorem release_removes_any_path vm_id request d :
  starts_with vm_id "/" = true -> str_field "vm_id" request "" = vm_id ->
  exists d', handle_release config request d = (Ok (LObj [("ok", LBool true)]), d') /\
    last (d_trace d') = Some (RemoveDirAll vm_id).
Proof.
  intros Hs E. unfold handle_release. rewrite E. cbv zeta.
  destruct vm_id as [|c v]; [done|]. cbn [String.eqb].
  unfold mbind, M_bind, modify, attempt, release, mbind, M_bind, modify.
  match goal with |- context [destroy_vm config ?v ?d1] => destruct (destroy_vm_run config v d1) as (t & -> & Hl & _) end.
  eexists. split; [done|]. cbn. revert Hl. unfold path_join. rewrite Hs. done.
Qed.
End Outcomes.

(** ** Witnesses *)

(** Two namespaces' worth of answers: the pod is probed, then the TAP is moved
    and wired. *)
Definition k_veth : bytes := link_msg (mkLink 7 "eth0" [102; 222; 8; 25; 181; 88] (zeros 4, zeros 8)).
Definition start_sock : sock := mkSock 1 [] [] []
  ([k_dump k_veth; k_dump k_addr; inr (done_msg 0 0 []); k_link 9 "tap_pool-100"; k_ack] ++ sk_rx pod_sock).
Definition start_params : RunContainerParams :=
  mkRunContainerParams "/st/pool-1000-3/api.sock" "/st/pool-1000-3/vsock.sock" "pool-1000-3" "/ns" "/i.erofs"
    "0123456789abcdef" "".



Lemma acquire_error_leaks_witness :
  exists resp d', @acquire_pool no_run_env bit_json plain_anyhow plain_base64 sample_cfg "" "img" "/i.erofs" "c1" ""
      sample_pool = (Ok resp, d') /\ d_active d' !! "pool-1000-3" = Some sample_vm.
Proof.
  destruct (@acquire_pool no_run_env bit_json plain_anyhow plain_base64 sample_cfg "" "img" "/i.erofs" "c1" ""
      sample_pool) as [r d'] eqn:E.
  assert (Er : r = (@acquire_pool no_run_env bit_json plain_anyhow plain_base64 sample_cfg "" "img" "/i.erofs" "c1" ""
      sample_pool).1) by (by rewrite E).
  vm_compute in Er. subst r. eexists _, d'. split; [reflexivity|].
  by destruct (@acquire_error_leaks no_run_env bit_json plain_anyhow plain_base64 sample_cfg "" "img" "/i.erofs" "c1" ""
      sample_pool sample_vm [] _ d' eq_refl ltac:(done) ltac:(done) E eq_refl) as (_ & Ha & _).
Defined.

(** The workload snapshot of [img] is cached. *)
Definition warm_pool : daemon :=
  set_snapshots {["img" := mkSnapshotEntry "/st/snapshot-cache/img" 1 (Some 1)]} sample_pool.
Definition warm_request : lit :=
  LObj [("method", LStr "AcquireSandbox"); ("image_key", LStr "img"); ("erofs_path", LStr "/i.erofs");
        ("container_id", LStr "c1")].

Lemma warm_start_runs_nothing_witness :
  exists resp d', @handle_acquire shadow_env bit_json plain_anyhow plain_base64 sample_cfg warm_request warm_pool
      = (Ok resp, d') /\ d_agents d' = ∅.
Proof.
  destruct (@handle_acquire shadow_env bit_json plain_anyhow plain_base64 sample_cfg warm_request warm_pool)
    as [r d'] eqn:E.
  assert (Er : r = (@handle_acquire shadow_env bit_json plain_anyhow plain_base64 sample_cfg warm_request warm_pool).1)
    by (by rewrite E).
  vm_compute in Er. subst r. eexists _, d'. split; [reflexivity|].
  destruct (@warm_start_runs_nothing shadow_env bit_json plain_anyhow plain_base64 sample_cfg warm_request warm_pool
    _ d' E eq_refl) as [_ Ha]. by apply Ha.
Defined.

Lemma release_removes_any_path_witness :
  exists d', @handle_release sample_env bit_json plain_anyhow sample_cfg (LObj [("vm_id", LStr "/var/lib")]) sample_pool
      = (Ok (LObj [("ok", LBool true)]), d') /\ last (d_trace d') = Some (RemoveDirAll "/var/lib").
Proof.
  apply (@release_removes_any_path sample_env bit_json plain_anyhow sample_cfg "/var/lib"); reflexivity.
Defined.
