(* ===== verification/Client.v ===== *)
(** * The shim's client of the daemon ([crates/shim/src/daemon_client.rs])

    The requests the shim writes, how it reads the answers, and the two ends put
    together: what the daemon does with a request of the client, and what the
    client makes of the daemon's answer. *)

From S2P Require Import Prelude RustStr NetAddr Bytes Proto Sys Json Netlink NetlinkOps Lifecycle Pool Shadow DaemonNet Api ApiProps.
From Stdlib Require Import Ascii.
From Stdlib Require String.
Local Open Scope Z_scope.

Record AcquireRequest := mkAcquireRequest {
  aq_netns : string; aq_image_key : string; aq_erofs_path : string; aq_container_id : string;
  aq_config_json : string }.

Record AcquiredVm := mkAcquiredVm {
  av_vm_id : string; av_ch_pid : Z; av_from_snapshot : bool; av_container_pid : Z; av_tap_name : string }.

Section Client.
Context `{Env, SerdeJson, Base64, World W} (socket_path : string).

Definition check_error (resp : value) (method : string) : result unit :=
  match get "error" resp ≫= as_str with
  | Some err => Err (Msg ("daemon " +:+ method +:+ ": " +:+ err))
  | None => Ok tt
  end.

Definition rpc_with (timeout : option Z) (request : lit) : M W value :=
  c ← sys (ConnectUnix socket_path);
  lift (with_ctx ("connect to daemon: " +:+ socket_path) (io_res c));;
  w ← sys (WriteAll socket_path (json_line (of_lit request)));
  lift (io_res w);;
  l ← sys (ReadLine socket_path timeout);
  line ← match l with
         | None => fail (Msg "daemon RPC timed out after 30s")
         | Some r => lift (with_ctx "read daemon response" (io_res r))
         end;
  lift (with_ctx "parse daemon response" (lib_res (from_str (trim line)))).

Definition rpc (request : lit) : M W value := rpc_with (Some 30) request.
Definition rpc_no_timeout (request : lit) : M W value := rpc_with None request.

Definition acquire_kvs (p : AcquireRequest) : list (string * lit) :=
  [("method", LStr "AcquireSandbox"); ("netns", LStr (aq_netns p)); ("image_key", LStr (aq_image_key p));
   ("erofs_path", LStr (aq_erofs_path p)); ("container_id", LStr (aq_container_id p));
   ("config_json", LStr (b64_encode (aq_config_json p)))].

Definition read_acquired (resp : value) : result AcquiredVm :=
  check_error resp "AcquireSandbox";;
  vm_id ← ok_or (get "vm_id" resp ≫= as_str) (Msg "missing vm_id");
  ch_pid ← ok_or (get "ch_pid" resp ≫= as_u64) (Msg "missing ch_pid");
  mret (mkAcquiredVm vm_id (wrap 32 ch_pid) (default false (get "from_snapshot" resp ≫= as_bool))
          (wrap 32 (default 0 (get "container_pid" resp ≫= as_u64)))
          (default "" (get "tap_name" resp ≫= as_str))).

Definition acquire_sandbox (p : AcquireRequest) : M W AcquiredVm :=
  resp ← rpc (LObj (acquire_kvs p));
  lift (read_acquired resp).

Definition release_kvs (vm_id : string) : list (string * lit) :=
  [("method", LStr "ReleaseSandbox"); ("vm_id", LStr vm_id)].
Definition release_sandbox (vm_id : string) : M W unit :=
  resp ← rpc (LObj (release_kvs vm_id));
  lift (check_error resp "ReleaseSandbox").

Definition add_kvs (vm_id erofs_path container_id config_json : string) : list (string * lit) :=
  [("method", LStr "AddContainer"); ("vm_id", LStr vm_id); ("erofs_path", LStr erofs_path);
   ("container_id", LStr container_id); ("config_json", LStr (b64_encode config_json))].
Definition add_container (vm_id erofs_path container_id config_json : string) : M W Z :=
  resp ← rpc (LObj (add_kvs vm_id erofs_path container_id config_json));
  lift (check_error resp "AddContainer");;
  mret (wrap 32 (default 0 (get "container_pid" resp ≫= as_u64))).

Definition kill_kvs (vm_id container_id : string) (signal : Z) : list (string * lit) :=
  [("method", LStr "KillContainer"); ("vm_id", LStr vm_id); ("container_id", LStr container_id); ("signal", LNum signal)].
Definition kill_container (vm_id container_id : string) (signal : Z) : M W unit :=
  resp ← rpc (LObj (kill_kvs vm_id container_id signal));
  lift (check_error resp "KillContainer").

Definition wait_kvs (vm_id container_id : string) : list (string * lit) :=
  [("method", LStr "WaitContainer"); ("vm_id", LStr vm_id); ("container_id", LStr container_id)].
Definition read_waited (resp : value) : result (Z * string) :=
  check_error resp "WaitContainer";;
  mret (wrap 32 (default 137 (get "exit_status" resp ≫= as_u64)), default "" (get "exited_at" resp ≫= as_str)).
Definition wait_container (vm_id container_id : string) : M W (Z * string) :=
  resp ← rpc_no_timeout (LObj (wait_kvs vm_id container_id));
  lift (read_waited resp).

Definition delete_kvs (vm_id container_id : string) : list (string * lit) :=
  [("method", LStr "DeleteContainer"); ("vm_id", LStr vm_id); ("container_id", LStr container_id)].
Definition delete_container (vm_id container_id : string) : M W unit :=
  resp ← rpc (LObj (delete_kvs vm_id container_id));
  lift (check_error resp "DeleteContainer").
End Client.

(** ** The two ends together

    [E] is the shim's environment, in which the socket works and the daemon's
    answer to the request is [resp]. *)

Definition delivers `{SerdeJson} (E : Env) (socket : string) (timeout : option Z) (resp : lit) : Prop :=
  forall h, (forall p, env h (ConnectUnix p) = inr tt) /\ (forall p s, env h (WriteAll p s) = inr tt) /\
    env h (ReadLine socket timeout) = Some (inr (response_line resp)).

Lemma rpc_delivered `{SerdeJson, World W} (E : Env) socket timeout kvs resp (w : W) :
  delivers E socket timeout (LObj resp) ->
  rpc_with socket timeout (LObj kvs) w = (Ok (of_lit (LObj resp)), set_trace (trace w ++
    [ConnectUnix socket; WriteAll socket (request_line kvs); ReadLine socket timeout]) w).
Proof.
  intros Hd. unfold rpc_with, mbind, M_bind.
  rewrite sys_run. destruct (Hd (trace w)) as (-> & _ & _). cbn [lift io_res with_ctx]. unfold lift.
  rewrite sys_run. destruct (Hd (trace (set_trace (trace w ++ [ConnectUnix socket]) w))) as (_ & -> & _). cbn [io_res].
  rewrite sys_run. match goal with |- context [env ?h (ReadLine _ _)] => destruct (Hd h) as (_ & _ & ->) end.
  cbn [io_res with_ctx]. unfold response_line. rewrite read_json_line. cbn.
  by rewrite !trace_set, !set_trace_set, <- !app_assoc.
Qed.

Lemma str_field_obj `{SerdeJson} kvs k d : bool_decide (NoDup (map fst kvs)) = true ->
  str_field k (of_lit (LObj kvs)) d =
  match assoc k kvs with Some (LStr s) => s | Some l => default d (as_str (of_lit l)) | None => d end.
Proof.
  intros Hn. unfold str_field. rewrite get_obj by done. destruct (assoc k kvs) as [ [] |]; try done.
  cbn. by rewrite as_str_lit.
Qed.

Section EndToEnd.
Context `{D : Env, SerdeJson, Anyhow, Base64} (config : DaemonConfig).

Lemma acquire_dispatch p d :
  dispatch config (of_lit (LObj (acquire_kvs p))) d =
    acquire_sandbox_with config (aq_netns p) (aq_image_key p) (aq_erofs_path p) (aq_container_id p)
      (b64_encode (aq_config_json p)) d.
Proof. unfold dispatch, handle_acquire, acquire_kvs. by rewrite !str_field_obj. Qed.

(** The daemon decodes what the client encoded. *)
Lemma decode_encode cfg : decode_config (b64_encode cfg) = if String.eqb cfg "" then "{}" else cfg.
Proof.
  unfold decode_config. destruct (String.eqb_spec cfg "") as [->|Hne].
  - by rewrite (proj2 (b64_encode_empty "") eq_refl).
  - rewrite (proj2 (String.eqb_neq _ _)) by (by rewrite b64_encode_empty). by rewrite b64_decode_encode.
Qed.

(** What the shim asks for is what the daemon acquires: the daemon's
    dispatcher, handed the client's request, runs the acquisition with exactly the
    client's fields, and the OCI configuration the agent will be given is the
    client's, byte for byte (an empty one becomes the empty object). *)
Theorem acquire_request_roundtrip p d :
  dispatch config (of_lit (LObj (acquire_kvs p))) d =
    acquire_sandbox_with config (aq_netns p) (aq_image_key p) (aq_erofs_path p) (aq_container_id p)
      (b64_encode (aq_config_json p)) d /\
  decode_config (b64_encode (aq_config_json p)) = (if String.eqb (aq_config_json p) "" then "{}" else aq_config_json p).
Proof. split; [apply acquire_dispatch|apply decode_encode]. Qed.

Lemma check_error_lit kvs m :
  bool_decide (NoDup (map fst kvs)) = true -> assoc "error" kvs = None -> check_error (of_lit (LObj kvs)) m = Ok tt.
Proof. intros Hn He. unfold check_error. by rewrite get_obj, He by done. Qed.

Lemma check_error_json msg m :
  check_error (of_lit (error_json msg)) m = Err (Msg ("daemon " +:+ m +:+ ": " +:+ msg)).
Proof. unfold check_error, error_json. rewrite get_obj by done. cbn. by rewrite as_str_lit. Qed.

(** What an acquisition answers: an error, or a VM that is in the active map. *)
Definition answer_of (d' : daemon) (resp : lit) : Prop :=
  (exists msg, resp = error_json msg) \/
  (exists vm fs cp tap, resp = vm_json (pv_id vm) (pv_api vm) (pv_vsock vm) (pv_cid vm) (pv_pid vm) fs cp tap /\
     d_active d' !! pv_id vm = Some vm).

Lemma acquire_warm_answer netns key d resp d' :
  acquire_warm config netns key d = (Ok (Some resp), d') ->
  (exists msg, resp = error_json msg) \/
  (exists vm tap, resp = vm_json (pv_id vm) (pv_api vm) (pv_vsock vm) (pv_cid vm) (pv_pid vm) true 0 tap /\
     d_active d' !! pv_id vm = Some vm).
Proof.
  unfold acquire_warm. intros Hr.
  apply M_bind_Ok in Hr as (seq & d1 & _ & Hr). apply M_bind_Ok in Hr as ([?|e] & d2 & _ & Hr); [|inv_ok; left; eauto].
  apply M_bind_Ok in Hr as (cid & d3 & _ & Hr).
  apply M_bind_Ok in Hr as ([ [ [pid api] vsock]|e] & d4 & _ & Hr); [|by inv_ok].
  apply M_bind_Ok in Hr as ([tap|err] & d5 & Hn & Hr).
  - inv_ok. right. match goal with Hm : register_active ?vm _ = _ |- _ => exists vm; injection Hm as _ <- end.
    eexists. split; [done|]. cbn. apply lookup_insert_eq.
  - inv_ok. left. revert Hn. unfold warm_network. case_match; intros Hn; [by inv_ok|].
    apply M_bind_Ok in Hn as ([ [? ?]|?] & ? & _ & Hn); [|inv_ok; eauto].
    apply M_bind_Ok in Hn as ([?|?] & ? & _ & Hn); inv_ok; [done|eauto].
Qed.

Lemma acquire_pool_answer netns key erofs cid cfg d resp d' :
  acquire_pool config netns key erofs cid cfg d = (Ok resp, d') -> answer_of d' resp.
Proof.
  unfold acquire_pool. intros Hr. apply M_bind_Ok in Hr as ([vm|e] & d1 & Ha & Hr); [|inv_ok; left; eauto].
  assert (Hv : d_active d1 !! pv_id vm = Some vm).
  { pose proof (acquire_run config d) as Hrun. unfold attempt in Ha.
    destruct (vec_pop (d_ready d)) as [ [vm' rest]|].
    - rewrite Hrun in Ha. injection Ha as -> <-. cbn. apply lookup_insert_eq.
    - destruct Hrun as (t & r & _ & Hrun). cbv zeta in Hrun. destruct r as [vm'|e| |]; try done.
      + destruct Hrun as [_ Hrun]. rewrite Hrun in Ha. injection Ha as -> <-. cbn. apply lookup_insert_eq.
      + by rewrite Hrun in Ha. }
  match type of Hr with ?m _ = _ => assert (Hn : neutral m) end.
  { pose proof neutral_trigger. pose proof neutral_run_container. unfold spawn_task. neutral_solve; auto. }
  specialize (Hn d1). rewrite Hr in Hn. destruct Hn as (_ & Ea & _). cbn in Ea.
  inv_ok. match goal with x : ((Z * string) + error)%type |- _ => destruct x as [ [pid tap]|e] end; inv_ok.
  - right. exists vm. do 3 eexists. split; [done|]. by rewrite Ea.
  - left; eauto.
Qed.

Lemma acquire_answer netns key erofs cid cfg d resp d' :
  acquire_sandbox_with config netns key erofs cid cfg d = (Ok resp, d') -> answer_of d' resp.
Proof.
  unfold acquire_sandbox_with. intros Hr. inv_ok.
  match goal with x : option lit |- _ => destruct x as [l|] end; inv_ok; [|by eapply acquire_pool_answer].
  match goal with x : bool |- _ => destruct x end; [|by inv_ok].
  match goal with Hw : acquire_warm _ _ _ _ = _ |- _ => apply acquire_warm_answer in Hw as [?|(vm & tap & -> & ?)] end; [by left|].
  right. by exists vm, true, 0, tap.
Qed.

Lemma read_acquired_vm a b c cid pid fs cp tap : in_range 32 pid ->
  exists cp', read_acquired (of_lit (vm_json a b c cid pid fs cp tap)) = Ok (mkAcquiredVm a pid fs cp' tap).
Proof.
  intros Hp. unfold read_acquired, vm_json. rewrite check_error_lit by done.
  rewrite !get_obj by done. cbn. rewrite !as_str_lit, as_bool_lit, (as_u64_lit pid) by (unfold in_range in *; lia).
  cbn. eexists. by rewrite wrap_small.
Qed.

Lemma read_acquired_pid a b c cid pid fs cp tap : in_range 32 pid -> in_range 32 cp ->
  read_acquired (of_lit (vm_json a b c cid pid fs cp tap)) = Ok (mkAcquiredVm a pid fs cp tap).
Proof.
  intros Hp Hc. unfold read_acquired, vm_json. rewrite check_error_lit by done.
  rewrite !get_obj by done. cbn.
  rewrite !as_str_lit, as_bool_lit, (as_u64_lit pid), (as_u64_lit cp) by (unfold in_range in *; lia).
  cbn. by rewrite !wrap_small.
Qed.

Lemma acquire_fs (E : Env) `{World W} socket p kvs (w : W) av :
  delivers E socket (Some 30) (LObj kvs) -> (acquire_sandbox (H := E) socket p w).1 = Ok av ->
  av_from_snapshot av = default false (get "from_snapshot" (of_lit (LObj kvs)) ≫= as_bool).
Proof.
  intros Hd Ha. unfold acquire_sandbox, rpc, mbind, M_bind in Ha. rewrite (rpc_delivered E socket _ _ _ w Hd) in Ha.
  unfold lift, read_acquired in Ha. cbn [fst] in Ha. destruct (check_error _ _); try done. cbn [mbind result_bind] in Ha.
  destruct (get "vm_id" _ ≫= as_str); [|done]. cbn [ok_or mbind result_bind] in Ha.
  destruct (get "ch_pid" _ ≫= as_u64); [|done]. cbn [ok_or mbind result_bind mret result_ret] in Ha. by injection Ha as <-.
Qed.

(** An answer that is not of the warm path tells of the container started by the
    last thing the daemon did. *)
Lemma acquire_pool_runs netns key erofs cid cfg d a b c ci pid cp tap d' :
  erofs <> "" -> cid <> "" ->
  acquire_pool config netns key erofs cid cfg d = (Ok (vm_json a b c ci pid false cp tap), d') ->
  exists d1, run_container_in_vm (mkRunContainerParams b c a netns erofs cid cfg) d1 = (Ok (cp, tap), d').
Proof.
  intros He Hc Hr. unfold acquire_pool in Hr. apply M_bind_Ok in Hr as ([vm|e] & d1 & _ & Hr); [|done].
  rewrite (proj2 (String.eqb_neq _ _) He), (proj2 (String.eqb_neq _ _) Hc) in Hr. cbn [negb andb] in Hr.
  apply M_bind_Ok in Hr as (u & d2 & _ & Hr). apply M_bind_Ok in Hr as (u' & d3 & _ & Hr).
  apply M_bind_Ok in Hr as (r & d4 & Hrun & Hr). unfold attempt in Hrun.
  destruct (run_container_in_vm _ d3) as [r' d5] eqn:Er. destruct r as [ [cp' tap']|e]; [|done].
  injection Hr; intros; subst. exists d3. destruct r'; try done. congruence.
Qed.

Lemma acquire_runs netns key erofs cid cfg d a b c ci pid cp tap d' :
  erofs <> "" -> cid <> "" ->
  acquire_sandbox_with config netns key erofs cid cfg d = (Ok (vm_json a b c ci pid false cp tap), d') ->
  exists d1, run_container_in_vm (mkRunContainerParams b c a netns erofs cid cfg) d1 = (Ok (cp, tap), d').
Proof.
  intros He Hc. unfold acquire_sandbox_with. intros Hr.
  apply M_bind_Ok in Hr as (warm & d1 & _ & Hr). apply M_bind_Ok in Hr as ([resp|] & d2 & Hw & Hr);
    [|by eapply acquire_pool_runs].
  destruct warm; [|done]. injection Hr as -> ->. by apply acquire_warm_answer in Hw as [ [? ?]|(vm & tap' & ? & _)].
Qed.

(** C10: end to end: when the daemon's answer to the client's request reaches the
    client, the client either holds a VM, and it is one the daemon has in its active
    map under that very name, with the hypervisor pid the client was told; or it
    holds the daemon's error message. *)
Theorem acquire_end_to_end (E : Env) `{World W} socket p d resp d' (w : W) :
  dispatch (H := D) config (of_lit (LObj (acquire_kvs p))) d = (Ok resp, d') ->
  delivers E socket (Some 30) resp ->
  (forall k vm, d_active d' !! k = Some vm -> in_range 32 (pv_pid vm)) ->
  match (acquire_sandbox (H := E) socket p w).1 with
  | Ok av => exists vm, d_active d' !! av_vm_id av = Some vm /\ pv_id vm = av_vm_id av /\ pv_pid vm = av_ch_pid av
  | Err e => exists msg, resp = error_json msg /\ e = Msg ("daemon AcquireSandbox: " +:+ msg)
  | _ => False
  end.
Proof.
  intros Hr Hd Hp. rewrite acquire_dispatch in Hr.
  destruct (acquire_answer _ _ _ _ _ _ _ _ Hr) as [ [msg ->]|(vm & fs & cp & tap & -> & Hvm)];
    unfold acquire_sandbox, rpc, mbind, M_bind, error_json, vm_json in *.
  - rewrite (rpc_delivered E socket _ _ _ w Hd). unfold lift, read_acquired. fold (error_json msg).
    rewrite check_error_json. cbn. eauto.
  - rewrite (rpc_delivered E socket _ _ _ w Hd). unfold lift. cbn [fst].
    destruct (read_acquired_vm (pv_id vm) (pv_api vm) (pv_vsock vm) (pv_cid vm) (pv_pid vm) fs cp tap (Hp _ _ Hvm)) as [cp' Er].
    unfold vm_json in Er. rewrite Er. cbn. eauto.
Qed.

(** What a wait answers. *)
Definition wait_lit (r : error + WaitContainerResponse) : lit :=
  match r with
  | inr resp => LObj [("exit_status", LNum (wc_exit_status resp)); ("exited_at", LStr (wc_exited_at resp))]
  | inl e => LObj [("exit_status", LNum 137); ("exited_at", LStr ""); ("error", LStr ("wait_container: " +:+ display e))]
  end.

Lemma wait_dispatch vm_id cid a d :
  d_agents d !! vm_id = Some a ->
  dispatch (H := D) config (of_lit (LObj (wait_kvs vm_id cid))) d =
    (Ok (wait_lit (env (Env := D) (d_trace d) (AgentWait a cid))), set_d_trace (d_trace d ++ [AgentWait a cid]) d).
Proof.
  intros Ha. unfold dispatch, handle_wait_container, get_agent, wait_kvs. rewrite !str_field_obj by done. cbn.
  unfold gets, mbind, M_bind. rewrite Ha, sys_run. change (trace d) with (d_trace d).
  by destruct (env (d_trace d) (AgentWait a cid)).
Qed.

Lemma add_dispatch vm_id erofs cid cfg d :
  vm_id <> "" -> cid <> "" ->
  dispatch (H := D) config (of_lit (LObj (add_kvs vm_id erofs cid cfg))) d =
    match d_active d !! vm_id with
    | None => (Ok (error_json ("VM " +:+ vm_id +:+ " not found in active set")), d)
    | Some vm =>
        (r ← attempt (run_container_in_vm (H := D) (mkRunContainerParams (pv_api vm) (pv_vsock vm) vm_id "" erofs cid (b64_encode cfg)));
         mret (match r with
               | inl (pid, _) => LObj [("container_pid", LNum pid)]
               | inr e => error_json ("add container: " +:+ display_alt e)
               end)) d
    end.
Proof.
  intros Hv Hc. unfold dispatch, handle_add_container, get_active, add_kvs. rewrite !str_field_obj by done. cbn.
  rewrite (proj2 (String.eqb_neq _ _) Hv), (proj2 (String.eqb_neq _ _) Hc). cbn. unfold gets, mbind, M_bind.
  destruct (d_active d !! vm_id) as [vm|]; [|done].
  by destruct (attempt _ d) as [ [ [ [pid tap]|e]| | |] d'].
Qed.

Lemma add_delivered (E : Env) `{World W} socket vm_id erofs cid cfg kvs (w : W) :
  delivers E socket (Some 30) (LObj kvs) ->
  (add_container (H := E) socket vm_id erofs cid cfg w).1 =
    (check_error (of_lit (LObj kvs)) "AddContainer";;
     Ok (wrap 32 (default 0 (get "container_pid" (of_lit (LObj kvs)) ≫= as_u64)))).
Proof.
  intros Hd. unfold add_container, rpc, mbind, M_bind, lift. rewrite (rpc_delivered E socket _ _ _ w Hd). cbn [fst].
  by destruct (check_error _ _).
Qed.

Lemma wait_delivered (E : Env) `{World W} socket vm_id cid r (w : W) :
  delivers E socket None (wait_lit r) ->
  (forall resp, r = inr resp -> in_range 32 (wc_exit_status resp)) ->
  (wait_container (H := E) socket vm_id cid w).1 =
    match r with
    | inr resp => Ok (wc_exit_status resp, wc_exited_at resp)
    | inl e => Err (Msg ("daemon WaitContainer: wait_container: " +:+ display e))
    end.
Proof.
  intros Hd Hr. unfold wait_container, rpc_no_timeout, mbind, M_bind, lift, read_waited.
  destruct r as [e|resp]; rewrite (rpc_delivered E socket _ _ _ w Hd); cbn [fst].
  - unfold check_error. rewrite !get_obj by done. cbn. by rewrite !as_str_lit.
  - specialize (Hr _ eq_refl). rewrite check_error_lit by done. rewrite !get_obj by done. cbn.
    rewrite as_str_lit, as_u64_lit by (unfold in_range in *; lia). cbn. by rewrite wrap_small.
Qed.

(** End to end: waiting for a container gives the shim the exit status and
    the time the guest's agent reported, unchanged; an agent that fails gives it an
    error, never a status; and a signal the shim sends reaches the agent, for that
    container, with its number unchanged. *)
Theorem proxy_end_to_end (E : Env) `{World W} socket vm_id cid sig a d (w : W) :
  d_agents d !! vm_id = Some a -> in_range 32 sig ->
  (forall h c, match env (Env := D) h (AgentWait a c) with inr r => in_range 32 (wc_exit_status r) | inl _ => True end) ->
  (exists resp, dispatch (H := D) config (of_lit (LObj (wait_kvs vm_id cid))) d
                = (Ok resp, set_d_trace (d_trace d ++ [AgentWait a cid]) d) /\
     (delivers E socket None resp ->
      match env (Env := D) (d_trace d) (AgentWait a cid) with
      | inr r => (wait_container (H := E) socket vm_id cid w).1 = Ok (wc_exit_status r, wc_exited_at r)
      | inl _ => is_Ok (wait_container (H := E) socket vm_id cid w).1 = false
      end)) /\
  (exists resp, dispatch (H := D) config (of_lit (LObj (kill_kvs vm_id cid sig))) d
                = (Ok resp, set_d_trace (d_trace d ++ [AgentKill a (mkKillContainerRequest cid sig false)]) d) /\
     (delivers E socket (Some 30) resp ->
      is_Ok (kill_container (H := E) socket vm_id cid sig w).1 =
      match env (Env := D) (d_trace d) (AgentKill a (mkKillContainerRequest cid sig false)) with inr _ => true | inl _ => false end)).
Proof.
  intros Ha Hs Hw. split.
  - eexists. split; [by apply wait_dispatch|]. intros Hd. specialize (Hw (d_trace d) cid).
    rewrite (wait_delivered E socket vm_id cid _ w Hd) by (intros r Er; by rewrite Er in Hw).
    by destruct (env (d_trace d) (AgentWait a cid)).
  - unfold dispatch, handle_kill_container, get_agent, kill_container, rpc, kill_kvs.
    rewrite !str_field_obj, get_obj by done. cbn. rewrite as_u64_lit by (unfold in_range in *; lia). cbn.
    unfold gets, mbind, M_bind. rewrite Ha, sys_run, (wrap_small 32 sig) by done.
    change (trace d) with (d_trace d).
    destruct (env (d_trace d) (AgentKill _ _)) as [e|r]; eexists; (split; [reflexivity|]); intros Hd;
      rewrite (rpc_delivered E socket _ _ _ w Hd); unfold lift; cbn [fst].
    + fold (error_json ("kill_container: " +:+ display e)). by rewrite check_error_json.
    + by rewrite check_error_lit.
Qed.
End EndToEnd.

(** ** Witnesses *)

(** A shim whose socket delivers the given answer. *)
Definition line_env (resp : lit) : Env :=
  Build_Env (fun _ c => match c return ans c with
    | ReadLine _ _ => Some (inr (@response_line bit_json resp))
    | c => calm (fun _ => None) (fun _ => true) c end) 1.

Lemma line_env_delivers resp socket timeout : @delivers bit_json (line_env resp) socket timeout resp.
Proof. by intros h. Qed.

Definition sample_request : AcquireRequest := mkAcquireRequest "" "img" "/i.erofs" "c1" "{}".

Definition sample_dispatch : result lit * daemon :=
  @dispatch sample_env bit_json plain_anyhow plain_base64 sample_cfg (LObj (@acquire_kvs plain_base64 sample_request))
    sample_pool.
Definition sample_answer : lit :=
  vm_json "pool-1000-3" "/st/pool-1000-3/api.sock" "/st/pool-1000-3/vsock.sock" 3 4242 false 17 "".

Lemma acquire_end_to_end_witness :
  exists d', sample_dispatch = (Ok sample_answer, d') /\
    exists av, (@acquire_sandbox (line_env sample_answer) bit_json plain_base64 _ trace_world "/run/d.sock"
                  sample_request []).1 = Ok av /\
      exists vm, d_active d' !! av_vm_id av = Some vm.
Proof.
  destruct sample_dispatch as [r d'] eqn:E.
  assert (Er : r = Ok sample_answer) by (change r with (r, d').1; rewrite <- E; vm_compute; reflexivity).
  assert (Ed : d_active d' = {["pool-1000-3" := sample_vm]})
    by (change d' with (r, d').2; rewrite <- E; vm_compute; reflexivity).
  subst r. exists d'. split; [reflexivity|].
  assert (Hp : forall k vm, d_active d' !! k = Some vm -> in_range 32 (pv_pid vm)).
  { intros k vm. rewrite Ed. intros [_ <-]%lookup_singleton_Some. cbn. unfold in_range. lia. }
  pose proof (@acquire_end_to_end sample_env bit_json plain_anyhow plain_base64 sample_cfg
    (line_env sample_answer) _ trace_world "/run/d.sock" sample_request sample_pool _ d' [] E
    (line_env_delivers _ _ _) Hp) as Hend.
  match type of Hend with match ?x with _ => _ end => destruct x as [av|e| |] eqn:Ea end.
  - exists av. split; [reflexivity|]. destruct Hend as (vm & Hvm & _). exists vm. exact Hvm.
  - exfalso. destruct Hend as (msg & Hm & _). discriminate Hm.
  - destruct Hend.
  - destruct Hend.
Defined.

Lemma proxy_end_to_end_witness :
  exists resp, @dispatch sample_env bit_json plain_anyhow plain_base64 sample_cfg
      (LObj (wait_kvs "v" "c1")) (set_agents {["v" := "/s"]} sample_pool)
    = (Ok resp, set_d_trace [AgentWait "/s" "c1"] (set_agents {["v" := "/s"]} sample_pool)).
Proof.
  destruct (@proxy_end_to_end sample_env bit_json plain_anyhow plain_base64 sample_cfg (line_env LNull) _ trace_world
    "/run/d.sock" "v" "c1" 15 "/s" (set_agents {["v" := "/s"]} sample_pool) [] (lookup_singleton_eq "v" "/s")
    ltac:(unfold in_range; lia) ltac:(intros; cbn; unfold in_range; lia)) as [ (resp & E & _) _].
  exists resp. exact E.
Defined.
