(* ===== verification/Config.v ===== *)
(** * Configuration files

    [crates/daemon/src/config.rs], [crates/shim/src/config.rs],
    [crates/common/src/types.rs] (the shim's [RuntimeConfig]) and the argument
    handling of [crates/daemon/src/main.rs].

    [#[derive(Deserialize)]] generates the decoders, so they are the class
    [SerdeDerive]; its laws say what a derived decoder does with the text of an
    object: a field that is there has to have the field's type, one that is not
    takes its default, and a field without a default has to be there. *)

From S2P Require Import Prelude RustStr Proto Sys Json Lifecycle.
From Stdlib Require Import Ascii.
From Stdlib Require String.
Local Open Scope Z_scope.

(** ** [crates/common/src/lib.rs] and [types.rs] *)

Definition GUEST_CID_START : Z := 3.
Definition AGENT_STARTUP_TIMEOUT_SECS : Z := 10.
Definition DEFAULT_VCPUS : Z := 1.
Definition DEFAULT_MEMORY_MB : Z := 128.
Definition DEFAULT_CH_BINARY : string := "/usr/local/bin/cloud-hypervisor".
Definition DEFAULT_MAX_CONTAINERS_PER_VM : Z := 5.
Definition DEFAULT_HOTPLUG_MEMORY_MB : Z := 0.

Record RuntimeConfig := mkRuntimeConfig {
  rc_cloud_hypervisor_binary : string; rc_kernel_path : string; rc_rootfs_path : string;
  rc_default_vcpus : Z; rc_max_default_vcpus : Z; rc_default_memory_mb : Z; rc_vsock_port : Z;
  rc_agent_startup_timeout_secs : Z; rc_kernel_args : string; rc_debug : bool;
  rc_max_containers_per_vm : Z; rc_hotplug_memory_mb : Z; rc_hotplug_method : string;
  rc_tpm_enabled : bool; rc_daemon_socket : string }.

(** On x86-64; [aarch64] has another console. *)
Definition default_kernel_args : string := "console=hvc0 root=/dev/vda rw quiet init=/init".

(** ** Fields of an object *)

Definition opt_field {A} (read : lit -> option A) (k : string) (kvs : list (string * lit)) (d : A) : option A :=
  match assoc k kvs with Some l => read l | None => Some d end.
Definition req_field {A} (read : lit -> option A) (k : string) (kvs : list (string * lit)) : option A :=
  assoc k kvs ≫= read.

Definition read_str (l : lit) : option string := match l with LStr s => Some s | _ => None end.
Definition read_bool (l : lit) : option bool := match l with LBool b => Some b | _ => None end.
Definition read_uint (w : Z) (l : lit) : option Z :=
  match l with LNum n => if (0 <=? n) && (n <? 2 ^ w) then Some n else None | _ => None end.

Definition decode_runtime (kvs : list (string * lit)) : option RuntimeConfig :=
  ch ← opt_field read_str "cloud_hypervisor_binary" kvs DEFAULT_CH_BINARY;
  kernel ← req_field read_str "kernel_path" kvs;
  rootfs ← req_field read_str "rootfs_path" kvs;
  vcpus ← opt_field (read_uint 32) "default_vcpus" kvs DEFAULT_VCPUS;
  max_vcpus ← opt_field (read_uint 32) "max_default_vcpus" kvs 0;
  memory ← opt_field (read_uint 64) "default_memory_mb" kvs DEFAULT_MEMORY_MB;
  port ← opt_field (read_uint 32) "vsock_port" kvs AGENT_VSOCK_PORT;
  timeout ← opt_field (read_uint 64) "agent_startup_timeout_secs" kvs AGENT_STARTUP_TIMEOUT_SECS;
  args ← opt_field read_str "kernel_args" kvs default_kernel_args;
  debug ← opt_field read_bool "debug" kvs false;
  containers ← opt_field (read_uint 64) "max_containers_per_vm" kvs DEFAULT_MAX_CONTAINERS_PER_VM;
  hotplug ← opt_field (read_uint 64) "hotplug_memory_mb" kvs DEFAULT_HOTPLUG_MEMORY_MB;
  method ← opt_field read_str "hotplug_method" kvs "acpi";
  tpm ← opt_field read_bool "tpm_enabled" kvs false;
  socket ← opt_field read_str "daemon_socket" kvs "";
  mret (mkRuntimeConfig ch kernel rootfs vcpus max_vcpus memory port timeout args debug containers hotplug method
          tpm socket).

Definition decode_daemon (kvs : list (string * lit)) : option DaemonConfig :=
  pool ← opt_field (read_uint 64) "pool_size" kvs 3;
  max_pool ← opt_field (read_uint 64) "max_pool_size" kvs 10;
  delay ← opt_field (read_uint 64) "replenish_delay_ms" kvs 100;
  idle ← opt_field (read_uint 64) "vm_idle_timeout_secs" kvs 300;
  vcpus ← opt_field (read_uint 32) "default_vcpus" kvs 1;
  memory ← opt_field (read_uint 64) "default_memory_mb" kvs 512;
  ch ← opt_field read_str "cloud_hypervisor_binary" kvs "/usr/local/bin/cloud-hypervisor";
  kernel ← req_field read_str "kernel_path" kvs;
  rootfs ← req_field read_str "rootfs_path" kvs;
  args ← opt_field read_str "kernel_args" kvs "console=ttyS0 root=/dev/vda rw init=/init net.ifnames=0";
  socket ← opt_field read_str "socket_path" kvs "/run/cloudhv/daemon.sock";
  state ← opt_field read_str "state_dir" kvs "/run/cloudhv/daemon";
  warmup ← opt_field (read_uint 64) "warmup_duration_secs" kvs 30;
  snapshots ← opt_field (read_uint 64) "max_snapshots" kvs 100;
  mret (mkDaemonConfig pool max_pool delay idle vcpus memory ch kernel rootfs args socket state warmup snapshots).

Definition decodes {A} (r : error + A) (o : option A) : Prop :=
  match r, o with inr c, Some c' => c = c' | inl _, None => True | _, _ => False end.

Class SerdeDerive `{SerdeJson} := {
  runtime_from_str : string -> error + RuntimeConfig;
  daemon_from_str : string -> error + DaemonConfig;
  runtime_object kvs : bool_decide (NoDup (map fst kvs)) = true ->
    decodes (runtime_from_str (to_string (of_lit (LObj kvs)))) (decode_runtime kvs);
  daemon_object kvs : bool_decide (NoDup (map fst kvs)) = true ->
    decodes (daemon_from_str (to_string (of_lit (LObj kvs)))) (decode_daemon kvs);
}.

(** ** Loading *)

Section Load.
Context `{Env, SerdeDerive, World W}.

Definition DEFAULT_CONFIG_PATH : string := "/opt/cloudhv/config.json".

Definition load_config (path : option string) : M W RuntimeConfig :=
  let config_path := default DEFAULT_CONFIG_PATH path in
  b ← exists_path config_path;
  if b : bool then
    data ← m_ctx ("failed to read config from " +:+ config_path) (read_to_string config_path);
    lift (with_ctx ("failed to parse config from " +:+ config_path) (lib_res (runtime_from_str data)))
  else fail (Msg ("runtime config not found at " +:+ config_path +:+
                  "; create it or specify an alternative path")).

Definition daemon_load (path : string) : M W DaemonConfig :=
  content ← m_ctx ("read config: " +:+ path) (read_to_string path);
  lift (with_ctx "parse daemon config" (lib_res (daemon_from_str content))).

(** A configuration file that holds only the fields without a default loads
    as the record of the defaults; a field it sets is taken over. A file without the
    kernel's or the root image's path is refused, for the daemon and for the shim. *)
Theorem daemon_load_defaults kvs path (w : W) :
  bool_decide (NoDup (map fst kvs)) = true ->
  (forall h, env h (ReadToString path) = inr (to_string (of_lit (LObj kvs)))) ->
  match decode_daemon kvs with
  | Some c => (daemon_load path w).1 = Ok c
  | None => exists e, (daemon_load path w).1 = Err (Ctx "parse daemon config" e)
  end /\
  (forall k r, kvs = [("kernel_path", LStr k); ("rootfs_path", LStr r)] ->
     (daemon_load path w).1 = Ok (mkDaemonConfig 3 10 100 300 1 512 "/usr/local/bin/cloud-hypervisor" k r
       "console=ttyS0 root=/dev/vda rw init=/init net.ifnames=0" "/run/cloudhv/daemon.sock" "/run/cloudhv/daemon" 30 100)) /\
  (assoc "kernel_path" kvs = None \/ assoc "rootfs_path" kvs = None -> is_Ok (daemon_load path w).1 = false).
Proof.
  intros Hn Hread. pose proof (daemon_object kvs Hn) as Hd.
  assert (E : (daemon_load path w).1 =
    with_ctx "parse daemon config" (lib_res (daemon_from_str (to_string (of_lit (LObj kvs)))))).
  { unfold daemon_load, read_to_string, mbind, M_bind, m_ctx. rewrite sys_run, Hread. done. }
  rewrite E. unfold decodes in Hd. split_and!.
  - destruct (daemon_from_str _) as [e|c], (decode_daemon kvs) as [c'|]; try done; [by eexists|by subst].
  - intros k r ->. cbn in Hd. destruct (daemon_from_str _); [done|]. by subst.
  - intros Hm. assert (decode_daemon kvs = None) as Hnone.
    { unfold decode_daemon, req_field. destruct Hm as [-> | ->];
        repeat match goal with |- (?x ≫= _) = None => destruct x; cbn [mbind option_bind]; [|done] end; done. }
    rewrite Hnone in Hd. by destruct (daemon_from_str _).
Qed.
End Load.

(** ** Which file the daemon loads ([crates/daemon/src/main.rs])

    [args] is [std::env::args()], the program's name first. *)

Definition config_flag (a : string) : bool := starts_with a "--config=".

Definition daemon_config_path (args : list string) : string :=
  match args !! 1%nat with
  | Some a => a
  | None =>
      match List.find config_flag args with
      | Some a => String.substring 9 (String.length a - 9) a
      | None => "/opt/cloudhv/daemon.json"
      end
  end.

(** The daemon takes its first argument as the path, whatever it is: an
    invocation with [--config=P] loads the file named [--config=P] and never [P]. *)
Theorem config_flag_is_a_path prog p rest :
  config_flag prog = false ->
  daemon_config_path (prog :: ("--config=" +:+ p) :: rest) = "--config=" +:+ p /\
  daemon_config_path [prog] = "/opt/cloudhv/daemon.json".
Proof. intros Hp. split; [done|]. unfold daemon_config_path. cbn. by rewrite Hp. Qed.

Lemma config_flag_is_a_path_witness :
  daemon_config_path ["cloudhv-sandbox-daemon"; "--config=/etc/d.json"] = "--config=/etc/d.json".
Proof. apply (config_flag_is_a_path "cloudhv-sandbox-daemon" "/etc/d.json" []). reflexivity. Defined.

(** ** Witness *)

Definition lit_kvs (l : lit) : list (string * lit) := match l with LObj kvs => kvs | _ => [] end.

Definition plain_derive : @SerdeDerive bit_json.
Proof.
  refine (@Build_SerdeDerive bit_json
    (fun s => match lit_parse s with inr (LObj kvs) => match decode_runtime kvs with Some c => inr c | None => inl (Msg "") end | _ => inl (Msg "") end)
    (fun s => match lit_parse s with inr (LObj kvs) => match decode_daemon kvs with Some c => inr c | None => inl (Msg "") end | _ => inl (Msg "") end) _ _);
    intros kvs _; pose proof (@print_parse bit_json kvs) as E; cbn in E |- *; rewrite E; unfold decodes.
  - by destruct (decode_runtime kvs).
  - by destruct (decode_daemon kvs).
Defined.

Definition minimal_config : list (string * lit) := [("kernel_path", LStr "/k"); ("rootfs_path", LStr "/r")].
Definition config_env : Env :=
  calm_env (fun _ => Some (lit_print (LObj minimal_config))) (fun _ => true).

Lemma daemon_load_defaults_witness :
  (@daemon_load config_env bit_json plain_derive _ trace_world "/d.json" []).1 =
  Ok (mkDaemonConfig 3 10 100 300 1 512 "/usr/local/bin/cloud-hypervisor" "/k" "/r"
        "console=ttyS0 root=/dev/vda rw init=/init net.ifnames=0" "/run/cloudhv/daemon.sock" "/run/cloudhv/daemon" 30 100).
Proof.
  destruct (@daemon_load_defaults config_env bit_json plain_derive _ trace_world minimal_config "/d.json" [] eq_refl
    (fun _ => eq_refl)) as (_ & Hmin & _).
  exact (Hmin "/k" "/r" eq_refl).
Defined.
