(* ===== verification/VmTypes.v ===== *)
(** * The hypervisor's configuration as JSON

    The [Vm*] structures of [crates/common/src/types.rs] with the encoders and
    decoders that [#[derive(Serialize, Deserialize)]] makes of their attributes. A
    structure is written as an object, one field after the other;
    [skip_serializing_if] leaves a field out, and on the way back a missing field
    is [None] when it is an [Option], its default when it has one, and an error
    otherwise. *)

From S2P Require Import Prelude RustStr Sys Json Lifecycle Config.
From Stdlib Require String.
Local Open Scope Z_scope.

(** ** Derived codecs *)

(** A type's encoder and decoder, and the values that its Rust type has. *)
Class Serde (A : Type) := {
  ser : A -> lit;
  de : lit -> option A;
  typed : A -> Prop;
}.
Class SerdeLaw (A : Type) `{Serde A} := de_ser (a : A) : typed a -> de (ser a) = Some a.
(** A value that is read back as it was written is not written as [null]: an option
    would read that as [None]. *)
Class SerdeSome (A : Type) `{Serde A} := ser_some (a : A) : ser a <> LNull.

#[export] Instance serde_string : Serde string := {| ser := LStr; de := read_str; typed _ := True |}.
#[export] Instance serde_bool : Serde bool := {| ser := LBool; de := read_bool; typed _ := True |}.
Definition serde_uint (w : Z) : Serde Z := {| ser := LNum; de := read_uint w; typed n := in_range w n |}.
#[export] Instance serde_vec {A} `{Serde A} : Serde (list A) := {|
  ser l := LArr (map ser l);
  de v := match v with LArr l => mapM de l | _ => None end;
  typed l := Forall typed l |}.

Definition read_obj {A} (f : list (string * lit) -> option A) (v : lit) : option A :=
  match v with LObj kvs => f kvs | _ => None end.

(** How a field is written. *)
Definition put {A} `{Serde A} (k : string) (a : A) : list (string * lit) := [(k, ser a)].
Definition put_opt {A} `{Serde A} (k : string) (o : option A) : list (string * lit) :=
  match o with Some a => put k a | None => [] end.
Definition put_vec {A} `{Serde A} (k : string) (l : list A) : list (string * lit) :=
  match l with [] => [] | _ => put k l end.

(** And read: [req_field] and [opt_field] of [Config], and an [Option]. *)
Definition option_field {A} (read : lit -> option A) (k : string) (kvs : list (string * lit)) : option (option A) :=
  match assoc k kvs with Some LNull | None => Some None | Some v => Some <$> read v end.

(** ** The structures *)

Record VmPayload := mkVmPayload { vp_kernel : string; vp_cmdline : option string; vp_initramfs : option string }.
Record VmCpus := mkVmCpus { vc_boot_vcpus : Z; vc_max_vcpus : Z }.
Record VmMemory := mkVmMemory {
  vm_size : Z; vm_shared : bool; vm_hotplug_size : option Z; vm_hotplug_method : option string }.
Record VmDisk := mkVmDisk { vd_path : string; vd_readonly : bool; vd_id : option string }.
Record VmFs := mkVmFs { vf_tag : string; vf_socket : string; vf_num_queues : Z; vf_queue_size : Z }.
Record VmNet := mkVmNet { vn_tap : string; vn_mac : option string }.
Record VmVsock := mkVmVsock { vv_cid : Z; vv_socket : string }.
Record VmConsoleConfig := mkVmConsoleConfig { vcc_mode : string; vcc_file : option string }.
Record VmTpm := mkVmTpm { vt_socket : string }.
Record VmBalloon := mkVmBalloon { vb_size : Z; vb_free_page_reporting : bool }.
Record VmConfig := mkVmConfig {
  v_payload : VmPayload; v_cpus : VmCpus; v_memory : VmMemory;
  v_disks : list VmDisk; v_net : list VmNet; v_fs : list VmFs;
  v_vsock : option VmVsock; v_serial : option VmConsoleConfig; v_console : option VmConsoleConfig;
  v_balloon : option VmBalloon; v_tpm : option VmTpm }.

Definition console_off : VmConsoleConfig := mkVmConsoleConfig "Off" None.
Definition console_file (path : string) : VmConsoleConfig := mkVmConsoleConfig "File" (Some path).
Definition default_fs_queues : Z := 1.
Definition default_fs_queue_size : Z := 128.

#[local] Abbreviation u32 := (serde_uint 32).
#[local] Abbreviation u64 := (serde_uint 64).

#[export] Instance serde_payload : Serde VmPayload := {|
  ser p := LObj (put "kernel" (vp_kernel p) ++ put_opt "cmdline" (vp_cmdline p) ++ put_opt "initramfs" (vp_initramfs p));
  de := read_obj (fun kvs =>
    kernel ← req_field de "kernel" kvs; cmdline ← option_field de "cmdline" kvs;
    initramfs ← option_field de "initramfs" kvs; mret (mkVmPayload kernel cmdline initramfs));
  typed _ := True |}.

#[export] Instance serde_cpus : Serde VmCpus := {|
  ser c := LObj (put (H := u32) "boot_vcpus" (vc_boot_vcpus c) ++ put (H := u32) "max_vcpus" (vc_max_vcpus c));
  de := read_obj (fun kvs =>
    boot ← req_field (de (Serde := u32)) "boot_vcpus" kvs; max ← req_field (de (Serde := u32)) "max_vcpus" kvs;
    mret (mkVmCpus boot max));
  typed c := in_range 32 (vc_boot_vcpus c) /\ in_range 32 (vc_max_vcpus c) |}.

#[export] Instance serde_memory : Serde VmMemory := {|
  ser m := LObj (put (H := u64) "size" (vm_size m) ++ put "shared" (vm_shared m) ++
    put_opt (H := u64) "hotplug_size" (vm_hotplug_size m) ++ put_opt "hotplug_method" (vm_hotplug_method m));
  de := read_obj (fun kvs =>
    size ← req_field (de (Serde := u64)) "size" kvs; shared ← opt_field de "shared" kvs false;
    hotplug ← option_field (de (Serde := u64)) "hotplug_size" kvs; method ← option_field de "hotplug_method" kvs;
    mret (mkVmMemory size shared hotplug method));
  typed m := in_range 64 (vm_size m) /\ from_option (in_range 64) True (vm_hotplug_size m) |}.

#[export] Instance serde_disk : Serde VmDisk := {|
  ser d := LObj (put "path" (vd_path d) ++ put "readonly" (vd_readonly d) ++ put_opt "id" (vd_id d));
  de := read_obj (fun kvs =>
    path ← req_field de "path" kvs; readonly ← opt_field de "readonly" kvs false; id ← option_field de "id" kvs;
    mret (mkVmDisk path readonly id));
  typed _ := True |}.

#[export] Instance serde_fs : Serde VmFs := {|
  ser f := LObj (put "tag" (vf_tag f) ++ put "socket" (vf_socket f) ++
    put (H := u32) "num_queues" (vf_num_queues f) ++ put (H := u32) "queue_size" (vf_queue_size f));
  de := read_obj (fun kvs =>
    tag ← req_field de "tag" kvs; socket ← req_field de "socket" kvs;
    queues ← opt_field (de (Serde := u32)) "num_queues" kvs default_fs_queues;
    queue_size ← opt_field (de (Serde := u32)) "queue_size" kvs default_fs_queue_size;
    mret (mkVmFs tag socket queues queue_size));
  typed f := in_range 32 (vf_num_queues f) /\ in_range 32 (vf_queue_size f) |}.

#[export] Instance serde_net : Serde VmNet := {|
  ser n := LObj (put "tap" (vn_tap n) ++ put_opt "mac" (vn_mac n));
  de := read_obj (fun kvs => tap ← req_field de "tap" kvs; mac ← option_field de "mac" kvs; mret (mkVmNet tap mac));
  typed _ := True |}.

#[export] Instance serde_vsock : Serde VmVsock := {|
  ser v := LObj (put (H := u64) "cid" (vv_cid v) ++ put "socket" (vv_socket v));
  de := read_obj (fun kvs =>
    cid ← req_field (de (Serde := u64)) "cid" kvs; socket ← req_field de "socket" kvs; mret (mkVmVsock cid socket));
  typed v := in_range 64 (vv_cid v) |}.

#[export] Instance serde_console : Serde VmConsoleConfig := {|
  ser c := LObj (put "mode" (vcc_mode c) ++ put_opt "file" (vcc_file c));
  de := read_obj (fun kvs =>
    mode ← req_field de "mode" kvs; file ← option_field de "file" kvs; mret (mkVmConsoleConfig mode file));
  typed _ := True |}.

#[export] Instance serde_tpm : Serde VmTpm := {|
  ser t := LObj (put "socket" (vt_socket t));
  de := read_obj (fun kvs => socket ← req_field de "socket" kvs; mret (mkVmTpm socket));
  typed _ := True |}.

#[export] Instance serde_balloon : Serde VmBalloon := {|
  ser b := LObj (put (H := u64) "size" (vb_size b) ++ put "free_page_reporting" (vb_free_page_reporting b));
  de := read_obj (fun kvs =>
    size ← req_field (de (Serde := u64)) "size" kvs; reporting ← opt_field de "free_page_reporting" kvs false;
    mret (mkVmBalloon size reporting));
  typed b := in_range 64 (vb_size b) |}.

Definition vm_fields (c : VmConfig) : list (string * lit) :=
  put "payload" (v_payload c) ++ put "cpus" (v_cpus c) ++ put "memory" (v_memory c) ++
  put_vec "disks" (v_disks c) ++ put_vec "net" (v_net c) ++ put_vec "fs" (v_fs c) ++
  put_opt "vsock" (v_vsock c) ++ put_opt "serial" (v_serial c) ++ put_opt "console" (v_console c) ++
  put_opt "balloon" (v_balloon c) ++ put_opt "tpm" (v_tpm c).

(** The three lists have no [serde(default)]. *)
Definition read_vm (kvs : list (string * lit)) : option VmConfig :=
  payload ← req_field de "payload" kvs; cpus ← req_field de "cpus" kvs; memory ← req_field de "memory" kvs;
  disks ← req_field de "disks" kvs; net ← req_field de "net" kvs; fs ← req_field de "fs" kvs;
  vsock ← option_field de "vsock" kvs; serial ← option_field de "serial" kvs; console ← option_field de "console" kvs;
  balloon ← option_field de "balloon" kvs; tpm ← option_field de "tpm" kvs;
  mret (mkVmConfig payload cpus memory disks net fs vsock serial console balloon tpm).

#[export] Instance serde_config : Serde VmConfig := {|
  ser c := LObj (vm_fields c);
  de := read_obj read_vm;
  typed c := typed (v_cpus c) /\ typed (v_memory c) /\ typed (v_fs c) /\
    from_option typed True (v_vsock c) /\ from_option typed True (v_balloon c) |}.

(** ** Fields that are read back *)

Lemma assoc_app {A} k (l1 l2 : list (string * A)) :
  assoc k (l1 ++ l2) = match assoc k l1 with Some a => Some a | None => assoc k l2 end.
Proof. induction l1 as [|[k' a] l1 IH]; [done|]. cbn. by destruct (String.eqb k k'). Qed.

Section Fields.
Context {A} `{SA : Serde A}.

Lemma assoc_put k k' (a : A) : assoc k (put k' a) = if String.eqb k k' then Some (ser a) else None.
Proof. done. Qed.
Lemma assoc_put_opt k k' (o : option A) : assoc k (put_opt k' o) = if String.eqb k k' then ser <$> o else None.
Proof. destruct o; cbn; by destruct (String.eqb k k'). Qed.
Lemma assoc_put_vec k k' (l : list A) :
  assoc k (put_vec k' l) = if String.eqb k k' then match l with [] => None | _ => Some (ser l) end else None.
Proof. destruct l; cbn; by destruct (String.eqb k k'). Qed.

Lemma option_field_put `{!SerdeLaw A, !SerdeSome A} k kvs (o : option A) :
  assoc k kvs = ser <$> o -> from_option typed True o -> option_field de k kvs = Some o.
Proof.
  intros E Ho. unfold option_field. rewrite E. destruct o as [a|]; [|done]. cbn in Ho |- *.
  pose proof (ser_some a) as Hn. destruct (ser a) eqn:Es; try done; rewrite <- Es, de_ser by done; done.
Qed.

Lemma req_field_put `{!SerdeLaw A} k kvs (a : A) :
  assoc k kvs = Some (ser a) -> typed a -> req_field de k kvs = Some a.
Proof. intros E Ha. unfold req_field. rewrite E. by apply de_ser. Qed.

Lemma opt_field_put `{!SerdeLaw A} k kvs (a d : A) :
  assoc k kvs = Some (ser a) -> typed a -> opt_field de k kvs d = Some a.
Proof. intros E Ha. unfold opt_field. rewrite E. by apply de_ser. Qed.
End Fields.

#[export] Instance law_string : SerdeLaw string.
Proof. done. Qed.
#[export] Instance law_bool : SerdeLaw bool.
Proof. done. Qed.
#[export] Instance law_uint w : SerdeLaw Z (H := serde_uint w).
Proof. intros n [H0 Hn]. cbn. destruct (Z.leb_spec 0 n), (Z.ltb_spec n (2 ^ w)); try done; lia. Qed.
#[export] Instance law_vec {A} `{SerdeLaw A} : SerdeLaw (list A).
Proof.
  intros l Hl. cbn. induction Hl as [|a l Ha _ IH]; [done|].
  cbn. rewrite de_ser by done. cbn. by rewrite IH.
Qed.
#[export] Instance some_string : SerdeSome string.
Proof. done. Qed.
#[export] Instance some_uint w : SerdeSome Z (H := serde_uint w).
Proof. done. Qed.

(** The value of a field among those a structure writes. *)
Lemma first_or_none {A} (o : option A) : match o with Some a => Some a | None => None end = o.
Proof. by destruct o. Qed.
Ltac find_field :=
  rewrite ?assoc_app, ?assoc_put, ?assoc_put_opt, ?assoc_put_vec; cbn [String.eqb Ascii.eqb Bool.eqb];
  rewrite ?first_or_none; reflexivity.
Ltac in_type := cbn; first [done|match goal with |- from_option _ _ ?o => by destruct o end].
Ltac round_trip :=
  repeat (first [erewrite req_field_put; [|find_field|in_type]
                |erewrite opt_field_put; [|find_field|in_type]
                |erewrite option_field_put; [|find_field|in_type] ]; cbn [mbind option_bind]).

#[export] Instance law_payload : SerdeLaw VmPayload.
Proof. intros [] _. cbn [de ser serde_payload read_obj]. round_trip. done. Qed.
#[export] Instance law_cpus : SerdeLaw VmCpus.
Proof. intros [] [Hb Hm]. cbn [de ser serde_cpus read_obj]. round_trip. done. Qed.
#[export] Instance law_memory : SerdeLaw VmMemory.
Proof. intros [] [Hs Hh]. cbn [de ser serde_memory read_obj]. round_trip. done. Qed.
#[export] Instance law_disk : SerdeLaw VmDisk.
Proof. intros [] _. cbn [de ser serde_disk read_obj]. round_trip. done. Qed.
#[export] Instance law_fs : SerdeLaw VmFs.
Proof. intros [] [Hq Hs]. cbn [de ser serde_fs read_obj]. round_trip. done. Qed.
#[export] Instance law_net : SerdeLaw VmNet.
Proof. intros [] _. cbn [de ser serde_net read_obj]. round_trip. done. Qed.
#[export] Instance law_vsock : SerdeLaw VmVsock.
Proof. intros [] Hc. cbn [de ser serde_vsock read_obj]. round_trip. done. Qed.
#[export] Instance law_console : SerdeLaw VmConsoleConfig.
Proof. intros [] _. cbn [de ser serde_console read_obj]. round_trip. done. Qed.
#[export] Instance law_tpm : SerdeLaw VmTpm.
Proof. intros [] _. cbn [de ser serde_tpm read_obj]. round_trip. done. Qed.
#[export] Instance law_balloon : SerdeLaw VmBalloon.
Proof. intros [] Hs. cbn [de ser serde_balloon read_obj]. round_trip. done. Qed.

#[export] Instance some_vsock : SerdeSome VmVsock.
Proof. done. Qed.
#[export] Instance some_console : SerdeSome VmConsoleConfig.
Proof. done. Qed.
#[export] Instance some_tpm : SerdeSome VmTpm.
Proof. done. Qed.
#[export] Instance some_balloon : SerdeSome VmBalloon.
Proof. done. Qed.

(** ** The configuration *)

(** A list that is there is read back, an empty one is missed. *)
Lemma vec_field_put {A} `{SerdeLaw A} k kvs (l : list A) :
  assoc k kvs = match l with [] => None | _ => Some (ser l) end -> Forall typed l ->
  req_field de k kvs = match l with [] => None | _ => Some l end.
Proof.
  intros E Hl. unfold req_field. rewrite E. destruct l as [|a l]; [done|]. cbn -[ser de]. by apply de_ser.
Qed.

Definition all_listed (c : VmConfig) : bool :=
  match v_disks c, v_net c, v_fs c with _ :: _, _ :: _, _ :: _ => true | _, _, _ => false end.

Lemma read_vm_fields c : typed c -> read_vm (vm_fields c) = if all_listed c then Some c else None.
Proof.
  intros (Hc & Hm & Hf & Hv & Hb). unfold read_vm.
  assert (Hd : forall (l : list VmDisk), Forall typed l) by (intros l; by apply Forall_true).
  assert (Hn : forall (l : list VmNet), Forall typed l) by (intros l; by apply Forall_true).
  rewrite (req_field_put "payload" _ (v_payload c)), (req_field_put "cpus" _ (v_cpus c)),
    (req_field_put "memory" _ (v_memory c)) by done.
  rewrite (vec_field_put "disks" _ (v_disks c)), (vec_field_put "net" _ (v_net c)), (vec_field_put "fs" _ (v_fs c))
    by (try done; unfold vm_fields; find_field).
  rewrite (option_field_put "vsock" _ (v_vsock c)), (option_field_put "serial" _ (v_serial c)),
    (option_field_put "console" _ (v_console c)), (option_field_put "balloon" _ (v_balloon c)),
    (option_field_put "tpm" _ (v_tpm c)) by (first [in_type|unfold vm_fields; find_field]).
  destruct c as [p cp m [|] [|] [|] ]; reflexivity.
Qed.

(** [serde_json::to_string] and [from_str] at [VmConfig]: the text is that of the
    encoder's object, and the decoder run on it is the derived one. *)
Class VmDerive `{SerdeJson} := {
  vm_to_string : VmConfig -> string;
  vm_from_str : string -> error + VmConfig;
  vm_printed c : vm_to_string c = to_string (of_lit (ser c));
  vm_parsed c : decodes (vm_from_str (to_string (of_lit (ser c)))) (de (ser c));
}.

Section RoundTrip.
Context `{VmDerive}.

(** C40: what the crate writes as the hypervisor's configuration it reads back
    exactly when the configuration has at least one disk, one network device and one
    file system: all fields come back then, those left out for being [None] too. An
    empty list is left out of the text and then missed by the decoder, so the text
    of any other configuration (such as the one the benchmarks write and read) is refused
    by the crate that wrote it. *)
Theorem vm_config_round_trip c :
  typed c ->
  (all_listed c = true -> vm_from_str (vm_to_string c) = inr c) /\
  (all_listed c = false -> exists e, vm_from_str (vm_to_string c) = inl e).
Proof.
  intros Hc. rewrite vm_printed. pose proof (vm_parsed c) as Hp.
  change (de (ser c)) with (read_vm (vm_fields c)) in Hp. rewrite read_vm_fields in Hp by done.
  unfold decodes in Hp. split; intros Ha; rewrite Ha in Hp; destruct (vm_from_str _) as [e|c']; try done.
  - by subst.
  - by exists e.
Qed.
End RoundTrip.

(** ** Witness *)

Definition plain_vm_derive : @VmDerive bit_json.
Proof.
  refine (@Build_VmDerive bit_json (fun c => lit_print (ser c))
    (fun s => match lit_parse s with
              | inr l => match de (A := VmConfig) l with Some c => inr c | None => inl (Msg "") end
              | inl e => inl e end) (fun _ => eq_refl) _).
  intros c. change (to_string (of_lit (ser c))) with (lit_print (LObj (vm_fields c))).
  change (de (ser c)) with (read_vm (vm_fields c)). unfold lit_print at 1. cbn [lit_parse].
  rewrite bits_pos_bits, decode_encode, tree_lit_tree. cbn [de serde_config read_obj].
  by destruct (read_vm (vm_fields c)).
Defined.

Definition bench_config (fs : list VmFs) : VmConfig :=
  mkVmConfig (mkVmPayload "/opt/cloudhv/vmlinux" (Some "console=hvc0 root=/dev/vda rw quiet") None)
    (mkVmCpus 1 4) (mkVmMemory 134217728 true (Some 536870912) (Some "VirtioMem"))
    [mkVmDisk "/opt/cloudhv/rootfs.ext4" false None] [mkVmNet "tap0" None] fs
    (Some (mkVmVsock 3 "/run/cloudhv/vm-1/vsock.sock")) (Some console_off) (Some (console_file "/log")) None None.
Definition shared_fs : VmFs := mkVmFs "share" "/fs.sock" default_fs_queues default_fs_queue_size.

Lemma bench_typed fs : Forall typed fs -> typed (bench_config fs).
Proof. intros Hf. repeat split; try done. Qed.

Lemma vm_config_round_trip_witness :
  @vm_from_str bit_json plain_vm_derive (@vm_to_string bit_json plain_vm_derive (bench_config [shared_fs])) =
    inr (bench_config [shared_fs]) /\
  exists e, @vm_from_str bit_json plain_vm_derive (@vm_to_string bit_json plain_vm_derive (bench_config [])) = inl e.
Proof.
  destruct (@vm_config_round_trip bit_json plain_vm_derive (bench_config [shared_fs])) as [Hl _].
  { apply bench_typed. repeat constructor; vm_compute; done. }
  destruct (@vm_config_round_trip bit_json plain_vm_derive (bench_config [])) as [_ He].
  { apply bench_typed. constructor. }
  exact (conj (Hl eq_refl) (He eq_refl)).
Defined.
