(* ===== verification/Server.v ===== *)
(** * The daemon's process ([crates/daemon/src/main.rs], [ApiServer] of [api.rs])

    [main] loads the configuration, fills the pool and listens; then it accepts
    connections and serves them next to each other. A connection's handler is its own
    task, so the requests of different connections and the background tasks come in any
    order: a schedule of [sevent]s. A handler runs without the others in between here;
    [Interleave] and [Schedule] take the handlers apart. *)

From S2P Require Import Prelude RustStr NetAddr Bytes Proto Sys Json Netlink NetlinkOps Lifecycle Pool Shadow DaemonNet Api ApiProps.
From S2P Require Import Client Config.
From Stdlib Require Import Ascii.
From Stdlib Require String.
Local Open Scope Z_scope.

(** ** [Path::parent] *)

Definition dot_name (c : string) : bool := String.eqb c "" || String.eqb c ".".
Fixpoint drop_while {A} (f : A -> bool) (l : list A) : list A :=
  match l with x :: l' => if f x then drop_while f l' else l | [] => [] end.

(** A leading [.] of a relative path is a component, the others are not. *)
Definition parent (p : string) : option string :=
  match p, split_on "/" p with
  | "", _ | _, [] => None
  | _, first :: rest =>
      match drop_while dot_name (rev rest) with
      | [] => if String.eqb first "" then None else Some ""
      | _ :: above =>
          match drop_while dot_name above with
          | [] => Some (if String.eqb first "" then "/" else first)
          | l => Some (join "/" (first :: rev l))
          end
      end
  end.

(** ** Starting *)

Section Start.
Context `{Env, SerdeDerive}.

(** The part of [serve] before the loop. *)
Definition serve_listen (config : DaemonConfig) : M daemon unit :=
  ignore (remove_file (socket_path config));;
  match parent (socket_path config) with Some dir => create_dir_all dir | None => mret tt end;;
  r ← sys (BindUnix (socket_path config));
  lift (io_res r).

(** [main] up to the loop. [Pool::new] and [SnapshotManager::new] are the
    state it starts in, [pool_new]. *)
Definition daemon_main (args : list string) : M daemon DaemonConfig :=
  config ← daemon_load (daemon_config_path args);
  initialize config;;
  serve_listen config;;
  mret config.
End Start.

(** ** Serving *)

(** A connection: whether its task still runs, and the lines it has taken and
    sent. *)
Record conn := mkConn { c_open : bool; c_in : list string; c_out : list string }.
Record server := mkServer { s_daemon : daemon; s_conns : list conn; s_end : option error }.

Definition conn_new : conn := mkConn true [] [].
Definition conn_close (c : conn) : conn := mkConn false (c_in c) (c_out c).
Definition conn_answer (line out : string) (c : conn) : conn := mkConn (c_open c) (c_in c ++ [line]) (c_out c ++ [out]).
Definition with_conn (i : nat) (f : conn -> conn) (s : server) : server :=
  mkServer (s_daemon s) (alter f i (s_conns s)) (s_end s).
Definition with_daemon (d : daemon) (s : server) : server := mkServer d (s_conns s) (s_end s).

(** What may happen: [accept] returns; [read_line] of the [i]-th connection returns,
    and the answer, if there is one, can be [written] or not; a background task runs. *)
Inductive sevent :=
| SAccept (r : Z + unit)
| SRead (i : nat) (r : Z + string) (written : bool)
| STask (i : nat).

Section Serve.
Context `{Env, SerdeJson, Anyhow, Base64} (config : DaemonConfig).

(** One turn of the loop of [handle_connection]. *)
Definition take_line (i : nat) (line : string) (written : bool) (s : server) : server :=
  match from_str (trim line) with
  | inl _ => with_conn i conn_close s
  | inr request =>
      let (r, d') := dispatch config request (s_daemon s) in
      match r with
      | Ok response =>
          if written then with_conn i (conn_answer line (json_line (of_lit response))) (with_daemon d' s)
          else with_conn i conn_close (with_daemon d' s)
      | _ => with_conn i conn_close (with_daemon d' s)
      end
  end.

Definition serve_event (ev : sevent) (s : server) : server :=
  match s_end s with
  | Some _ => s
  | None =>
      match ev with
      | SAccept (inl e) => mkServer (s_daemon s) (s_conns s) (Some (Io e))
      | SAccept (inr _) => mkServer (s_daemon s) (s_conns s ++ [conn_new]) None
      | SRead i r written =>
          match s_conns s !! i with
          | Some c =>
              if c_open c then
                match r with
                | inl _ | inr "" => with_conn i conn_close s
                | inr line => take_line i line written s
                end
              else s
          | None => s
          end
      | STask i => with_daemon (handle_event config (EvTask i) (s_daemon s)) s
      end
  end.

Definition serve_all (evs : list sevent) (s : server) : server := foldl (fun s ev => serve_event ev s) s evs.
Definition listening (d : daemon) : server := mkServer d [] None.
End Serve.

(** ** What is asked of the environment before it listens *)

Definition listens (c : call) : bool := match c with BindUnix _ => true | _ => false end.

Lemma not_listening t t1 p t2 : Forall (fun c => listens c = false) t -> t <> t1 ++ BindUnix p :: t2.
Proof. intros HF ->. apply Forall_app in HF as [_ HF]. by apply Forall_cons in HF as [ [=] _]. Qed.

Lemma app_split_listen t t' t1 p t2 : Forall (fun c => listens c = false) t ->
  t ++ t' = t1 ++ BindUnix p :: t2 -> exists t1', t1 = t ++ t1' /\ t' = t1' ++ BindUnix p :: t2.
Proof.
  intros HF E. destruct (app_eq_inv _ _ _ _ E) as [(k & Et & Ek)|(k & -> & ->)]; [|eauto].
  destruct k as [|c k]; [exists []; cbn in *; rewrite app_nil_r in *; by subst|].
  injection Ek as <- _. by apply not_listening in Et.
Qed.

Section StartProps.
Context `{Env, SerdeDerive} (config : DaemonConfig).
#[local] Abbreviation quietly := (emits (W := daemon) (fun c => listens c = false)).

Lemma quietly_wait_ch s : quietly (wait_ch_ready s).
Proof.
  assert (Hready : forall n, quietly (wait_ch_ready_go n s)).
  { induction n; cbn [wait_ch_ready_go]; unfold exists_path; demit done. }
  unfold wait_ch_ready. demit done.
Qed.
Lemma quietly_wait_agent s : quietly (wait_for_agent s).
Proof.
  assert (Hagent : forall n, quietly (wait_for_agent_go n s)).
  { induction n; cbn [wait_for_agent_go]; unfold exists_path, try_agent_health; demit done. }
  unfold wait_for_agent. demit done.
Qed.
Lemma quietly_restore v c : quietly (restore_named config v c).
Proof.
  pose proof quietly_wait_ch. pose proof quietly_wait_agent.
  unfold restore_named, prepare_snapshot, link_from_base, link_or_copy, spawn_ch,
    restore_vm, resume_vm, api_request, create_dir_all, create_file, write_file, read_to_string.
  demit done.
Qed.
Lemma quietly_fill n : quietly (fill config n).
Proof.
  induction n as [|n IH]; cbn [fill]; [apply emits_ret|]. pose proof quietly_restore.
  unfold restore_one, push_ready. demit done. by apply emits_quiet.
Qed.
Lemma quietly_create_base b : quietly (create_base_snapshot config b).
Proof.
  pose proof quietly_wait_ch. pose proof quietly_wait_agent.
  assert (Hpoll : forall n p, quietly (poll_exit n p)).
  { induction n; intros p; cbn [poll_exit]; unfold exists_path; demit done. }
  unfold create_base_snapshot, boot_vm, spawn_ch, pause_vm, snapshot_vm, shutdown_and_destroy, api_request_with_body, api_request,
    create_dir_all, create_file, write_file, remove_dir_all. demit done. by apply emits_quiet.
Qed.
Lemma quietly_initialize : quietly (initialize config).
Proof.
  pose proof quietly_create_base. pose proof quietly_fill.
  unfold initialize, base_snapshot_valid, exists_path. demit done.
Qed.

Lemma initialize_returns d : returns (initialize config d).1 = true.
Proof.
  unfold initialize, mbind, M_bind. destruct (base_valid_run (base_snapshot_dir config) d) as (v & t & ->).
  set (d1 := set_d_trace _ _).
  assert (Hb : returns ((if v then mret tt else create_base_snapshot config (base_snapshot_dir config)) d1).1 = true).
  { destruct v; [done|]. by destruct (create_base_run config (base_snapshot_dir config) d1) as (t' & r & d2 & -> & _ & Hr). }
  destruct ((if v then mret tt else create_base_snapshot config (base_snapshot_dir config)) d1) as [r d2].
  destruct r as [u|e| |]; try done. destruct (fill_run config (Z.to_nat (pool_size config)) d2) as (_ & Hok & _).
  by destruct (fill config _ d2) as [ [] ?].
Qed.

(** [serve] asks for the socket last; when that is refused it has failed. *)
Lemma serve_listen_run d :
  exists t r, serve_listen config d = (r, set_d_trace (d_trace d ++ t) d) /\ returns r = true /\
    (is_Ok r = true -> exists t0, t = t0 ++ [BindUnix (socket_path config)] /\ Forall (fun c => listens c = false) t0) /\
    (is_Ok r = false -> forall t1 p t2, t = t1 ++ BindUnix p :: t2 ->
       t2 = [] /\ exists n, env (d_trace d ++ t1) (BindUnix p) = inl n).
Proof.
  set (dir := match parent (socket_path config) with Some p => create_dir_all p | None => mret tt end : M daemon unit).
  set (pre := ignore (remove_file (socket_path config));; dir).
  assert (Hio : io_only pre) by (unfold pre, dir; io_solve).
  assert (Hnp : no_panic pre) by (unfold pre, dir; io_solve).
  assert (Hq : quietly pre) by (unfold pre, dir, create_dir_all, remove_file; demit done).
  assert (E : serve_listen config d = (pre;; r ← sys (BindUnix (socket_path config)); lift (io_res r)) d).
  { unfold pre. by rewrite M_bind_assoc. }
  rewrite E. unfold mbind, M_bind at 1. destruct (Hio d) as [t Et]. specialize (Hnp d). destruct (Hq d) as (t' & Et' & HF).
  destruct (pre d) as [r d1]. cbn in Et, Et', Hnp. subst d1. cbn in Et'. apply app_inv_head in Et' as <-.
  destruct r as [u|e| |]; try done.
  - unfold mbind, M_bind. rewrite sys_run. cbn [trace daemon_world d_trace set_trace].
    exists (t ++ [BindUnix (socket_path config)]). eexists. rewrite app_assoc. split; [done|].
    destruct (env _ _) as [n|[] ] eqn:Eb; (split; [done|]; split; intros Hok; try done); [|by exists t].
    intros t1 p t2 Hsp. destruct t2 as [|c t2 _] using rev_ind.
    + apply app_inj_tail in Hsp as [<- [= <-] ]. eauto.
    + rewrite app_comm_cons, app_assoc in Hsp. apply app_inj_tail in Hsp as [Ht _].
      by apply not_listening in Ht.
  - exists t, (Err e). split_and!; try done. intros _ t1 p t2 Ht. by apply not_listening in Ht.
Qed.
End StartProps.

(** ** Connections next to each other *)

Section ServeProps.
Context `{Env, SerdeJson, Anyhow, Base64} (config : DaemonConfig).

(** To the daemon's books an event of the server is at most one of [Api]'s. *)
Lemma serve_event_books ev s :
  exists evs, (length evs <= 1)%nat /\ s_daemon (serve_event config ev s) = run_events config evs (s_daemon s).
Proof.
  unfold serve_event, take_line. destruct (s_end s); [by exists []; split; [cbn; lia|]|].
  destruct ev as [ [e|u]|i r written|i].
  - by exists []; split; [cbn; lia|].
  - by exists []; split; [cbn; lia|].
  - destruct (s_conns s !! i) as [c|]; [|by exists []; split; [cbn; lia|] ].
    destruct (c_open c); [|by exists []; split; [cbn; lia|] ].
    destruct r as [e|[|ch line] ]; [by exists []; split; [cbn; lia|]..|].
    destruct (from_str _) as [e|req]; [by exists []; split; [cbn; lia|]|].
    exists [EvRequest req]. split; [cbn; lia|]. cbn [run_events foldl handle_event].
    by destruct (dispatch config req (s_daemon s)) as [ [] d']; cbn; try destruct written.
  - exists [EvTask i]. split; [cbn; lia|done].
Qed.

Lemma serve_all_books evs s :
  exists evs', (length evs' <= length evs)%nat /\ s_daemon (serve_all config evs s) = run_events config evs' (s_daemon s).
Proof.
  revert s. induction evs as [|ev evs IH]; intros s; [by exists []|]. cbn [serve_all foldl].
  destruct (serve_event_books ev s) as (e1 & L1 & E1). destruct (IH (serve_event config ev s)) as (e2 & L2 & E2).
  exists (e1 ++ e2). rewrite length_app. cbn [length]. split; [lia|].
  unfold serve_all in E2. rewrite E2, E1. unfold run_events. by rewrite foldl_app.
Qed.

(** What one event does to the connection [i]: it is accepted, answers a line, is
    closed, or is left as it is. *)
Lemma serve_event_conn ev s i c :
  s_conns (serve_event config ev s) !! i = Some c ->
  (c = conn_new /\ s_conns s !! i = None) \/
  (exists c0, s_conns s !! i = Some c0 /\ (c = c0 \/ c = conn_close c0 \/
     exists line req resp d', ev = SRead i (inr line) true /\ from_str (trim line) = inr req /\
       dispatch config req (s_daemon s) = (Ok resp, d') /\ c = conn_answer line (json_line (of_lit resp)) c0)).
Proof.
  unfold serve_event, take_line. intros Hc. destruct (s_end s); [by right; exists c; eauto|].
  destruct ev as [ [e|u]|j r written|j]; cbn in Hc; try by (right; exists c; eauto).
  { apply lookup_app_Some in Hc as [Hc|[Hl Hc] ]; [by right; exists c; eauto|].
    apply list_lookup_singleton_Some in Hc as [_ <-]. left. split; [done|]. by apply lookup_ge_None. }
  destruct (s_conns s !! j) as [cj|] eqn:Ej; [|by right; exists c; eauto].
  destruct (c_open cj); [|by right; exists c; eauto].
  assert (Halter : forall f s', s_conns s' = s_conns s -> s_conns (with_conn j f s') !! i = Some c ->
    (i <> j /\ s_conns s !! i = Some c) \/ (i = j /\ c = f cj)).
  { intros f s' E Hf. cbn in Hf. rewrite E in Hf. destruct (decide (i = j)) as [->|Hne].
    - rewrite list_lookup_alter_eq, Ej in Hf. cbn in Hf. simplify_eq. by right.
    - rewrite list_lookup_alter_ne in Hf by done. by left. }
  right. destruct r as [e|[|ch line] ].
  1-2: destruct (Halter _ s eq_refl Hc) as [ [_ Hi]|[-> ->] ]; eauto.
  destruct (from_str (trim (String ch line))) as [e|req] eqn:Er.
  { destruct (Halter _ s eq_refl Hc) as [ [_ Hi]|[-> ->] ]; eauto. }
  destruct (dispatch config req (s_daemon s)) as [r d'] eqn:Ed. destruct r as [resp| | |].
  1: destruct written.
  all: destruct (Halter _ (with_daemon d' s) eq_refl Hc) as [ [_ Hi]|[-> ->] ]; [by eauto|]; exists cj; split; [done|]; right.
  2-5: by left.
  right. by exists (String ch line), req, resp, d'.
Qed.

(** [out] answers [line], which connection [i] read after the events [evs1]. *)
Definition answered (evs : list sevent) (s : server) (i : nat) (line out : string) : Prop :=
  exists evs1 evs2 req resp d', evs = evs1 ++ SRead i (inr line) true :: evs2 /\ from_str (trim line) = inr req /\
    dispatch config req (s_daemon (serve_all config evs1 s)) = (Ok resp, d') /\ out = json_line (of_lit resp).

Definition read_by (i : nat) (ev : sevent) : option string :=
  match ev with SRead j (inr line) _ => if decide (j = i) then Some line else None | _ => None end.

Lemma serve_all_snoc evs ev s : serve_all config (evs ++ [ev]) s = serve_event config ev (serve_all config evs s).
Proof. unfold serve_all. by rewrite foldl_app. Qed.

Lemma answered_later evs ev s i line out : answered evs s i line out -> answered (evs ++ [ev]) s i line out.
Proof.
  intros (e1 & e2 & req & resp & d' & -> & Hr). exists e1, (e2 ++ [ev]), req, resp, d'. split; [|done].
  by rewrite <- app_assoc.
Qed.

(** Connections are served next to each other: whatever the schedule of reads,
    writes and background tasks, the lines a connection has sent answer, one each and in
    this order, lines that it has read, each as the dispatcher did in the state the
    daemon was in at that moment. What another connection reads changes nothing of
    this one, and a line that is no JSON closes its own connection and does nothing else. *)
Theorem connections_interleave evs d i c :
  let s := serve_all config evs (listening d) in
  s_conns s !! i = Some c ->
  Forall2 (answered evs (listening d) i) (c_in c) (c_out c) /\
  c_in c `sublist_of` omap (read_by i) evs /\
  (forall j r w, j <> i -> s_conns (serve_event config (SRead j r w) s) !! i = Some c) /\
  (forall line w e, c_open c = true -> s_end s = None -> from_str (trim line) = inl e ->
     serve_event config (SRead i (inr line) w) s = with_conn i conn_close s).
Proof.
  intros s Hc. split; [|split; [|split] ].
  3:{ intros j r w Hne. unfold serve_event, take_line. destruct (s_end s); [done|].
      repeat case_match; try done; cbn; by rewrite list_lookup_alter_ne. }
  3:{ intros line w e Ho He Ej. unfold serve_event, take_line. rewrite He, Hc, Ho, Ej. by destruct line. }
  all: subst s; revert c Hc; induction evs as [|ev evs IH] using rev_ind; intros c Hc; [done|];
    rewrite serve_all_snoc in Hc;
    destruct (serve_event_conn _ _ _ _ Hc) as [ [-> _]|(c0 & Hc0 & Hor)]; [first [constructor|apply sublist_nil_l]|];
    specialize (IH c0 Hc0).
  - assert (IH' : Forall2 (answered (evs ++ [ev]) (listening d) i) (c_in c0) (c_out c0))
      by (eapply Forall2_impl; [exact IH|]; intros; by apply answered_later).
    destruct Hor as [->|[->|(line & req & resp & d' & -> & Er & Ed & ->)] ]; [done..|].
    apply Forall2_app; [done|]. repeat constructor. by exists evs, [], req, resp, d'.
  - rewrite omap_app. destruct Hor as [->|[->|(line & req & resp & d' & -> & Er & Ed & ->)] ].
    1-2: by apply sublist_inserts_r.
    cbn. rewrite decide_True by done. by apply sublist_app.
Qed.

Definition reads (i : nat) (lines : list string) : list sevent := map (fun l => SRead i (inr l) true) lines.

Lemma serve_closed i lines s c :
  s_conns s !! i = Some c -> c_open c = false -> serve_all config (reads i lines) s = s.
Proof.
  intros Hc Ho. induction lines as [|l lines IH]; [done|]. cbn [reads map serve_all foldl].
  replace (serve_event config (SRead i (inr l) true) s) with s; [exact IH|].
  unfold serve_event. rewrite Hc, Ho. by destruct (s_end s).
Qed.

(** A connection whose lines are read one after the other with nothing in
    between behaves as [handle_connection] does on them: the same lines are sent, the
    daemon ends in the same state, and the connection is still open exactly when no line
    was malformed. *)
Theorem lone_connection i lines s c out stop d' :
  s_end s = None -> s_conns s !! i = Some c -> c_open c = true -> Forall (fun l => l <> "") lines ->
  handle_connection config lines (s_daemon s) = (Ok (out, stop), d') ->
  exists c', s_conns (serve_all config (reads i lines) s) !! i = Some c' /\
    c_out c' = c_out c ++ out /\ (c_open c' = true <-> stop = None) /\
    s_daemon (serve_all config (reads i lines) s) = d'.
Proof.
  revert s c out stop. induction lines as [|l lines IH]; intros s c out stop He Hc Ho Hl Hh.
  { injection Hh as <- <- <-. exists c. by rewrite app_nil_r. }
  apply Forall_cons in Hl as [Hne Hl]. cbn [handle_connection] in Hh. cbn [reads map serve_all foldl].
  assert (Ev : serve_event config (SRead i (inr l) true) s = take_line config i l true s).
  { unfold serve_event. rewrite He, Hc, Ho. by destruct l. }
  rewrite Ev. unfold take_line. destruct (from_str (trim l)) as [e|req] eqn:Er.
  { injection Hh as <- <- <-. assert (Hcl : s_conns (with_conn i conn_close s) !! i = Some (conn_close c)).
    { cbn. by rewrite list_lookup_alter_eq, Hc. }
    change (foldl _ _ _) with (serve_all config (reads i lines) (with_conn i conn_close s)).
    rewrite (serve_closed i lines _ _ Hcl) by done. exists (conn_close c). by rewrite app_nil_r. }
  unfold mbind, M_bind in Hh. destruct (dispatch config req (s_daemon s)) as [r d1]. destruct r as [resp| | |]; try done.
  set (s1 := with_conn i _ (with_daemon d1 s)).
  assert (Hc1 : s_conns s1 !! i = Some (conn_answer l (json_line (of_lit resp)) c)).
  { cbn. by rewrite list_lookup_alter_eq, Hc. }
  change d1 with (s_daemon s1) in Hh. destruct (handle_connection config lines (s_daemon s1)) as [r2 d2] eqn:Eh.
  destruct r2 as [ [out2 stop2]| | |]; try done. injection Hh as <- <- <-.
  destruct (IH s1 _ out2 stop2 He Hc1 Ho Hl Eh) as (c' & Hc' & Eo & Hop & Ed). exists c'. split_and!; try done.
  rewrite Eo. cbn. by rewrite <- app_assoc.
Qed.

(** A cold [AcquireSandbox] takes the VM restored last, however the rest of it ends. *)
Lemma acquire_with_pops netns erofs cid cfg d vm rest :
  d_ready d = rest ++ [vm] ->
  let d' := (acquire_sandbox_with config netns "" erofs cid cfg d).2 in
  d_ready d' = rest /\ d_active d' !! pv_id vm = Some vm.
Proof.
  intros Hr. destruct (acquire_hit config d vm rest Hr) as (d1 & Ea & _ & Hr1 & Ha1 & _).
  assert (Eat : attempt (acquire config) d = (Ok (inl vm), d1)) by (unfold attempt; by rewrite Ea).
  change (acquire_sandbox_with config netns "" erofs cid cfg d) with (acquire_pool config netns "" erofs cid cfg d).
  unfold acquire_pool. rewrite (M_bind_run _ _ _ _ _ Eat). cbv beta iota.
  cbv zeta. match goal with |- d_ready (?m d1).2 = _ /\ _ => assert (Hn : neutral m) end.
  { unfold spawn_task. cbn [String.eqb negb andb]. do 2 (apply moves_bind; [apply _|neutral_solve|intros ?]).
    apply moves_bind; [apply _|case_match; [apply moves_attempt, neutral_run_container; apply _|apply neutral_ret]|].
    intros [ [pid tap]|e]; apply neutral_ret. }
  destruct (Hn d1) as (E1 & E2 & _). rewrite E1, E2, Hr1, Ha1. by rewrite lookup_insert_eq.
Qed.

(** An answer that cannot be written is not sent again, and what it reports stays
    done: a shim that gave up on its [AcquireSandbox] (it waits thirty seconds) leaves
    the VM counted as active, with no one who knows its name to release it. *)
Theorem lost_answer_leaks i s c line req vm rest :
  s_end s = None -> s_conns s !! i = Some c -> c_open c = true -> line <> "" -> from_str (trim line) = inr req ->
  str_field "method" req "" = "AcquireSandbox" -> str_field "image_key" req "" = "" ->
  d_ready (s_daemon s) = rest ++ [vm] ->
  let s' := serve_event config (SRead i (inr line) false) s in
  s_conns s' !! i = Some (conn_close c) /\
  d_active (s_daemon s') !! pv_id vm = Some vm /\ d_ready (s_daemon s') = rest.
Proof.
  intros He Hc Ho Hne Er Hm Hk Hr. cbv zeta.
  assert (Ev : serve_event config (SRead i (inr line) false) s = take_line config i line false s).
  { unfold serve_event. rewrite He, Hc, Ho. by destruct line. }
  rewrite Ev. unfold take_line. rewrite Er.
  assert (Hd : d_ready (dispatch config req (s_daemon s)).2 = rest /\
    d_active (dispatch config req (s_daemon s)).2 !! pv_id vm = Some vm).
  { unfold dispatch. rewrite Hm. cbn [String.eqb Ascii.eqb Bool.eqb]. unfold handle_acquire. rewrite Hk.
    by apply acquire_with_pops. }
  destruct (dispatch config req (s_daemon s)) as [r d']. cbn in Hd. destruct Hd as [Hrd Had].
  destruct r; cbn; by rewrite list_lookup_alter_eq, Hc.
Qed.
End ServeProps.

(** ** From the command line on *)

Section Boot.
Context `{Env, SD : SerdeDerive, Anyhow, Base64}.

Lemma daemon_load_run path (d : daemon) :
  exists r, daemon_load path d = (r, set_d_trace (d_trace d ++ [ReadToString path]) d) /\ returns r = true.
Proof.
  unfold daemon_load, read_to_string, mbind, M_bind, m_ctx. rewrite sys_run. cbn.
  destruct (env _ _); cbn; [by eexists|]. by destruct (daemon_from_str s); eexists.
Qed.

Lemma daemon_main_steps args s :
  match daemon_main args (pool_new s) with
  | (Ok config, d) =>
      exists t d0, initialize config (set_d_trace [ReadToString (daemon_config_path args)] (pool_new s)) = (Ok tt, d0) /\
        d = set_d_trace (d_trace d0 ++ t ++ [BindUnix (socket_path config)]) d0 /\
        Forall (fun c => listens c = false) (d_trace d0 ++ t)
  | (Err e, d) => forall t1 p t2, d_trace d = t1 ++ BindUnix p :: t2 -> t2 = [] /\ exists n, env t1 (BindUnix p) = inl n
  | _ => False
  end.
Proof.
  unfold daemon_main, mbind, M_bind. destruct (daemon_load_run (daemon_config_path args) (pool_new s)) as (r & -> & Hr).
  cbn [pool_new d_trace app]. set (d0 := set_d_trace _ _).
  assert (HF0 : Forall (fun c => listens c = false) (d_trace d0)) by by repeat constructor.
  destruct r as [config|e| |]; try done; [|by intros t1 p t2 Ht; apply not_listening in Ht].
  pose proof (initialize_returns config d0) as Hi. destruct (quietly_initialize config d0) as (ti & Eti & HFi).
  destruct (initialize config d0) as [r d1] eqn:Ei. cbn in Hi, Eti.
  assert (HF1 : Forall (fun c => listens c = false) (d_trace d1)) by (rewrite Eti; by constructor).
  destruct r as [ []|e| |]; try done; [|by intros t1 p t2 Ht; apply not_listening in Ht].
  destruct (serve_listen_run config d1) as (t & r & -> & Hr1 & Hok & Hbad). destruct r as [ []|e| |]; try done.
  - destruct (Hok eq_refl) as (t0 & -> & HF). exists t0, d1. split_and!; [done|done|by apply Forall_app].
  - cbn [d_trace]. intros t1 p t2 Ht. destruct (app_split_listen _ _ _ _ _ HF1 Ht) as (t1' & -> & Ht').
    by apply (Hbad eq_refl t1' p t2).
Qed.

End Boot.

(** ** Witnesses *)

Definition status_line : string := json_line (status_request : @value bit_json).
(** Two clients: one asks twice, the other in between and then sends something else. *)
Definition two_clients : list sevent :=
  [SAccept (inr tt); SAccept (inr tt); SRead 0 (inr status_line) true; SRead 1 (inr status_line) true;
   SRead 0 (inr status_line) true; SRead 1 (inr "nonsense") true].

Lemma connections_interleave_witness :
  let s := @serve_all sample_env bit_json plain_anyhow plain_base64 sample_cfg two_clients (listening sample_pool) in
  exists c0 c1, s_conns s = [c0; c1] /\ c_open c0 = true /\ c_open c1 = false /\
    length (c_out c0) = 2%nat /\ length (c_out c1) = 1%nat /\
    Forall2 (@answered sample_env bit_json plain_anyhow plain_base64 sample_cfg two_clients (listening sample_pool) 0)
      (c_in c0) (c_out c0).
Proof.
  intros s. destruct (s_conns s) as [|c0 [|c1 [|c2 l] ] ] eqn:E.
  all: assert (Es := E); vm_compute in Es; try discriminate Es.
  exists c0, c1. split; [reflexivity|]. injection Es as <- <-. do 4 (split; [reflexivity|]).
  apply (@connections_interleave sample_env bit_json plain_anyhow plain_base64 sample_cfg two_clients sample_pool 0%nat).
  fold s. rewrite E. reflexivity.
Defined.

Lemma lone_connection_witness :
  let s := @serve_all sample_env bit_json plain_anyhow plain_base64 sample_cfg [SAccept (inr tt)] (listening sample_pool) in
  exists c', s_conns (@serve_all sample_env bit_json plain_anyhow plain_base64 sample_cfg (reads 0 [status_line]) s) !! 0%nat
    = Some c' /\ length (c_out c') = 1%nat.
Proof.
  intros s. witness_run (@handle_connection sample_env bit_json plain_anyhow plain_base64 sample_cfg [status_line] (s_daemon s)) d' E.
  destruct (@lone_connection sample_env bit_json plain_anyhow plain_base64 sample_cfg 0%nat [status_line] s conn_new _ _ d'
    eq_refl eq_refl eq_refl ltac:(repeat constructor; discriminate) E) as (c' & Hc & Ho & _).
  exists c'. split; [exact Hc|]. rewrite Ho. reflexivity.
Defined.

(** A daemon on a host with its configuration and a base snapshot in place. *)
Definition boot_kvs : list (string * lit) :=
  [("kernel_path", LStr "/k"); ("rootfs_path", LStr "/r"); ("pool_size", LNum 2); ("state_dir", LStr "/st")].
Definition boot_files (p : string) : option string :=
  if String.eqb p "/opt/cloudhv/daemon.json" then Some (lit_print (LObj boot_kvs)) else sample_files p.
Definition boot_env : Env := calm_env boot_files sample_up.

