(* ===== verification/Interleave.v ===== *)
(** * The daemon's handlers next to each other ([api.rs], [pool.rs], [shadow.rs])

    The handlers of [Api] cut at every lock, every atomic and every call that waits, and
    the server that runs any number of them in turn. Put together again they are the
    handlers of [Api] ([run_dispatch]), so the server of [Server] is this one with a
    scheduler that never interrupts ([Server]'s runs are among these).
    An operation on the environment is one piece: it touches none of the daemon's
    tables, and its answers may be whatever the others have made of the world. *)

From S2P Require Import Prelude RustStr NetAddr Bytes Proto Sys Json Netlink NetlinkOps Lifecycle Pool Shadow DaemonNet.
From S2P Require Import Api ApiProps Client Config Server Tasks.
From Stdlib Require Import Ascii.
From Stdlib Require String.
Local Open Scope Z_scope.

Abbreviation dprog := (prog Env daemon).
Notation "'io' m" := (piece (fun e : Env => m)) (at level 10, m at level 9, only parsing).

(** ** The pool *)

Definition pop_ready : M daemon (option PoolVm) := fun d =>
  match vec_pop (d_ready d) with
  | Some (vm, rest) => (Ok (Some vm), set_ready rest d)
  | None => (Ok None, d)
  end.
Definition count_up : M daemon unit := modify (fun d => set_active (d_active d) (wrap 64 (d_active_count d + 1)) d).
Definition count_down : M daemon unit := modify (fun d => set_active (d_active d) (wrap 64 (d_active_count d - 1)) d).
Definition insert_active (vm : PoolVm) : M daemon unit :=
  modify (fun d => set_active (<[pv_id vm := vm]> (d_active d)) (d_active_count d) d).
Definition remove_active (vm_id : string) : M daemon bool := fun d =>
  (Ok (bool_decide (is_Some (d_active d !! vm_id))), set_active (delete vm_id (d_active d)) (d_active_count d) d).
Definition insert_agent (vm_id agent : string) : M daemon unit :=
  modify (fun d => set_agents (<[vm_id := agent]> (d_agents d)) d).

Section Programs.
Context `{SerdeJson, Anyhow, Base64} (config : DaemonConfig).

Definition restore_one_p : dprog PoolVm :=
  vm_id ← io (n ← gets d_next_cid; mret (pool_vm_id process_id n));
  cid ← lock next_cid;
  io (restore_named config vm_id cid).

(** [register_active], and the end of [acquire]. *)
Definition mark_active_p (vm : PoolVm) : dprog unit :=
  lock count_up;; lock (insert_active vm).

Definition acquire_p : dprog PoolVm :=
  o ← lock pop_ready;
  vm ← match o with Some vm => mret vm | None => restore_one_p end;
  mark_active_p vm;;
  mret vm.

Definition release_p (vm_id : string) : dprog unit :=
  removed ← lock (remove_active vm_id);
  (if removed : bool then lock count_down else mret tt);;
  io (destroy_vm config vm_id).

Definition replenish_one_p : dprog unit :=
  current ← lock (gets (fun d => Z.of_nat (length (d_ready d))));
  if pool_size config <=? current then mret tt
  else
    r ← p_attempt restore_one_p;
    match r with inl vm => lock (push_ready vm) | inr _ => mret tt end.

(** ** Snapshots; [has_snapshot] and the eviction keep the lock while they ask the
    file system *)

Definition restore_from_snapshot_p (image_key vm_id : string) (cid : Z) (dir : string)
    : dprog (Z * string * string) :=
  o ← io (get_snapshot_dir image_key);
  snap_dir ← Done (ok_or o (Msg "snapshot not found"));
  let vsock_socket := path_join dir "vsock.sock" in
  snapshot_work_dir ← io (prepare_snapshot snap_dir dir cid vsock_socket);
  ch_pid ← io (spawn_ch config dir);
  let api_socket := path_join dir "api.sock" in
  io (wait_ch_ready api_socket);;
  io (restore_vm api_socket snapshot_work_dir);;
  io (resume_vm api_socket);;
  mret (ch_pid, api_socket, vsock_socket).

Definition trigger_shadow_p (image_key erofs_path : string) : dprog unit :=
  has ← io (has_snapshot image_key (Some erofs_path));
  if has : bool then mret tt
  else
    shadows ← lock (gets d_shadows);
    match shadows !! image_key with
    | Some _ => mret tt
    | None =>
        lock (spawn_task (TShadow image_key erofs_path));;
        lock (modify (fun d => set_shadows (<[image_key := tt]> (d_shadows d)) d))
    end.

Definition run_shadow_p (image_key erofs_path : string) : dprog unit :=
  io (create_dir_all (path_join (state_dir config) ("shadow-" +:+ image_key +:+ "-" +:+ pretty process_id)));;
  pool_vm ← p_ctx "acquire for shadow" acquire_p;
  snap_dir ← io (shadow_snapshot config pool_vm image_key erofs_path);
  erofs_mtime ← io (sys (Mtime erofs_path));
  io (cache_snapshot config image_key snap_dir erofs_mtime);;
  release_p (pv_id pool_vm).

Definition shadow_task_p (image_key erofs_path : string) : dprog unit :=
  p_attempt (run_shadow_p image_key erofs_path);;
  lock (modify (fun d => set_shadows (delete image_key (d_shadows d)) d)).

Definition run_task_p (t : task) : dprog unit :=
  match t with
  | TReplenish => io (sys (Sleep 100));; replenish_one_p
  | TShadow key erofs => shadow_task_p key erofs
  end.

(** ** Running a container *)

Definition setup_vm_networking_p (netns vm_id api_socket : string) : dprog (string * PodNetInfo) :=
  tap_name ← Done (tap_name_of vm_id);
  info ← io (blocking "prepare_tap panicked" (m_ctx "prepare_tap" (prepare_tap netns tap_name)));
  io (m_ctx "hot-plug TAP"
    (api_request_with_body api_socket "PUT" "/api/v1/vm.add-net" (net_json tap_name (ni_mac info))));;
  io (blocking "activate_tap panicked" (m_ctx "activate_tap" (activate_tap netns tap_name)));;
  mret (tap_name, info).

Definition agent_for_p (vm_id vsock_socket : string) : dprog string :=
  agents ← lock (gets d_agents);
  match agents !! vm_id with
  | Some a => mret a
  | None =>
      a ← io (m_ctx "agent connect for container" (connect_agent vsock_socket));
      lock (insert_agent vm_id a);;
      mret a
  end.

Definition run_container_in_vm_p (p : RunContainerParams) : dprog (Z * string) :=
  '(tap_name, net_info) ←
    (if String.eqb (rp_netns p) "" then mret ("", None)
     else '(tap, info) ← p_ctx "networking setup"
            (setup_vm_networking_p (rp_netns p) (rp_vm_id p) (rp_api_socket p));
          mret (tap, Some info));
  id ← Done (slice_to (rp_container_id p) (Nat.min 12 (String.length (rp_container_id p))));
  let disk_id := "ctr-" +:+ id in
  io (m_ctx "hot-plug rootfs"
    (api_request_with_body (rp_api_socket p) "PUT" "/api/v1/vm.add-disk"
       (to_string (of_lit (disk_lit (rp_erofs_path p) true disk_id)))));;
  agent ← agent_for_p (rp_vm_id p) (rp_vsock_socket p);
  match net_info with
  | Some info => io (m_ctx "configure guest network"
      (configure_guest_network agent (ni_ip_cidr info) (ni_gateway info)))
  | None => mret tt
  end;;
  r ← io (sys (AgentRun agent (run_request (rp_container_id p) (decode_config (rp_config_json_b64 p)))));
  pid ← Done (with_ctx "RunContainer" (lib_res r));
  mret (pid, tap_name).

(** ** Handlers *)

Definition warm_network_p (netns vm_id api_socket vsock_socket : string) : dprog (string + lit) :=
  if String.eqb netns "" then mret (inl "")
  else
    r ← p_attempt (setup_vm_networking_p netns vm_id api_socket);
    match r with
    | inl (tap, net_info) =>
        a ← p_attempt (io (connect_agent vsock_socket));
        match a with
        | inl agent =>
            lock (insert_agent vm_id agent);;
            io (ignore (configure_guest_network agent (ni_ip_cidr net_info) (ni_gateway net_info)));;
            mret (inl tap)
        | inr e => mret (inr (error_json ("agent connect: " +:+ display_alt e)))
        end
    | inr e => mret (inr (error_json ("networking: " +:+ display_alt e)))
    end.

Definition acquire_warm_p (netns image_key : string) : dprog (option lit) :=
  seq ← lock next_warm;
  let vm_id := warm_vm_id image_key seq in
  let dir := path_join (state_dir config) vm_id in
  m ← p_attempt (io (create_dir_all dir));
  match m with
  | inr e => mret (Some (error_json ("create state dir: " +:+ display e)))
  | inl _ =>
      cid ← lock next_cid;
      r ← p_attempt (restore_from_snapshot_p image_key vm_id cid dir);
      match r with
      | inr _ => mret None
      | inl (ch_pid, api_socket, vsock_socket) =>
          n ← warm_network_p netns vm_id api_socket vsock_socket;
          match n with
          | inr err => mret (Some err)
          | inl tap_name =>
              now ← io (sys Instant);
              mark_active_p (mkPoolVm vm_id api_socket vsock_socket cid ch_pid now);;
              mret (Some (vm_json vm_id api_socket vsock_socket cid ch_pid true 0 tap_name))
          end
      end
  end.

Definition acquire_pool_p (netns image_key erofs_path container_id config_b64 : string) : dprog lit :=
  a ← p_attempt acquire_p;
  match a with
  | inr e => mret (error_json ("acquire failed: " +:+ display_alt e))
  | inl vm =>
      lock (spawn_task TReplenish);;
      (if negb (String.eqb image_key "") && negb (String.eqb erofs_path "")
       then trigger_shadow_p image_key erofs_path else mret tt);;
      r ← (if negb (String.eqb erofs_path "") && negb (String.eqb container_id "")
           then p_attempt (run_container_in_vm_p (mkRunContainerParams (pv_api vm) (pv_vsock vm) (pv_id vm)
                             netns erofs_path container_id config_b64))
           else mret (inl (0, "")));
      match r with
      | inr e => mret (error_json ("run container: " +:+ display_alt e))
      | inl (container_pid, tap_name) =>
          mret (vm_json (pv_id vm) (pv_api vm) (pv_vsock vm) (pv_cid vm) (pv_pid vm) false container_pid tap_name)
      end
  end.

Definition acquire_sandbox_p (netns image_key erofs_path container_id config_b64 : string) : dprog lit :=
  warm ← (if String.eqb image_key "" then mret false
          else io (has_snapshot image_key (if String.eqb erofs_path "" then None else Some erofs_path)));
  w ← (if warm : bool then acquire_warm_p netns image_key else mret None);
  match w with
  | Some resp => mret resp
  | None => acquire_pool_p netns image_key erofs_path container_id config_b64
  end.

Definition handle_acquire_p (request : value) : dprog lit :=
  acquire_sandbox_p (str_field "netns" request "") (str_field "image_key" request "")
    (str_field "erofs_path" request "") (str_field "container_id" request "") (str_field "config_json" request "").

Definition handle_add_container_p (request : value) : dprog lit :=
  let vm_id := str_field "vm_id" request "" in
  let erofs_path := str_field "erofs_path" request "" in
  let container_id := str_field "container_id" request "" in
  let config_b64 := str_field "config_json" request "" in
  if String.eqb vm_id "" || String.eqb container_id ""
  then mret (error_json "vm_id and container_id required")
  else
    o ← lock (get_active vm_id);
    match o with
    | None => mret (error_json ("VM " +:+ vm_id +:+ " not found in active set"))
    | Some vm =>
        r ← p_attempt (run_container_in_vm_p (mkRunContainerParams (pv_api vm) (pv_vsock vm) vm_id ""
              erofs_path container_id config_b64));
        match r with
        | inl (pid, _) => mret (LObj [("container_pid", LNum pid)])
        | inr e => mret (error_json ("add container: " +:+ display_alt e))
        end
    end.

Definition handle_release_p (request : value) : dprog lit :=
  let vm_id := str_field "vm_id" request "" in
  if String.eqb vm_id "" then mret (error_json "vm_id required")
  else
    lock (modify (fun d => set_agents (delete vm_id (d_agents d)) d));;
    r ← p_attempt (release_p vm_id);
    match r with
    | inl _ => mret (LObj [("ok", LBool true)])
    | inr e => mret (error_json ("release failed: " +:+ display_alt e))
    end.

Definition handle_kill_container_p (request : value) : dprog lit :=
  let vm_id := str_field "vm_id" request "" in
  let container_id := str_field "container_id" request "" in
  let signal := wrap 32 (default 15 (get "signal" request ≫= as_u64)) in
  o ← lock (get_agent vm_id);
  match o with
  | None => mret (error_json ("no agent for VM " +:+ vm_id))
  | Some agent =>
      r ← io (sys (AgentKill agent (mkKillContainerRequest container_id signal false)));
      match r with
      | inr _ => mret (LObj [("ok", LBool true)])
      | inl e => mret (error_json ("kill_container: " +:+ display e))
      end
  end.

Definition handle_wait_container_p (request : value) : dprog lit :=
  let vm_id := str_field "vm_id" request "" in
  let container_id := str_field "container_id" request "" in
  o ← lock (get_agent vm_id);
  match o with
  | None => mret (error_json ("no agent for VM " +:+ vm_id))
  | Some agent =>
      r ← io (sys (AgentWait agent container_id));
      match r with
      | inr resp => mret (LObj [("exit_status", LNum (wc_exit_status resp)); ("exited_at", LStr (wc_exited_at resp))])
      | inl e => mret (LObj [("exit_status", LNum 137); ("exited_at", LStr "");
                             ("error", LStr ("wait_container: " +:+ display e))])
      end
  end.

Definition handle_delete_container_p (request : value) : dprog lit :=
  let vm_id := str_field "vm_id" request "" in
  let container_id := str_field "container_id" request "" in
  o ← lock (get_agent vm_id);
  match o with
  | None => mret (LObj [("ok", LBool true)])
  | Some agent =>
      io (sys (AgentDelete agent container_id));;
      mret (LObj [("ok", LBool true)])
  end.

Definition handle_status_p : dprog lit :=
  ready ← lock (gets (fun d => Z.of_nat (length (d_ready d))));
  active ← lock (gets d_active_count);
  shadows ← lock active_shadow_count;
  keys ← lock snapshot_keys;
  mret (LObj [("pool_ready", LNum ready); ("active_vms", LNum active);
              ("shadow_vms_running", LNum shadows); ("snapshot_keys", LArr (map LStr keys))]).

Definition dispatch_p (request : value) : dprog lit :=
  let method := str_field "method" request "" in
  if String.eqb method "AcquireSandbox" then handle_acquire_p request
  else if String.eqb method "ReleaseSandbox" then handle_release_p request
  else if String.eqb method "AddContainer" then handle_add_container_p request
  else if String.eqb method "KillContainer" then handle_kill_container_p request
  else if String.eqb method "WaitContainer" then handle_wait_container_p request
  else if String.eqb method "DeleteContainer" then handle_delete_container_p request
  else if String.eqb method "Status" then handle_status_p
  else mret (error_json ("unknown method: " +:+ method)).
End Programs.

(** ** Put together again *)

Create HintDb tasks.

(** Follow a program and the computation it is cut from in step. *)
Ltac run_solve :=
  repeat first
    [progress intros
    |reflexivity
    |apply run_piece
    |apply run_lock
    |solve [eauto 2 with tasks nocore]
    |apply run_attempt_eq
    |apply run_ctx_eq
    |apply run_bind_eq
    |case_match].

Section Sequential.
Context `{E0 : Env, SerdeJson, Anyhow, Base64} (config : DaemonConfig).

Lemma run_restore_one d : run E0 (restore_one_p config) d = restore_one config d.
Proof.
  unfold restore_one_p, restore_one.
  rewrite run_bind. cbn -[restore_named]. unfold mbind, M_bind, mret, M_ret, gets, next_cid. set (v := pool_vm_id _ _).
  unfold lift. by destruct (restore_named config v _ _).
Qed.
#[local] Hint Resolve run_restore_one : tasks.

Lemma run_mark vm d : run E0 (mark_active_p vm) d = mark_active vm d.
Proof. reflexivity. Qed.
#[local] Hint Resolve run_mark : tasks.

Lemma run_acquire d : run E0 (acquire_p config) d = acquire config d.
Proof.
  unfold acquire_p, acquire. rewrite run_bind. unfold mbind at 1, M_bind. rewrite run_lock. unfold pop_ready.
  destruct (vec_pop (d_ready d)) as [ [vm rest]|]; [reflexivity|]. run_solve.
Qed.
#[local] Hint Resolve run_acquire : tasks.

Lemma run_release v d : run E0 (release_p config v) d = release config v d.
Proof.
  unfold release_p, release. rewrite run_bind. unfold mbind at 1, M_bind. rewrite run_lock.
  unfold remove_active. cbn -[run]. rewrite run_bind. unfold mbind, M_bind, modify.
  destruct (d_active d !! v) as [vm|] eqn:Ev; cbn -[run piece destroy_vm].
  - rewrite run_lock. exact (run_piece E0 (fun e : Env => destroy_vm config v) _).
  - exact (run_piece E0 (fun e : Env => destroy_vm config v) _).
Qed.
#[local] Hint Resolve run_release : tasks.

Lemma run_replenish d : run E0 (replenish_one_p config) d = replenish_one config d.
Proof. unfold replenish_one_p, replenish_one. run_solve. Qed.
#[local] Hint Resolve run_replenish : tasks.

Lemma run_restore_from k v c dir d : run E0 (restore_from_snapshot_p config k v c dir) d = restore_from_snapshot config k v c dir d.
Proof. unfold restore_from_snapshot_p, restore_from_snapshot. run_solve. Qed.
#[local] Hint Resolve run_restore_from : tasks.

Lemma run_trigger k p d : run E0 (trigger_shadow_p k p) d = trigger_shadow k p d.
Proof. unfold trigger_shadow_p, trigger_shadow. run_solve. Qed.
#[local] Hint Resolve run_trigger : tasks.

Lemma run_run_task t d : run E0 (run_task_p config t) d = run_task config t d.
Proof. destruct t; unfold run_task_p, run_task, shadow_task_p, shadow_task, run_shadow_p, run_shadow; run_solve. Qed.

Lemma run_setup n v a d : run E0 (setup_vm_networking_p n v a) d = setup_vm_networking n v a d.
Proof. unfold setup_vm_networking_p, setup_vm_networking. run_solve. Qed.
#[local] Hint Resolve run_setup : tasks.

Lemma run_agent_for v s d : run E0 (agent_for_p v s) d = agent_for v s d.
Proof. unfold agent_for_p, agent_for. run_solve. Qed.
#[local] Hint Resolve run_agent_for : tasks.

Lemma run_run_container p d : run E0 (run_container_in_vm_p p) d = run_container_in_vm p d.
Proof. unfold run_container_in_vm_p, run_container_in_vm. run_solve. Qed.
#[local] Hint Resolve run_run_container : tasks.

Lemma run_warm_network n v a s d : run E0 (warm_network_p n v a s) d = warm_network n v a s d.
Proof. unfold warm_network_p, warm_network. run_solve. Qed.
#[local] Hint Resolve run_warm_network : tasks.

Lemma run_acquire_warm n k d : run E0 (acquire_warm_p config n k) d = acquire_warm config n k d.
Proof. unfold acquire_warm_p, acquire_warm, register_active. run_solve. Qed.
#[local] Hint Resolve run_acquire_warm : tasks.

Lemma run_acquire_pool n k p c b d : run E0 (acquire_pool_p config n k p c b) d = acquire_pool config n k p c b d.
Proof. unfold acquire_pool_p, acquire_pool. run_solve. Qed.
#[local] Hint Resolve run_acquire_pool : tasks.

(** The handlers cut at their locks are the handlers. *)
Lemma run_dispatch request d : run E0 (dispatch_p config request) d = dispatch config request d.
Proof.
  unfold dispatch_p, dispatch, handle_acquire_p, handle_acquire, acquire_sandbox_p, acquire_sandbox_with,
    handle_release_p, handle_release, handle_add_container_p, handle_add_container, handle_kill_container_p,
    handle_kill_container, handle_wait_container_p, handle_wait_container, handle_delete_container_p,
    handle_delete_container, handle_status_p, handle_status.
  run_solve.
Qed.
End Sequential.
