(* ===== verification/Books.v ===== *)
(** * What the daemon's tasks own ([api.rs], [pool.rs], [shadow.rs])

    The daemon's tables stay in order however its tasks take turns. A task owns the CIDs
    it has drawn for VMs that are in no table yet, its updates of the count that are not
    matched by one of the map, and the numbers of the warm VMs it is setting up;
    [books] says what tables and owners together satisfy, and every piece of every
    program of [Interleave] keeps it, whatever the other tasks own. *)

From S2P Require Import Prelude RustStr NetAddr Bytes Proto Sys Json Netlink NetlinkOps Lifecycle Pool Shadow DaemonNet.
From S2P Require Import Api ApiProps Client Config Server Tasks Interleave.
From Stdlib Require Import Ascii.
From Stdlib Require String.
Local Open Scope Z_scope.

Create HintDb triples.

Record own := mkOwn { o_cids : list Z; o_pend : nat; o_warm : list Z }.
Definition nothing : own := mkOwn [] 0 [].

Definition own_cids (gs : list own) : list Z := gs ≫= o_cids.
Definition own_pend (gs : list own) : Z := Z.of_nat (sum_list (o_pend <$> gs)).
Definition own_warm (gs : list own) : list Z := gs ≫= o_warm.

(** The CIDs of the VMs in the tables. *)
Definition active_cids (a : gmap string PoolVm) : list Z := map (fun kv => pv_cid kv.2) (map_to_list a).
Definition live_cids (d : daemon) : list Z := map pv_cid (d_ready d) ++ active_cids (d_active d).

Lemma size_insert_le' {A} (m : gmap string A) k v : (size (<[k := v]> m) <= S (size m))%nat.
Proof. rewrite map_size_insert. destruct (m !! k); unfold id; lia. Qed.
Lemma size_delete_le {A} (m : gmap string A) k : (size (delete k m) <= size m)%nat.
Proof. rewrite map_size_delete. destruct (m !! k); unfold id; lia. Qed.

Section Books.
Context `{SerdeJson, Anyhow, Base64} (config : DaemonConfig).

Definition vm_dir (vm_id : string) : string := path_join (state_dir config) vm_id.
(** The VM's sockets are the ones in its own directory. *)
Definition filed (vm : PoolVm) : Prop :=
  pv_api vm = path_join (vm_dir (pv_id vm)) "api.sock" /\ pv_vsock vm = path_join (vm_dir (pv_id vm)) "vsock.sock".
Definition agent_of (vm_id : string) : string := path_join (vm_dir vm_id) "vsock.sock".

Record books (n : Z) (d : daemon) (gs : list own) : Prop := {
  bk_next : 3 <= d_next_cid d <= n;
  bk_seq : 0 <= d_warm d <= n;
  bk_nodup : NoDup (live_cids d ++ own_cids gs);
  bk_range : Forall (fun c => 3 <= c < d_next_cid d) (live_cids d ++ own_cids gs);
  bk_count : Z.of_nat (size (d_active d)) + own_pend gs <= d_active_count d <= n;
  bk_ready vm : vm ∈ d_ready d -> filed vm /\ warm_name (pv_id vm) = false;
  bk_active k vm : d_active d !! k = Some vm -> pv_id vm = k /\ filed vm;
  bk_names k vm : d_active d !! k = Some vm -> warm_name k = true ->
    exists key m, k = warm_vm_id key m /\ 0 <= m < d_warm d /\ m ∉ own_warm gs;
  bk_warm : NoDup (own_warm gs);
  bk_warm_range : Forall (fun m => 0 <= m < d_warm d) (own_warm gs);
  bk_agents k a : d_agents d !! k = Some a -> a = agent_of k;
  bk_cache : Z.of_nat (size (d_snapshots d)) <= Z.max 1 (max_snapshots config);
}.

(** Counters only grow, and no entry of a warm VM is replaced by another. *)
Definition steady (d d' : daemon) : Prop :=
  d_next_cid d <= d_next_cid d' /\ d_warm d <= d_warm d' /\
  forall k vm vm', warm_name k = true -> d_active d !! k = Some vm -> d_active d' !! k = Some vm' -> vm' = vm.

Abbreviation task_triple := (triple (E := Env) (2 ^ 64) books steady nothing).

Lemma books_perm n d gs gs' : gs ≡ₚ gs' -> books n d gs -> books n d gs'.
Proof.
  intros Hp [ ]. assert (Hc : own_cids gs ≡ₚ own_cids gs') by (unfold own_cids; by rewrite Hp).
  assert (Hw : own_warm gs ≡ₚ own_warm gs') by (unfold own_warm; by rewrite Hp).
  assert (Hn : own_pend gs = own_pend gs') by (unfold own_pend; by rewrite Hp).
  constructor; try done; try (by rewrite <- ?Hc, <- ?Hw, <- ?Hn).
  intros k vm Hk Hk'. destruct (bk_names0 k vm Hk Hk') as (key & m & ? & ? & ?).
  exists key, m. by rewrite <- Hw.
Qed.

(** A task may own less, and more pieces may have been run. *)
Lemma books_less n n' d g g' gs :
  o_cids g' ⊆+ o_cids g -> (o_pend g' <= o_pend g)%nat -> o_warm g' ⊆+ o_warm g -> n <= n' ->
  books n d (g :: gs) -> books n' d (g' :: gs).
Proof.
  intros Hc Hp Hw Hn Hb. destruct Hb as [ ].
  assert (Hc' : live_cids d ++ own_cids (g' :: gs) ⊆+ live_cids d ++ own_cids (g :: gs)).
  { cbn. apply submseteq_app; [done|]. by apply submseteq_app. }
  assert (Hw' : own_warm (g' :: gs) ⊆+ own_warm (g :: gs)) by (cbn; by apply submseteq_app).
  assert (Hp' : own_pend (g' :: gs) <= own_pend (g :: gs)) by (unfold own_pend; cbn; lia).
  constructor; try done; try lia.
  - destruct (submseteq_Permutation _ _ Hc') as [k Hk]. rewrite Hk in bk_nodup0. by apply NoDup_app in bk_nodup0 as [? _].
  - destruct (submseteq_Permutation _ _ Hc') as [k Hk]. rewrite Hk in bk_range0. by apply Forall_app in bk_range0 as [? _].
  - intros k vm Hk Hk'. destruct (bk_names0 k vm Hk Hk') as (key & m & ? & ? & Hm). exists key, m. split_and!; try done; try lia.
    intros Hin. apply Hm. by eapply elem_of_submseteq.
  - destruct (submseteq_Permutation _ _ Hw') as [k Hk]. rewrite Hk in bk_warm0. by apply NoDup_app in bk_warm0 as [? _].
  - destruct (submseteq_Permutation _ _ Hw') as [k Hk]. rewrite Hk in bk_warm_range0. by apply Forall_app in bk_warm_range0 as [? _].
Qed.

Lemma gives_up_all g : gives_up books g nothing.
Proof. intros n d gs. apply books_less; cbn; [apply submseteq_nil_l|lia|apply submseteq_nil_l|lia]. Qed.

(** ** Pieces that leave the tables alone *)

Definition tables_same (d d' : daemon) : Prop :=
  pool_same d d' /\ d_agents d' = d_agents d /\ d_snapshots d' = d_snapshots d.

#[export] Instance tables_same_frame : Frame tables_same.
Proof.
  split; [split|by repeat split..].
  - by intros d.
  - intros d1 d2 d3 (P & ?&?) (P' & ?&?). split; [by etrans|]. repeat split; congruence.
Qed.

Lemma steady_eq d d' :
  d_active d' = d_active d -> d_next_cid d <= d_next_cid d' -> d_warm d <= d_warm d' -> steady d d'.
Proof. intros Ea En Ew. unfold steady. rewrite Ea. split_and!; [done|done|congruence]. Qed.
Lemma steady_same d d' : pool_same d d' -> steady d d'.
Proof. intros (_ & Ea & _ & En & Ew). apply steady_eq; [done|lia|lia]. Qed.

Lemma books_same n d d' g gs :
  pool_same d d' -> (forall k a, d_agents d' !! k = Some a -> a = agent_of k) ->
  Z.of_nat (size (d_snapshots d')) <= Z.max 1 (max_snapshots config) ->
  books n d (g :: gs) -> books (n + 1) d' (g :: gs).
Proof.
  intros (Er & Ea & Ec & En & Ew) Hag Hs Hb. apply (books_less n (n + 1) d g g gs) in Hb; try done; try lia.
  destruct Hb as [ ]. unfold live_cids in *.
  constructor; rewrite ?Er, ?Ea, ?Ec, ?En, ?Ew; unfold live_cids; rewrite ?Er, ?Ea; eauto.
Qed.

(** A piece that leaves what this task owns as it is. *)
Lemma triple_keep {A} g (m : Env -> M daemon A) (Q : own -> A -> Prop) :
  (forall e, neutral (m e)) ->
  (forall e n d gs, books n d (g :: gs) -> (forall k a, d_agents (m e d).2 !! k = Some a -> a = agent_of k) /\
     Z.of_nat (size (d_snapshots (m e d).2)) <= Z.max 1 (max_snapshots config)) ->
  (forall e n d gs a, books n d (g :: gs) -> (m e d).1 = Ok a -> Q g a) ->
  task_triple g (piece m) Q.
Proof.
  intros Hm Hrest HQ. apply triple_piece. intros e n d gs Hb Hn. split; [apply steady_same, Hm|].
  destruct (Hrest e n d gs Hb) as [Hag Hsn]. pose proof (books_same n d _ g gs (Hm e d) Hag Hsn Hb) as Hb'.
  specialize (HQ e n d gs). destruct (m e d) as [r d']. cbn in *. destruct r as [a|er| |].
  - exists g. split; [done|]. by apply HQ.
  - exists nothing. split; [by apply gives_up_all in Hb'|done].
  - exists nothing. split; [by apply gives_up_all in Hb'|done].
  - exists nothing. split; [by apply gives_up_all in Hb'|done].
Qed.

Lemma triple_aside {A} g (m : Env -> M daemon A) (Q : own -> A -> Prop) :
  (forall e, moves tables_same (m e)) ->
  (forall e n d gs a, books n d (g :: gs) -> (m e d).1 = Ok a -> Q g a) ->
  task_triple g (piece m) Q.
Proof.
  intros Hm HQ. apply triple_keep; [intros e d; by destruct (Hm e d)| |done].
  intros e n d gs [ ]. by destruct (Hm e d) as (_ & -> & ->).
Qed.

(** The same for a piece whose result does not matter. *)
Lemma triple_aside' {A} g (m : Env -> M daemon A) : (forall e, moves tables_same (m e)) ->
  task_triple g (piece m) (fun g' _ => g' = g).
Proof. intros Hm. by apply triple_aside. Qed.

(** ** Pieces that change a table *)

Lemma active_cids_delete id a : active_cids (delete id a) ⊆+ active_cids a.
Proof.
  unfold active_cids. destruct (a !! id) as [vm|] eqn:E; [|by rewrite delete_id].
  rewrite <- (map_to_list_delete a id vm E). cbn. by apply submseteq_cons.
Qed.

Lemma active_cids_insert id vm a : active_cids (<[id := vm]> a) ⊆+ pv_cid vm :: active_cids a.
Proof.
  rewrite <- insert_delete_eq. unfold active_cids at 1.
  rewrite map_to_list_insert by apply lookup_delete_eq. cbn. apply submseteq_skip, active_cids_delete.
Qed.

Lemma submseteq_books (l l' : list Z) c : l' ⊆+ l -> NoDup l -> Forall (fun x => 3 <= x < c) l ->
  NoDup l' /\ Forall (fun x => 3 <= x < c) l'.
Proof.
  intros [k Hk]%submseteq_Permutation HN HF. rewrite Hk in HN, HF.
  apply NoDup_app in HN as [HN _]. by apply Forall_app in HF as [HF _].
Qed.

Lemma own_pend_cons g gs : own_pend (g :: gs) = Z.of_nat (o_pend g) + own_pend gs.
Proof. unfold own_pend. cbn. lia. Qed.
Lemma own_pend_nonneg gs : 0 <= own_pend gs.
Proof. unfold own_pend. lia. Qed.

Lemma next_cid_triple ws : task_triple (mkOwn [] 0 ws) (lock next_cid) (fun g c => g = mkOwn [c] 0 ws).
Proof.
  apply triple_piece. intros _ n d gs [ ] Hn. unfold next_cid. cbn [fst snd].
  assert (Hw : wrap 64 (d_next_cid d + 1) = d_next_cid d + 1) by (apply wrap_small; unfold in_range; lia).
  rewrite Hw. split; [apply steady_eq; cbn; [done|lia|lia]|].
  exists (mkOwn [d_next_cid d] 0 ws). split; [|done].
  assert (Hp : live_cids d ++ own_cids (mkOwn [d_next_cid d] 0 ws :: gs) ≡ₚ d_next_cid d :: live_cids d ++ own_cids gs).
  { cbn. by rewrite Permutation_middle. }
  constructor; cbn [d_next_cid d_warm d_active d_active_count d_ready d_agents d_snapshots set_next_cid]; try done; try lia.
  - change (NoDup (live_cids d ++ own_cids (mkOwn [d_next_cid d] 0 ws :: gs))). rewrite Hp. apply NoDup_cons. split; [|done].
    intros Hin. rewrite Forall_forall in bk_range0. specialize (bk_range0 _ Hin). lia.
  - change (Forall (fun c => 3 <= c < d_next_cid d + 1) (live_cids d ++ own_cids (mkOwn [d_next_cid d] 0 ws :: gs))).
    rewrite Hp. constructor; [lia|]. eapply Forall_impl; [exact bk_range0|]. cbn. lia.
  - rewrite !own_pend_cons in *. cbn [o_pend] in *. lia.
Qed.

Lemma next_warm_triple : task_triple nothing (lock next_warm) (fun g m => g = mkOwn [] 0 [m]).
Proof.
  apply triple_piece. intros _ n d gs [ ] Hn. unfold next_warm. cbn [fst snd].
  assert (Hw : wrap 64 (d_warm d + 1) = d_warm d + 1) by (apply wrap_small; unfold in_range; lia).
  rewrite Hw. split; [apply steady_eq; cbn; [done|lia|lia]|].
  exists (mkOwn [] 0 [d_warm d]). split; [|done].
  constructor; cbn [d_next_cid d_warm d_active d_active_count d_ready d_agents d_snapshots set_warm]; try done; try lia.
  - rewrite !own_pend_cons in *. cbn [o_pend] in *. lia.
  - intros k vm Hk Hk'. destruct (bk_names0 k vm Hk Hk') as (key & m & ? & ? & Hm). exists key, m.
    split_and!; try done; try lia. cbn. intros [->|Hin]%elem_of_cons; [lia|]. by apply Hm.
  - cbn. apply NoDup_cons. split; [|done]. intros Hin. rewrite Forall_forall in bk_warm_range0.
    specialize (bk_warm_range0 _ Hin). lia.
  - cbn. constructor; [lia|]. eapply Forall_impl; [exact bk_warm_range0|]. cbn. lia.
Qed.

Lemma pop_ready_triple : task_triple nothing (lock pop_ready) (fun g o =>
  match o with
  | Some vm => g = mkOwn [pv_cid vm] 0 [] /\ filed vm /\ warm_name (pv_id vm) = false
  | None => g = nothing
  end).
Proof.
  apply triple_piece. intros _ n d gs Hb Hn. unfold pop_ready.
  destruct (vec_pop (d_ready d)) as [ [vm rest]|] eqn:Ep; cbn [fst snd].
  2: { split; [by apply steady_same|]. exists nothing. split; [|done]. by eapply books_less in Hb; try done; lia. }
  apply vec_pop_Some in Ep. destruct Hb as [ ]. split; [by apply steady_eq|].
  exists (mkOwn [pv_cid vm] 0 []). split.
  - assert (Hp : live_cids (set_ready rest d) ++ own_cids (mkOwn [pv_cid vm] 0 [] :: gs) ≡ₚ live_cids d ++ own_cids (nothing :: gs)).
    { unfold live_cids. cbn. rewrite Ep, map_app. cbn. solve_Permutation. }
    constructor; rewrite ?Hp; try done; cbn; try lia; [rewrite own_pend_cons in *; cbn in *; lia|].
    intros v Hv. apply bk_ready0. rewrite Ep, elem_of_app. by left.
  - split; [done|]. apply bk_ready0. rewrite Ep, elem_of_app. right. by left.
Qed.

Lemma count_up_triple cs ws : task_triple (mkOwn cs 0 ws) (lock count_up) (fun g _ => g = mkOwn cs 1 ws).
Proof.
  apply triple_piece. intros _ n d gs [ ] Hn. cbn [fst snd count_up modify]. pose proof (own_pend_nonneg gs).
  rewrite own_pend_cons in *. cbn [o_pend] in *.
  assert (Hw : wrap 64 (d_active_count d + 1) = d_active_count d + 1) by (apply wrap_small; unfold in_range; lia).
  rewrite Hw. split; [apply steady_eq; cbn; [done|lia|lia]|]. exists (mkOwn cs 1 ws). split; [|done].
  constructor; try done; cbn [d_next_cid d_warm d_active d_active_count set_active]; try lia.
  rewrite own_pend_cons. cbn [o_pend]. lia.
Qed.

Lemma count_down_triple : task_triple (mkOwn [] 1 []) (lock count_down) (fun g _ => g = nothing).
Proof.
  apply triple_piece. intros _ n d gs [ ] Hn. cbn [fst snd count_down modify]. pose proof (own_pend_nonneg gs).
  rewrite own_pend_cons in *. cbn [o_pend] in *.
  assert (Hw : wrap 64 (d_active_count d - 1) = d_active_count d - 1) by (apply wrap_small; unfold in_range; lia).
  rewrite Hw. split; [apply steady_eq; cbn; [done|lia|lia]|]. exists nothing. split; [|done].
  constructor; try done; cbn [d_next_cid d_warm d_active d_active_count set_active]; try lia.
  rewrite own_pend_cons. cbn [nothing o_pend]. lia.
Qed.

(** The name a task that owns [ws] may register a VM under. *)
Definition may_name (ws : list Z) (vm_id : string) : Prop :=
  (ws = [] /\ warm_name vm_id = false) \/ exists key m, ws = [m] /\ vm_id = warm_vm_id key m.

(** No other VM is active under a warm name whose number a task owns. *)
Lemma warm_fresh n d gs key m k vm :
  books n d gs -> m ∈ own_warm gs -> d_active d !! k = Some vm -> k <> warm_vm_id key m.
Proof.
  intros Hb Hm Hk ->. destruct (bk_names _ _ _ Hb _ _ Hk (warm_vm_id_warm _ _)) as (key' & m' & E & Hm' & Hno).
  pose proof (proj1 (Forall_forall _ _) (bk_warm_range _ _ _ Hb) _ Hm). cbn in *.
  apply warm_vm_id_inj in E; [|lia..]. by subst.
Qed.

Lemma insert_active_triple ws vm : filed vm -> may_name ws (pv_id vm) ->
  task_triple (mkOwn [pv_cid vm] 1 ws) (lock (insert_active vm)) (fun g _ => g = nothing).
Proof.
  intros Hf Hname. apply triple_piece. intros _ n d gs Hb Hn. cbn [fst snd insert_active modify].
  assert (Hfresh : warm_name (pv_id vm) = true -> d_active d !! pv_id vm = None).
  { intros Hw. destruct (d_active d !! pv_id vm) as [vm'|] eqn:E; [|done].
    destruct Hname as [ [_ Hno]|(key & m & -> & Hid)]; [congruence|].
    exfalso. eapply (warm_fresh _ _ _ key m _ _ Hb); [|exact E|done]. by left. }
  pose proof (size_insert_le' (d_active d) (pv_id vm) vm) as Hsz.
  split.
  { unfold steady. cbn. split_and!; [lia|lia|]. intros k v v' Hk Hv [ [<- <-]|[_ Hk'] ]%lookup_insert_Some; [|congruence].
    by rewrite Hfresh in Hv. }
  exists nothing. split; [|done].
  assert (Hsub : live_cids (set_active (<[pv_id vm := vm]> (d_active d)) (d_active_count d) d) ++ own_cids (nothing :: gs) ⊆+
    live_cids d ++ own_cids (mkOwn [pv_cid vm] 1 ws :: gs)).
  { unfold live_cids. cbn. rewrite <- !(assoc_L app). apply submseteq_app; [done|].
    rewrite <- Permutation_middle, app_comm_cons. apply submseteq_app; [apply active_cids_insert|done]. }
  destruct (submseteq_books _ _ _ Hsub (bk_nodup _ _ _ Hb) (bk_range _ _ _ Hb)) as [HN HF].
  destruct Hb as [ ]. rewrite own_pend_cons in bk_count0. cbn [o_pend] in bk_count0.
  assert (Hwsub : own_warm (nothing :: gs) ⊆+ own_warm (mkOwn [pv_cid vm] 1 ws :: gs)) by (cbn; by apply submseteq_inserts_l).
  constructor; cbn [d_next_cid d_warm d_active d_active_count d_ready d_agents d_snapshots set_active]; try done; try lia.
  - rewrite own_pend_cons. cbn [nothing o_pend]. lia.
  - intros k v [ [<- <-]|[_ Hk] ]%lookup_insert_Some; [done|eauto].
  - intros k v [ [<- <-]|[_ Hk] ]%lookup_insert_Some Hw.
    + destruct Hname as [ [_ Hno]|(key & m & -> & Hid)]; [congruence|]. exists key, m. split; [done|].
      cbn in bk_warm0, bk_warm_range0. apply NoDup_cons in bk_warm0 as [Hm _]. by apply Forall_cons in bk_warm_range0 as [? _].
    + destruct (bk_names0 k v Hk Hw) as (key & m & ? & ? & Hm). exists key, m. split_and!; try done; try lia.
      intros Hin. apply Hm. by eapply elem_of_submseteq.
  - cbn in *. by apply NoDup_app in bk_warm0 as (_ & _ & ?).
  - cbn in *. by apply Forall_app in bk_warm_range0 as [_ ?].
Qed.

Lemma remove_active_triple v : task_triple nothing (lock (remove_active v)) (fun g removed =>
  g = if removed : bool then mkOwn [] 1 [] else nothing).
Proof.
  apply triple_piece. intros _ n d gs Hb Hn. unfold remove_active. cbn [fst snd].
  split.
  { unfold steady. cbn. split_and!; [lia|lia|]. intros k x x' Hk Hx [_ Hx']%lookup_delete_Some. congruence. }
  set (removed := bool_decide (is_Some (d_active d !! v))).
  exists (if removed then mkOwn [] 1 [] else nothing). split; [|done].
  assert (Hsub : forall g, o_cids g = [] -> live_cids (set_active (delete v (d_active d)) (d_active_count d) d) ++ own_cids (g :: gs) ⊆+
    live_cids d ++ own_cids (nothing :: gs)).
  { intros g Hg. unfold live_cids. cbn. rewrite Hg. apply submseteq_app; [|done]. apply submseteq_app; [done|].
    apply active_cids_delete. }
  assert (Hcount : Z.of_nat (size (delete v (d_active d))) + Z.of_nat (o_pend (if removed then mkOwn [] 1 [] else nothing))
    = Z.of_nat (size (d_active d))).
  { unfold removed. destruct (d_active d !! v) as [vm|] eqn:E.
    - rewrite bool_decide_eq_true_2 by eauto. cbn. assert (size (d_active d) <> 0)%nat.
      { intros Hz%map_size_empty_inv. by rewrite Hz, lookup_empty in E. }
      rewrite map_size_delete_Some by eauto. lia.
    - rewrite bool_decide_eq_false_2 by (by intros [? ?]). cbn. rewrite delete_id by done. lia. }
  assert (Hg : o_cids (if removed then mkOwn [] 1 [] else nothing) = [] /\ o_warm (if removed then mkOwn [] 1 [] else nothing) = [])
    by by destruct removed.
  set (g := if removed then mkOwn [] 1 [] else nothing) in *. destruct Hg as [Hgc Hgw].
  destruct (submseteq_books _ _ _ (Hsub g Hgc) (bk_nodup _ _ _ Hb) (bk_range _ _ _ Hb)) as [HN HF].
  destruct Hb as [ ]. rewrite own_pend_cons in bk_count0. cbn [nothing o_pend] in bk_count0.
  assert (Hw : own_warm (g :: gs) = own_warm (nothing :: gs)) by (cbn; by rewrite Hgw).
  constructor; cbn [d_next_cid d_warm d_active d_active_count d_ready d_agents d_snapshots set_active]; rewrite ?Hw; try done; try lia.
  - rewrite own_pend_cons. lia.
  - intros k x [_ Hk]%lookup_delete_Some. eauto.
  - intros k x [_ Hk]%lookup_delete_Some. eauto.
Qed.

Lemma push_ready_triple vm : filed vm -> warm_name (pv_id vm) = false ->
  task_triple (mkOwn [pv_cid vm] 0 []) (lock (push_ready vm)) (fun g _ => g = nothing).
Proof.
  intros Hf Hname. apply triple_piece. intros _ n d gs Hb Hn. cbn [fst snd push_ready modify].
  split; [by apply steady_eq|]. exists nothing. split; [|done].
  assert (Hp : live_cids (set_ready (d_ready d ++ [vm]) d) ++ own_cids (nothing :: gs) ≡ₚ
    live_cids d ++ own_cids (mkOwn [pv_cid vm] 0 [] :: gs)).
  { unfold live_cids. cbn. rewrite map_app. cbn. solve_Permutation. }
  destruct Hb as [ ]. constructor; rewrite ?Hp; try done; cbn [d_next_cid d_warm set_ready d_active d_active_count]; try lia.
  - rewrite own_pend_cons in *. cbn [nothing o_pend] in *. lia.
  - intros v. cbn. rewrite elem_of_app, list_elem_of_singleton. intros [Hv| ->]; eauto.
Qed.

(** ** The registry of agents and the cache *)

Lemma insert_agent_triple g v a : a = agent_of v -> task_triple g (lock (insert_agent v a)) (fun g' _ => g' = g).
Proof.
  intros ->. apply triple_keep; [intros _; unfold insert_agent; neutral_solve| |done].
  intros _ n d gs [ ]. cbn -[agent_of]. split; [|done]. intros k a [ [<- <-]|[_ Hk] ]%lookup_insert_Some; eauto.
Qed.

Lemma delete_agent_triple g v :
  task_triple g (lock (modify (fun d => set_agents (delete v (d_agents d)) d))) (fun g' _ => g' = g).
Proof.
  apply triple_keep; [intros _; neutral_solve| |done].
  intros _ n d gs [ ]. cbn -[agent_of]. split; [|done]. intros k a [_ Hk]%lookup_delete_Some; eauto.
Qed.

Lemma has_snapshot_triple g k p : task_triple g (io (has_snapshot k p)) (fun g' _ => g' = g).
Proof.
  apply triple_keep; [intros e; apply neutral_has_snapshot| |done].
  intros e n d gs [ ]. destruct (has_snapshot_spec k p d) as (b & t & -> & _). cbn. split; [done|].
  destruct b; [done|]. pose proof (size_delete_le (d_snapshots d) k). lia.
Qed.

Lemma get_snapshot_dir_triple g k : task_triple g (io (get_snapshot_dir k)) (fun g' _ => g' = g).
Proof.
  apply triple_keep; [intros e; apply neutral_get_snapshot_dir| |done].
  intros e n d gs [ ]. unfold get_snapshot_dir, mbind, M_bind, gets.
  destruct (d_snapshots d !! k) as [entry|] eqn:E; [|done]. rewrite sys_run. cbn. split; [done|].
  rewrite map_size_insert_Some by eauto. done.
Qed.

Lemma cache_snapshot_triple g k dir mt : task_triple g (io (cache_snapshot config k dir mt)) (fun g' _ => g' = g).
Proof.
  apply triple_keep; [intros e; apply neutral_cache| |done].
  intros e n d gs [ ]. destruct (cache_snapshot_run config k dir mt d) as (m & t & -> & _ & Hs). cbn. split; [done|exact Hs].
Qed.

(** ** The programs *)

Ltac aside := apply triple_aside'; intros e; neutral_solve; auto 2.
(** The first step of a program, by a triple or because it leaves the tables alone. *)
Ltac tstep := eapply triple_bind; [solve [eauto 3 using next_cid_triple, next_warm_triple, count_up_triple, count_down_triple,
  remove_active_triple, delete_agent_triple, has_snapshot_triple, get_snapshot_dir_triple, cache_snapshot_triple
  with triples nocore|aside|apply triple_ret; reflexivity]|intros ? ? ->].

Lemma restore_one_triple : task_triple nothing (restore_one_p config) (fun g vm =>
  g = mkOwn [pv_cid vm] 0 [] /\ filed vm /\ warm_name (pv_id vm) = false).
Proof.
  unfold restore_one_p. eapply (triple_bind _ _ _ _ _ _ _ (fun g v => g = nothing /\ warm_name v = false)).
  - apply triple_aside; [intros e; neutral_solve|]. intros e n d gs a _ [= <-]. done.
  - intros g v [-> Hv]. tstep. apply triple_aside; [intros e; apply outside_io; [apply _|apply io_only_restore_named]|].
    intros e n d gs vm _ Hr. destruct (restore_named config v _ d) as [r d'] eqn:E. cbn in Hr. subst r.
    apply restore_named_Ok in E as (Hid & Hcid & Ha & Hs). unfold filed. rewrite Hid, Hcid. done.
Qed.

Lemma mark_active_triple ws vm : filed vm -> may_name ws (pv_id vm) ->
  task_triple (mkOwn [pv_cid vm] 0 ws) (mark_active_p vm) (fun g _ => g = nothing).
Proof. intros Hf Hn. unfold mark_active_p. tstep. by apply insert_active_triple. Qed.

Lemma acquire_triple : task_triple nothing (acquire_p config) (fun g vm => g = nothing /\ filed vm).
Proof.
  unfold acquire_p. eapply triple_bind; [apply pop_ready_triple|]. intros g o Ho.
  eapply (triple_bind _ _ _ _ _ _ _ (fun g vm => g = mkOwn [pv_cid vm] 0 [] /\ filed vm /\ warm_name (pv_id vm) = false)).
  - destruct o as [vm|]; [by apply triple_ret|]. subst g. apply restore_one_triple.
  - intros g' vm (-> & Hf & Hn). eapply triple_bind; [apply mark_active_triple; [done|by left]|].
    intros g2 _ ->. by apply triple_ret.
Qed.

Lemma release_triple v : task_triple nothing (release_p config v) (fun g _ => g = nothing).
Proof.
  unfold release_p. tstep. eapply (triple_bind _ _ _ _ _ _ _ (fun g _ => g = nothing)).
  - destruct a; [apply count_down_triple|by apply triple_ret].
  - intros g _ ->. apply triple_aside'. intros e. apply outside_io; [apply _|]. apply io_only_destroy_vm.
Qed.

Lemma replenish_triple : task_triple nothing (replenish_one_p config) (fun g _ => g = nothing).
Proof.
  unfold replenish_one_p. tstep. case_match; [by apply triple_ret|].
  eapply triple_bind; [apply triple_attempt, restore_one_triple|]. intros g [vm|e]; cbv beta iota.
  - intros (-> & Hf & Hn). by apply push_ready_triple.
  - intros ->. by apply triple_ret.
Qed.

Lemma triple_result {A} g (r : result A) : task_triple g (Done r) (fun g' a => g' = g /\ r = Ok a).
Proof. destruct r; [by apply triple_ret|exists nothing; split; [apply gives_up_all|done]..]. Qed.

Lemma restore_from_triple g k v c dir : task_triple g (restore_from_snapshot_p config k v c dir)
  (fun g' r => g' = g /\ r.1.2 = path_join dir "api.sock" /\ r.2 = path_join dir "vsock.sock").
Proof.
  unfold restore_from_snapshot_p. eapply triple_bind; [apply get_snapshot_dir_triple|]. intros ? o ->.
  eapply triple_bind; [apply triple_result|]. intros ? snap [-> _]. do 5 tstep. by apply triple_ret.
Qed.

Lemma trigger_triple k p : task_triple nothing (trigger_shadow_p k p) (fun g _ => g = nothing).
Proof.
  unfold trigger_shadow_p. eapply triple_bind; [apply has_snapshot_triple|]. intros ? has ->.
  destruct has; [by apply triple_ret|]. tstep. case_match; [by apply triple_ret|]. unfold spawn_task. tstep. aside.
Qed.

Lemma run_task_triple t : task_triple nothing (run_task_p config t) (fun g _ => g = nothing).
Proof.
  destruct t as [|k p]; cbn [run_task_p]; [tstep; apply replenish_triple|].
  unfold shadow_task_p. eapply (triple_bind _ _ _ _ _ _ _ (fun g _ => g = nothing)); [|intros ? ? ->; aside].
  eapply triple_mono; [|apply (triple_attempt _ _ _ _ _ _ (fun g _ => g = nothing))]; [by intros g [u|e]|].
  unfold run_shadow_p. tstep. eapply triple_bind; [apply triple_ctx, acquire_triple|]. intros ? vm [-> _].
  eapply triple_bind; [apply triple_aside'; intros e; apply outside_io; [apply _|apply io_only_shadow_snapshot]|intros ? dir ->].
  tstep. eapply triple_bind; [apply cache_snapshot_triple|]. intros ? ? ->. apply release_triple.
Qed.

Lemma setup_triple g n v a : task_triple g (setup_vm_networking_p n v a) (fun g' _ => g' = g).
Proof.
  unfold setup_vm_networking_p. eapply triple_bind; [apply triple_result|]. intros ? tap [-> _].
  pose proof (fun e : Env => frame_prepare_tap (H := e) tables_same). pose proof (fun e : Env => frame_activate_tap (H := e) tables_same).
  unfold api_request_with_body. do 3 tstep. by apply triple_ret.
Qed.

Lemma connect_agent_triple g c s : task_triple g (io (m_ctx c (connect_agent s))) (fun g' a => g' = g /\ a = s).
Proof.
  apply triple_aside; [intros e; neutral_solve|]. intros e n d gs a _ Ha.
  destruct (m_ctx c (connect_agent s) d) as [r d'] eqn:E. cbn in Ha. subst r.
  by apply m_ctx_Ok, connect_agent_Ok in E.
Qed.

Lemma agent_for_triple v : task_triple nothing (agent_for_p v (agent_of v)) (fun g a => g = nothing /\ a = agent_of v).
Proof.
  unfold agent_for_p. eapply (triple_bind _ _ _ _ _ _ _ (fun g ags => g = nothing /\ forall a, ags !! v = Some a -> a = agent_of v)).
  { apply triple_aside; [intros e; neutral_solve|]. intros e n d gs ags [ ] [= <-]. eauto. }
  intros ? ags [-> Hags]. destruct (ags !! v) as [a|]; [apply triple_ret; auto|].
  eapply triple_bind; [apply connect_agent_triple|]. intros ? a [-> ->].
  eapply triple_bind; [by apply insert_agent_triple|]. intros ? ? ->. by apply triple_ret.
Qed.

Lemma run_container_triple p : rp_vsock_socket p = agent_of (rp_vm_id p) ->
  task_triple nothing (run_container_in_vm_p p) (fun g _ => g = nothing).
Proof.
  intros Hs. unfold run_container_in_vm_p. eapply (triple_bind _ _ _ _ _ _ _ (fun g _ => g = nothing)).
  { case_match; [by apply triple_ret|]. eapply triple_bind; [apply triple_ctx, setup_triple|].
    intros ? [tap info] ->. by apply triple_ret. }
  intros ? [tap ni] ->. eapply triple_bind; [apply triple_result|]. intros ? id [-> _]. cbv zeta.
  unfold api_request_with_body. tstep. rewrite Hs. eapply triple_bind; [apply agent_for_triple|]. intros ? ag [-> ->].
  eapply (triple_bind _ _ _ _ _ _ _ (fun g _ => g = nothing)).
  { destruct ni; [unfold configure_guest_network; aside|by apply triple_ret]. }
  intros ? ? ->. tstep. eapply triple_bind; [apply triple_result|]. intros ? pid [-> _]. by apply triple_ret.
Qed.

Lemma warm_network_triple g n v a : task_triple g (warm_network_p n v a (agent_of v))
  (fun g' r => match r with inl _ => g' = g | inr _ => True end).
Proof.
  unfold warm_network_p. case_match; [by apply triple_ret|].
  eapply triple_bind; [apply triple_attempt, setup_triple|]. intros g1 [ [tap info]|e]; cbv beta iota.
  - intros ->. eapply (triple_bind _ _ _ _ _ _ _ (fun g' r => match r with inl c => g' = g /\ c = agent_of v | inr _ => True end)).
    { eapply triple_mono; [|apply triple_attempt, (triple_aside _ _ (fun g' c => g' = g /\ c = agent_of v))].
      - intros g' [c|e]; auto.
      - intros e. neutral_solve.
      - intros e n' d gs c _ Hc. destruct (connect_agent (agent_of v) d) as [r d'] eqn:E. cbn in Hc. subst r.
        by apply connect_agent_Ok in E. }
    intros g2 [c|e]; cbv beta iota; [intros [-> ->]|intros _; by apply triple_ret].
    eapply triple_bind; [by apply insert_agent_triple|]. intros ? ? ->.
    unfold configure_guest_network. tstep. by apply triple_ret.
  - intros ->. by apply triple_ret.
Qed.

Lemma triple_quit {A} g (a : A) (Q : own -> A -> Prop) : Q nothing a -> task_triple g (mret a) Q.
Proof. intros HQ. exists nothing. split; [apply gives_up_all|done]. Qed.

Lemma acquire_warm_triple n k : task_triple nothing (acquire_warm_p config n k) (fun g _ => g = nothing).
Proof.
  unfold acquire_warm_p. eapply triple_bind; [apply next_warm_triple|]. intros ? m ->. cbv zeta.
  eapply triple_bind; [apply triple_attempt, triple_aside'; intros e; neutral_solve|]. intros g [u|e] Hg;
    [subst g|by apply triple_quit].
  eapply triple_bind; [apply next_cid_triple|]. intros ? cid ->.
  eapply triple_bind; [apply triple_attempt, restore_from_triple|]. intros g [ [ [pid api] vsock]|e] Hg; cbv beta iota in *;
    [|by apply triple_quit].
  destruct Hg as (-> & Ha & Hv). cbn [fst snd] in Ha, Hv. subst api vsock.
  eapply triple_bind; [apply (warm_network_triple _ n (warm_vm_id k m))|]. intros g [tap|err] Hg; [subst g|by apply triple_quit].
  tstep. match goal with |- context [mark_active_p ?v] => set (vm := v) end.
  eapply triple_bind; [apply (mark_active_triple [m] vm); [done|right; by exists k, m]|].
  intros ? ? ->. by apply triple_ret.
Qed.

Lemma acquire_pool_triple n k p c b : task_triple nothing (acquire_pool_p config n k p c b) (fun g _ => g = nothing).
Proof.
  unfold acquire_pool_p. eapply triple_bind; [apply triple_attempt, acquire_triple|]. intros g [vm|e] Hg; [|by apply triple_quit].
  destruct Hg as [-> [Ha Hs] ]. unfold spawn_task. tstep. eapply (triple_bind _ _ _ _ _ _ _ (fun g _ => g = nothing)).
  { case_match; [apply trigger_triple|by apply triple_ret]. }
  intros ? ? ->. eapply (triple_bind _ _ _ _ _ _ _ (fun g _ => g = nothing)).
  { case_match; [|by apply triple_ret]. eapply triple_mono; [|apply triple_attempt, run_container_triple; exact Hs].
    by intros g [r|e]. }
  intros ? [ [pid tap]|e] ->; by apply triple_ret.
Qed.

Lemma add_container_triple r : task_triple nothing (handle_add_container_p r) (fun g _ => g = nothing).
Proof.
  unfold handle_add_container_p. cbv zeta. set (v := str_field "vm_id" r ""). case_match; [by apply triple_ret|].
  eapply (triple_bind _ _ _ _ _ _ _ (fun g o => g = nothing /\ forall vm, o = Some vm -> pv_vsock vm = agent_of v)).
  { apply triple_aside; [intros e; unfold get_active; neutral_solve|]. intros e n d gs o [ ] [= <-]. split; [done|].
    intros vm Hvm. by destruct (bk_active0 _ _ Hvm) as [<- [_ ?] ]. }
  intros ? [vm|] [-> Hvm]; [|by apply triple_ret].
  eapply (triple_bind _ _ _ _ _ _ _ (fun g _ => g = nothing)).
  { eapply triple_mono; [|apply triple_attempt, run_container_triple; exact (Hvm _ eq_refl)]. by intros g [x|e]. }
  intros ? [ [pid tap]|e] ->; by apply triple_ret.
Qed.

(** Every request, handled from start to end among the others, gives back all it took. *)
Lemma dispatch_triple r : task_triple nothing (dispatch_p config r) (fun g _ => g = nothing).
Proof.
  unfold dispatch_p. cbv zeta. repeat (case_match; [|]).
  - unfold handle_acquire_p, acquire_sandbox_p. eapply (triple_bind _ _ _ _ _ _ _ (fun g _ => g = nothing)).
    { case_match; [by apply triple_ret|apply has_snapshot_triple]. }
    intros ? warm ->. eapply (triple_bind _ _ _ _ _ _ _ (fun g _ => g = nothing)).
    { destruct warm; [apply acquire_warm_triple|by apply triple_ret]. }
    intros ? [resp|] ->; [by apply triple_ret|apply acquire_pool_triple].
  - unfold handle_release_p. cbv zeta. case_match; [by apply triple_ret|].
    eapply triple_bind; [apply delete_agent_triple|]. intros ? ? ->.
    eapply triple_bind; [apply triple_attempt, release_triple|]. intros g [u|e] Hg; by apply triple_quit.
  - apply add_container_triple.
  - unfold handle_kill_container_p, get_agent. cbv zeta. tstep. case_match; [|by apply triple_ret].
    tstep. case_match; by apply triple_ret.
  - unfold handle_wait_container_p, get_agent. cbv zeta. tstep. case_match; [|by apply triple_ret].
    tstep. case_match; by apply triple_ret.
  - unfold handle_delete_container_p, get_agent. cbv zeta. tstep. case_match; [|by apply triple_ret].
    tstep. by apply triple_ret.
  - unfold handle_status_p, active_shadow_count, snapshot_keys. do 4 tstep. by apply triple_ret.
  - by apply triple_ret.
Qed.
End Books.
