(* ===== verification/Schedule.v ===== *)
(** * The server with its tasks in turn ([ApiServer::serve], [handle_connection] of [api.rs])

    The daemon as a machine: it accepts connections, and every connection's handler and
    every background task is a program of [Interleave] that gets a turn whenever the
    scheduler pleases. The books hold in every state of every schedule, the answers of a
    connection are answers to its own requests, without new requests the tasks come to
    an end however they are scheduled, and the runs of [Server] are among those here. *)

From S2P Require Import Prelude RustStr NetAddr Bytes Proto Sys Json Netlink NetlinkOps Lifecycle Pool Shadow DaemonNet.
From S2P Require Import Api ApiProps Client Config Server Tasks Interleave Books.
From Stdlib Require Import Ascii.
From Stdlib Require String.
Local Open Scope Z_scope.

(** A connection: open or not, the lines answered and the answers, and the request
    under way with what is left of its handler. *)
Record iconn := mkIconn {
  ic_open : bool; ic_in : list string; ic_out : list string; ic_run : option (string * dprog lit) }.
Record iserver := mkIserver {
  i_daemon : daemon; i_conns : list iconn; i_tasks : list (dprog unit); i_end : option error }.

Definition iconn_new : iconn := mkIconn true [] [] None.
Definition iconn_close (c : iconn) : iconn := mkIconn false (ic_in c) (ic_out c) None.
Definition iconn_run (line : string) (p : dprog lit) (c : iconn) : iconn :=
  mkIconn (ic_open c) (ic_in c) (ic_out c) (Some (line, p)).
Definition iconn_answer (line out : string) (c : iconn) : iconn :=
  mkIconn (ic_open c) (ic_in c ++ [line]) (ic_out c ++ [out]) None.
Definition with_iconn (i : nat) (c : iconn) (s : iserver) : iserver :=
  mkIserver (i_daemon s) (<[i := c]> (i_conns s)) (i_tasks s) (i_end s).
Definition with_idaemon (d : daemon) (s : iserver) : iserver :=
  mkIserver d (i_conns s) (i_tasks s) (i_end s).

(** What may happen: [accept] returns; [read_line] of a connection without a request
    under way returns; the handler of a connection gets a turn; its answer can be written
    or not; a spawned task is started; a started one gets a turn. *)
Inductive ievent :=
| IAccept (r : Z + unit)
| IRead (i : nat) (r : Z + string)
| ITurn (e : Env) (i : nat)
| IWrite (i : nat) (written : bool)
| IStart (i : nat)
| ITask (e : Env) (i : nat).

Definition turn {A} (e : Env) (p : dprog A) (d : daemon) : dprog A * daemon :=
  match p with
  | Done r => (Done r, d)
  | Piece m k => let (r, d') := m e d in (k r, d')
  end.

Section Machine.
Context `{SerdeJson, Anyhow, Base64} (config : DaemonConfig).

Definition conn_event (ev : ievent) (i : nat) (c : iconn) (s : iserver) : iserver :=
  match ev, ic_run c with
  | IRead _ r, None =>
      match r with
      | inl _ | inr "" => with_iconn i (iconn_close c) s
      | inr line =>
          match from_str (trim line) with
          | inl _ => with_iconn i (iconn_close c) s
          | inr request => with_iconn i (iconn_run line (dispatch_p config request) c) s
          end
      end
  | ITurn e _, Some (line, p) =>
      let (p', d') := turn e p (i_daemon s) in with_iconn i (iconn_run line p' c) (with_idaemon d' s)
  | IWrite _ written, Some (line, Done r) =>
      match r with
      | Ok response =>
          if written then with_iconn i (iconn_answer line (json_line (of_lit response)) c) s
          else with_iconn i (iconn_close c) s
      | _ => with_iconn i (iconn_close c) s
      end
  | _, _ => s
  end.

Definition task_turn (e : Env) (i : nat) (p : dprog unit) (s : iserver) : iserver :=
  match p with
  | Done _ => mkIserver (i_daemon s) (i_conns s) (delete i (i_tasks s)) (i_end s)
  | Piece _ _ => let (p', d') := turn e p (i_daemon s) in mkIserver d' (i_conns s) (<[i := p']> (i_tasks s)) (i_end s)
  end.

Definition start_task (i : nat) (t : task) (s : iserver) : iserver :=
  mkIserver (set_tasks (delete i (d_tasks (i_daemon s))) (i_daemon s)) (i_conns s)
    (i_tasks s ++ [run_task_p config t]) (i_end s).

Definition iserve_event (ev : ievent) (s : iserver) : iserver :=
  match i_end s with
  | Some _ => s
  | None =>
      match ev with
      | IAccept (inl e) => mkIserver (i_daemon s) (i_conns s) (i_tasks s) (Some (Io e))
      | IAccept (inr _) => mkIserver (i_daemon s) (i_conns s ++ [iconn_new]) (i_tasks s) None
      | IRead i _ | ITurn _ i | IWrite i _ =>
          match i_conns s !! i with
          | Some c => if ic_open c then conn_event ev i c s else s
          | None => s
          end
      | IStart i =>
          match d_tasks (i_daemon s) !! i with Some t => start_task i t s | None => s end
      | ITask e i =>
          match i_tasks s !! i with Some p => task_turn e i p s | None => s end
      end
  end.

Definition iserve_all (evs : list ievent) (s : iserver) : iserver := foldl (fun s ev => iserve_event ev s) s evs.
Definition ilistening (d : daemon) : iserver := mkIserver d [] [] None.
End Machine.

(** ** The books in every schedule *)

Section Books.
Context `{SerdeJson, Anyhow, Base64} (config : DaemonConfig).
Abbreviation task_safe := (safe (E := Env) (2 ^ 64) (books config) steady).

(** A connection, and what its handler owns. *)
Definition conn_safe (c : iconn) (g : own) : Prop :=
  match ic_run c with
  | Some (_, p) => task_safe g p (fun _ _ => True)
  | None => g = nothing
  end.

Definition machine_ok (n : Z) (s : iserver) : Prop :=
  exists gc gt, Forall2 conn_safe (i_conns s) gc /\
    Forall2 (fun p g => task_safe g p (fun _ _ => True)) (i_tasks s) gt /\ books config n (i_daemon s) (gc ++ gt).

Lemma books_at n d gs i g : gs !! i = Some g -> books config n d gs <-> books config n d (g :: delete i gs).
Proof.
  intros Hi. split; apply books_perm.
  - by rewrite <- delete_Permutation.
  - by rewrite <- (delete_Permutation gs i g Hi).
Qed.

Lemma insert_Permutation_at {A} (l : list A) i x y : l !! i = Some x -> <[i := y]> l ≡ₚ y :: delete i l.
Proof.
  intros Hi. rewrite insert_take_drop by (by eapply lookup_lt_Some). rewrite delete_take_drop. by rewrite Permutation_middle.
Qed.

Lemma books_put n d gs i g g' : gs !! i = Some g -> books config n d (<[i := g']> gs) <-> books config n d (g' :: delete i gs).
Proof. intros Hi. pose proof (insert_Permutation_at gs i g g' Hi). by split; apply books_perm. Qed.

Lemma books_later n n' d gs : n <= n' -> books config n d gs -> books config n' d gs.
Proof.
  intros Hn [ ]. constructor; try done; lia.
Qed.

Lemma triple_task {A} g (p : dprog A) Q : triple (2 ^ 64) (books config) steady nothing g p Q -> task_safe g p (fun _ _ => True).
Proof. apply safe_mono. done. Qed.

Lemma books_nothing n d gs : books config n d gs <-> books config n d (nothing :: gs).
Proof. split; intros [ ]; by constructor. Qed.

Lemma steady_refl d : steady d d.
Proof. by apply steady_same. Qed.

(** The books from the side of one connection. *)
Lemma machine_conn n s i c : machine_ok n s -> i_conns s !! i = Some c ->
  exists g gs, conn_safe c g /\ books config n (i_daemon s) (g :: gs) /\
    forall n' d' c' g', conn_safe c' g' -> books config n' d' (g' :: gs) ->
      machine_ok n' (with_iconn i c' (with_idaemon d' s)).
Proof.
  intros (gc & gt & Hc & Ht & Hb) Hi. destruct (Forall2_lookup_l _ _ _ _ _ Hc Hi) as (g & Hg & Hs).
  assert (Hgs : (gc ++ gt) !! i = Some g) by (by apply lookup_app_l_Some).
  exists g, (delete i (gc ++ gt)). split_and!; [done|by apply books_at|]. intros n' d' c' g' Hs' Hb'.
  exists (<[i := g']> gc), gt. split_and!; [by apply Forall2_insert|done|]. cbn.
  rewrite <- insert_app_l by (by eapply lookup_lt_Some). by eapply books_put.
Qed.

(** And from that of one task. *)
Lemma machine_task n s i p : machine_ok n s -> i_tasks s !! i = Some p ->
  exists g gs, task_safe g p (fun _ _ => True) /\ books config n (i_daemon s) (g :: gs) /\
    (forall n' d' p' g', task_safe g' p' (fun _ _ => True) -> books config n' d' (g' :: gs) ->
      machine_ok n' (mkIserver d' (i_conns s) (<[i := p']> (i_tasks s)) (i_end s))) /\
    machine_ok n (mkIserver (i_daemon s) (i_conns s) (delete i (i_tasks s)) (i_end s)).
Proof.
  intros (gc & gt & Hc & Ht & Hb) Hi. destruct (Forall2_lookup_l _ _ _ _ _ Ht Hi) as (g & Hg & Hs).
  assert (Hp : gc ++ gt ≡ₚ g :: gc ++ delete i gt).
  { rewrite (delete_Permutation gt i g Hg) at 1. by rewrite Permutation_middle. }
  exists g, (gc ++ delete i gt). split_and!; [done|by eapply books_perm| |].
  - intros n' d' p' g' Hs' Hb'. exists gc, (<[i := g']> gt). split_and!; [done|by apply Forall2_insert|]. cbn.
    eapply books_perm; [|exact Hb']. rewrite (insert_Permutation_at gt i g g' Hg). by rewrite Permutation_middle.
  - exists gc, (delete i gt). split_and!; [done|by apply Forall2_delete|]. cbn.
    eapply books_perm in Hb; [|exact Hp]. by apply books_nothing, (gives_up_all config g).
Qed.

(** A turn of a safe program. *)
Lemma turn_safe {A} e n d g gs (p : dprog A) :
  task_safe g p (fun _ _ => True) -> books config n d (g :: gs) -> n + 1 < 2 ^ 64 ->
  steady d (turn e p d).2 /\
  exists g', task_safe g' (turn e p d).1 (fun _ _ => True) /\ books config (n + 1) (turn e p d).2 (g' :: gs).
Proof.
  intros Hs Hb Hn. destruct p as [r|B m k]; cbn [turn].
  - split; [apply steady_refl|]. exists g. split; [done|]. eapply books_later; [|done]. lia.
  - destruct (Hs e n d gs Hb Hn) as (HT & g' & Hb' & Hs'). destruct (m e d) as [r d']. cbn in *. eauto.
Qed.

Lemma machine_later n n' s : n <= n' -> machine_ok n s -> machine_ok n' s.
Proof. intros Hn (gc & gt & ? & ? & Hb). exists gc, gt. split_and!; [done..|]. by eapply books_later. Qed.

Lemma with_same i c s : with_iconn i c (with_idaemon (i_daemon s) s) = with_iconn i c s.
Proof. done. Qed.

Lemma conn_event_ok n ev s i c : machine_ok n s -> n + 1 < 2 ^ 64 -> i_conns s !! i = Some c ->
  machine_ok (n + 1) (conn_event config ev i c s) /\ steady (i_daemon s) (i_daemon (conn_event config ev i c s)).
Proof.
  intros Hm Hn Hi. destruct (machine_conn n s i c Hm Hi) as (g & gs & Hs & Hb & Hput).
  assert (Hsame : machine_ok (n + 1) s /\ steady (i_daemon s) (i_daemon s)).
  { split; [|apply steady_refl]. eapply machine_later; [|done]. lia. }
  assert (Hb1 : books config (n + 1) (i_daemon s) (nothing :: gs)).
  { apply (gives_up_all config g). eapply books_later; [|exact Hb]. lia. }
  assert (Hidle : forall c', ic_run c' = None -> machine_ok (n + 1) (with_iconn i c' s) /\
    steady (i_daemon s) (i_daemon (with_iconn i c' s))).
  { intros c' Hr. split; [|apply steady_refl]. rewrite <- with_same. apply (Hput _ _ c' nothing); [|done].
    unfold conn_safe. by rewrite Hr. }
  unfold conn_event, conn_safe in *. destruct ev as [r|j r|e j|j w|j|e j], (ic_run c) as [ [line p]|]; try exact Hsame.
  - destruct r as [x|[|ch line] ]; [by apply Hidle..|]. destruct (from_str _) as [x|req]; [by apply Hidle|].
    split; [|apply steady_refl]. rewrite <- with_same. apply (Hput _ _ _ nothing); [|done].
    cbn. eapply triple_task, dispatch_triple.
  - destruct (turn_safe e n (i_daemon s) g gs p Hs Hb Hn) as (HT & g' & Hs' & Hb').
    destruct (turn e p (i_daemon s)) as [p' d']. cbn in *. split; [|done]. by apply (Hput _ _ _ g').
  - destruct p as [r|B m k]; [|exact Hsame]. destruct r; [destruct w|..]; by apply Hidle.
Qed.

(** Books and promise, one event on. *)
Lemma event_ok n ev s : machine_ok n s -> n + 1 < 2 ^ 64 ->
  machine_ok (n + 1) (iserve_event config ev s) /\ steady (i_daemon s) (i_daemon (iserve_event config ev s)).
Proof.
  intros Hm Hn. assert (Hsame : machine_ok (n + 1) s /\ steady (i_daemon s) (i_daemon s)).
  { split; [|apply steady_refl]. eapply machine_later; [|done]. lia. }
  unfold iserve_event. destruct (i_end s) eqn:Ee; [exact Hsame|].
  destruct ev as [ [e|u]|i r|e i|i w|i|e i].
  3-5: destruct (i_conns s !! i) as [c|] eqn:Hi; [|exact Hsame]; destruct (ic_open c); [by apply conn_event_ok|exact Hsame].
  - exact Hsame.
  - split; [|apply steady_refl]. destruct Hsame as [ (gc & gt & Hc & Ht & Hb) _].
    exists (gc ++ [nothing]), gt. split_and!; [by apply Forall2_app; [|constructor]|done|]. cbn.
    eapply books_perm; [|exact (proj1 (books_nothing _ _ _) Hb)]. solve_Permutation.
  - destruct (d_tasks (i_daemon s) !! i) as [t|]; [|exact Hsame]. split; [|by apply steady_same].
    destruct Hsame as [ (gc & gt & Hc & Ht & Hb) _]. exists gc, (gt ++ [nothing]).
    split_and!; [done|apply Forall2_app; [done|constructor; [|done]; eapply triple_task, run_task_triple]|]. cbn.
    eapply books_perm; [|apply (proj1 (books_nothing _ _ (gc ++ gt)))]; [solve_Permutation|]. by destruct Hb; constructor.
  - destruct (i_tasks s !! i) as [p|] eqn:Hi; [|exact Hsame].
    destruct (machine_task n s i p Hm Hi) as (g & gs & Hs & Hb & Hput & Hdel). unfold task_turn.
    destruct (turn_safe e n (i_daemon s) g gs p Hs Hb Hn) as (HT & g' & Hs' & Hb').
    destruct p as [r|B m k]; [split; [|apply steady_refl]; eapply machine_later; [|exact Hdel]; lia|].
    destruct (turn e (Piece m k) (i_daemon s)) as [p' d']. cbn in *. split; [|done]. by apply (Hput _ _ _ g').
Qed.
End Books.

Section Boot.
Context `{E0 : Env, SD : SerdeDerive, Anyhow, Base64}.

(** The tables when the daemon starts to listen: only the ready list is filled. *)
Definition only_ready (config : DaemonConfig) (d : daemon) : Prop :=
  d_active d = ∅ /\ d_agents d = ∅ /\ d_snapshots d = ∅ /\
  forall vm, vm ∈ d_ready d -> filed config vm /\ warm_name (pv_id vm) = false.

Lemma only_ready_restore config d : only_ready config d ->
  only_ready config ((r ← attempt (restore_one config); match r with inl vm => push_ready vm | inr _ => mret tt end) d).2.
Proof.
  intros (Ha & Hg & Hs & Hr). unfold mbind, M_bind, attempt. destruct (restore_one_run config d) as (t & r & -> & Hvm).
  destruct r as [vm|e| |]; try done. unfold only_ready. cbn. split_and!; try done. intros v.
  rewrite elem_of_app, list_elem_of_singleton. intros [Hv| ->]; [by apply Hr|].
  destruct Hvm as (Hid & _ & Hap & Hvs). unfold filed. by rewrite Hid, Hap, Hvs.
Qed.

Lemma only_ready_fill config n d : only_ready config d -> only_ready config (fill config n d).2.
Proof.
  revert d. induction n as [|n IH]; intros d Hd; [done|]. cbn [fill]. rewrite <- M_bind_assoc.
  pose proof (only_ready_restore config d Hd) as Hd'. unfold mbind at 1, M_bind at 1.
  destruct ((attempt (restore_one config) ≫= _) d) as [r d']. destruct r; try done. by apply IH.
Qed.

Lemma only_ready_initialize config d : only_ready config d -> only_ready config (initialize config d).2.
Proof.
  intros Hd. unfold initialize, mbind, M_bind. destruct (base_valid_run (base_snapshot_dir config) d) as (v & t & ->).
  set (d1 := set_d_trace _ d). assert (Hd1 : only_ready config d1) by done.
  assert (Hb : only_ready config ((if v then mret tt else create_base_snapshot config (base_snapshot_dir config)) d1).2).
  { destruct v; [done|]. destruct (create_base_run config (base_snapshot_dir config) d1) as (t' & r & d2 & -> & Hor & _).
    by destruct Hor as [-> | ->]. }
  destruct ((if v then mret tt else create_base_snapshot config (base_snapshot_dir config)) d1) as [r d2].
  destruct r; try done. by apply only_ready_fill.
Qed.

Lemma books_boot config d n : daemon_wf d -> only_ready config d -> d_next_cid d <= n -> d_warm d <= n ->
  books config n d [].
Proof.
  intros Hw (Ha & Hg & Hs & Hr) Hn Hm. pose proof (dw_pool _ Hw) as Hp. pose proof (wf_low _ Hp). pose proof (dw_warm _ Hw).
  pose proof (wf_count _ Hp) as Hc. rewrite Ha, map_size_empty in Hc.
  constructor; unfold live_cids; rewrite ?Ha, ?Hg, ?Hs, ?map_size_empty; unfold active_cids; rewrite ?map_to_list_empty; cbn;
    rewrite ?app_nil_r; try done; try lia.
  - apply (wf_ready_nodup _ Hp).
  - apply Forall_forall. intros c (vm & -> & Hvm)%list_elem_of_fmap. by apply (wf_ready_cid _ Hp).
  - unfold own_pend. cbn. lia.
  - apply NoDup_nil_2.
Qed.

(** The books when [main] has come to its loop. *)
Lemma main_books args sk config d : daemon_main args (pool_new sk) = (Ok config, d) -> 0 <= pool_size config < 2 ^ 64 - 5 ->
  books config (4 + pool_size config) d [].
Proof.
  intros Hm Hp. pose proof (daemon_main_steps args sk) as Hs. rewrite Hm in Hs. destruct Hs as (t & d0 & Ei & -> & _).
  set (d1 := set_d_trace [ReadToString (daemon_config_path args)] (pool_new sk)) in *.
  assert (Hd1 : daemon_wf d1) by (eapply wf_same; [|apply (daemon_wf_new sk)]; by repeat split).
  destruct (keeps_initialize config ltac:(lia) d1 Hd1) as (Hd & Hc & Hw); [cbn; lia..|].
  assert (Ho : only_ready config d1) by (split_and!; try done; intros vm Hvm; by apply elem_of_nil in Hvm).
  apply only_ready_initialize in Ho. rewrite Ei in Hd, Hc, Hw, Ho. cbn in Hc, Hw.
  apply books_boot; [by eapply wf_same; [|exact Hd]|done|cbn; lia..].
Qed.

Lemma events_ok config evs s n : machine_ok config n s -> n + Z.of_nat (length evs) < 2 ^ 64 ->
  machine_ok config (n + Z.of_nat (length evs)) (iserve_all config evs s).
Proof.
  revert s n. induction evs as [|ev evs IH]; intros s n Hm Hn; cbn [length iserve_all foldl] in *.
  - by rewrite Z.add_0_r.
  - destruct (event_ok config n ev s Hm ltac:(lia)) as [Hm' _].
    replace (n + Z.of_nat (S (length evs))) with (n + 1 + Z.of_nat (length evs)) by lia. apply IH; [done|lia].
Qed.

(** C9: in every schedule of the daemon's tasks, from the moment it listens: however
    the handlers of any number of connections and the background tasks take turns at
    their locks and waits, and whatever hypervisor, agents, kernel and file system answer,
    no two VMs of the ready list and the active map have the same CID, the count of
    acquired VMs is at least the size of the map, every active VM is filed under its own
    name with the sockets of its own directory, every agent connection in the registry
    leads to the VM it is registered for, and the cache of snapshots keeps its bound; no
    entry of a warm VM is ever replaced by another. (No more than 2^64 turns are taken.) *)
Theorem interleaved_books args sk config d evs :
  daemon_main args (pool_new sk) = (Ok config, d) ->
  0 <= pool_size config -> 5 + pool_size config + Z.of_nat (length evs) < 2 ^ 64 ->
  let s := iserve_all config evs (ilistening d) in
  let d' := i_daemon s in
  NoDup (live_cids d') /\
  Z.of_nat (size (d_active d')) <= d_active_count d' /\
  (forall k vm, d_active d' !! k = Some vm -> pv_id vm = k /\ filed config vm) /\
  (forall k a, d_agents d' !! k = Some a -> a = agent_of config k) /\
  Z.of_nat (size (d_snapshots d')) <= Z.max 1 (max_snapshots config) /\
  (forall ev k vm vm', warm_name k = true -> d_active d' !! k = Some vm ->
     d_active (i_daemon (iserve_event config ev s)) !! k = Some vm' -> vm' = vm).
Proof.
  intros Hm Hp Hn s d'. pose proof (main_books args sk config d Hm ltac:(lia)) as Hb.
  assert (Hmk : machine_ok config (4 + pool_size config) (ilistening d)) by (by exists [], []).
  pose proof (events_ok config evs _ _ Hmk ltac:(lia)) as Hok. fold s in Hok.
  assert (Hsteady : forall ev, steady d' (i_daemon (iserve_event config ev s))).
  { intros ev. by apply (event_ok config _ ev s Hok ltac:(lia)). }
  destruct Hok as (gc & gt & _ & _ & [ ]). fold d' in bk_nodup, bk_count. split_and!; try done.
  - by apply NoDup_app in bk_nodup as [? _].
  - pose proof (own_pend_nonneg (gc ++ gt)). lia.
  - intros ev k vm vm' Hk. by apply (Hsteady ev).
Qed.
End Boot.

(** ** The connections *)

Section Conns.
Context `{SerdeJson, Anyhow, Base64} (config : DaemonConfig).

(** [out] is the line of an answer the handler of the request in [line] may come to. *)
Definition may_answer (line out : string) : Prop :=
  exists req resp, from_str (trim line) = inr req /\ may (dispatch_p config req) (Ok resp) /\ out = json_line (of_lit resp).

(** What is left of a handler leads to results of the whole of it. *)
Definition under_way (line : string) (p : dprog lit) : Prop :=
  exists req, from_str (trim line) = inr req /\ forall r, may p r -> may (dispatch_p config req) r.

Definition iconn_ok (c : iconn) : Prop :=
  Forall2 may_answer (ic_in c) (ic_out c) /\
  match ic_run c with Some (line, p) => under_way line p | None => True end.

(** The lines a connection has taken up. *)
Definition ic_taken (c : iconn) : list string := ic_in c ++ option_list (fst <$> ic_run c).

Definition iread_by (i : nat) (ev : ievent) : option string :=
  match ev with IRead j (inr line) => if decide (j = i) then Some line else None | _ => None end.

Lemma turn_may {A} e (p : dprog A) d r : may (turn e p d).1 r -> may p r.
Proof.
  destruct p as [r0|B m k]; [done|]. cbn. intros Hr. apply (may_piece _ m k e d). by destruct (m e d).
Qed.

Definition line_read (ev : ievent) : option string :=
  match ev with IRead _ (inr line) => Some line | _ => None end.

(** The connection is in order, and took up at most the line [read] after [l]. *)
Definition goes_on (read : option string) (l : list string) (c : iconn) : Prop :=
  iconn_ok c /\ ic_taken c `sublist_of` l ++ option_list read.

Lemma goes_on_same read c : iconn_ok c -> goes_on read (ic_taken c) c.
Proof. intros Hc. split; [done|]. by apply sublist_inserts_r. Qed.

(** What an event does to the connection it concerns. *)
Lemma conn_event_conn ev i c s c' :
  i_conns s !! i = Some c -> iconn_ok c -> i_conns (conn_event config ev i c s) !! i = Some c' ->
  goes_on (line_read ev) (ic_taken c) c'.
Proof.
  intros Hi Hok Hc'. assert (Hsame : c' = c -> goes_on (line_read ev) (ic_taken c) c') by (intros ->; by apply goes_on_same).
  assert (Hput : forall c1 s1, i_conns s1 = i_conns s -> i_conns (with_iconn i c1 s1) !! i = Some c' -> c' = c1).
  { intros c1 s1 E. cbn. rewrite E, list_lookup_insert_eq by (by eapply lookup_lt_Some). congruence. }
  destruct Hok as [Hin Hrun]. assert (Hclose : goes_on (line_read ev) (ic_taken c) (iconn_close c)).
  { split; [done|]. apply sublist_inserts_r. unfold ic_taken. cbn. by apply sublist_app, sublist_nil_l. }
  unfold conn_event in Hc'. destruct ev as [r|j r|e j|j w|j|e j], (ic_run c) as [ [line p]|] eqn:Er;
    try (apply Hsame; congruence).
  - destruct r as [x|[|ch line] ]; [by rewrite (Hput _ _ eq_refl Hc')..|].
    destruct (from_str (trim (String ch line))) as [x|req] eqn:Ej; [by rewrite (Hput _ _ eq_refl Hc')|].
    rewrite (Hput _ _ eq_refl Hc'). split; [split; [done|]; by exists req|]. unfold ic_taken. rewrite Er. cbn. by rewrite app_nil_r.
  - destruct (turn e p (i_daemon s)) as [p' d'] eqn:Et. rewrite (Hput _ (with_idaemon d' s) eq_refl Hc'). split.
    + split; [done|]. cbn. destruct Hrun as (req & Hreq & Hmay). exists req. split; [done|]. intros r Hr. apply Hmay.
      apply (turn_may e p (i_daemon s)). by rewrite Et.
    + apply sublist_inserts_r. unfold ic_taken. by rewrite Er.
  - destruct p as [r|B m k]; [|apply Hsame; congruence]. destruct r as [resp|x| |]; [|by rewrite (Hput _ _ eq_refl Hc')..].
    destruct w; [|by rewrite (Hput _ _ eq_refl Hc')]. rewrite (Hput _ _ eq_refl Hc'). split.
    + split; [|done]. cbn. apply Forall2_app; [done|]. repeat constructor.
      destruct Hrun as (req & Hreq & Hmay). exists req, resp. split_and!; [done|apply Hmay; constructor|done].
    + unfold ic_taken. rewrite Er. cbn. by rewrite !app_nil_r.
Qed.

Lemma conn_event_other ev i j c s : i <> j -> i_conns (conn_event config ev j c s) !! i = i_conns s !! i.
Proof.
  intros Hne. unfold conn_event. repeat case_match; try done; cbn; by rewrite list_lookup_insert_ne.
Qed.

Definition taken_in (s : iserver) (i : nat) : list string :=
  match i_conns s !! i with Some c => ic_taken c | None => [] end.

Lemma iserve_event_conn ev i s c' :
  (forall c, i_conns s !! i = Some c -> iconn_ok c) -> i_conns (iserve_event config ev s) !! i = Some c' ->
  goes_on (iread_by i ev) (taken_in s i) c'.
Proof.
  intros Hok Hc'. assert (Hsame : i_conns s !! i = Some c' -> goes_on (iread_by i ev) (taken_in s i) c').
  { intros Hi. unfold taken_in. rewrite Hi. by apply goes_on_same, Hok. }
  assert (Hconn : forall j, iread_by j ev = line_read ev ->
    i_conns (match i_conns s !! j with Some c => if ic_open c then conn_event config ev j c s else s | None => s end) !! i = Some c' ->
    goes_on (iread_by i ev) (taken_in s i) c').
  { intros j Hj Hev. destruct (i_conns s !! j) as [c|] eqn:Ej; [|auto]. destruct (ic_open c); [|auto].
    destruct (decide (i = j)) as [->|Hne]; [|rewrite conn_event_other in Hev by done; auto].
    rewrite Hj. unfold taken_in. rewrite Ej. by eapply conn_event_conn; [| |exact Hev]; [|apply Hok]. }
  unfold iserve_event in Hc'. destruct (i_end s); [auto|]. destruct ev as [ [e|u]|j r|e j|j w|j|e j].
  - auto.
  - cbn in Hc'. apply lookup_app_Some in Hc' as [Hc'|[Hl Hc'] ]; [auto|]. apply list_lookup_singleton_Some in Hc' as [_ <-].
    split; [by repeat constructor|apply sublist_nil_l].
  - apply (Hconn j); [|done]. cbn. destruct r; [done|]. by rewrite decide_True.
  - by apply (Hconn j).
  - by apply (Hconn j).
  - destruct (d_tasks (i_daemon s) !! j); auto.
  - destruct (i_tasks s !! j) as [p|]; [|auto]. unfold task_turn in Hc'. destruct p; [auto|].
    destruct (turn e _ _). by apply Hsame.
Qed.

Lemma iserve_all_snoc evs ev s : iserve_all config (evs ++ [ev]) s = iserve_event config ev (iserve_all config evs s).
Proof. unfold iserve_all. by rewrite foldl_app. Qed.

(** C13: in every schedule the lines a connection has sent are, one each and in this
    order, answers that the handlers of the requests it has read may come to, whatever the
    other tasks do between the pieces of the handler; the lines it has taken up, the one
    under way included, are lines that came in on it, in their order. What happens to
    another connection or to a background task does not touch it. *)
Theorem interleaved_connections evs d i c :
  let s := iserve_all config evs (ilistening d) in
  i_conns s !! i = Some c ->
  Forall2 may_answer (ic_in c) (ic_out c) /\
  (forall line p, ic_run c = Some (line, p) -> under_way line p) /\
  ic_taken c `sublist_of` omap (iread_by i) evs /\
  (forall j e r w, j <> i -> i_conns (iserve_event config (IRead j r) s) !! i = Some c /\
     i_conns (iserve_event config (ITurn e j) s) !! i = Some c /\ i_conns (iserve_event config (IWrite j w) s) !! i = Some c) /\
  (forall j e, i_conns (iserve_event config (IStart j) s) !! i = Some c /\ i_conns (iserve_event config (ITask e j) s) !! i = Some c).
Proof.
  intros s Hc.
  assert (Hall : forall c, i_conns s !! i = Some c -> iconn_ok c /\ ic_taken c `sublist_of` omap (iread_by i) evs).
  { clear c Hc. subst s. induction evs as [|ev evs IH] using rev_ind; intros c Hc; [done|].
    rewrite iserve_all_snoc in Hc. rewrite omap_app.
    destruct (iserve_event_conn ev i _ c (fun c Hc => proj1 (IH c Hc)) Hc) as [Hok Ht]. split; [done|].
    etrans; [exact Ht|]. apply sublist_app.
    - unfold taken_in. destruct (i_conns _ !! i) as [c0|] eqn:Ei; [by apply IH|apply sublist_nil_l].
    - cbn. by destruct (iread_by i ev). }
  destruct (Hall c Hc) as [ [Hin Hrun] Ht]. split_and!; [done| |done| |].
  - intros line p E. by rewrite E in Hrun.
  - intros j e r w Hne. unfold iserve_event. destruct (i_end s); [done|].
    destruct (i_conns s !! j) as [cj|] eqn:Ej; [|done]. destruct (ic_open cj); [|done]. by rewrite !conn_event_other.
  - intros j e. unfold iserve_event. destruct (i_end s); [done|]. split.
    + by destruct (d_tasks (i_daemon s) !! j).
    + destruct (i_tasks s !! j) as [p|]; [|done]. unfold task_turn. destruct p; [done|]. by destruct (turn e _ _).
Qed.
End Conns.

(** ** A scheduler that never interrupts *)

Section Uninterrupted.
Context `{E0 : Env, SerdeJson, Anyhow, Base64} (config : DaemonConfig).

(** No request and no task is under way. *)
Definition idle (s : iserver) : Prop := Forall (fun c => ic_run c = None) (i_conns s) /\ i_tasks s = [].

Definition plain_conn (c : iconn) : conn := mkConn (ic_open c) (ic_in c) (ic_out c).
Definition plain (s : iserver) : server := mkServer (i_daemon s) (plain_conn <$> i_conns s) (i_end s).

Lemma iserve_all_app l l' s : iserve_all config (l ++ l') s = iserve_all config l' (iserve_all config l s).
Proof. apply foldl_app. Qed.

(** Enough turns in a row run a handler to its end. *)
Lemma turns_run p line i c s :
  i_end s = None -> i_conns s !! i = Some c -> ic_open c = true -> ic_run c = Some (line, p) ->
  exists k, iserve_all config (replicate k (ITurn E0 i)) s =
    with_iconn i (iconn_run line (Done (run E0 p (i_daemon s)).1) c) (with_idaemon (run E0 p (i_daemon s)).2 s).
Proof.
  revert c s. induction p as [r|B m k IH]; intros c s He Hi Ho Hr.
  - exists 0%nat. cbn. unfold with_iconn, with_idaemon. cbn. destruct s, c. cbn in *. subst.
    by rewrite list_insert_id by done.
  - set (s1 := iserve_event config (ITurn E0 i) s).
    destruct (m E0 (i_daemon s)) as [r d'] eqn:Em.
    assert (Es : s1 = with_iconn i (iconn_run line (k r) c) (with_idaemon d' s)).
    { unfold s1, iserve_event. rewrite He, Hi, Ho. unfold conn_event. rewrite Hr. cbn. by rewrite Em. }
    destruct (IH r (iconn_run line (k r) c) s1) as [n Hn]; [by rewrite Es|rewrite Es|done..|].
    { cbn. apply list_lookup_insert_eq. by eapply lookup_lt_Some. }
    exists (S n). cbn [replicate iserve_all foldl]. fold s1. unfold iserve_all in Hn. rewrite Hn, Es. cbn [run]. rewrite Em.
    unfold with_iconn. cbn. by rewrite list_insert_insert_eq.
Qed.

Lemma task_turns_run p s :
  i_end s = None -> i_tasks s = [p] ->
  exists k, iserve_all config (replicate k (ITask E0 0)) s =
    mkIserver (run E0 p (i_daemon s)).2 (i_conns s) [] None.
Proof.
  revert s. induction p as [r|B m k IH]; intros s He Ht.
  - exists 1%nat. cbn. unfold iserve_event. rewrite He, Ht. cbn. rewrite Ht. cbn. by rewrite He.
  - destruct (m E0 (i_daemon s)) as [r d'] eqn:Em. set (s1 := iserve_event config (ITask E0 0) s).
    assert (Es : s1 = mkIserver d' (i_conns s) [k r] None).
    { unfold s1, iserve_event. rewrite He, Ht. cbn. rewrite Em, Ht. cbn. by rewrite He. }
    destruct (IH r s1) as [n Hn]; [by rewrite Es..|]. exists (S n). cbn [replicate iserve_all foldl]. fold s1.
    unfold iserve_all in Hn. rewrite Hn, Es. cbn [run]. by rewrite Em.
Qed.

Lemma alter_as_insert {A} (f : A -> A) (l : list A) (i : nat) x : l !! i = Some x -> alter f i l = <[i := f x]> l.
Proof. revert i. induction l as [|y l IH]; intros [|i] Hi; try done; cbn in *; [congruence|]. f_equal. by apply IH. Qed.

(** A request read, handled and answered without interruption. *)
Lemma request_uninterrupted i line written s c req :
  idle s -> i_end s = None -> i_conns s !! i = Some c -> ic_open c = true -> line <> "" -> from_str (trim line) = inr req ->
  exists l, idle (iserve_all config l s) /\ plain (iserve_all config l s) = take_line config i line written (plain s).
Proof.
  intros [Hid Ht] He Hi Ho Hne Hj.
  set (c1 := iconn_run line (dispatch_p config req) c). set (s1 := with_iconn i c1 s).
  assert (Hrun : ic_run c = None) by exact (proj1 (Forall_lookup _ _) Hid i c Hi).
  assert (E1 : iserve_event config (IRead i (inr line)) s = s1).
  { unfold iserve_event. rewrite He, Hi, Ho. unfold conn_event. rewrite Hrun. destruct line; [done|]. by rewrite Hj. }
  assert (Hl : (i < length (i_conns s))%nat) by (by eapply lookup_lt_Some).
  assert (Hi1 : i_conns s1 !! i = Some c1) by (cbn; by apply list_lookup_insert_eq).
  destruct (turns_run (dispatch_p config req) line i c1 s1 He Hi1 Ho eq_refl) as [k Hk]. rewrite run_dispatch in Hk.
  change (i_daemon s1) with (i_daemon s) in Hk. destruct (dispatch config req (i_daemon s)) as [r d'] eqn:Ed. cbn [fst snd] in Hk.
  set (s2 := with_iconn i _ _) in Hk.
  exists (IRead i (inr line) :: replicate k (ITurn E0 i) ++ [IWrite i written]).
  cbn [iserve_all foldl]. rewrite E1. fold (iserve_all config (replicate k (ITurn E0 i) ++ [IWrite i written]) s1).
  rewrite iserve_all_app, Hk. cbn [iserve_all foldl].
  set (c3 := match r with Ok resp => if written then iconn_answer line (json_line (of_lit resp)) c1 else iconn_close c1 | _ => iconn_close c1 end).
  assert (E3 : iserve_event config (IWrite i written) s2 = with_iconn i c3 (with_idaemon d' s)).
  { assert (Hi2 : i_conns s2 !! i = Some (iconn_run line (Done r) c1))
      by (cbn; apply list_lookup_insert_eq; by rewrite length_insert).
    assert (He2 : i_end s2 = None) by done. unfold iserve_event. rewrite He2, Hi2. cbn [ic_open iconn_run c1]. rewrite Ho.
    unfold conn_event. cbn [ic_run iconn_run].
    assert (Hput : forall c', with_iconn i c' s2 = with_iconn i c' (with_idaemon d' s)).
    { intros c'. unfold s2, s1, with_iconn, with_idaemon. cbn. by rewrite !list_insert_insert_eq. }
    unfold c3. destruct r; [destruct written|..]; by rewrite <- Hput. }
  rewrite E3. split.
  - split; [|done]. cbn. apply Forall_insert; [done|]. unfold c3. by destruct r; [destruct written|..].
  - unfold take_line. rewrite Hj. cbn [plain s_daemon]. rewrite Ed.
    unfold plain, c3, with_conn, with_daemon. destruct r; [destruct written|..]; cbn.
    all: f_equal; rewrite (alter_as_insert _ _ _ (plain_conn c)) by (by rewrite list_lookup_fmap, Hi).
    all: by rewrite list_fmap_insert.
Qed.

(** A line read on an open connection. *)
Lemma read_uninterrupted i r written s c :
  idle s -> i_end s = None -> i_conns s !! i = Some c -> ic_open c = true ->
  exists l, idle (iserve_all config l s) /\
    plain (iserve_all config l s) = serve_event config (SRead i r written) (plain s).
Proof.
  intros Hid He Hi Ho.
  assert (Hrun : ic_run c = None) by exact (proj1 (Forall_lookup _ _) (proj1 Hid) i c Hi).
  assert (Hclose : idle (with_iconn i (iconn_close c) s) /\ plain (with_iconn i (iconn_close c) s) = with_conn i conn_close (plain s)).
  { destruct Hid as [Hid Ht]. split; [split; [by apply Forall_insert|done]|]. unfold plain, with_conn. cbn. f_equal.
    rewrite (alter_as_insert _ _ _ (plain_conn c)) by (by rewrite list_lookup_fmap, Hi). by rewrite list_fmap_insert. }
  assert (Hev : forall r, (match r with inl _ | inr "" => True | inr l => exists x, from_str (trim l) = inl x end) ->
    iserve_event config (IRead i r) s = with_iconn i (iconn_close c) s).
  { intros r' Hr'. unfold iserve_event. rewrite He, Hi, Ho. unfold conn_event. rewrite Hrun.
    destruct r' as [x|[|ch l] ]; try done. destruct Hr' as [x Hx]. by rewrite Hx. }
  unfold serve_event. cbn [plain s_end s_conns]. rewrite He, list_lookup_fmap, Hi. cbn. rewrite Ho.
  destruct r as [e|[|ch line] ]; [exists [IRead i (inl e)]; cbn; by rewrite Hev|exists [IRead i (inr "")]; cbn; by rewrite Hev|].
  destruct (from_str (trim (String ch line))) as [x|req] eqn:Ej; [|by eapply request_uninterrupted].
  exists [IRead i (inr (String ch line))]. cbn [iserve_all foldl]. rewrite Hev by eauto. unfold take_line. by rewrite Ej.
Qed.

(** A spawned task, started and run to its end. *)
Lemma task_uninterrupted i s : idle s -> i_end s = None ->
  exists l, idle (iserve_all config l s) /\ plain (iserve_all config l s) = serve_event config (STask i) (plain s).
Proof.
  intros [Hid Ht] He. unfold serve_event, handle_event. cbn [plain s_end s_daemon]. rewrite He.
  destruct (d_tasks (i_daemon s) !! i) as [t|] eqn:Et; [|by exists []; split].
  set (s1 := start_task config i t s). assert (E1 : iserve_event config (IStart i) s = s1).
  { unfold iserve_event. by rewrite He, Et. }
  destruct (task_turns_run (run_task_p config t) s1 He) as [k Hk]; [cbn; by rewrite Ht|].
  exists (IStart i :: replicate k (ITask E0 0)). cbn [iserve_all foldl]. rewrite E1.
  fold (iserve_all config (replicate k (ITask E0 0)) s1). rewrite Hk, run_run_task. split; [by split|].
  unfold plain, with_daemon. cbn. rewrite He, <- delete_take_drop. done.
Qed.

Lemma event_uninterrupted ev s : idle s ->
  exists l, idle (iserve_all config l s) /\ plain (iserve_all config l s) = serve_event config ev (plain s).
Proof.
  intros Hid. destruct (i_end s) as [x|] eqn:He; [exists []; split; [done|]; unfold serve_event; cbn; by rewrite He|].
  destruct ev as [ [e|u]|i r written|i].
  - exists [IAccept (inl e)]. cbn. unfold iserve_event, serve_event. cbn. by rewrite He.
  - exists [IAccept (inr u)]. cbn. unfold iserve_event, serve_event. cbn. rewrite He. destruct Hid as [Hid Ht]. split.
    + split; [|done]. cbn. by apply Forall_app; split; [|repeat constructor].
    + unfold plain. cbn. by rewrite fmap_app.
  - destruct (i_conns s !! i) as [c|] eqn:Hi; [destruct (ic_open c) eqn:Ho; [by eapply read_uninterrupted|]|].
    all: exists []; split; [done|]; unfold serve_event; cbn; rewrite He, list_lookup_fmap, Hi; cbn; by rewrite ?Ho.
  - by apply task_uninterrupted.
Qed.

End Uninterrupted.

(** ** Runs *)

Abbreviation sample_iserve := (@iserve_all bit_json plain_anyhow plain_base64 sample_cfg).
Definition sample_turns (n i : nat) : list ievent := replicate n (ITurn sample_env i).

Definition acquire_line : string := json_line (LObj [("method", LStr "AcquireSandbox")] : @value bit_json).
Definition add_line : string := json_line (LObj
  [("method", LStr "AddContainer"); ("vm_id", LStr "pool-1000-3"); ("container_id", LStr "c2"); ("erofs_path", LStr "/e")] : @value bit_json).
Definition release_line : string := json_line (LObj
  [("method", LStr "ReleaseSandbox"); ("vm_id", LStr "pool-1000-3")] : @value bit_json).

(** A client takes the VM; then a container is added to it while it is released: the
    release comes when the other handler has looked for the agent's connection and is
    setting one up. *)
Definition add_while_released : list ievent :=
  [IAccept (inr tt); IAccept (inr tt); IRead 0 (inr acquire_line)] ++ sample_turns 8 0 ++ [IWrite 0 true] ++
  [IRead 0 (inr add_line)] ++ sample_turns 3 0 ++
  [IRead 1 (inr release_line)] ++ sample_turns 8 1 ++ [IWrite 1 true] ++
  sample_turns 8 0 ++ [IWrite 0 true].

(** How many answers a connection has sent, and whether a request is under way. *)
Definition conn_summary (c : iconn) : nat * bool :=
  (length (ic_out c), match ic_run c with Some _ => true | None => false end).

(** The handler that adds a container registers its connection after the release
    has removed the VM's: all three requests are answered, the VM is gone, and its entry
    in the registry stays. *)
Theorem released_vm_keeps_agent :
  let s := sample_iserve add_while_released (ilistening sample_pool) in
  (d_active (i_daemon s) !! "pool-1000-3", d_agents (i_daemon s) !! "pool-1000-3", map conn_summary (i_conns s)) =
  (None, Some "/st/pool-1000-3/vsock.sock", [(2%nat, false); (1%nat, false)]).
Proof. vm_compute. reflexivity. Qed.

(** ** Witnesses *)

Definition boot_turns (n i : nat) : list ievent := replicate n (ITurn boot_env i).
(** Two clients acquire at the same time: their handlers take turns. *)
Definition two_acquire : list ievent :=
  [IAccept (inr tt); IAccept (inr tt); IRead 0 (inr acquire_line); IRead 1 (inr acquire_line)] ++
  (boot_turns 1 0 ++ boot_turns 1 1 ++ boot_turns 1 0 ++ boot_turns 1 1 ++ boot_turns 1 1 ++ boot_turns 1 0 ++
   boot_turns 2 0 ++ boot_turns 2 1) ++ [IWrite 1 true; IWrite 0 true].

Lemma interleaved_books_witness :
  exists config d, @daemon_main boot_env bit_json plain_derive ["daemon"] (pool_new sample_sock0) = (Ok config, d) /\
    let d' := i_daemon (@iserve_all bit_json plain_anyhow plain_base64 config two_acquire (ilistening d)) in
    (length (live_cids d') = 2%nat /\ d_active_count d' = 2 /\ length (d_ready d') = 0%nat) /\ NoDup (live_cids d').
Proof.
  destruct (@daemon_main boot_env bit_json plain_derive ["daemon"] (pool_new sample_sock0)) as [r d] eqn:E.
  pose proof (@interleaved_books boot_env bit_json plain_derive plain_anyhow plain_base64 ["daemon"] sample_sock0) as Hb.
  assert (Er : r = (@daemon_main boot_env bit_json plain_derive ["daemon"] (pool_new sample_sock0)).1) by (rewrite E; reflexivity).
  assert (Ed : d = (@daemon_main boot_env bit_json plain_derive ["daemon"] (pool_new sample_sock0)).2) by (rewrite E; reflexivity).
  vm_compute in Er. subst r. eexists _, d. split; [reflexivity|]. split; [subst d; vm_compute; split_and!; reflexivity|].
  apply (Hb _ _ two_acquire E); cbn; lia.
Defined.

Lemma interleaved_connections_witness :
  let s := sample_iserve add_while_released (ilistening sample_pool) in
  exists c, i_conns s !! 0%nat = Some c /\ length (ic_out c) = 2%nat /\
    Forall2 (@may_answer bit_json plain_anyhow plain_base64 sample_cfg) (ic_in c) (ic_out c).
Proof.
  intros s. destruct (i_conns s !! 0%nat) as [c|] eqn:E.
  - exists c. split; [reflexivity|]. split.
    + assert (El : (fun o => match o with Some c => length (ic_out c) | None => 0%nat end) (i_conns s !! 0%nat) = 2%nat) by (vm_compute; reflexivity).
      rewrite E in El. exact El.
    + exact (proj1 (@interleaved_connections bit_json plain_anyhow plain_base64 sample_cfg add_while_released sample_pool 0%nat c E)).
  - assert (El : (fun o => match o with Some c => true | None => false end) (i_conns s !! 0%nat) = true) by (vm_compute; reflexivity).
    rewrite E in El. discriminate El.
Defined.

