(* ===== verification/Quiesce.v ===== *)
(** * The daemon comes to rest ([api.rs], [pool.rs], [shadow.rs])

    Every handler and every background task is a finite program, and background tasks
    start no others; so whatever the scheduler does, without new requests only finitely
    many turns can be taken, and when none is left every request has its result and no
    task is pending. *)

From S2P Require Import Prelude RustStr NetAddr Bytes Proto Sys Json Netlink NetlinkOps Lifecycle Pool Shadow DaemonNet.
From S2P Require Import Api ApiProps Client Config Server Tasks Interleave Books Schedule.
From Stdlib Require Import Ascii.
From Stdlib Require String.
Local Open Scope Z_scope.

(** ** Orders *)

(** [p'] is left of [p] after its first piece. *)
Definition rest_of {A} (p' p : dprog A) : Prop :=
  match p with Done _ => False | Piece m k => exists r, p' = k r end.

Lemma rest_of_wf {A} (p : dprog A) : Acc rest_of p.
Proof. induction p as [r|B m k IH]; constructor; intros p' Hp; [done|]. destruct Hp as [r ->]. apply IH. Qed.

(** One element of the list has become smaller. *)
Definition one_less {A} (R : A -> A -> Prop) (l' l : list A) : Prop :=
  exists i x y, l !! i = Some x /\ R y x /\ l' = <[i := y]> l.

Lemma one_less_wf {A} (R : A -> A -> Prop) : (forall x, Acc R x) -> forall l, Acc (one_less R) l.
Proof.
  intros HR l. induction l as [|x l IH]; [constructor; by intros l' (i & x & y & Hi & _)|].
  specialize (HR x). revert l IH. induction HR as [x _ IHx]. intros l Hl. induction Hl as [l Hl IHl].
  constructor. intros l' (i & z & y & Hi & Hy & ->). destruct i as [|i]; cbn in *.
  - simplify_eq. apply IHx; [done|]. by constructor.
  - apply IHl. by exists i, z, y.
Qed.

(** The handler of a connection has had a turn. *)
Definition handler_less (r' r : option (string * dprog lit)) : Prop :=
  match r, r' with Some (_, p), Some (_, p') => rest_of p' p | _, _ => False end.

Lemma handler_less_wf r : Acc handler_less r.
Proof.
  destruct r as [ [line p]|]; [|by constructor]. pose proof (rest_of_wf p) as Hp. revert line.
  induction Hp as [p _ IH]. intros line. constructor. intros [ [line' p']|] Hr; [|done]. by apply IH.
Qed.

(** ** Background tasks start no others *)

Fixpoint no_spawn {A} (p : dprog A) : Prop :=
  match p with
  | Done _ => True
  | Piece m k => (forall e d, d_tasks (m e d).2 = d_tasks d) /\ forall r, no_spawn (k r)
  end.

Definition tasks_same (d d' : daemon) : Prop := d_tasks d' = d_tasks d.
#[export] Instance tasks_same_frame : Frame tasks_same.
Proof. split; [split; [by intros d|intros d1 d2 d3; unfold tasks_same; congruence]|done..]. Qed.

Lemma no_spawn_bind {A B} (p : dprog A) (f : A -> dprog B) :
  no_spawn p -> (forall a, no_spawn (f a)) -> no_spawn (p ≫= f).
Proof.
  intros Hp Hf. induction p as [r|C m k IH]; cbn in *; [destruct r; cbn; auto|]. destruct Hp as [Hm Hk]. split; [done|].
  intros r. by apply IH.
Qed.
Lemma no_spawn_map {A B} (h : result A -> result B) (p : dprog A) : no_spawn p -> no_spawn (p_map h p).
Proof. intros Hp. induction p as [r|C m k IH]; cbn in *; [done|]. destruct Hp as [Hm Hk]. split; [done|]. auto. Qed.
Lemma no_spawn_piece {A} (m : Env -> M daemon A) : (forall e, moves tasks_same (m e)) -> no_spawn (piece m).
Proof. intros Hm. by split; [intros e d; apply Hm|]. Qed.
Lemma no_spawn_done {A} (r : result A) : no_spawn (Done r).
Proof. done. Qed.

Ltac no_spawn_solve :=
  repeat first
    [progress intros
    |assumption
    |apply no_spawn_done
    |solve [split; [intros ? d; first [reflexivity|unfold pop_ready; by destruct (vec_pop (d_ready d)) as [ [? ?]|] ]|done] ]
    |apply no_spawn_bind
    |apply no_spawn_map
    |solve [apply no_spawn_piece; intros; neutral_solve; auto 2]
    |case_match].

Section Quiet.
Context `{SerdeJson, Anyhow, Base64} (config : DaemonConfig).

Lemma tasks_restore e v c : moves tasks_same (@restore_named e _ config v c).
Proof. apply outside_io; [apply _|apply io_only_restore_named]. Qed.
Lemma tasks_destroy e v : moves tasks_same (@destroy_vm e config v).
Proof. apply outside_io; [apply _|apply io_only_destroy_vm]. Qed.
Lemma tasks_shadow e v k p : moves tasks_same (@shadow_snapshot e _ config v k p).
Proof. apply outside_io; [apply _|apply io_only_shadow_snapshot]. Qed.
Lemma tasks_cache e k dir mt : moves tasks_same (@cache_snapshot e config k dir mt).
Proof. intros d. by destruct (cache_snapshot_run config k dir mt d) as (m & t & -> & _). Qed.

Lemma no_spawn_restore_one : no_spawn (restore_one_p config).
Proof. pose proof tasks_restore. unfold restore_one_p. no_spawn_solve. Qed.
Lemma no_spawn_acquire : no_spawn (acquire_p config).
Proof. pose proof no_spawn_restore_one. unfold acquire_p, mark_active_p. no_spawn_solve. Qed.
Lemma no_spawn_release v : no_spawn (release_p config v).
Proof. pose proof tasks_destroy. unfold release_p. no_spawn_solve. Qed.

Lemma no_spawn_run_task t : no_spawn (run_task_p config t).
Proof.
  pose proof no_spawn_restore_one. pose proof no_spawn_acquire. pose proof no_spawn_release.
  pose proof tasks_shadow. pose proof tasks_cache. pose proof tasks_destroy.
  destruct t; unfold run_task_p, replenish_one_p, shadow_task_p, run_shadow_p, p_ctx, p_attempt; no_spawn_solve; auto.
Qed.
End Quiet.

(** ** Turns *)

Section Turns.
Context `{SerdeJson, Anyhow, Base64} (config : DaemonConfig).

(** The event [ev] is a turn some task can take: a handler with a piece left, a task that
    was spawned, a task that was started. *)
Definition is_turn (ev : ievent) (s : iserver) : Prop :=
  i_end s = None /\
  match ev with
  | ITurn e i => exists c, i_conns s !! i = Some c /\ ic_open c = true /\
      match ic_run c with Some (_, Piece _ _) => True | _ => False end
  | IStart i => is_Some (d_tasks (i_daemon s) !! i)
  | ITask e i => is_Some (i_tasks s !! i)
  | _ => False
  end.

Definition turn_to (s' s : iserver) : Prop := exists ev, is_turn ev s /\ s' = iserve_event config ev s.

Definition quiet (s : iserver) : Prop := Forall no_spawn (i_tasks s).

Lemma quiet_event ev s : quiet s -> quiet (iserve_event config ev s).
Proof.
  unfold quiet. intros Hq. unfold iserve_event. destruct (i_end s); [done|].
  assert (Hconn : forall i, Forall no_spawn (i_tasks (match i_conns s !! i with
    | Some c => if ic_open c then conn_event config ev i c s else s | None => s end))).
  { intros i. destruct (i_conns s !! i) as [c|]; [|done]. destruct (ic_open c); [|done].
    unfold conn_event. repeat case_match; done. }
  destruct ev as [ [e|u]|i r|e i|i w|i|e i]; try done.
  - destruct (d_tasks (i_daemon s) !! i) as [t|]; [|done]. cbn. apply Forall_app. split; [done|]. repeat constructor.
    apply no_spawn_run_task.
  - destruct (i_tasks s !! i) as [p|] eqn:Hi; [|done]. pose proof (proj1 (Forall_lookup _ _) Hq i p Hi) as Hp.
    unfold task_turn. destruct p as [r|B m k]; cbn; [by apply Forall_delete|]. destruct (m e (i_daemon s)) as [r d'].
    cbn. apply Forall_insert; [done|]. by destruct Hp.
Qed.

(** What a turn makes of the measure: the handlers, the tasks waiting to be started,
    the tasks that run. *)
Lemma turn_measure s s' : quiet s -> turn_to s' s ->
  one_less handler_less (ic_run <$> i_conns s') (ic_run <$> i_conns s) \/
  (i_conns s' = i_conns s /\
   ((length (d_tasks (i_daemon s')) < length (d_tasks (i_daemon s)))%nat \/
    (length (d_tasks (i_daemon s')) = length (d_tasks (i_daemon s)) /\
     ((length (i_tasks s') < length (i_tasks s))%nat \/
      (length (i_tasks s') = length (i_tasks s) /\ one_less rest_of (i_tasks s') (i_tasks s)))))).
Proof.
  intros Hq (ev & (He & Hev) & ->). unfold iserve_event. rewrite He. destruct ev as [r|i r|e i|i w|i|e i]; try done.
  - destruct Hev as (c & Hi & Ho & Hr). rewrite Hi, Ho. left. unfold conn_event.
    destruct (ic_run c) as [ [line [r|B m k] ]|] eqn:Er; try done. cbn. destruct (m e (i_daemon s)) as [r d']. cbn.
    exists i, (Some (line, Piece m k)), (Some (line, k r)).
    split_and!; [by rewrite list_lookup_fmap, Hi, <- Er|by exists r|by rewrite list_fmap_insert].
  - destruct Hev as [t Ht]. rewrite Ht. right. split; [done|]. left. cbn. rewrite length_delete by eauto.
    apply lookup_lt_Some in Ht. lia.
  - destruct Hev as [p Hp]. rewrite Hp. right. pose proof (proj1 (Forall_lookup _ _) Hq i p Hp) as Hns.
    unfold task_turn. destruct p as [r|B m k]; cbn.
    + split; [done|]. right. split; [done|]. left. rewrite length_delete by eauto. apply lookup_lt_Some in Hp. lia.
    + destruct Hns as [Hm _]. specialize (Hm e (i_daemon s)). destruct (m e (i_daemon s)) as [r d']. cbn in *.
      split; [done|]. right. rewrite Hm. split; [done|]. right. rewrite length_insert. split; [done|].
      exists i, (Piece m k), (k r). split_and!; [done|by exists r|done].
Qed.

Lemma turns_end s : quiet s -> Acc turn_to s.
Proof.
  remember (ic_run <$> i_conns s) as cs eqn:Ec. pose proof (one_less_wf _ handler_less_wf cs) as Hcs.
  revert s Ec. induction Hcs as [cs _ IHc].
  intros s. remember (length (d_tasks (i_daemon s))) as n eqn:En. revert s En.
  induction (lt_wf n) as [n _ IHn]. intros s. remember (length (i_tasks s)) as m eqn:Em. revert s Em.
  induction (lt_wf m) as [m _ IHm]. intros s. remember (i_tasks s) as l eqn:El.
  pose proof (one_less_wf _ rest_of_wf l) as Hl. revert s El. induction Hl as [l _ IHl].
  intros s -> -> -> -> Hq. constructor. intros s' Ht.
  assert (Hq' : quiet s') by (destruct Ht as (ev & _ & ->); by apply quiet_event).
  destruct (turn_measure s s' Hq Ht) as [Hless|(Hc & [Hn|(Hn & [Hm|(Hm & Hless)])])].
  - by eapply IHc.
  - by eapply IHn; [exact Hn|done|rewrite Hc|].
  - by eapply IHm; [exact Hm|done|rewrite Hn|rewrite Hc|].
  - by eapply IHl; [exact Hless|done|rewrite Hm|rewrite Hn|rewrite Hc|].
Qed.

(** At rest every request has come to its result and no task is left. *)
Lemma at_rest s : i_end s = None -> (forall s', ~ turn_to s' s) ->
  i_tasks s = [] /\ d_tasks (i_daemon s) = [] /\
  forall i c line p, i_conns s !! i = Some c -> ic_open c = true -> ic_run c = Some (line, p) -> exists r, p = Done r.
Proof.
  intros He Hno.
  assert (Hev : forall ev, ~ is_turn ev s) by (intros ev Hev; by apply (Hno (iserve_event config ev s)); exists ev).
  split_and!.
  - destruct (i_tasks s) as [|p l] eqn:El; [done|]. exfalso. apply (Hev (ITask (calm_env (fun _ => None) (fun _ => false)) 0)).
    split; [done|]. rewrite El. by eexists.
  - destruct (d_tasks (i_daemon s)) as [|t l] eqn:El; [done|]. exfalso. apply (Hev (IStart 0)). split; [done|]. rewrite El. by eexists.
  - intros i c line p Hi Ho Hr. destruct p as [r|B m k]; [by exists r|]. exfalso.
    apply (Hev (ITurn (calm_env (fun _ => None) (fun _ => false)) i)). split; [done|]. exists c. by rewrite Hr.
Qed.

End Turns.
