(* ===== verification/ShimUtil.v ===== *)
(** * The shim's helpers ([crates/shim/src/instance.rs], lines 493 on)

    The image key, the erofs cache, the pod's cgroup, and what is read from the
    OCI bundle. *)

From S2P Require Import Prelude RustStr Bytes Netlink Proto Sys Json.
From Stdlib Require Import Ascii.
From Stdlib Require String.
Local Open Scope Z_scope.

(** ** The key of an image: FNV-1a on 128 bits *)

Definition fnv_offset : Z := 0x6c62272e07bb014262b821756295c58d.
Definition fnv_prime : Z := 0x0000000001000000000000000000013b.

Definition fnv_step (hash byte : Z) : Z := wrap 128 (Z.lxor hash byte * fnv_prime).

(** [format!("{n:0{w}x}")] for [n] of at most [w] digits. *)
Fixpoint hex_pad (w : nat) (n : Z) : string :=
  match w with
  | O => ""
  | S w' => hex_pad w' (n / 16) +:+ String (hex_digit (n mod 16)) ""
  end.

Definition stable_hash (input : string) : Z := foldl fnv_step fnv_offset (bytes_of input).
Definition stable_hash_hex (input : string) : string := hex_pad 32 (stable_hash input).

Example stable_hash_hex_empty : stable_hash_hex "" = "6c62272e07bb014262b821756295c58d".
Proof. vm_compute. reflexivity. Qed.
Example stable_hash_hex_a : stable_hash_hex "a" = "d228cb696f1a8caf78912b704e4a8964".
Proof. vm_compute. reflexivity. Qed.

Lemma lxor_range n a b : 0 <= n -> 0 <= a < 2 ^ n -> 0 <= b < 2 ^ n -> 0 <= Z.lxor a b < 2 ^ n.
Proof.
  intros Hn Ha Hb. replace (Z.lxor a b) with (Z.lxor a b mod 2 ^ n); [apply Z.mod_pos_bound; lia|].
  rewrite <- Z.land_ones by done. apply Z.bits_inj'. intros i Hi. rewrite Z.land_spec, Z.lxor_spec.
  destruct (Z.ltb_spec i n).
  - by rewrite Z.ones_spec_low, andb_true_r by lia.
  - rewrite Z.ones_spec_high, andb_false_r by lia.
    rewrite <- (Z.mod_small a (2 ^ n)), <- (Z.mod_small b (2 ^ n)) by lia.
    by rewrite !Z.mod_pow2_bits_high by lia.
Qed.

Lemma lxor_inj_l a b c : Z.lxor a c = Z.lxor b c -> a = b.
Proof.
  intros E. rewrite <- (Z.lxor_0_r a), <- (Z.lxor_0_r b), <- (Z.lxor_nilpotent c), <- !Z.lxor_assoc. by rewrite E.
Qed.

(** The prime is odd, so multiplying by it modulo [2^128] can be undone. *)
Definition fnv_inverse : Z := 235294668448601749631651150104872562675.
Lemma fnv_mul_inj u v : in_range 128 u -> in_range 128 v ->
  wrap 128 (u * fnv_prime) = wrap 128 (v * fnv_prime) -> u = v.
Proof.
  intros Hu Hv E. unfold wrap, in_range in *.
  assert (Hback : forall x, 0 <= x < 2 ^ 128 -> (x * fnv_prime) mod 2 ^ 128 * fnv_inverse mod 2 ^ 128 = x).
  { intros x Hx. rewrite Zmult_mod_idemp_l, <- Z.mul_assoc, <- Zmult_mod_idemp_r.
    replace (fnv_prime * fnv_inverse mod 2 ^ 128) with 1 by reflexivity.
    rewrite Z.mul_1_r. by apply Z.mod_small. }
  rewrite <- (Hback u Hu), <- (Hback v Hv). by rewrite E.
Qed.

Lemma fnv_step_range h b : in_range 128 (fnv_step h b).
Proof. unfold fnv_step, wrap, in_range. apply Z.mod_pos_bound. lia. Qed.

Lemma fnv_step_inj h h' b : in_range 128 h -> in_range 128 h' -> 0 <= b < 256 ->
  fnv_step h b = fnv_step h' b -> h = h'.
Proof.
  intros Hh Hh' Hb E. apply fnv_mul_inj in E; [by apply lxor_inj_l in E|apply lxor_range..];
    unfold in_range in *; lia.
Qed.

Lemma fnv_byte_inj h b b' : in_range 128 h -> 0 <= b < 256 -> 0 <= b' < 256 ->
  fnv_step h b = fnv_step h b' -> b = b'.
Proof.
  intros Hh Hb Hb' E. apply fnv_mul_inj in E; [|apply lxor_range; unfold in_range in *; lia..].
  rewrite !(Z.lxor_comm h) in E. by apply lxor_inj_l in E.
Qed.

Lemma fnv_fold_range l h : in_range 128 h -> in_range 128 (foldl fnv_step h l).
Proof. revert h. induction l; cbn; [done|]. intros. apply IHl, fnv_step_range. Qed.

Lemma fnv_fold_inj l h h' : Forall (fun b => 0 <= b < 256) l -> in_range 128 h -> in_range 128 h' ->
  foldl fnv_step h l = foldl fnv_step h' l -> h = h'.
Proof.
  intros Hl. revert h h'. induction Hl as [|b l Hb Hl IH]; cbn; [done|]. intros h h' Hh Hh' E.
  apply IH in E; [|apply fnv_step_range..]. by eapply fnv_step_inj.
Qed.

Lemma hex_digit_inj d d' : 0 <= d < 16 -> 0 <= d' < 16 -> hex_digit d = hex_digit d' -> d = d'.
Proof.
  intros Hd Hd' E. apply (f_equal byte_of) in E. unfold hex_digit in E.
  destruct (Z.ltb_spec d 10), (Z.ltb_spec d' 10); rewrite !byte_of_chr in E by lia; lia.
Qed.

Lemma length_hex_pad w n : String.length (hex_pad w n) = w.
Proof. revert n. induction w as [|w IH]; intros n; cbn [hex_pad]; [done|]. rewrite length_sapp, IH. cbn. lia. Qed.

Lemma hex_pad_inj w n n' : 0 <= n < 16 ^ Z.of_nat w -> 0 <= n' < 16 ^ Z.of_nat w ->
  hex_pad w n = hex_pad w n' -> n = n'.
Proof.
  revert n n'. induction w as [|w IH]; intros n n' Hn Hn'; [change (16 ^ Z.of_nat 0) with 1 in *; lia|].
  rewrite Nat2Z.inj_succ, Z.pow_succ_r in Hn, Hn' by lia. cbn [hex_pad]. intros E.
  apply (f_equal bytes_of) in E. rewrite !bytes_of_app in E.
  apply app_inj_2 in E as [E1 E2]; [|done]. apply bytes_of_inj in E1, E2.
  apply IH in E1; [|split; [apply Z.div_pos; lia|apply Z.div_lt_upper_bound; lia]..].
  injection E2 as E2. apply hex_digit_inj in E2; [|apply Z.mod_pos_bound; lia..].
  rewrite (Z.div_mod n 16), (Z.div_mod n' 16) by lia. by rewrite E1, E2.
Qed.

(** The characters a key is made of. *)
Definition is_hex (c : ascii) : bool :=
  let b := byte_of c in ((48 <=? b) && (b <=? 57)) || ((97 <=? b) && (b <=? 102)).

Lemma hex_pad_chars w n c : str_elem c (hex_pad w n) = true -> is_hex c = true.
Proof.
  revert n. induction w as [|w IH]; intros n; cbn [hex_pad]; [done|]. rewrite str_elem_app.
  intros [E|E]%orb_true_iff; [by eapply IH|]. cbn in E. rewrite orb_false_r in E.
  apply Ascii.eqb_eq in E as ->. unfold is_hex, hex_digit. pose proof (Z.mod_pos_bound n 16 ltac:(lia)).
  destruct (Z.ltb_spec (n mod 16) 10); rewrite byte_of_chr by lia;
    apply orb_true_iff; [left|right]; apply andb_true_iff; split; apply Z.leb_le; lia.
Qed.

(** The key made from an image reference is 32 lower-case hexadecimal
    digits whatever the reference holds (so that [<key>.erofs] is one file of the
    cache directory and never a path out of it), and two references of the same
    length that differ in a single byte have different keys. *)
Theorem stable_hash_hex_key a x y c :
  String.length (stable_hash_hex a) = 32%nat /\
  (forall ch, str_elem ch (stable_hash_hex a) = true -> is_hex ch = true) /\
  (x <> y -> stable_hash_hex (a +:+ String x c) <> stable_hash_hex (a +:+ String y c)).
Proof.
  split_and!; [apply length_hex_pad|intros ch; apply hex_pad_chars|]. intros Hxy E.
  assert (Hoff : in_range 128 fnv_offset) by (unfold in_range, fnv_offset; lia).
  apply hex_pad_inj in E; [|change (16 ^ Z.of_nat 32) with (2 ^ 128); by apply fnv_fold_range..].
  revert E. unfold stable_hash. rewrite !bytes_of_app, !foldl_app. cbn [bytes_of foldl]. intros E.
  pose proof (bytes_of_range c). pose proof (byte_of_range x). pose proof (byte_of_range y).
  apply fnv_fold_inj in E; [|done|apply fnv_step_range..].
  apply fnv_byte_inj in E; [by apply byte_of_inj in E|by apply fnv_fold_range|done..].
Qed.

(** ** The pod's cgroup *)

Definition strip_suffix (s suf : string) : option string :=
  let n := (String.length s - String.length suf)%nat in
  if String.eqb s (str_take n s +:+ suf) then Some (str_take n s) else None.

(** The loop of [build_systemd_cgroup_path]: the prefix so far, the segments left. *)
Fixpoint slices (prefix : string) (segments : list string) : list string :=
  match segments with
  | [] => []
  | segment :: rest =>
      let prefix' := if String.eqb prefix "" then segment else prefix +:+ "-" +:+ segment in
      (prefix' +:+ ".slice") :: slices prefix' rest
  end.

Definition build_systemd_cgroup_path (slice : string) : string :=
  let name := default slice (strip_suffix slice ".slice") in
  join "/" (slices "" (split_on "-" name)).

Definition cgroup_base : string := "/sys/fs/cgroup".

Section Cgroup.
Context `{Env, Anyhow, World W}.

(** [Result<(), String>]: the message is the error. *)
Definition place_in_pod_cgroup (pid : Z) (cgroups_path : string) : M W unit :=
  let full_path := cgroup_base +:+ "/" +:+ cgroups_path +:+ "/cgroup.procs" in
  b ← exists_path full_path;
  if b : bool then
    r ← attempt (write_file full_path (pretty pid));
    match r with inl _ => mret tt | inr e => fail (Msg (display e)) end
  else
    match split_on ":" cgroups_path with
    | [slice; prefix; id] =>
        let path := cgroup_base +:+ "/" +:+ build_systemd_cgroup_path slice +:+ "/" +:+
                    (prefix +:+ "-" +:+ id +:+ ".scope") in
        let procs_path := path +:+ "/cgroup.procs" in
        e ← exists_path procs_path;
        (if e : bool then mret tt
         else r ← attempt (create_dir_all path);
              match r with
              | inl _ => mret tt
              | inr e => fail (Msg ("create cgroup " +:+ path +:+ ": " +:+ display e))
              end);;
        r ← attempt (write_file procs_path (pretty pid));
        match r with
        | inl _ => mret tt
        | inr e => fail (Msg ("write to " +:+ procs_path +:+ ": " +:+ display e))
        end
    | _ => fail (Msg ("no cgroup found for path " +:+ cgroups_path +:+ " (tried v2 direct, systemd v2)"))
    end.
End Cgroup.

Lemma join_snoc sep l x : l <> [] -> join sep (l ++ [x]) = join sep l +:+ sep +:+ x.
Proof.
  induction l as [|a l IH]; [done|]. intros _. destruct l as [|b l]; [done|].
  change ((a :: b :: l) ++ [x]) with (a :: b :: (l ++ [x])). rewrite !join_cons2.
  change (b :: (l ++ [x])) with ((b :: l) ++ [x]). rewrite IH by done. by rewrite !sapp_assoc.
Qed.

Lemma join_not_empty sep l : l <> [] -> Forall (fun s => s <> "") l -> join sep l <> "".
Proof.
  intros Hl Hf. destruct l as [|a [|b l]]; [done|by inversion Hf|]. rewrite join_cons2.
  inversion Hf as [|? ? Ha]; subst. by destruct a.
Qed.

Lemma slices_spec pre rest : pre <> [] -> Forall (fun s => s <> "") (pre ++ rest) ->
  slices (join "-" pre) rest =
  map (fun k => join "-" (pre ++ take k rest) +:+ ".slice") (seq 1 (length rest)).
Proof.
  revert pre. induction rest as [|s rest IH]; intros pre Hd Hf; [done|]. cbn [slices length seq map].
  pose proof (proj1 (proj1 (Forall_app _ _ _) Hf)) as Hdone.
  rewrite (proj2 (String.eqb_neq _ _)) by (by apply join_not_empty).
  rewrite <- join_snoc by done. f_equal.
  rewrite IH; [|by destruct pre|by rewrite <- app_assoc]. rewrite <- (seq_shift _ 1), map_map.
  apply map_ext. intros k. cbn [take]. by rewrite <- app_assoc.
Qed.

Lemma strip_suffix_app s suf : strip_suffix (s +:+ suf) suf = Some s.
Proof.
  unfold strip_suffix. rewrite length_sapp, Nat.add_sub.
  rewrite (str_take_app s suf) by done. by rewrite String.eqb_refl.
Qed.

(** The directory of a systemd slice is the chain of its ancestors: for a
    slice name of [n] dash-separated parts the path has [n] components, the [k]-th
    being the slice made of the first [k] parts, down to the slice itself. *)
Theorem build_systemd_cgroup_path_spec parts :
  parts <> [] -> Forall (fun s => s <> "" /\ str_elem "-" s = false) parts ->
  build_systemd_cgroup_path (join "-" parts +:+ ".slice") =
  join "/" (map (fun k => join "-" (take k parts) +:+ ".slice") (seq 1 (length parts))).
Proof.
  intros Hne Hp. unfold build_systemd_cgroup_path. rewrite strip_suffix_app. cbv zeta. cbn [default from_option id].
  apply Forall_and in Hp as [Hf Hd].
  rewrite (split_join "-") by done. destruct parts as [|s rest]; [done|].
  cbn [slices length seq map take String.eqb]. change (slices s rest) with (slices (join "-" [s]) rest).
  rewrite (slices_spec [s] rest) by done.
  f_equal. f_equal. rewrite <- (seq_shift _ 1), map_map. apply map_ext. by intros k.
Qed.

Lemma build_systemd_cgroup_path_spec_witness :
  build_systemd_cgroup_path "kubepods-burstable-pod12.slice" =
  "kubepods.slice/kubepods-burstable.slice/kubepods-burstable-pod12.slice".
Proof.
  apply (build_systemd_cgroup_path_spec ["kubepods"; "burstable"; "pod12"]); [done|].
  repeat constructor; done.
Defined.

Section CgroupProps.
Context `{Env, Anyhow, World W}.

(** Where a process may be written to. *)
Definition cgroup_target (cgroups_path p : string) : Prop :=
  p = cgroup_base +:+ "/" +:+ cgroups_path +:+ "/cgroup.procs" \/
  exists slice prefix id, split_on ":" cgroups_path = [slice; prefix; id] /\
    p = (cgroup_base +:+ "/" +:+ build_systemd_cgroup_path slice +:+ "/" +:+
         (prefix +:+ "-" +:+ id +:+ ".scope")) +:+ "/cgroup.procs".

(** Placing the hypervisor in the pod's cgroup either succeeds, and then
    its pid was written, last, to the process list of the cgroup the path names (as
    it stands, or as the systemd scope it encodes); or returns an error. The write is
    the only one it makes. *)
Theorem place_in_pod_cgroup_spec pid path (w w' : W) :
  place_in_pod_cgroup pid path w = (Ok tt, w') ->
  exists h p, trace w' = h ++ [WriteFile p (pretty pid)] /\ cgroup_target path p /\
    env h (WriteFile p (pretty pid)) = inr tt.
Proof.
  unfold place_in_pod_cgroup. intros Hr.
  apply M_bind_Ok in Hr as (b & w1 & _ & Hr).
  assert (Hwrite : forall p (f : error -> error) (v v' : W),
    (r ← attempt (write_file p (pretty pid)); match r with inl _ => mret tt | inr e => fail (f e) end) v = (Ok tt, v') ->
    exists h, trace v' = h ++ [WriteFile p (pretty pid)] /\ env h (WriteFile p (pretty pid)) = inr tt).
  { intros p f v v'. unfold attempt, write_file, mbind, M_bind. rewrite sys_run. unfold lift.
    destruct (env (trace v) _) as [e|[] ] eqn:E; cbn; [done|]. intros [= <-].
    exists (trace v). by rewrite trace_set. }
  destruct b.
  - destruct (Hwrite _ _ _ _ Hr) as (h & E & Eok). exists h. eexists. split_and!; [exact E|by left|exact Eok].
  - destruct (split_on ":" path) as [|slice [|prefix [|id [|] ] ] ] eqn:Es; try done.
    cbv zeta in Hr. apply M_bind_Ok in Hr as (e & w2 & _ & Hr). apply M_bind_Ok in Hr as ([] & w3 & _ & Hr).
    destruct (Hwrite _ _ _ _ Hr) as (h & E & Eok). exists h. eexists. split_and!; [exact E| |exact Eok].
    right. by exists slice, prefix, id.
Qed.
End CgroupProps.

Lemma place_in_pod_cgroup_spec_witness :
  exists w' h p, @place_in_pod_cgroup (calm_env (fun _ => None) (fun _ => false)) plain_anyhow _ trace_world 42
      "kubepods-burstable-pod12.slice:cri-containerd:abc" [] = (Ok tt, w') /\ w' = h ++ [WriteFile p "42"].
Proof.
  witness_run (@place_in_pod_cgroup (calm_env (fun _ => None) (fun _ => false)) plain_anyhow _ trace_world 42
      "kubepods-burstable-pod12.slice:cri-containerd:abc" []) w' E.
  destruct (@place_in_pod_cgroup_spec _ _ _ trace_world _ _ _ _ E) as (h & p & Ew & _).
  exists w', h, p. split; [reflexivity|exact Ew].
Defined.

(** ** The erofs cache *)

Definition EROFS_CACHE_DIR : string := "/run/cloudhv/erofs-cache".

Section Erofs.
Context `{Env, Anyhow, SerdeJson, World W}.

(** [.map_err(|e| Error::Any(anyhow!("{msg}: {e}")))] *)
Definition map_any {A} (msg : string) (m : M W A) : M W A := fun w =>
  match m w with
  | (Err e, w') => (Err (Msg (msg +:+ ": " +:+ display e)), w')
  | x => x
  end.

Definition erofs_path (cache_key : string) : string := path_join EROFS_CACHE_DIR (cache_key +:+ ".erofs").
Definition erofs_lock (cache_key : string) : string := path_join EROFS_CACHE_DIR (cache_key +:+ ".lock").
Definition erofs_tmp (cache_key : string) : string :=
  path_join EROFS_CACHE_DIR (cache_key +:+ "." +:+ pretty process_id +:+ ".tmp").

(** The part under the lock. *)
Definition build_erofs (rootfs_path cache_key : string) : M W string :=
  b ← exists_path (erofs_path cache_key);
  if b : bool then mret (erofs_path cache_key)
  else
    o ← sys (Output "mkfs.erofs" [erofs_tmp cache_key; rootfs_path]);
    '(success, stderr) ← map_any "mkfs.erofs" (lift (io_res o));
    if success : bool then
      r ← sys (Rename (erofs_tmp cache_key) (erofs_path cache_key));
      map_any "rename erofs" (lift (io_res r));;
      mret (erofs_path cache_key)
    else fail (Msg ("mkfs.erofs failed: " +:+ stderr)).

Definition prepare_erofs (rootfs_path cache_key : string) : M W string :=
  b ← exists_path (erofs_path cache_key);
  if b : bool then mret (erofs_path cache_key)
  else
    map_any "create erofs cache dir" (create_dir_all EROFS_CACHE_DIR);;
    map_any "create lock" (create_file (erofs_lock cache_key));;
    f ← sys (Flock (erofs_lock cache_key));
    map_any "flock" (lift (io_res f));;
    build_erofs rootfs_path cache_key.

(** Three attempts, with a pause after each that fails. *)
Fixpoint prepare_erofs_retry (left : nat) (try : Z) (last_err : error) (rootfs_path cache_key : string) : M W string :=
  match left with
  | O => fail last_err
  | S left' =>
      r ← attempt (prepare_erofs rootfs_path cache_key);
      match r with
      | inl path => mret path
      | inr e =>
          sys (Sleep (100 * (try + 1)));;
          prepare_erofs_retry left' (try + 1) e rootfs_path cache_key
      end
  end.

(** ** The bundle *)

(** [v.pointer("/a/b")] for names without [/] and [~]. *)
Definition pointer2 (a b : string) (v : value) : option value := get a v ≫= get b.

Fixpoint find_network (namespaces : list value) : option string :=
  match namespaces with
  | [] => None
  | n :: rest =>
      match (if decide (get "type" n ≫= as_str = Some "network") then get "path" n ≫= as_str else None) with
      | Some p => Some p
      | None => find_network rest
      end
  end.

Record SandboxSpec := mkSandboxSpec { ss_netns : option string; ss_cgroups_path : option string }.

Definition parse_sandbox_spec (spec_path : string) : M W SandboxSpec :=
  r ← attempt (read_to_string spec_path);
  let spec_str := match r with inl s => s | inr _ => "" end in
  let spec := match from_str spec_str with inr v => v | inl _ => of_lit LNull end in
  mret (mkSandboxSpec ((pointer2 "linux" "namespaces" spec ≫= as_array) ≫= find_network)
                      (pointer2 "linux" "cgroupsPath" spec ≫= as_str)).

Definition resolve_image_digest (image_ref : string) : M W (option string) :=
  channel ← sys (ContainerdConnect "/run/containerd/containerd.sock");
  match channel with
  | inl _ => mret None
  | inr _ =>
      resp ← sys (GetImage "k8s.io" image_ref);
      mret (match resp with inr (Some target) => target | _ => None end)
  end.

Definition image_key_from_spec (bundle : string) : M W (option string) :=
  r ← attempt (read_to_string (path_join bundle "config.json"));
  match r with
  | inr _ => mret None
  | inl spec_str =>
      match from_str spec_str with
      | inl _ => mret None
      | inr spec =>
          match pointer2 "annotations" "io.kubernetes.cri.image-name" spec ≫= as_str with
          | None | Some "" => mret None
          | Some image_name =>
              d ← resolve_image_digest image_name;
              match d with
              | Some digest => mret (Some (stable_hash_hex digest))
              | None => mret (Some (stable_hash_hex image_name))
              end
          end
      end
  end.
End Erofs.

Section ErofsProps.
Context `{Env, Anyhow, SerdeJson, World W}.

Lemma map_any_Ok {A} msg (m : M W A) w a w' : map_any msg m w = (Ok a, w') -> m w = (Ok a, w').
Proof. unfold map_any. destruct (m w) as [r v]. by destruct r. Qed.

(** At the end the image was found in the cache, or made there after the calls
    [pre]. *)
Definition erofs_ready (rootfs key : string) (pre : list call) (w' : W) : Prop :=
  (exists h, trace w' = h ++ [Exists (erofs_path key)] /\ env h (Exists (erofs_path key)) = true) \/
  (exists h err, pre `prefix_of` h /\
     trace w' = h ++ [Output "mkfs.erofs" [erofs_tmp key; rootfs]; Rename (erofs_tmp key) (erofs_path key)] /\
     env h (Output "mkfs.erofs" [erofs_tmp key; rootfs]) = inr (true, err) /\
     env (h ++ [Output "mkfs.erofs" [erofs_tmp key; rootfs]]) (Rename (erofs_tmp key) (erofs_path key)) = inr tt).

Lemma build_erofs_spec rootfs key (w w' : W) p :
  build_erofs rootfs key w = (Ok p, w') -> p = erofs_path key /\ erofs_ready rootfs key (trace w) w'.
Proof.
  unfold build_erofs, exists_path, erofs_ready. unfold mbind at 1, M_bind at 1. rewrite sys_run.
  destruct (env (trace w) (Exists (erofs_path key))) eqn:Eb.
  { intros Hr. inv_ok. rewrite trace_set. split; [done|]. left. eauto. }
  set (w1 := set_trace _ w). assert (Ht : trace w1 = trace w ++ [Exists (erofs_path key)]) by apply trace_set.
  unfold mbind, M_bind, map_any, lift. rewrite sys_run.
  destruct (env (trace w1) (Output _ _)) as [e|[ [] err] ] eqn:Eo; cbn [io_res]; [done| |done].
  rewrite sys_run, trace_set. destruct (env _ (Rename _ _)) as [e|[] ] eqn:Er; cbn [io_res]; [done|].
  intros [= <- <-]. split; [done|]. right. exists (trace w1), err. rewrite trace_set, <- app_assoc.
  split_and!; [|done..]. rewrite Ht. by eexists.
Qed.

(** The path handed to the daemon is the image's file of the cache, and it
    is there: either a check just found it, or [mkfs.erofs] succeeded in a file of
    this process's own, under the image's lock, and that file was renamed to it. *)
Theorem prepare_erofs_spec rootfs key (w w' : W) p :
  prepare_erofs rootfs key w = (Ok p, w') ->
  p = erofs_path key /\
  erofs_ready rootfs key (trace w ++ [Exists p; CreateDirAll EROFS_CACHE_DIR; CreateFile (erofs_lock key);
                                      Flock (erofs_lock key)]) w'.
Proof.
  unfold prepare_erofs, exists_path, create_dir_all, create_file. intros Hr.
  apply M_bind_Ok in Hr as (b & w1 & Hb & Hr). rewrite sys_run in Hb. injection Hb as <- <-.
  destruct (env (trace w) (Exists (erofs_path key))) eqn:Eb.
  { inv_ok. split; [done|]. left. exists (trace w). by rewrite trace_set. }
  inv_ok. repeat match goal with
  | Hs : map_any _ _ _ = (Ok _, _) |- _ => apply map_any_Ok in Hs; inv_ok
  | Hs : lift _ _ = (Ok _, _) |- _ => apply lift_Ok in Hs as [? ->]
  | Hs : sys _ _ = (Ok _, _) |- _ => rewrite sys_run in Hs; injection Hs as <- <-
  end.
  apply build_erofs_spec in Hr as [-> Hready]. rewrite !trace_set, <- !app_assoc in Hready. by split.
Qed.
End ErofsProps.

Lemma prepare_erofs_spec_witness :
  exists w', @prepare_erofs (calm_env (fun _ => None) (fun _ => false)) plain_anyhow _ trace_world "/b/rootfs" "k" []
      = (Ok "/run/cloudhv/erofs-cache/k.erofs", w') /\
    @erofs_ready (calm_env (fun _ => None) (fun _ => false)) _ trace_world "/b/rootfs" "k"
      [Exists "/run/cloudhv/erofs-cache/k.erofs"; CreateDirAll EROFS_CACHE_DIR; CreateFile (erofs_lock "k");
       Flock (erofs_lock "k")] w'.
Proof.
  witness_run (@prepare_erofs (calm_env (fun _ => None) (fun _ => false)) plain_anyhow _ trace_world "/b/rootfs" "k" []) w' E.
  exists w'. split; [reflexivity|]. apply (@prepare_erofs_spec _ _ _ trace_world _ _ _ _ _ E).
Defined.

(** ** Shims racing for the same image

    [EStart]: before the first check; [ELock]: waiting for the lock; [EHold]: the
    lock is held, before the second check; [EMake]: [mkfs.erofs] running on the
    process's own file; [EMade]: before the rename; [EDone], [EFailed]: out, the lock
    released with its descriptor (a failed attempt may start over). *)

Inductive epc := EStart | ELock | EHold | EMake | EMade | EDone | EFailed.

Definition in_lock (p : epc) : bool := match p with EHold | EMake | EMade => true | _ => false end.

Record estate := mkEstate { es_cached : bool; es_published : nat; es_threads : list epc }.

Inductive estep : estate -> estate -> Prop :=
| es_hit c n ts i : ts !! i = Some EStart -> c = true -> estep (mkEstate c n ts) (mkEstate c n (<[i := EDone]> ts))
| es_miss c n ts i : ts !! i = Some EStart -> c = false -> estep (mkEstate c n ts) (mkEstate c n (<[i := ELock]> ts))
| es_lock c n ts i : ts !! i = Some ELock -> (forall j p, ts !! j = Some p -> in_lock p = false) ->
    estep (mkEstate c n ts) (mkEstate c n (<[i := EHold]> ts))
| es_again c n ts i : ts !! i = Some EHold -> c = true -> estep (mkEstate c n ts) (mkEstate c n (<[i := EDone]> ts))
| es_begin c n ts i : ts !! i = Some EHold -> c = false -> estep (mkEstate c n ts) (mkEstate c n (<[i := EMake]> ts))
| es_made c n ts i : ts !! i = Some EMake -> estep (mkEstate c n ts) (mkEstate c n (<[i := EMade]> ts))
| es_publish c n ts i : ts !! i = Some EMade -> estep (mkEstate c n ts) (mkEstate true (S n) (<[i := EDone]> ts))
| es_fail c n ts i p : ts !! i = Some p -> p <> EDone -> estep (mkEstate c n ts) (mkEstate c n (<[i := EFailed]> ts))
| es_retry c n ts i : ts !! i = Some EFailed -> estep (mkEstate c n ts) (mkEstate c n (<[i := EStart]> ts))
| es_new c n ts : estep (mkEstate c n ts) (mkEstate c n (ts ++ [EStart])).

Definition e_reachable : estate -> Prop := reachable (fun s => s = mkEstate false 0 []) estep.

Record e_ok (s : estate) : Prop := {
  eo_mutex i j p q : es_threads s !! i = Some p -> es_threads s !! j = Some q ->
    in_lock p = true -> in_lock q = true -> i = j;
  eo_cached i p : es_cached s = true -> es_threads s !! i = Some p -> p <> EMake /\ p <> EMade;
  eo_count : es_published s = if es_cached s then 1%nat else 0%nat;
}.

Lemma e_ok_update c n ts i p q : e_ok (mkEstate c n ts) -> ts !! i = Some p ->
  (in_lock q = true -> in_lock p = true) -> (c = true -> q <> EMake /\ q <> EMade) ->
  e_ok (mkEstate c n (<[i := q]> ts)).
Proof.
  intros [Hm Hc Hn] Hi Hq Hcq. constructor; cbn in *.
  - intros j k pj pk Hj Hk Lj Lk. rewrite !list_lookup_insert_Some in Hj, Hk.
    destruct Hj as [(<- & <- & _)|[Hij Hj] ], Hk as [(<- & <- & _)|[Hik Hk] ]; try done.
    + destruct (Hm i k p pk Hi Hk (Hq Lj) Lk). done.
    + destruct (Hm j i pj p Hj Hi Lj (Hq Lk)). done.
    + exact (Hm j k pj pk Hj Hk Lj Lk).
  - intros j pj -> Hj. rewrite list_lookup_insert_Some in Hj.
    destruct Hj as [(<- & <- & _)|[_ Hj] ]; [by apply Hcq|by eapply Hc].
  - done.
Qed.

Lemma e_ok_step s s' : e_ok s -> estep s s' -> e_ok s'.
Proof.
  intros Hs Hstep. destruct Hstep as [c n ts i Hi ->|c n ts i Hi ->|c n ts i Hi Hfree|c n ts i Hi ->|c n ts i Hi ->
    |c n ts i Hi|c n ts i Hi|c n ts i p Hi Hp|c n ts i Hi|c n ts];
    try (by eapply e_ok_update).
  - destruct Hs as [Hm Hc Hn]. constructor; cbn in *; [|by intros j pj -> Hj; rewrite list_lookup_insert_Some in Hj;
      destruct Hj as [(<- & <- & _)|[_ Hj] ]; [done|eapply Hc]|done].
    intros j k pj pk Hj Hk Lj Lk. rewrite !list_lookup_insert_Some in Hj, Hk.
    destruct Hj as [(<- & <- & _)|[Hij Hj] ], Hk as [(<- & <- & _)|[Hik Hk] ]; try done.
    + by rewrite (Hfree _ _ Hk) in Lk.
    + by rewrite (Hfree _ _ Hj) in Lj.
    + by rewrite (Hfree _ _ Hj) in Lj.
  - eapply e_ok_update; [done..|]. intros ->. destruct (eo_cached _ Hs i EMake eq_refl Hi). done.
  - destruct c; [destruct (eo_cached _ Hs i EMade eq_refl Hi); done|].
    pose proof (e_ok_update _ _ _ i EMade EDone Hs Hi ltac:(done) ltac:(done)) as [Hm Hc Hn].
    constructor; cbn in *; [exact Hm| |by rewrite Hn].
    intros j pj _ Hj. split; intros ->; rewrite list_lookup_insert_Some in Hj;
      destruct Hj as [(_ & ? & _)|[Hij Hj] ]; try done;
      by destruct (eo_mutex _ Hs i j _ _ Hi Hj eq_refl eq_refl).
  - destruct Hs as [Hm Hc Hn]. constructor; cbn in *; [| |done].
    + intros j k pj pk [Hj|[_ Hj] ]%lookup_app_Some [Hk|[_ Hk] ]%lookup_app_Some Lj Lk;
        repeat match goal with Hx : [EStart] !! _ = Some _ |- _ => apply list_lookup_singleton_Some in Hx as [_ <-] end;
        try done. exact (Hm j k pj pk Hj Hk Lj Lk).
    + intros j pj Ec [Hj|[_ Hj] ]%lookup_app_Some; [by eapply Hc|].
      apply list_lookup_singleton_Some in Hj as [_ <-]. done.
Qed.


