(* ===== verification/Shim.v ===== *)
(** * The shim's instances ([crates/shim/src/instance.rs], [netns.rs])

    The state the instances of one shim process share: the map [VMS] from sandbox
    ids to reference-counted [SharedVmState]s, the states themselves (by their
    address, so that two holders of one [Arc] see one container count), the exit
    cells, and the exit watchers that were spawned. Times are left out of the exit
    cells; logging and timing are left out. *)

From S2P Require Import Prelude RustStr Bytes Netlink NetlinkOps Proto Sys Json Lifecycle Api ApiProps Client ShimUtil Config.
From Stdlib Require Import Ascii.
From Stdlib Require String.
Local Open Scope Z_scope.

Record SharedVmState := mkSharedVmState {
  sv_ch_pid : Z; sv_container_count : Z; sv_tap_name : option string; sv_netns : option string;
  sv_cgroups_path : option string; sv_daemon_vm_id : string; sv_daemon_socket : string }.

Definition set_count (n : Z) (st : SharedVmState) : SharedVmState :=
  mkSharedVmState (sv_ch_pid st) n (sv_tap_name st) (sv_netns st) (sv_cgroups_path st)
    (sv_daemon_vm_id st) (sv_daemon_socket st).

(** The task spawned by [start_container]. *)
Record watcher := mkWatcher {
  wa_exit : nat; wa_container_id : string; wa_ch_pid : Z; wa_socket : string; wa_vm_id : string }.

Record shim := mkShim {
  sh_vms : gmap string nat;
  sh_heap : list SharedVmState;
  sh_exits : list (option Z);
  sh_watchers : list watcher;
  sh_ns : string;
  sh_sock : sock;
  sh_trace : list call }.

Definition set_vms (x : gmap string nat) (s : shim) : shim :=
  mkShim x (sh_heap s) (sh_exits s) (sh_watchers s) (sh_ns s) (sh_sock s) (sh_trace s).
Definition set_heap (x : list SharedVmState) (s : shim) : shim :=
  mkShim (sh_vms s) x (sh_exits s) (sh_watchers s) (sh_ns s) (sh_sock s) (sh_trace s).
Definition set_exits (x : list (option Z)) (s : shim) : shim :=
  mkShim (sh_vms s) (sh_heap s) x (sh_watchers s) (sh_ns s) (sh_sock s) (sh_trace s).
Definition set_watchers (x : list watcher) (s : shim) : shim :=
  mkShim (sh_vms s) (sh_heap s) (sh_exits s) x (sh_ns s) (sh_sock s) (sh_trace s).
Definition set_shim_ns (x : string) (s : shim) : shim :=
  mkShim (sh_vms s) (sh_heap s) (sh_exits s) (sh_watchers s) x (sh_sock s) (sh_trace s).
Definition set_shim_sock (x : sock) (s : shim) : shim :=
  mkShim (sh_vms s) (sh_heap s) (sh_exits s) (sh_watchers s) (sh_ns s) x (sh_trace s).
Definition set_sh_trace (x : list call) (s : shim) : shim :=
  mkShim (sh_vms s) (sh_heap s) (sh_exits s) (sh_watchers s) (sh_ns s) (sh_sock s) x.

#[export] Instance shim_world : World shim := {|
  trace := sh_trace; set_trace := set_sh_trace;
  trace_set t w := eq_refl; set_trace_set t t' w := eq_refl;
  set_trace_id w := match w return set_sh_trace (sh_trace w) w = w with mkShim _ _ _ _ _ _ _ => eq_refl end;
|}.

(** [CloudHvInstance]; [ci_exit] is the address of its exit cell. *)
Record CloudHvInstance := mkInstance {
  ci_id : string; ci_sandbox_id : string; ci_bundle : string; ci_exit : nat }.

Section Shim.
Context `{Env, SerdeDerive, Anyhow, Base64}.

(** ** TAP clean-up ([netns.rs]) *)

Definition nl {A} (m : M sock A) : M shim A := fun s =>
  match m (sh_sock s) with (r, k) => (r, set_shim_sock k s) end.

Definition open_ns (path : string) : M shim Z :=
  if str_elem "000"%char path then fail (Msg "nul byte found in provided data")
  else r ← sys (OpenNs path); lift (with_ctx ("open " +:+ path) (io_res r)).

Definition setns (name : string) : M shim unit := fun s =>
  match sys (SetNs name) s with
  | (Ok (inr _), s') => (Ok tt, set_shim_ns name s')
  | (Ok (inl e), s') => (Err (Io e), s')
  | (_, s') => (Panic, s')
  end.

(** [NetnsGuard]: back to [orig] however [f] comes back. *)
Definition guarded {A} (orig : string) (f : M shim A) : M shim A := fun s =>
  match f s with
  | (Hang, s') => (Hang, s')
  | (r, s') => (r, (ignore (setns orig) s').2)
  end.

Definition in_netns_nowait {A} (path : string) (f : M shim A) : M shim A :=
  b ← exists_path path;
  if b : bool then
    orig ← gets sh_ns;
    open_ns "/proc/self/ns/net";;
    open_ns path;;
    m_ctx "setns into target" (setns path);;
    guarded orig f
  else fail (Msg ("netns " +:+ path +:+ " gone")).

Definition clean_links (tap : string) : M shim unit :=
  o ← attempt (nl nl_open);
  match o with
  | inr _ => mret tt
  | inl _ =>
      v ← attempt (nl (find_veth tap));
      match v with
      | inl (Some (_, veth_idx, _, _)) => ignore (nl (del_ingress_qdisc veth_idx))
      | _ => mret tt
      end;;
      t ← attempt (nl (get_link_index tap));
      match t with
      | inl tap_idx => ignore (nl (del_ingress_qdisc tap_idx))
      | inr _ => mret tt
      end;;
      ignore (nl (del_link tap))
  end.

(** [let _ = spawn_blocking(..).await]: an error or a panic of the task is
    dropped. *)
Definition detached {A} (m : M shim A) : M shim unit := fun s =>
  match m s with (Hang, s') => (Hang, s') | (_, s') => (Ok tt, s') end.

Definition cleanup_tap (netns_path tap_name : string) : M shim unit :=
  detached (in_netns_nowait netns_path (clean_links tap_name)).

(** ** Shared state *)

Definition get_vm (sandbox_id : string) : M shim (option (nat * SharedVmState)) :=
  gets (fun s => a ← sh_vms s !! sandbox_id; st ← sh_heap s !! a; Some (a, st)).

Definition remove_vm (sandbox_id : string) : M shim unit :=
  modify (fun s => set_vms (delete sandbox_id (sh_vms s)) s).

(** [Arc::new(state)] put into [VMS]. *)
Definition insert_vm (sandbox_id : string) (st : SharedVmState) : M shim nat := fun s =>
  (Ok (length (sh_heap s)),
   set_vms (<[sandbox_id := length (sh_heap s)]> (sh_vms s)) (set_heap (sh_heap s ++ [st]) s)).

(** [container_count.fetch_add(d)] on the state at address [a]: the old count. *)
Definition fetch_add (a : nat) (d : Z) : M shim Z := fun s =>
  match sh_heap s !! a with
  | Some st => (Ok (sv_container_count st),
                set_heap (<[a := set_count (wrap 64 (sv_container_count st + d)) st]> (sh_heap s)) s)
  | None => (Panic, s)
  end.

(** [exit.set(code)]: the first one stays. *)
Definition set_exit (cell : nat) (code : Z) : M shim unit :=
  modify (fun s => match sh_exits s !! cell with
                   | Some None => set_exits (<[cell := Some code]> (sh_exits s)) s
                   | _ => s
                   end).

(** ** The [Instance] trait *)

Definition read_spec (bundle : string) : M shim value :=
  spec_str ← map_any "read spec" (read_to_string (path_join bundle "config.json"));
  map_any "parse spec" (lift (lib_res (from_str spec_str))).

Definition new_cell : M shim nat := fun s => (Ok (length (sh_exits s)), set_exits (sh_exits s ++ [None]) s).

Definition instance_new (id bundle : string) : M shim CloudHvInstance :=
  spec ← read_spec bundle;
  let sandbox_id := default id (pointer2 "annotations" "io.kubernetes.cri.sandbox-id" spec ≫= as_str) in
  cell ← new_cell;
  mret (mkInstance id sandbox_id bundle cell).

Definition start_sandbox (i : CloudHvInstance) : M shim Z :=
  spec ← parse_sandbox_spec (path_join (ci_bundle i) "config.json");
  config ← map_any "config error" (load_config None);
  insert_vm (ci_id i) (mkSharedVmState 0 1 None (ss_netns spec) (ss_cgroups_path spec) "" (rc_daemon_socket config));;
  mret process_id.

(** The fields of the state at an address, all but the count never change. *)
Definition deref (a : nat) : M shim SharedVmState := fun s =>
  match sh_heap s !! a with Some st => (Ok st, s) | None => (Panic, s) end.

(** What [start_container] knows when it turns to the daemon. *)
Record prepared := mkPrepared { pr_arc : nat; pr_key : string; pr_erofs : string; pr_config : string }.

Definition start_prepare (i : CloudHvInstance) : M shim prepared :=
  o ← get_vm (ci_sandbox_id i);
  '(a, _) ← lift (ok_or o (Msg ("sandbox VM not found: " +:+ ci_sandbox_id i)));
  let rootfs_path := path_join (ci_bundle i) "rootfs" in
  k ← image_key_from_spec (ci_bundle i);
  let image_key := default (stable_hash_hex rootfs_path) k in
  erofs ← prepare_erofs_retry 3 0 (Msg "") rootfs_path image_key;
  r ← sys (ReadBytes (path_join (ci_bundle i) "config.json"));
  mret (mkPrepared a image_key erofs (match r with inr b => b | inl _ => "" end)).

(** The first container of the sandbox: a VM from the daemon. *)
Definition start_first (i : CloudHvInstance) (p : prepared) (vm_state : SharedVmState) : M shim (nat * Z) :=
  acquired ← map_any "daemon acquire" (acquire_sandbox (sv_daemon_socket vm_state)
    (mkAcquireRequest (default "" (sv_netns vm_state)) (pr_key p) (pr_erofs p) (ci_id i) (pr_config p)));
  count ← gets (fun s => match sh_heap s !! pr_arc p with Some st => sv_container_count st | None => 0 end);
  a ← insert_vm (ci_sandbox_id i) (mkSharedVmState (av_ch_pid acquired) count
        (if String.eqb (av_tap_name acquired) "" then None else Some (av_tap_name acquired))
        (sv_netns vm_state) (sv_cgroups_path vm_state) (av_vm_id acquired) (sv_daemon_socket vm_state));
  match sv_cgroups_path vm_state with
  | Some cg => ignore (place_in_pod_cgroup (av_ch_pid acquired) cg)
  | None => mret tt
  end;;
  mret (a, av_container_pid acquired).

Definition start_commit (i : CloudHvInstance) (p : prepared) (vm_state : SharedVmState) : M shim Z :=
  '(a, container_pid) ←
    (if String.eqb (sv_daemon_vm_id vm_state) "" then start_first i p vm_state
     else pid ← map_any "daemon add_container" (add_container (sv_daemon_socket vm_state) (sv_daemon_vm_id vm_state)
                  (pr_erofs p) (ci_id i) (pr_config p));
          mret (pr_arc p, pid));
  st ← deref a;
  modify (fun s => set_watchers (sh_watchers s ++
    [mkWatcher (ci_exit i) (ci_id i) (sv_ch_pid st) (sv_daemon_socket st) (sv_daemon_vm_id st)]) s);;
  fetch_add a 1;;
  mret container_pid.

Definition start_container (i : CloudHvInstance) : M shim Z :=
  p ← start_prepare i;
  vm_state ← deref (pr_arc p);
  start_commit i p vm_state.

Definition instance_start (i : CloudHvInstance) : M shim Z :=
  spec ← read_spec (ci_bundle i);
  let container_type := default "container" (pointer2 "annotations" "io.kubernetes.cri.container-type" spec ≫= as_str) in
  if String.eqb container_type "sandbox" then start_sandbox i else start_container i.

Definition cleanup_state_tap (vm_state : SharedVmState) : M shim unit :=
  match sv_netns vm_state, sv_tap_name vm_state with
  | Some netns, Some tap => cleanup_tap netns tap
  | _, _ => mret tt
  end.

Definition instance_kill (i : CloudHvInstance) (signal : Z) : M shim unit :=
  let is_sandbox := String.eqb (ci_id i) (ci_sandbox_id i) in
  o ← get_vm (ci_sandbox_id i);
  match o with
  | Some (_, vm_state) =>
      if is_sandbox && ((signal =? 9) || (signal =? 15)) then
        (if String.eqb (sv_daemon_vm_id vm_state) "" then mret tt
         else ignore (release_sandbox (sv_daemon_socket vm_state) (sv_daemon_vm_id vm_state)));;
        cleanup_state_tap vm_state;;
        remove_vm (ci_sandbox_id i);;
        set_exit (ci_exit i) 0
      else
        ignore (kill_container (sv_daemon_socket vm_state) (sv_daemon_vm_id vm_state) (ci_id i) signal)
  | None => set_exit (ci_exit i) 0
  end.

Definition instance_delete (i : CloudHvInstance) : M shim unit :=
  o ← get_vm (ci_sandbox_id i);
  match o with
  | Some (a, vm_state) =>
      prev ← fetch_add a (-1);
      if prev <=? 1 then
        ignore (release_sandbox (sv_daemon_socket vm_state) (sv_daemon_vm_id vm_state));;
        cleanup_state_tap vm_state;;
        remove_vm (ci_sandbox_id i)
      else ignore (delete_container (sv_daemon_socket vm_state) (sv_daemon_vm_id vm_state) (ci_id i))
  | None => mret tt
  end;;
  set_exit (ci_exit i) 0.

(** [wait] returns when the cell is set. *)
Definition instance_wait (i : CloudHvInstance) : M shim Z := fun s =>
  match sh_exits s !! ci_exit i with Some (Some code) => (Ok code, s) | _ => (Hang, s) end.

(** ** The exit watcher *)

Fixpoint wait_for_pid_exit (polls : nat) (pid : Z) : M shim unit :=
  match polls with
  | O => lift Hang
  | S polls' =>
      b ← exists_path ("/proc/" +:+ pretty pid);
      if b : bool then sys (Sleep 100);; wait_for_pid_exit polls' pid else mret tt
  end.

(** [select!]: the branch that completes first. *)
Inductive first_done := ByDaemon | ByPid (polls : nat).

Definition run_watcher (wa : watcher) (f : first_done) : M shim unit :=
  match f with
  | ByDaemon =>
      r ← attempt (wait_container (wa_socket wa) (wa_vm_id wa) (wa_container_id wa));
      set_exit (wa_exit wa) (match r with inl (code, _) => code | inr _ => 137 end)
  | ByPid polls => wait_for_pid_exit polls (wa_ch_pid wa);; set_exit (wa_exit wa) 137
  end.
End Shim.
