(* ===== verification/ShimProps.v ===== *)
(** * The shim: reference counting, failures and races *)

From S2P Require Import Prelude RustStr Bytes Netlink NetlinkOps Proto Sys Json Lifecycle Api ApiProps Client ShimUtil Config Shim.
From Stdlib Require Import Ascii.
From Stdlib Require String.
Local Open Scope Z_scope.

(** ** Frames *)

Section ShimFrames.
Context `{Env, SerdeDerive, Anyhow, Base64}.

(** [m] leaves [VMS] and the states alone and makes only calls in [P]. *)
Definition quiet (P : call -> Prop) {A} (m : M shim A) : Prop := forall s,
  sh_vms (m s).2 = sh_vms s /\ sh_heap (m s).2 = sh_heap s /\
  exists t, sh_trace (m s).2 = sh_trace s ++ t /\ Forall P t.

Lemma quiet_same P {A} (m : M shim A) :
  (forall s, sh_vms (m s).2 = sh_vms s /\ sh_heap (m s).2 = sh_heap s /\ sh_trace (m s).2 = sh_trace s) -> quiet P m.
Proof. intros Hm s. destruct (Hm s) as (-> & -> & ->). split_and!; [done..|]. exists []. by rewrite app_nil_r. Qed.
Lemma quiet_ret P {A} (a : A) : quiet P (mret a).
Proof. by apply quiet_same. Qed.
Lemma quiet_fail P {A} e : quiet P (fail (A := A) e).
Proof. by apply quiet_same. Qed.
Lemma quiet_lift P {A} (r : result A) : quiet P (lift r).
Proof. by apply quiet_same. Qed.
Lemma quiet_gets P {A} (f : shim -> A) : quiet P (gets f).
Proof. by apply quiet_same. Qed.
Lemma quiet_sys (P : call -> Prop) c : P c -> quiet P (sys c).
Proof. intros Hc s. split_and!; [done..|]. exists [c]. split; [done|]. by constructor. Qed.
Lemma quiet_bind P {A B} (m : M shim A) (f : A -> M shim B) :
  quiet P m -> (forall a, quiet P (f a)) -> quiet P (m ≫= f).
Proof.
  intros Hm Hf s. unfold mbind, M_bind. destruct (Hm s) as (Ev & Eh & t & Et & HP). destruct (m s) as [r s'].
  cbn in *. destruct r as [a|e| |]; [|by split_and!; [..|exists t]..].
  destruct (Hf a s') as (Ev' & Eh' & t' & Et' & HP'). rewrite Ev', Eh', Ev, Eh. split_and!; [done..|].
  exists (t ++ t'). rewrite Et', Et, app_assoc. split; [done|by apply Forall_app].
Qed.
Lemma quiet_attempt P {A} (m : M shim A) : quiet P m -> quiet P (attempt m).
Proof. intros Hm s. specialize (Hm s). unfold attempt. destruct (m s) as [r s']. by destruct r. Qed.
Lemma quiet_ctx P {A} c (m : M shim A) : quiet P m -> quiet P (m_ctx c m).
Proof. intros Hm s. specialize (Hm s). unfold m_ctx. by destruct (m s). Qed.
Lemma quiet_map_any P {A} c (m : M shim A) : quiet P m -> quiet P (map_any c m).
Proof. intros Hm s. specialize (Hm s). unfold map_any. destruct (m s) as [r s']. by destruct r. Qed.
Lemma quiet_ignore P {A} (m : M shim A) : quiet P m -> quiet P (ignore m).
Proof. intros Hm. apply quiet_bind; [by apply quiet_attempt|]. intros _. apply quiet_ret. Qed.
Lemma quiet_detached P {A} (m : M shim A) : quiet P m -> quiet P (detached m).
Proof. intros Hm s. specialize (Hm s). unfold detached. destruct (m s) as [r s']. by destruct r. Qed.
Lemma quiet_nl P {A} (m : M sock A) : quiet P (nl m).
Proof. apply quiet_same. intros s. unfold nl. by destruct (m (sh_sock s)). Qed.
Lemma quiet_setns (P : call -> Prop) n : P (SetNs n) -> quiet P (setns n).
Proof.
  intros Hp s. unfold setns. rewrite sys_run.
  destruct (env (trace s) (SetNs n)); (split_and!; [done..|]); exists [SetNs n]; split; try done; by constructor.
Qed.
Lemma quiet_guarded (P : call -> Prop) {A} o (m : M shim A) : P (SetNs o) -> quiet P m -> quiet P (guarded o m).
Proof.
  intros Ho Hm s. unfold guarded. destruct (Hm s) as (Ev & Eh & t & Et & HP). destruct (m s) as [r s']. cbn in *.
  destruct (quiet_ignore P _ (quiet_setns P o Ho) s') as (Ev' & Eh' & t' & Et' & HP').
  destruct r; [..|by split_and!; [..|exists t] ];
    (cbn; rewrite Ev', Eh', Ev, Eh; split_and!; [done..|]; exists (t ++ t'); rewrite Et', Et, app_assoc;
     split; [done|by apply Forall_app]).
Qed.
Lemma quiet_io P {A} (m : M shim A) : io_only m -> emits P m -> quiet P m.
Proof.
  intros Hm He s. destruct (Hm s) as [t Ht], (He s) as (t' & Ht' & HP). rewrite Ht in *. split_and!; [done..|].
  exists t'. split; [exact Ht'|done].
Qed.
End ShimFrames.

Ltac quiet_solve tac := repeat first
  [assumption
  |lazymatch goal with
   | |- quiet _ (nl _) => apply quiet_nl
   | |- quiet _ (attempt _) => apply quiet_attempt
   | |- quiet _ (m_ctx _ _) => apply quiet_ctx
   | |- quiet _ (map_any _ _) => apply quiet_map_any
   | |- quiet _ (ignore _) => apply quiet_ignore
   | |- quiet _ (detached _) => apply quiet_detached
   | |- quiet _ (guarded _ _) => apply quiet_guarded; [solve [tac]|]
   | |- quiet _ (setns _) => apply quiet_setns; solve [tac]
   | |- quiet _ (sys ?c) => apply (quiet_sys _ c); solve [tac]
   | |- quiet _ (mret _) => apply quiet_ret
   | |- quiet _ (lift _) => apply quiet_lift
   | |- quiet _ (fail _) => apply quiet_fail
   | |- quiet _ (gets _) => apply quiet_gets
   | |- quiet _ (_ ≫= _) => apply quiet_bind; [|intros ?]
   | |- quiet _ (match _ with _ => _ end) => case_match
   | |- quiet _ (let _ := _ in _) => cbv zeta
   end
  |solve [auto]|case_match|progress intros].

(** ** Requests on the wire *)

Section Requests.
Context `{Env, SerdeDerive, Anyhow, Base64}.

(** The call that asks the daemon for the release of a VM. *)
Definition release_call (sock vm_id : string) : call := WriteAll sock (request_line (release_kvs vm_id)).
Definition no_release (c : call) : Prop := forall sock vm_id, c <> release_call sock vm_id.

Lemma request_line_method kvs kvs' m m' :
  bool_decide (NoDup (map fst kvs)) = true -> bool_decide (NoDup (map fst kvs')) = true ->
  assoc "method" kvs = Some (LStr m) -> assoc "method" kvs' = Some (LStr m') ->
  request_line kvs = request_line kvs' -> m = m'.
Proof.
  intros Hn Hn' Hm Hm' E. pose proof (read_json_line kvs) as E1. pose proof (read_json_line kvs') as E2.
  unfold request_line in E. rewrite E, E2 in E1. injection E1 as E1.
  apply (f_equal (get "method")) in E1. rewrite !get_obj, Hm, Hm' in E1 by done. cbn in E1.
  injection E1 as E1. apply (f_equal as_str) in E1. rewrite !as_str_lit in E1. congruence.
Qed.

Lemma no_release_write sock kvs m :
  bool_decide (NoDup (map fst kvs)) = true -> assoc "method" kvs = Some (LStr m) -> m <> "ReleaseSandbox" ->
  no_release (WriteAll sock (json_line (of_lit (LObj kvs)))).
Proof.
  intros Hn Hm Hne sock' vm E. injection E as _ E. apply Hne.
  by apply (request_line_method kvs (release_kvs vm) m "ReleaseSandbox").
Qed.

Lemma rpc_io (P : call -> Prop) sock timeout kvs :
  P (ConnectUnix sock) -> P (WriteAll sock (json_line (of_lit (LObj kvs)))) -> P (ReadLine sock timeout) ->
  quiet P (rpc_with sock timeout (LObj kvs)).
Proof. intros Hc Hw Hr. unfold rpc_with. quiet_solve ltac:(assumption). Qed.

Lemma returns_check v m : returns (check_error v m) = true.
Proof. unfold check_error. by case_match. Qed.

Lemma rpc_returns sock timeout req : no_panic (W := shim) (rpc_with sock timeout req).
Proof. unfold rpc_with. io_solve; destruct (from_str _); done. Qed.

Lemma release_returns sock vm : no_panic (W := shim) (release_sandbox sock vm).
Proof. unfold release_sandbox, rpc. apply no_panic_bind; [apply rpc_returns|]. intros v. apply no_panic_lift, returns_check. Qed.
Lemma delete_returns sock vm c : no_panic (W := shim) (delete_container sock vm c).
Proof. unfold delete_container, rpc. apply no_panic_bind; [apply rpc_returns|]. intros v. apply no_panic_lift, returns_check. Qed.

Lemma quiet_delete sock vm c : quiet no_release (delete_container sock vm c).
Proof.
  unfold delete_container, rpc. apply quiet_bind; [|intros; apply quiet_lift].
  apply rpc_io; [by intros ? ?| |by intros ? ?]. by apply (no_release_write _ _ "DeleteContainer").
Qed.
Lemma quiet_release sock vm : quiet (fun _ => True) (release_sandbox sock vm).
Proof. unfold release_sandbox, rpc. apply quiet_bind; [by apply rpc_io|intros; apply quiet_lift]. Qed.

Lemma quiet_cleanup st : quiet no_release (cleanup_state_tap st).
Proof.
  unfold cleanup_state_tap, cleanup_tap, in_netns_nowait, clean_links, open_ns, exists_path.
  quiet_solve ltac:(by intros ? ?).
Qed.

(** Over a connection that can be made, the release is asked for. *)
Lemma release_asks sock vm s :
  (forall h, env h (ConnectUnix sock) = inr tt) ->
  exists t, sh_trace (ignore (release_sandbox sock vm) s).2 = sh_trace s ++ t /\ release_call sock vm ∈ t.
Proof.
  intros Hc. unfold ignore, attempt, release_sandbox, rpc, rpc_with, mbind, M_bind.
  rewrite sys_run, Hc. cbn [io_res with_ctx]. unfold lift at 1. rewrite sys_run. fold (request_line (release_kvs vm)).
  set (s1 := set_trace _ (set_trace _ s)).
  assert (Et : sh_trace s1 = sh_trace s ++ [ConnectUnix sock; release_call sock vm]) by (cbn; by rewrite <- app_assoc). clearbody s1.
  assert (Hin : forall t, release_call sock vm ∈ [ConnectUnix sock; release_call sock vm] ++ t) by set_solver.
  destruct (env _ (WriteAll _ _)); cbn [io_res]; unfold lift at 1; cbv beta iota.
  { exists [ConnectUnix sock; release_call sock vm]. split; [exact Et|]. set_solver. }
  rewrite sys_run. exists ([ConnectUnix sock; release_call sock vm] ++ [ReadLine sock (Some 30)]).
  split; [|apply Hin].
  destruct (env _ (ReadLine _ _)) as [ [e|line]|]; cbn [io_res with_ctx]; unfold lift, fail, mret, M_ret; cbv beta iota.
  - cbn [snd sh_trace set_trace shim_world trace set_sh_trace]. rewrite Et. by rewrite <- app_assoc.
  - destruct (lib_res _); cbn; try (rewrite Et; by rewrite <- app_assoc).
    destruct (check_error _ _); cbn; rewrite Et; by rewrite <- app_assoc.
  - cbn. rewrite Et. by rewrite <- app_assoc.
Qed.
End Requests.

(** ** The container count *)

Section Count.
Context `{Env, SerdeDerive, Anyhow, Base64}.

(** The state the sandbox's entry of [VMS] points to. *)
Definition entry (sandbox_id : string) (s : shim) : option SharedVmState :=
  a ← sh_vms s !! sandbox_id; sh_heap s !! a.

Lemma entry_Some sid s st : entry sid s = Some st -> exists a, sh_vms s !! sid = Some a /\ sh_heap s !! a = Some st.
Proof. unfold entry. destruct (sh_vms s !! sid) as [a|]; [|done]. eauto. Qed.

Lemma get_vm_run sid s st : entry sid s = Some st ->
  exists a, sh_heap s !! a = Some st /\ sh_vms s !! sid = Some a /\ get_vm sid s = (Ok (Some (a, st)), s).
Proof.
  intros (a & Ha & Hst)%entry_Some. exists a. split_and!; [done..|]. unfold get_vm, gets. rewrite Ha. cbn. by rewrite Hst.
Qed.

Lemma set_exit_same cell code s : let s' := (set_exit cell code s).2 in
  sh_vms s' = sh_vms s /\ sh_heap s' = sh_heap s /\ sh_trace s' = sh_trace s.
Proof. cbn. by repeat case_match. Qed.

Lemma ignore_run {A} P (m : M shim A) s : no_panic m -> quiet P m ->
  exists s', ignore m s = (Ok tt, s') /\ sh_vms s' = sh_vms s /\ sh_heap s' = sh_heap s /\
    exists t, sh_trace s' = sh_trace s ++ t /\ Forall P t.
Proof.
  intros Hn Hq. pose proof (infallible_ignore m Hn s) as Hi. pose proof (quiet_ignore P m Hq s) as Hs.
  destruct (ignore m s) as [r s']. cbn in *. destruct r as [[]| | |]; try done. by exists s'.
Qed.

Lemma delete_more i s st : entry (ci_sandbox_id i) s = Some st -> 1 < sv_container_count st < 2 ^ 64 ->
  exists s', instance_delete i s = (Ok tt, s') /\ sh_vms s' = sh_vms s /\
    entry (ci_sandbox_id i) s' = Some (set_count (sv_container_count st - 1) st) /\
    exists t, sh_trace s' = sh_trace s ++ t /\ Forall no_release t.
Proof.
  intros (a & Hst & Ha & Hget)%get_vm_run Hc. unfold instance_delete, mbind, M_bind. rewrite Hget.
  unfold fetch_add. rewrite Hst. replace (sv_container_count st <=? 1) with false by lia.
  rewrite wrap_small by (unfold in_range; lia).
  destruct (ignore_run no_release _ (set_heap (<[a := set_count (sv_container_count st + -1) st]> (sh_heap s)) s)
    (delete_returns (sv_daemon_socket st) (sv_daemon_vm_id st) (ci_id i)) (quiet_delete _ _ _)) as (s' & -> & Ev & Eh & t & Et & HF).
  pose proof (set_exit_same (ci_exit i) 0 s') as Hx. unfold set_exit, modify in *. cbn in Hx. destruct Hx as (Ev' & Eh' & Et').
  eexists. split; [reflexivity|]. rewrite Ev', Et', Ev, Et. split_and!; [done| |by exists t].
  unfold entry. rewrite Ev', Ev, Eh', Eh. cbn. rewrite Ha. cbn.
  rewrite list_lookup_insert_eq by (by apply lookup_lt_Some in Hst). done.
Qed.

Lemma delete_last i s st : entry (ci_sandbox_id i) s = Some st -> sv_container_count st <= 1 ->
  (forall s, is_Ok (cleanup_state_tap st s).1 = true) ->
  exists s', instance_delete i s = (Ok tt, s') /\ sh_vms s' = delete (ci_sandbox_id i) (sh_vms s) /\
    ((forall h, env h (ConnectUnix (sv_daemon_socket st)) = inr tt) ->
     exists t, sh_trace s' = sh_trace s ++ t /\ release_call (sv_daemon_socket st) (sv_daemon_vm_id st) ∈ t).
Proof.
  intros (a & Hst & Ha & Hget)%get_vm_run Hc Hclean. unfold instance_delete, mbind, M_bind. rewrite Hget.
  unfold fetch_add. rewrite Hst. replace (sv_container_count st <=? 1) with true by lia.
  set (s1 := set_heap _ s). assert (Et1 : sh_trace s1 = sh_trace s) by done. assert (Ev1 : sh_vms s1 = sh_vms s) by done.
  clearbody s1.
  pose proof (fun Hconn => release_asks (sv_daemon_socket st) (sv_daemon_vm_id st) s1 Hconn) as Hask.
  destruct (ignore_run _ _ s1 (release_returns (sv_daemon_socket st) (sv_daemon_vm_id st)) (quiet_release _ _))
    as (s2 & E2 & Ev2 & _). rewrite E2 in *. cbn in Hask.
  pose proof (quiet_cleanup st s2) as (Ev3 & _ & t3 & Et3 & _). specialize (Hclean s2).
  destruct (cleanup_state_tap st s2) as [r3 s3]. cbn in *. destruct r3 as [[]| | |]; try done.
  pose proof (set_exit_same (ci_exit i) 0 (set_vms (delete (ci_sandbox_id i) (sh_vms s3)) s3)) as Hx.
  unfold remove_vm, set_exit, modify in *. cbn in Hx |- *. destruct Hx as (Ev' & _ & Et').
  eexists. split; [reflexivity|]. rewrite Ev', Et', Ev3, Ev2, Ev1. split; [done|].
  intros Hconn. destruct (Hask Hconn) as (t & Et & Hin). exists (t ++ t3).
  rewrite Et3, Et, Et1, app_assoc. split; [done|]. apply elem_of_app. by left.
Qed.

Lemma delete_gone i s : sh_vms s !! ci_sandbox_id i = None ->
  exists s', instance_delete i s = (Ok tt, s') /\ sh_vms s' = sh_vms s /\ sh_trace s' = sh_trace s.
Proof.
  intros Hn. pose proof (set_exit_same (ci_exit i) 0 s) as Hx. unfold instance_delete, get_vm, gets, mbind, M_bind.
  rewrite Hn. cbn in Hx |- *. destruct Hx as (? & _ & ?). eexists. by split_and!.
Qed.

Fixpoint delete_all (insts : list CloudHvInstance) : M shim unit :=
  match insts with [] => mret tt | i :: rest => instance_delete i;; delete_all rest end.

Lemma delete_all_run insts sid s st :
  Forall (fun i => ci_sandbox_id i = sid) insts -> entry sid s = Some st ->
  sv_container_count st = Z.of_nat (length insts) + 1 -> sv_container_count st < 2 ^ 64 ->
  exists s', delete_all insts s = (Ok tt, s') /\ entry sid s' = Some (set_count 1 st) /\
    exists t, sh_trace s' = sh_trace s ++ t /\ Forall no_release t.
Proof.
  intros Hs. revert s st. induction Hs as [|i insts <- Hs IH]; intros s st He Hc Hlt; cbn [delete_all length] in *.
  - exists s. split_and!; [done| |exists []; by rewrite app_nil_r]. rewrite He. f_equal. destruct st; unfold set_count; cbn in *. f_equal. lia.
  - destruct (delete_more i s st He ltac:(lia)) as (s1 & E1 & _ & He1 & t1 & Et1 & HF1).
    destruct (IH s1 _ He1) as (s2 & E2 & He2 & t2 & Et2 & HF2); [cbn; lia..|].
    exists s2. unfold mbind, M_bind. rewrite E1, E2. split_and!; [done|done|].
    exists (t1 ++ t2). rewrite Et2, Et1, app_assoc. split; [done|by apply Forall_app].
Qed.

End Count.

(** ** Starting containers *)

Section Starts.
Context `{Env, SerdeDerive, Anyhow, Base64}.

Let any (c : call) : Prop := True.

Lemma quiet_rpc sock timeout kvs : quiet any (rpc_with sock timeout (LObj kvs)).
Proof. by apply rpc_io. Qed.
Lemma quiet_acquire sock p : quiet any (acquire_sandbox sock p).
Proof. unfold acquire_sandbox, rpc. apply quiet_bind; [apply quiet_rpc|intros; apply quiet_lift]. Qed.
Lemma quiet_add sock v e c j : quiet any (add_container sock v e c j).
Proof. unfold add_container, rpc. apply quiet_bind; [apply quiet_rpc|intros]. quiet_solve ltac:(done). Qed.
Lemma quiet_place pid cg : quiet any (place_in_pod_cgroup pid cg).
Proof. unfold place_in_pod_cgroup, exists_path, write_file, create_dir_all. quiet_solve ltac:(done). Qed.
Lemma no_panic_place pid cg : no_panic (W := shim) (place_in_pod_cgroup pid cg).
Proof. unfold place_in_pod_cgroup, write_file, create_dir_all, exists_path. io_solve. Qed.
Lemma quiet_erofs n k e r c : quiet any (prepare_erofs_retry n k e r c).
Proof.
  revert k e. induction n as [|n IH]; intros k e; cbn [prepare_erofs_retry]; [apply quiet_fail|].
  unfold prepare_erofs, build_erofs, exists_path, create_dir_all, create_file. quiet_solve ltac:(done).
Qed.
Lemma quiet_prepare i : quiet any (start_prepare i).
Proof.
  pose proof quiet_erofs. unfold start_prepare, get_vm, image_key_from_spec, resolve_image_digest, read_to_string. quiet_solve ltac:(done).
Qed.

Lemma start_prepare_arc i s p s' st : entry (ci_sandbox_id i) s = Some st -> start_prepare i s = (Ok p, s') ->
  sh_vms s !! ci_sandbox_id i = Some (pr_arc p) /\ sh_heap s !! pr_arc p = Some st.
Proof.
  intros (a & Hst & Ha & Hget)%get_vm_run Hr. unfold start_prepare in Hr.
  apply M_bind_Ok in Hr as (o & s1 & Hg & Hr). rewrite Hget in Hg. injection Hg as <- <-. cbn [ok_or] in Hr.
  apply M_bind_Ok in Hr as ([a' st'] & s1 & Hl & Hr). apply lift_Ok in Hl as [[= <- <-] ->]. inv_ok. done.
Qed.

Definition acquire_for (i : CloudHvInstance) (p : prepared) (st : SharedVmState) : AcquireRequest :=
  mkAcquireRequest (default "" (sv_netns st)) (pr_key p) (pr_erofs p) (ci_id i) (pr_config p).

Definition watcher_for (i : CloudHvInstance) (st : SharedVmState) : watcher :=
  mkWatcher (ci_exit i) (ci_id i) (sv_ch_pid st) (sv_daemon_socket st) (sv_daemon_vm_id st).

(** What the last part of [start_container] does, for a state [st] at [pr_arc p]
    that the sandbox's entry still points to. *)
Lemma start_commit_run i p s st :
  sh_vms s !! ci_sandbox_id i = Some (pr_arc p) -> sh_heap s !! pr_arc p = Some st ->
  let (r, s') := start_commit i p st s in
  match r with
  | Ok pid => exists st', entry (ci_sandbox_id i) s' = Some st' /\
      sv_container_count st' = wrap 64 (sv_container_count st + 1) /\
      (sv_daemon_vm_id st <> "" -> sv_daemon_vm_id st' = sv_daemon_vm_id st /\
         (add_container (sv_daemon_socket st) (sv_daemon_vm_id st) (pr_erofs p) (ci_id i) (pr_config p) s).1 = Ok pid) /\
      (sv_daemon_vm_id st = "" -> exists av, (acquire_sandbox (sv_daemon_socket st) (acquire_for i p st) s).1 = Ok av /\
         pid = av_container_pid av /\ sv_daemon_vm_id st' = av_vm_id av) /\
      last (sh_watchers s') = Some (watcher_for i st')
  | Err _ => sh_vms s' = sh_vms s /\ sh_heap s' = sh_heap s
  | _ => True
  end.
Proof.
  intros Ha Hst. unfold start_commit. destruct (String.eqb_spec (sv_daemon_vm_id st) "") as [Evm|Evm].
  - unfold start_first. set (acq := map_any "daemon acquire" _).
    assert (Hq : quiet any acq) by (apply quiet_map_any, quiet_acquire). destruct (Hq s) as (Ev & Eh & _).
    unfold mbind, M_bind. destruct (acq s) as [r s1] eqn:Eacq. cbn in Ev, Eh. destruct r as [av|e| |]; try done.
    apply map_any_Ok in Eacq. unfold gets. rewrite Eh, Hst. unfold insert_vm. set (st0 := mkSharedVmState _ _ _ _ _ _ _).
    set (s2 := set_vms _ _).
    assert (Hcg : exists s3, (match sv_cgroups_path st with Some cg => ignore (place_in_pod_cgroup (av_ch_pid av) cg) | None => mret tt end) s2
      = (Ok tt, s3) /\ sh_vms s3 = sh_vms s2 /\ sh_heap s3 = sh_heap s2).
    { destruct (sv_cgroups_path st) as [cg|]; [|by exists s2].
      destruct (ignore_run any _ s2 (no_panic_place (av_ch_pid av) cg) (quiet_place _ _)) as (s3 & E3 & Ev3 & Eh3 & _).
      by exists s3. }
    destruct Hcg as (s3 & E3 & Ev3 & Eh3). unfold mret at 1 in E3. unfold mret at 1. rewrite E3. cbv beta iota.
    unfold mret, M_ret, deref. cbv beta iota.
    assert (Hnew : sh_heap s3 !! length (sh_heap s1) = Some st0).
    { rewrite Eh3. subst s2. cbn. rewrite lookup_app_r, Nat.sub_diag by lia. done. }
    rewrite Hnew. unfold modify, fetch_add. cbn [sh_heap set_watchers]. rewrite Hnew.
    exists (set_count (wrap 64 (sv_container_count st0 + 1)) st0). split_and!; [|done|by intros|intros _; exists av; unfold acquire_for; by rewrite Eacq|apply last_snoc].
    unfold entry. cbn. rewrite Ev3. subst s2. cbn. rewrite lookup_insert_eq. cbn.
      apply list_lookup_insert_eq. by apply lookup_lt_Some in Hnew.
  - set (add := map_any "daemon add_container" _).
    assert (Hq : quiet any add) by (apply quiet_map_any, quiet_add). destruct (Hq s) as (Ev & Eh & _).
    unfold mbind, M_bind. destruct (add s) as [r s1] eqn:Eadd. cbn in Ev, Eh. destruct r as [pid|e| |]; try done.
    apply map_any_Ok in Eadd. unfold mret at 1, M_ret, deref. rewrite Eh, Hst. unfold modify, fetch_add. cbn [sh_heap set_watchers]. rewrite Eh, Hst.
    unfold mret, M_ret. exists (set_count (wrap 64 (sv_container_count st + 1)) st).
    split_and!; [|done|by intros; rewrite Eadd|by intros|apply last_snoc].
    unfold entry. cbn. rewrite Ev, Ha. cbn. apply list_lookup_insert_eq. by apply lookup_lt_Some in Hst.
Qed.

Lemma start_container_run i s st : entry (ci_sandbox_id i) s = Some st ->
  let (r, s') := start_container i s in
  match r with
  | Ok _ => exists st', entry (ci_sandbox_id i) s' = Some st' /\
      sv_container_count st' = wrap 64 (sv_container_count st + 1) /\
      (sv_daemon_vm_id st <> "" -> sv_daemon_vm_id st' = sv_daemon_vm_id st) /\
      last (sh_watchers s') = Some (watcher_for i st')
  | Err _ => sh_vms s' = sh_vms s /\ sh_heap s' = sh_heap s
  | _ => True
  end.
Proof.
  intros He. unfold start_container, mbind, M_bind. destruct (quiet_prepare i s) as (Ev & Eh & _).
  pose proof (fun p s' => start_prepare_arc i s p s' st He) as Harc.
  destruct (start_prepare i s) as [r s1]. cbn in Ev, Eh. destruct r as [p|e| |]; try done.
  destruct (Harc p s1 eq_refl) as [Ha Hst]. unfold deref. rewrite Eh, Hst.
  pose proof (start_commit_run i p s1 st) as Hc. rewrite Ev, Eh in Hc. specialize (Hc Ha Hst).
  destruct (start_commit i p st s1) as [r s']. destruct r; try done. destruct Hc as (st' & ? & ? & Hvm & _ & ?). exists st'.
  split_and!; [done..| |done]. intros Hne. by apply Hvm.
Qed.

(** A container that started is counted, once, on the state its sandbox's
    entry points to, a VM that was acquired stays the sandbox's, and the container's end
    is watched for in that VM; a container that failed to start changes no entry and no
    count. *)
Theorem start_counts i s st : entry (ci_sandbox_id i) s = Some st -> sv_container_count st < 2 ^ 64 - 1 ->
  0 <= sv_container_count st ->
  match start_container i s with
  | (Ok _, s') => exists st', entry (ci_sandbox_id i) s' = Some st' /\
      sv_container_count st' = sv_container_count st + 1 /\
      (sv_daemon_vm_id st <> "" -> sv_daemon_vm_id st' = sv_daemon_vm_id st) /\
      last (sh_watchers s') = Some (watcher_for i st')
  | (Err _, s') => entry (ci_sandbox_id i) s' = Some st
  | _ => True
  end.
Proof.
  intros He Hc Hc0. pose proof (start_container_run i s st He) as Hr.
  destruct (start_container i s) as [r s']. destruct r as [pid|e| |]; try done.
  - by rewrite wrap_small in Hr by (unfold in_range; lia).
  - destruct Hr as [Ev Eh]. unfold entry in *. by rewrite Ev, Eh.
Qed.

(** Deleting an instance takes one off the count whether or not the instance
    was ever counted. So with one container running, two containers that fail to
    start and are then deleted bring the count to nothing: the second deletion asks
    for the release of the VM under the running container and forgets it. *)
Theorem failed_starts_release_early f1 f2 sid s st e1 s1 e2 s2 :
  ci_sandbox_id f1 = sid -> ci_sandbox_id f2 = sid ->
  entry sid s = Some st -> sv_container_count st = 2 ->
  (forall s, is_Ok (cleanup_state_tap st s).1 = true) ->
  (forall h, env h (ConnectUnix (sv_daemon_socket st)) = inr tt) ->
  start_container f1 s = (Err e1, s1) -> start_container f2 s1 = (Err e2, s2) ->
  exists s3 s4 t, instance_delete f1 s2 = (Ok tt, s3) /\ instance_delete f2 s3 = (Ok tt, s4) /\
    sh_trace s4 = sh_trace s3 ++ t /\ release_call (sv_daemon_socket st) (sv_daemon_vm_id st) ∈ t /\
    entry sid s4 = None.
Proof.
  intros <- Hs2 He Hc Hclean Hconn Hr1 Hr2.
  pose proof (start_container_run f1 s st He) as H1r. rewrite Hr1 in H1r. destruct H1r as [Ev1 Eh1].
  assert (He1 : entry (ci_sandbox_id f2) s1 = Some st) by (rewrite Hs2; unfold entry in *; by rewrite Ev1, Eh1).
  pose proof (start_container_run f2 s1 st He1) as H2r. rewrite Hr2 in H2r. destruct H2r as [Ev2 Eh2].
  assert (He2 : entry (ci_sandbox_id f1) s2 = Some st) by (unfold entry in *; by rewrite Ev2, Eh2, Ev1, Eh1).
  destruct (delete_more f1 s2 st He2 ltac:(lia)) as (s3 & E3 & _ & He3 & _). rewrite <- Hs2 in He3.
  destruct (delete_last f2 s3 _ He3 ltac:(cbn; lia) Hclean) as (s4 & E4 & Ev4 & Hask).
  destruct (Hask Hconn) as (t & Et & Hin). exists s3, s4, t. split_and!; try done.
  unfold entry. by rewrite Ev4, Hs2, lookup_delete_eq.
Qed.

Lemma start_commit_first i p s st st0 pid s' :
  sh_heap s !! pr_arc p = Some st0 -> sv_daemon_vm_id st = "" -> start_commit i p st s = (Ok pid, s') ->
  exists av : AcquiredVm, sh_vms s' = <[ci_sandbox_id i := length (sh_heap s)]> (sh_vms s) /\
    sh_heap s' = sh_heap s ++ [mkSharedVmState (av_ch_pid av) (wrap 64 (sv_container_count st0 + 1))
      (if String.eqb (av_tap_name av) "" then None else Some (av_tap_name av))
      (sv_netns st) (sv_cgroups_path st) (av_vm_id av) (sv_daemon_socket st)].
Proof.
  intros Hst Hvm Hr. unfold start_commit in Hr. rewrite Hvm in Hr. cbn [String.eqb] in Hr. unfold start_first in Hr.
  apply M_bind_Ok in Hr as ([a cpid] & s3 & Hf & Hr).
  apply M_bind_Ok in Hf as (av & s1 & Hacq & Hf). exists av.
  assert (Hq : quiet any (map_any "daemon acquire" (acquire_sandbox (sv_daemon_socket st)
    (mkAcquireRequest (default "" (sv_netns st)) (pr_key p) (pr_erofs p) (ci_id i) (pr_config p)))))
    by (apply quiet_map_any, quiet_acquire).
  destruct (Hq s) as (Ev & Eh & _). rewrite Hacq in Ev, Eh. cbn in Ev, Eh.
  apply M_bind_Ok in Hf as (count & s1' & Hg & Hf). injection Hg as <- <-. rewrite Eh, Hst in Hf.
  apply M_bind_Ok in Hf as (a' & s2 & Hi & Hf). injection Hi as <- <-.
  apply M_bind_Ok in Hf as (u & s3' & Hcg & Hf). injection Hf as <- _ <-.
  match type of Hcg with ?m ?x = _ => assert (Hqc : quiet any m); [|destruct (Hqc x) as (Ev3 & Eh3 & _)] end.
  { case_match; [apply quiet_ignore, quiet_place|apply quiet_ret]. }
  rewrite Hcg in Ev3, Eh3. cbn in Ev3, Eh3.
  assert (Hnew : forall st1, sh_heap s3' = sh_heap s1 ++ [st1] -> sh_heap s3' !! length (sh_heap s1) = Some st1).
  { intros st1 ->. rewrite lookup_app_r, Nat.sub_diag by lia. done. }
  unfold deref, fetch_add in Hr. unfold mbind, M_bind, modify in Hr. rewrite (Hnew _ Eh3) in Hr.
  cbn [sh_heap set_watchers] in Hr. rewrite (Hnew _ Eh3) in Hr. injection Hr as _ <-. cbn.
  rewrite Ev3, Ev, Eh3, Eh. split; [done|].
  rewrite insert_app_r_alt, Nat.sub_diag by lia. done.
Qed.

(** Two containers of one pod that start at the same time can both find no
    VM acquired. Then each acquires one of its own; the sandbox's entry ends up
    pointing to the second, no entry points to the first any more (so no deletion
    will release it), and the count says one container more than before, though two
    were started. *)
Theorem first_starts_race i j p q s st s1 s2 pid1 pid2 :
  ci_sandbox_id i = ci_sandbox_id j -> pr_arc q = pr_arc p ->
  (forall k a, sh_vms s !! k = Some a -> (a < length (sh_heap s))%nat) ->
  sh_heap s !! pr_arc p = Some st -> sv_daemon_vm_id st = "" ->
  start_commit i p st s = (Ok pid1, s1) -> start_commit j q st s1 = (Ok pid2, s2) ->
  exists a1 a2 st1 st2, sh_vms s1 !! ci_sandbox_id i = Some a1 /\ sh_vms s2 !! ci_sandbox_id i = Some a2 /\
    sh_heap s2 !! a1 = Some st1 /\ sh_heap s2 !! a2 = Some st2 /\
    (forall k, sh_vms s2 !! k <> Some a1) /\
    sv_container_count st2 = wrap 64 (sv_container_count st + 1).
Proof.
  intros Hij Hq Hwf Hst Hvm H1r H2r.
  destruct (start_commit_first i p s st st pid1 s1 Hst Hvm H1r) as (av1 & Ev1 & Eh1).
  assert (Hst1 : sh_heap s1 !! pr_arc q = Some st).
  { rewrite Eh1, Hq, lookup_app_l; [done|by apply lookup_lt_Some in Hst]. }
  destruct (start_commit_first j q s1 st st pid2 s2 Hst1 Hvm H2r) as (av2 & Ev2 & Eh2).
  eexists (length (sh_heap s)), (length (sh_heap s1)), _, _.
  assert (Hlen : length (sh_heap s1) = S (length (sh_heap s))) by (rewrite Eh1, length_app; cbn; lia).
  split_and!.
  - rewrite Ev1. apply lookup_insert_eq.
  - rewrite Ev2, Hij. apply lookup_insert_eq.
  - rewrite Eh2, lookup_app_l by lia. rewrite Eh1, lookup_app_r, Nat.sub_diag by lia. done.
  - rewrite Eh2, lookup_app_r, Nat.sub_diag by lia. done.
  - intros k. rewrite Ev2, Ev1. intros [ [_ Hk]|[Hjk [ [Hik _]|[_ Hk] ]%lookup_insert_Some] ]%lookup_insert_Some.
    + lia.
    + congruence.
    + apply Hwf in Hk. lia.
  - done.
Qed.

(** SIGTERM or SIGKILL for the sandbox ends it whatever state it is in: the
    entry is removed, the instance's exit status becomes 0 unless it had one, and a VM
    that was acquired is asked to be released, while a sandbox that never got one
    sends the daemon nothing. *)
Theorem kill_sandbox i sig s st :
  ci_id i = ci_sandbox_id i -> sig = 9 \/ sig = 15 -> entry (ci_sandbox_id i) s = Some st ->
  (forall s, is_Ok (cleanup_state_tap st s).1 = true) ->
  exists s', instance_kill i sig s = (Ok tt, s') /\ entry (ci_sandbox_id i) s' = None /\
    (sv_daemon_vm_id st <> "" -> (forall h, env h (ConnectUnix (sv_daemon_socket st)) = inr tt) ->
     exists t, sh_trace s' = sh_trace s ++ t /\ release_call (sv_daemon_socket st) (sv_daemon_vm_id st) ∈ t) /\
    (sv_daemon_vm_id st = "" -> exists t, sh_trace s' = sh_trace s ++ t /\ Forall no_release t).
Proof.
  intros Hid Hsig He Hclean. destruct (get_vm_run _ _ _ He) as (a & Hst & Ha & Hget).
  unfold instance_kill, mbind, M_bind. rewrite Hget, Hid, String.eqb_refl.
  replace ((sig =? 9) || (sig =? 15)) with true by (destruct Hsig as [-> | ->]; done). cbn [andb].
  assert (Hrel : exists s1, (if String.eqb (sv_daemon_vm_id st) "" then mret tt
      else ignore (release_sandbox (sv_daemon_socket st) (sv_daemon_vm_id st))) s = (Ok tt, s1) /\ sh_vms s1 = sh_vms s /\
      (sv_daemon_vm_id st = "" -> s1 = s) /\
      (sv_daemon_vm_id st <> "" -> (forall h, env h (ConnectUnix (sv_daemon_socket st)) = inr tt) ->
       exists t, sh_trace s1 = sh_trace s ++ t /\ release_call (sv_daemon_socket st) (sv_daemon_vm_id st) ∈ t)).
  { destruct (String.eqb_spec (sv_daemon_vm_id st) "") as [E|E]; [by exists s; split_and!|].
    pose proof (release_asks (sv_daemon_socket st) (sv_daemon_vm_id st) s) as Hask.
    destruct (ignore_run _ _ s (release_returns (sv_daemon_socket st) (sv_daemon_vm_id st)) (quiet_release _ _))
      as (s1 & E1 & Ev1 & _). rewrite E1 in *. exists s1. by split_and!. }
  destruct Hrel as (s1 & E1 & Ev1 & Hnone & Hask). rewrite E1.
  pose proof (quiet_cleanup st s1) as (Ev2 & _ & t2 & Et2 & HF2). specialize (Hclean s1).
  destruct (cleanup_state_tap st s1) as [r2 s2]. cbn in *. destruct r2 as [[]| | |]; try done.
  unfold remove_vm, modify. pose proof (set_exit_same (ci_exit i) 0 (set_vms (delete (ci_sandbox_id i) (sh_vms s2)) s2)) as Hx.
  unfold set_exit, modify in *. cbn in Hx |- *. destruct Hx as (Ev' & _ & Et').
  eexists. split; [reflexivity|]. split_and!.
  - unfold entry. rewrite Ev', lookup_delete_eq. done.
  - intros Hne Hconn. destruct (Hask Hne Hconn) as (t & Et & Hin). exists (t ++ t2). rewrite Et', Et2, Et, app_assoc.
    split; [done|]. apply elem_of_app. by left.
  - intros ->%Hnone. rewrite Et', Et2. by exists t2.
Qed.
End Starts.

(** ** Witnesses *)

Definition sock_down : sock := mkSock 1 [] [] [] [].
Definition pod_state (n : Z) (vm : string) : SharedVmState := mkSharedVmState 42 n None (Some "/ns") None vm "/run/d.sock".
Definition one_pod (n : Z) (vm : string) : shim := mkShim {["p" := 0%nat]} [pod_state n vm] [None; None; None] [] "host" sock_down [].
Definition inst (id : string) (cell : nat) : CloudHvInstance := mkInstance id "p" ("/b/" +:+ id) cell.
Definition quiet_env : Env := calm_env (fun _ => None) (fun _ => false).

Lemma one_pod_clean `{Env} n vm s : is_Ok (cleanup_state_tap (pod_state n vm) s).1 = true.
Proof. done. Qed.


Lemma start_counts_witness :
  match @start_container (line_env (LObj [("container_pid", LNum 17)])) bit_json plain_anyhow plain_base64
          (inst "a" 0) (one_pod 1 "vm") with
  | (Ok _, s') => exists st', entry "p" s' = Some st' /\ sv_container_count st' = 2
  | _ => False
  end.
Proof.
  pose proof (@start_counts (line_env (LObj [("container_pid", LNum 17)])) bit_json plain_anyhow plain_base64
    (inst "a" 0) (one_pod 1 "vm") (pod_state 1 "vm") eq_refl ltac:(cbn; lia) ltac:(cbn; lia)) as Hs.
  witness_run (@start_container (line_env (LObj [("container_pid", LNum 17)])) bit_json plain_anyhow plain_base64
          (inst "a" 0) (one_pod 1 "vm")) s' E.
  destruct Hs as (st' & He & Hc & _ & _). exists st'. split; [exact He|exact Hc].
Defined.

Lemma pair_eta {A B} (x : A * B) a : x.1 = a -> x = (a, x.2).
Proof. by destruct x as [? ?]; intros <-. Qed.

Definition fail1 := @start_container quiet_env bit_json plain_anyhow plain_base64 (inst "f" 0) (one_pod 2 "vm").
Definition fail2 := @start_container quiet_env bit_json plain_anyhow plain_base64 (inst "g" 1) fail1.2.

Lemma failed_starts_release_early_witness :
  exists s3 s4, @instance_delete quiet_env bit_json (inst "f" 0) fail2.2 = (Ok tt, s3) /\
    @instance_delete quiet_env bit_json (inst "g" 1) s3 = (Ok tt, s4) /\ entry "p" s4 = None.
Proof.
  assert (Ef1 : exists e, fail1.1 = Err e) by (eexists; vm_compute; reflexivity).
  assert (Ef2 : exists e, fail2.1 = Err e) by (eexists; vm_compute; reflexivity).
  destruct Ef1 as [e1 Ef1], Ef2 as [e2 Ef2].
  destruct (@failed_starts_release_early quiet_env bit_json plain_anyhow plain_base64 (inst "f" 0) (inst "g" 1) "p"
    (one_pod 2 "vm") (pod_state 2 "vm") e1 fail1.2 e2 fail2.2) as (s3 & s4 & t & E3 & E4 & _ & _ & En).
  - reflexivity.
  - reflexivity.
  - reflexivity.
  - reflexivity.
  - apply one_pod_clean.
  - reflexivity.
  - exact (pair_eta fail1 _ Ef1).
  - exact (pair_eta fail2 _ Ef2).
  - exists s3, s4. split; [exact E3|]. split; [exact E4|exact En].
Defined.

Definition short_answer : lit := LObj [("vm_id", LStr "v"); ("ch_pid", LNum 1)].
Definition prep : prepared := mkPrepared 0 "k" "/e" "{}".
Definition race1 := @start_commit (line_env short_answer) bit_json plain_anyhow plain_base64 (inst "a" 0) prep
  (pod_state 1 "") (one_pod 1 "").

Lemma first_starts_race_witness :
  exists s2 a1, sh_vms race1.2 !! "p" = Some a1 /\ (forall k, sh_vms s2 !! k <> Some a1) /\
    @start_commit (line_env short_answer) bit_json plain_anyhow plain_base64 (inst "b" 1) prep (pod_state 1 "") race1.2
    = (Ok 0, s2).
Proof.
  assert (E1 : race1.1 = Ok 0) by (vm_compute; reflexivity).
  witness_run (@start_commit (line_env short_answer) bit_json plain_anyhow plain_base64 (inst "b" 1) prep
    (pod_state 1 "") race1.2) s2 E2. exists s2.
  destruct (@first_starts_race (line_env short_answer) bit_json plain_anyhow plain_base64 (inst "a" 0) (inst "b" 1) prep prep
    (one_pod 1 "") (pod_state 1 "") race1.2 s2 0 0) as (a1 & a2 & st1 & st2 & Ha1 & _ & _ & _ & Hno & _).
  - reflexivity.
  - reflexivity.
  - intros k a Hk. cbn [sh_vms one_pod] in Hk. apply lookup_singleton_Some in Hk as [_ <-]. cbn. lia.
  - reflexivity.
  - reflexivity.
  - exact (pair_eta race1 _ E1).
  - exact E2.
  - exists a1. split; [exact Ha1|]. split; [exact Hno|reflexivity].
Defined.

Lemma kill_sandbox_witness :
  exists s', @instance_kill quiet_env bit_json (inst "p" 0) 15 (one_pod 1 "") = (Ok tt, s') /\ entry "p" s' = None.
Proof.
  destruct (@kill_sandbox quiet_env bit_json (inst "p" 0) 15 (one_pod 1 "") (pod_state 1 "")) as (s' & E & En & _).
  - reflexivity.
  - right. reflexivity.
  - reflexivity.
  - apply one_pod_clean.
  - exists s'. split; [exact E|exact En].
Defined.
