(* ===== verification/Watch.v ===== *)
(** * The exit watcher

    The task [start_container] spawns for each container ([run_watcher]): it ends
    with the daemon's answer to a wait or with the hypervisor's process, whichever comes
    first, and fills the cell [Instance::wait] reads. *)

From S2P Require Import Prelude RustStr Proto Sys Json Lifecycle Client Shim ShimUtil ShimProps.
Local Open Scope Z_scope.

Section Watch.
Context `{Env, SerdeJson}.

Lemma set_exit_run cell code s :
  sh_exits s !! cell = Some None -> set_exit cell code s = (Ok tt, set_exits (<[cell := Some code]> (sh_exits s)) s).
Proof. intros Hc. unfold set_exit, modify. by rewrite Hc. Qed.

(** A filled cell stays as it is. *)
Lemma set_exit_stays cell code cell' c s :
  sh_exits s !! cell = Some (Some c) -> sh_exits (set_exit cell' code s).2 !! cell = Some (Some c).
Proof.
  intros Hc. unfold set_exit, modify. cbn. destruct (sh_exits s !! cell') as [ [] |] eqn:E; [done| |done].
  cbn. rewrite list_lookup_insert_ne; [done|]. intros ->. congruence.
Qed.

Lemma wait_filled i code s :
  sh_exits s !! ci_exit i = Some (Some code) -> instance_wait i s = (Ok code, s).
Proof. intros Hc. unfold instance_wait. by rewrite Hc. Qed.

(** The first code a cell is given is the one the wait returns. *)
Lemma set_exit_waits i code s :
  sh_exits s !! ci_exit i = Some None ->
  exists s', set_exit (ci_exit i) code s = (Ok tt, s') /\
    instance_wait i s' = (Ok code, s').
Proof.
  intros Hc. eexists. split; [by apply set_exit_run|]. apply wait_filled. cbn.
  apply list_lookup_insert_eq. by eapply lookup_lt_Some.
Qed.

(** ** The hypervisor's process *)

(** The calls of [n] polls that found the process. *)
Definition proc_path (pid : Z) : string := "/proc/" +:+ pretty pid.
Fixpoint polled (n : nat) (path : string) : list call :=
  match n with O => [] | S n => Exists path :: Sleep 100 :: polled n path end.

Lemma poll_step k pid s :
  wait_for_pid_exit (S k) pid s =
    if env (sh_trace s) (Exists (proc_path pid))
    then wait_for_pid_exit k pid (set_sh_trace (sh_trace s ++ [Exists (proc_path pid); Sleep 100]) s)
    else (Ok tt, set_sh_trace (sh_trace s ++ [Exists (proc_path pid)]) s).
Proof.
  cbn [wait_for_pid_exit]. fold (proc_path pid).
  rewrite (M_bind_run (exists_path (proc_path pid)) _ s _ _ (sys_run (Exists (proc_path pid)) s)). change (trace s) with (sh_trace s).
  destruct (env (sh_trace s) (Exists (proc_path pid))); [|done].
  rewrite (M_bind_run (sys (Sleep 100)) _ _ _ _ (sys_run (Sleep 100) _)). cbn. by rewrite <- app_assoc.
Qed.

Lemma wait_for_pid_exit_returns n pid s :
  env (sh_trace s ++ polled n (proc_path pid)) (Exists (proc_path pid)) = false ->
  exists t, wait_for_pid_exit (S n) pid s = (Ok tt, set_sh_trace (sh_trace s ++ t) s).
Proof.
  revert s. induction n as [|n IH]; intros s Hn; cbn [polled] in Hn; rewrite poll_step.
  - rewrite app_nil_r in Hn. rewrite Hn. eauto.
  - destruct (env (sh_trace s) (Exists (proc_path pid))); [|eauto].
    destruct (IH (set_sh_trace (sh_trace s ++ [Exists (proc_path pid); Sleep 100]) s)) as [t Et].
    { cbn. rewrite <- app_assoc. exact Hn. }
    rewrite Et. eexists. cbn. by rewrite <- app_assoc.
Qed.

(** ** The end of a container *)

(** A client's call leaves the cells alone. *)
Lemma wait_container_exits socket vm_id cid s r s' :
  Client.wait_container socket vm_id cid s = (r, s') -> sh_exits s' = sh_exits s.
Proof.
  intros E. assert (Hio : io_only (W := shim) (Client.wait_container socket vm_id cid)).
  { unfold Client.wait_container, rpc_no_timeout, rpc_with. io_solve. }
  destruct (Hio s) as [t Et]. rewrite E in Et. cbn in Et. by subst s'.
Qed.

(** A watcher whose daemon answers fills the cell with that answer. *)
Lemma run_watcher_daemon wa i s r s1 :
  wa_exit wa = ci_exit i -> sh_exits s !! ci_exit i = Some None ->
  Client.wait_container (wa_socket wa) (wa_vm_id wa) (wa_container_id wa) s = (r, s1) -> returns r = true ->
  exists s', run_watcher wa ByDaemon s = (Ok tt, s') /\
    instance_wait i s' = (Ok (match r with Ok (code, _) => code | _ => 137 end), s').
Proof.
  intros Hw Hc Er Hret. unfold run_watcher. rewrite Hw.
  assert (Hc1 : sh_exits s1 !! ci_exit i = Some None) by by rewrite (wait_container_exits _ _ _ _ _ _ Er).
  unfold attempt, mbind, M_bind. rewrite Er. destruct r as [ [code at_]|e| |]; try done; by apply set_exit_waits.
Qed.

(** C8: a shim that waits for a container is not left waiting. Whichever way the
    container's watcher ends, the wait returns: with the daemon's answer when there is
    one, with the code of a killed process when the daemon answers with an error, and
    with that code too as soon as a poll finds the hypervisor's process gone, however
    long that takes; and what it returned it returns from then on, whatever else sets
    the cell. *)
Theorem wait_always_ends wa i s :
  wa_exit wa = ci_exit i -> sh_exits s !! ci_exit i = Some None ->
  (forall r s1, Client.wait_container (wa_socket wa) (wa_vm_id wa) (wa_container_id wa) s = (r, s1) -> returns r = true ->
     exists s', run_watcher wa ByDaemon s = (Ok tt, s') /\
       instance_wait i s' = (Ok (match r with Ok (code, _) => code | _ => 137 end), s')) /\
  (forall n, env (sh_trace s ++ polled n (proc_path (wa_ch_pid wa))) (Exists (proc_path (wa_ch_pid wa))) = false ->
     exists s', run_watcher wa (ByPid (S n)) s = (Ok tt, s') /\ instance_wait i s' = (Ok 137, s')) /\
  (forall code s' cell code', instance_wait i s' = (Ok code, s') ->
     (instance_wait i (set_exit cell code' s').2).1 = Ok code).
Proof.
  intros Hw Hc. split_and!.
  - intros r s1 Er Hret. by eapply run_watcher_daemon.
  - intros n Hn. destruct (wait_for_pid_exit_returns n (wa_ch_pid wa) s Hn) as [t Et]. unfold run_watcher. rewrite Hw.
    rewrite (M_bind_run _ _ _ _ _ Et). by apply set_exit_waits.
  - intros code s' cell code' Hwt. unfold instance_wait in Hwt |- *.
    destruct (sh_exits s' !! ci_exit i) as [ [c|] |] eqn:E; simplify_eq. by rewrite (set_exit_stays (ci_exit i) code' cell code s' E).
Qed.
End Watch.

(** A watcher of a pod's container: the daemon is gone and so is the hypervisor by the
    third poll. *)
Definition a_watcher : watcher := watcher_for (inst "a" 0) (pod_state 1 "vm").
Definition dying_env : Env :=
  Build_Env (fun t c => match c return ans c with
    | Exists _ => bool_decide (length t < 4)%nat
    | c => calm (fun _ => None) (fun _ => false) c
    end) 1.

Lemma wait_always_ends_witness :
  exists s1 s2, @run_watcher dying_env bit_json a_watcher ByDaemon (one_pod 1 "vm") = (Ok tt, s1) /\
    instance_wait (inst "a" 0) s1 = (Ok 137, s1) /\
    @run_watcher dying_env bit_json a_watcher (ByPid 3) (one_pod 1 "vm") = (Ok tt, s2) /\
    instance_wait (inst "a" 0) s2 = (Ok 137, s2).
Proof.
  witness_run (@Client.wait_container dying_env bit_json _ _ (wa_socket a_watcher) (wa_vm_id a_watcher) (wa_container_id a_watcher) (one_pod 1 "vm")) w E.
  destruct (@wait_always_ends dying_env bit_json a_watcher (inst "a" 0) (one_pod 1 "vm")) as (Hd & Hp & _); [reflexivity..|].
  destruct (Hd _ _ E) as (s1 & E1 & W1); [reflexivity|]. destruct (Hp 2%nat) as (s2 & E2 & W2); [vm_compute; reflexivity|].
  exists s1, s2. split_and!; [exact E1|exact W1|exact E2|exact W2].
Defined.
