(* ===== verification/ShimInv.v ===== *)
(** * The shim's process, over every sequence of calls

    The operations containerd calls on the shim's instances, and the exit watchers, as
    events; what holds of the shared state after any sequence of them: every address
    leads somewhere, every number fits its Rust type, no operation panics, and an exit
    code once set is final. *)

From S2P Require Import Prelude RustStr Bytes Netlink NetlinkOps Proto Sys Json Lifecycle Api ApiProps Client ShimUtil Config.
From S2P Require Import Shim ShimProps Watch.
From Stdlib Require String.
Local Open Scope Z_scope.

(** ** The invariant *)

Definition state_typed (st : SharedVmState) : Prop :=
  in_range 32 (sv_ch_pid st) /\ in_range 64 (sv_container_count st).

Record shim_ok (s : shim) : Prop := {
  (* [VMS] leads to states, watchers to cells *)
  so_vms sid a : sh_vms s !! sid = Some a -> (a < length (sh_heap s))%nat;
  so_cells wa : wa ∈ sh_watchers s -> (wa_exit wa < length (sh_exits s))%nat;
  (* u32 pids, usize counts, u32 exit codes *)
  so_heap a st : sh_heap s !! a = Some st -> state_typed st;
  so_codes c code : sh_exits s !! c = Some (Some code) -> in_range 32 code;
  so_pids wa : wa ∈ sh_watchers s -> in_range 32 (wa_ch_pid wa);
}.

(** Nothing that was handed out is taken back, and a code that was set stays. *)
Record grows (s s' : shim) : Prop := {
  gr_heap : (length (sh_heap s) <= length (sh_heap s'))%nat;
  gr_exits : (length (sh_exits s) <= length (sh_exits s'))%nat;
  gr_codes c code : sh_exits s !! c = Some (Some code) -> sh_exits s' !! c = Some (Some code);
}.

#[export] Instance grows_preorder : PreOrder grows.
Proof.
  split; [by constructor|]. intros s1 s2 s3 [h1 e1 c1] [h2 e2 c2]. constructor; [lia|lia|]. intros. by apply c2, c1.
Qed.

(** ** Triples *)

(** From a state with [P], [m] keeps the invariant, does not panic, and what it
    returns has [Q]. *)
Definition hoare {A} (P : shim -> Prop) (m : M shim A) (Q : A -> shim -> Prop) : Prop := forall s,
  shim_ok s -> P s ->
  shim_ok (m s).2 /\ grows s (m s).2 /\ (m s).1 <> Panic /\ forall a, (m s).1 = Ok a -> Q a (m s).2.

Class Stable (P : shim -> Prop) : Prop := stable s s' : grows s s' -> P s -> P s'.
#[export] Instance stable_const (p : Prop) : Stable (fun _ => p).
Proof. by intros s s' _. Qed.
#[export] Instance stable_and P Q `{!Stable P, !Stable Q} : Stable (fun s => P s /\ Q s).
Proof. intros s s' Hg [HP HQ]. split; by eapply stable. Qed.
#[export] Instance stable_arc a : Stable (fun s => (a < length (sh_heap s))%nat).
Proof. intros s s' [Hh _ _] Ha. lia. Qed.
#[export] Instance stable_cell c : Stable (fun s => (c < length (sh_exits s))%nat).
Proof. intros s s' [_ He _] Ha. lia. Qed.

Definition any {A} (_ : A) (_ : shim) : Prop := True.

(** The tables, untouched. *)
Definition tables (s s' : shim) : Prop :=
  sh_vms s' = sh_vms s /\ sh_heap s' = sh_heap s /\ sh_exits s' = sh_exits s /\ sh_watchers s' = sh_watchers s.

#[export] Instance tables_preorder : PreOrder tables.
Proof. split; [by intros s|]. intros s1 s2 s3 (?&?&?&?) (?&?&?&?). repeat split; congruence. Qed.

Lemma tables_ok s s' : tables s s' -> shim_ok s -> shim_ok s' /\ grows s s'.
Proof.
  destruct s, s'. intros (?&?&?&?) []. cbn in *. subst. split; [by constructor|]. by constructor.
Qed.

Section Triples.
Context `{Env, SerdeDerive, Anyhow, Base64}.

Lemma hoare_bind {A B} P (m : M shim A) (f : A -> M shim B) Q R `{!Stable P} :
  hoare P m Q -> (forall a, hoare (fun s => P s /\ Q a s) (f a) R) -> hoare P (m ≫= f) R.
Proof.
  intros Hm Hf s Hok HP. unfold mbind, M_bind. destruct (Hm s Hok HP) as (Hok' & Hg & Hn & HQ).
  destruct (m s) as [r s']. cbn in *. destruct r as [a|e| |]; try done.
  destruct (Hf a s' Hok') as (Hok2 & Hg2 & Hn2 & HR); [by split; [eapply stable|apply HQ]|].
  split_and!; [done|by etrans|done|done].
Qed.

Lemma hoare_weaken {A} (P P' : shim -> Prop) (m : M shim A) (Q Q' : A -> shim -> Prop) :
  (forall s, P' s -> P s) -> (forall a s, Q a s -> Q' a s) -> hoare P m Q -> hoare P' m Q'.
Proof. intros HP HQ Hm s Hok Hp. destruct (Hm s Hok (HP s Hp)) as (? & ? & ? & ?). split_and!; auto. Qed.

(** An operation that leaves the tables alone. *)
Lemma hoare_tables {A} P (m : M shim A) (Q : A -> Prop) :
  moves tables m -> (forall s, (m s).1 <> Panic) -> (forall s a, (m s).1 = Ok a -> Q a) -> hoare P m (fun a _ => Q a).
Proof.
  intros Hm Hn HQ s Hok _. destruct (tables_ok _ _ (Hm s) Hok). split_and!; try done; eauto.
Qed.
Lemma tables_io {A} (m : M shim A) : io_only m -> moves tables m.
Proof. apply moves_io. by intros t w. Qed.
Lemma hoare_io {A} P (m : M shim A) : io_only m -> no_panic m -> hoare P m any.
Proof.
  intros Hm Hn. apply (hoare_tables P m (fun _ => True)); [|by intros s; specialize (Hn s); destruct (m s).1|done].
  by apply tables_io.
Qed.
Lemma hoare_ret {A} P (a : A) (Q : A -> shim -> Prop) : (forall s, P s -> Q a s) -> hoare P (mret a) Q.
Proof. intros HQ s Hok HP. split_and!; [done|done|done|]. intros a' [= <-]. auto. Qed.
Lemma hoare_attempt {A} P (m : M shim A) : hoare P m any -> hoare P (attempt m) any.
Proof.
  intros Hm s Hok HP. destruct (Hm s Hok HP) as (? & ? & ? & ?). unfold attempt. destruct (m s) as [r s'].
  by destruct r.
Qed.
Lemma hoare_ignore {A} P (m : M shim A) `{!Stable P} : hoare P m any -> hoare P (ignore m) any.
Proof. intros Hm. eapply hoare_bind; [done|by apply hoare_attempt|]. intros r. by apply hoare_ret. Qed.
Lemma hoare_map_any {A} P msg (m : M shim A) Q : hoare P m Q -> hoare P (map_any msg m) Q.
Proof.
  intros Hm s Hok HP. destruct (Hm s Hok HP) as (? & ? & ? & HQ). unfold map_any. destruct (m s) as [r s'].
  destruct r; by split_and!.
Qed.

(** ** The network's clean-up touches nothing of it *)

Lemma tables_nl {A} (m : M sock A) : moves tables (nl m).
Proof. intros s. unfold nl. by destruct (m (sh_sock s)). Qed.
Lemma tables_setns n : moves tables (setns n).
Proof. intros s. unfold setns. rewrite sys_run. by destruct (env _ _). Qed.
Lemma tables_guarded {A} o (m : M shim A) : moves tables m -> moves tables (guarded o m).
Proof.
  intros Hm s. unfold guarded. specialize (Hm s). destruct (m s) as [r s']. cbn in Hm.
  pose proof (moves_ignore tables _ (tables_setns o) s') as Hi. by destruct r; try done; etrans.
Qed.
Lemma tables_clean tap : moves tables (clean_links tap).
Proof.
  unfold clean_links. apply moves_bind; [apply _|apply moves_attempt, tables_nl|intros o].
  repeat first [apply moves_bind; [apply _| |intros ?]|apply moves_attempt, tables_nl|apply moves_ignore; [apply _|]; apply tables_nl
    |apply moves_ret; apply _|case_match].
Qed.
Lemma hoare_cleanup P st : hoare P (cleanup_state_tap st) any.
Proof.
  unfold cleanup_state_tap. case_match; [|by apply hoare_ret]. case_match; [|by apply hoare_ret].
  apply (hoare_tables P _ (fun _ => True)); [|intros s1; unfold cleanup_tap, detached; by destruct (in_netns_nowait _ _ _) as [ [] ?]|done].
  intros s1. unfold cleanup_tap, detached. 
  assert (Hm : moves tables (in_netns_nowait s (clean_links s0))).
  { unfold in_netns_nowait. pose proof (tables_clean s0). pose proof tables_setns. pose proof @tables_guarded.
    unfold open_ns. repeat first [assumption|solve [auto]|apply moves_bind; [apply _| |intros ?]|apply moves_ctx|apply moves_gets; apply _
      |apply moves_fail; apply _|apply moves_lift; apply _|apply tables_io; solve [io_solve]|case_match]. }
  specialize (Hm s1). destruct (in_netns_nowait _ _ s1) as [r s']. by destruct r.
Qed.
End Triples.

(** ** The operations *)

Section Operations.
Context `{Env, SerdeDerive, Anyhow, Base64}.

Lemma no_panic_any {A} msg (m : M shim A) : no_panic m -> no_panic (map_any msg m).
Proof. intros Hm s. specialize (Hm s). unfold map_any. destruct (m s) as [r s']. by destruct r. Qed.
Lemma io_any {A} msg (m : M shim A) : io_only m -> io_only (map_any msg m).
Proof. intros Hm s. destruct (Hm s) as [t Ht]. exists t. unfold map_any. destruct (m s) as [r s']. by destruct r. Qed.
#[local] Hint Resolve no_panic_any io_any : rust.

Lemma io_rpc sock timeout req : io_only (W := shim) (rpc_with sock timeout req).
Proof. unfold rpc_with. io_solve. Qed.
#[local] Hint Resolve io_rpc rpc_returns : rust.

Lemma hoare_rpc P sock timeout req : hoare P (rpc_with sock timeout req) any.
Proof. apply hoare_io; [apply io_rpc|apply rpc_returns]. Qed.
Lemma hoare_lift {A} P (r : result A) (Q : A -> shim -> Prop) :
  r <> Panic -> (forall a s, r = Ok a -> P s -> Q a s) -> hoare P (lift r) Q.
Proof. intros Hn HQ s Hok HP. split_and!; [done|done|done|]. intros a Ha. by apply HQ. Qed.

Lemma check_returns v m : check_error v m <> Panic.
Proof. unfold check_error. by case_match. Qed.

(** What a client is given is cut to the width of its field. *)
Lemma hoare_acquire P sock p `{!Stable P} :
  hoare P (acquire_sandbox sock p) (fun av _ => in_range 32 (av_ch_pid av)).
Proof.
  eapply hoare_bind; [done|apply hoare_rpc|]. intros v.
  assert (Hr : returns (read_acquired v) = true /\ forall av, read_acquired v = Ok av -> in_range 32 (av_ch_pid av)).
  { unfold read_acquired. pose proof (returns_check v "AcquireSandbox"). destruct (check_error v _); try done.
    destruct (get "vm_id" v ≫= as_str); try done. cbn. destruct (get "ch_pid" v ≫= as_u64); try done. cbn.
    split; [done|]. intros av [= <-]. apply wrap_range. lia. }
  destruct Hr as [Hr Hav]. apply hoare_lift; [by intros E; rewrite E in Hr|]. intros av s E _. by apply Hav.
Qed.
Lemma hoare_add P sock v e c j `{!Stable P} : hoare P (add_container sock v e c j) any.
Proof.
  eapply hoare_bind; [done|apply hoare_rpc|]. intros r. eapply (hoare_bind _ _ _ any); [apply _|apply hoare_lift; [apply check_returns|done]|].
  intros u. by apply hoare_ret.
Qed.
Lemma hoare_checked P sock timeout req m `{!Stable P} :
  hoare P (resp ← rpc_with sock timeout req; lift (check_error resp m)) any.
Proof. eapply hoare_bind; [done|apply hoare_rpc|]. intros r. apply hoare_lift; [apply check_returns|done]. Qed.
Lemma hoare_release P sock v `{!Stable P} : hoare P (release_sandbox sock v) any.
Proof. by apply hoare_checked. Qed.
Lemma hoare_kill P sock v c n `{!Stable P} : hoare P (kill_container sock v c n) any.
Proof. by apply hoare_checked. Qed.
Lemma hoare_delete P sock v c `{!Stable P} : hoare P (delete_container sock v c) any.
Proof. by apply hoare_checked. Qed.
Lemma hoare_wait_container P sock v c `{!Stable P} :
  hoare P (wait_container sock v c) (fun x _ => in_range 32 x.1).
Proof.
  eapply hoare_bind; [done|apply hoare_rpc|]. intros r. unfold read_waited.
  pose proof (returns_check r "WaitContainer") as Hc. apply hoare_lift; [by destruct (check_error r _)|].
  intros [code at_] s Ha _. destruct (check_error r _); try done. injection Ha as <- <-. apply wrap_range. lia.
Qed.

Lemma hoare_get_vm P sid : hoare P (get_vm sid) (fun o s => match o with
  | Some (a, st) => (a < length (sh_heap s))%nat /\ state_typed st | None => True end).
Proof.
  intros s Hok _. unfold get_vm, gets. cbn [fst snd]. split_and!; [done|done|done|]. intros o [= <-].
  destruct (sh_vms s !! sid) as [a|] eqn:Ea; [|done]. cbn. destruct (sh_heap s !! a) as [st|] eqn:Est; [|done]. cbn.
  split; [by eapply so_vms|by eapply so_heap].
Qed.
Lemma hoare_deref P a : (forall s, P s -> (a < length (sh_heap s))%nat) -> hoare P (deref a) (fun st _ => state_typed st).
Proof.
  intros Ha s Hok HP. destruct (lookup_lt_is_Some_2 (sh_heap s) a (Ha s HP)) as [st Hst]. unfold deref. rewrite Hst.
  split_and!; [done|done|done|]. intros st' [= <-]. by eapply so_heap.
Qed.
Lemma hoare_fetch_add P a n : (forall s, P s -> (a < length (sh_heap s))%nat) -> hoare P (fetch_add a n) any.
Proof.
  intros Ha s Hok HP. destruct (lookup_lt_is_Some_2 (sh_heap s) a (Ha s HP)) as [st Hst]. unfold fetch_add. rewrite Hst. cbn.
  destruct Hok as [Hv Hc Hh He Hp]. destruct (Hh _ _ Hst) as [Hpid Hcnt]. split_and!; [|constructor; cbn; rewrite ?length_insert; done|done|done].
  constructor; cbn; try done.
  - intros sid b. rewrite length_insert. apply Hv.
  - intros b st' Hb. destruct (decide (a = b)) as [<-|Hne].
    + rewrite list_lookup_insert_eq in Hb by by eapply lookup_lt_Some. injection Hb as <-. split; [done|]. apply wrap_range. lia.
    + rewrite list_lookup_insert_ne in Hb by done. by eapply Hh.
Qed.
Lemma hoare_insert_vm P sid st : state_typed st -> hoare P (insert_vm sid st) (fun a s => (a < length (sh_heap s))%nat).
Proof.
  intros Ht s [Hv Hc Hh He Hp] HP. cbn. split_and!; [|constructor; cbn; rewrite ?length_app; try done; lia|done|].
  - constructor; cbn; try done.
    + intros sid' a. rewrite length_app. cbn. destruct (decide (sid' = sid)) as [->|]; rewrite ?lookup_insert_eq, ?lookup_insert_ne by done.
      * intros [= <-]. lia.
      * intros Ha%Hv. lia.
    + intros a st' [Ha|[_ Ha] ]%lookup_app_Some; [by eapply Hh|]. by apply list_lookup_singleton_Some in Ha as [_ <-].
  - intros a [= <-]. rewrite length_app. cbn. lia.
Qed.
Lemma hoare_remove_vm P sid : hoare P (remove_vm sid) any.
Proof.
  intros s [Hv Hc Hh He Hp] HP. cbn. split_and!; [|by constructor|done|done]. constructor; cbn; try done.
  intros sid' a [_ Ha]%lookup_delete_Some. by eapply Hv.
Qed.
Lemma hoare_set_exit P c code : in_range 32 code -> hoare P (set_exit c code) any.
Proof.
  intros Hcode s Hok HP. unfold set_exit, modify. cbn. destruct (sh_exits s !! c) as [ [old|]|] eqn:E; [by split_and!| |by split_and!].
  destruct Hok as [Hv Hc Hh He Hp]. split_and!; [| |done|done].
  - constructor; cbn; try done.
    + intros wa. rewrite length_insert. apply Hc.
    + intros c' code' Hc'. destruct (decide (c = c')) as [<-|Hne].
      * rewrite list_lookup_insert_eq in Hc' by by eapply lookup_lt_Some. by injection Hc' as <-.
      * rewrite list_lookup_insert_ne in Hc' by done. by eapply He.
  - constructor; cbn; rewrite ?length_insert; try done. intros c' code' Hc'.
    rewrite list_lookup_insert_ne; [done|]. intros ->. congruence.
Qed.
Lemma hoare_new_cell P : hoare P new_cell (fun c s => (c < length (sh_exits s))%nat).
Proof.
  intros s [Hv Hc Hh He Hp] HP. cbn. split_and!; [|constructor; cbn; rewrite ?length_app; try lia; intros; by apply lookup_app_l_Some|done|].
  - constructor; cbn; try done.
    + intros wa Hw%Hc. rewrite length_app. lia.
    + intros c code [Ha|[_ Ha] ]%lookup_app_Some; [by eapply He|]. by apply list_lookup_singleton_Some in Ha as [_ ?].
  - intros c [= <-]. rewrite length_app. cbn. lia.
Qed.
Lemma hoare_watch P wa : in_range 32 (wa_ch_pid wa) -> (forall s, P s -> (wa_exit wa < length (sh_exits s))%nat) ->
  hoare P (modify (fun s => set_watchers (sh_watchers s ++ [wa]) s)) any.
Proof.
  intros Hpid Hcell s [Hv Hc Hh He Hp] HP. cbn. split_and!; [|by constructor|done|done]. constructor; cbn; try done.
  - intros wa' [?|Hw]%elem_of_app; [by apply Hc|]. apply list_elem_of_singleton in Hw as ->. by apply Hcell.
  - intros wa' [?|Hw]%elem_of_app; [by apply Hp|]. by apply list_elem_of_singleton in Hw as ->.
Qed.

(** ** The [Instance] trait *)

Lemma hoare_read_spec P b `{!Stable P} : hoare P (read_spec b) any.
Proof.
  apply hoare_io; unfold read_spec, read_to_string; io_solve; apply no_panic_any, no_panic_lift, returns_lib_res.
Qed.

Lemma hoare_instance_new P id b `{!Stable P} :
  hoare P (instance_new id b) (fun i s => (ci_exit i < length (sh_exits s))%nat).
Proof.
  eapply hoare_bind; [done|by apply hoare_read_spec|intros v]. eapply hoare_bind; [apply _|apply hoare_new_cell|intros c].
  apply hoare_ret. by intros s [_ Hc].
Qed.

Lemma hoare_start_sandbox P i `{!Stable P} : hoare P (start_sandbox i) any.
Proof.
  eapply (hoare_bind _ _ _ any); [done|apply hoare_io; unfold parse_sandbox_spec; io_solve|intros sp].
  eapply (hoare_bind _ _ _ any); [apply _|apply hoare_map_any, hoare_io; unfold load_config; io_solve;
    by destruct (runtime_from_str _)|intros rc].
  eapply hoare_bind; [apply _|apply hoare_insert_vm; split; cbn; unfold in_range; lia|intros a]. by apply hoare_ret.
Qed.

Lemma hoare_prepare P i `{!Stable P} : hoare P (start_prepare i) (fun p s => (pr_arc p < length (sh_heap s))%nat).
Proof.
  assert (Hero : forall n k e r c, io_only (prepare_erofs_retry (W := shim) n k e r c) /\ no_panic (prepare_erofs_retry (W := shim) n k e r c)).
  { induction n as [|n IH]; intros k e r c; cbn [prepare_erofs_retry]; [split; io_solve|].
    assert (io_only (W := shim) (prepare_erofs r c)) by (unfold prepare_erofs, build_erofs; io_solve).
    assert (no_panic (W := shim) (prepare_erofs r c)) by (unfold prepare_erofs, build_erofs; io_solve; apply no_panic_any; io_solve).
    split; io_solve; by apply IH. }
  unfold start_prepare. eapply hoare_bind; [done|apply hoare_get_vm|intros o]. destruct o as [ [a st]|].
  2:{ intros s Hok _. cbn. by split_and!. }
  eapply (hoare_bind _ _ _ (fun x _ => x.1 = a)); [apply _|apply hoare_lift; [done|by intros x s [= <-] _]|]. intros [a' st']. cbn [fst].
  eapply (hoare_bind _ _ _ any); [apply _|apply hoare_io; unfold image_key_from_spec, resolve_image_digest; io_solve|intros k].
  eapply (hoare_bind _ _ _ any); [apply _|apply hoare_io; apply Hero|intros e].
  eapply (hoare_bind _ _ _ any); [apply _|apply hoare_io; io_solve|intros r].
  apply hoare_ret. cbn. intros s Hs. by decompose [and] Hs; subst.
Qed.

Lemma hoare_start_first P i p st `{!Stable P} :
  hoare P (start_first i p st) (fun x s => (x.1 < length (sh_heap s))%nat).
Proof.
  eapply hoare_bind; [done|apply hoare_map_any, hoare_acquire; done|intros av].
  eapply (hoare_bind _ _ _ (fun n _ => in_range 64 n)); [apply _| |intros n].
  { intros s Hok _. cbn. split_and!; [done|done|done|]. intros n [= <-].
    destruct (sh_heap s !! pr_arc p) as [st'|] eqn:E; [by apply (so_heap _ Hok _ _ E)|unfold in_range; lia]. }
  intros s Hok ((HP & Hpid) & Hn). revert s Hok HP. change (hoare P (a ← insert_vm (ci_sandbox_id i) (mkSharedVmState (av_ch_pid av) n
        (if String.eqb (av_tap_name av) "" then None else Some (av_tap_name av))
        (sv_netns st) (sv_cgroups_path st) (av_vm_id av) (sv_daemon_socket st));
    match sv_cgroups_path st with Some cg => ignore (place_in_pod_cgroup (av_ch_pid av) cg) | None => mret tt end;;
    mret (a, av_container_pid av)) (fun x s => (x.1 < length (sh_heap s))%nat)).
  eapply hoare_bind; [done|by apply hoare_insert_vm|intros a].
  eapply (hoare_bind _ _ _ any); [apply _| |intros u; apply hoare_ret; by intros s [ [_ Ha] _] ].
  case_match; [|by apply hoare_ret]. apply hoare_ignore; [apply _|].
  apply hoare_io; unfold place_in_pod_cgroup; io_solve.
Qed.

Lemma hoare_start_commit P i p st `{!Stable P} :
  (forall s, P s -> (ci_exit i < length (sh_exits s))%nat) -> (forall s, P s -> (pr_arc p < length (sh_heap s))%nat) ->
  hoare P (start_commit i p st) any.
Proof.
  intros Hc Ha. unfold start_commit. eapply (hoare_bind _ _ _ (fun x s => (x.1 < length (sh_heap s))%nat)); [done| |intros [a pid] ].
  { case_match; [by apply hoare_start_first|]. eapply hoare_bind; [done|by apply hoare_map_any, hoare_add|intros pid].
    apply hoare_ret. intros s [HP _]. by apply Ha. }
  cbn [fst]. eapply hoare_bind; [apply _|by apply hoare_deref; intros s [_ ?]|intros st']. intros s Hok ( (HP & Hl) & Ht).
  revert s Hok HP Hl. intros s Hok HP Hl.
  refine (hoare_bind (fun s => P s /\ (a < length (sh_heap s))%nat) _ _ any any _ _ s Hok (conj HP Hl)).
  { apply hoare_watch; [apply Ht|]. intros s' [HP' _]. by apply Hc. }
  intros u. eapply hoare_bind; [apply _|apply hoare_fetch_add; by intros s' [ [_ ?] _]|]. intros n. by apply hoare_ret.
Qed.

Lemma hoare_instance_start P i `{!Stable P} :
  (forall s, P s -> (ci_exit i < length (sh_exits s))%nat) -> hoare P (instance_start i) any.
Proof.
  intros Hc. eapply hoare_bind; [done|by apply hoare_read_spec|intros v]. cbv zeta. case_match; [apply hoare_start_sandbox; apply _|].
  eapply hoare_bind; [apply _|apply hoare_prepare; apply _|intros p].
  eapply hoare_bind; [apply _|by apply hoare_deref; intros s [_ ?]|intros st].
  apply hoare_start_commit; [apply _|by intros s ( ( (? & _) & _) & _); auto|by intros s ( (_ & ?) & _)].
Qed.

Lemma hoare_instance_kill P i sig `{!Stable P} : hoare P (instance_kill i sig) any.
Proof.
  assert (Hz : in_range 32 0) by (unfold in_range; lia).
  eapply hoare_bind; [done|apply hoare_get_vm|intros o]. destruct o as [ [a st]|]; [|by apply hoare_set_exit].
  case_match; [|apply hoare_ignore; [apply _|apply hoare_kill; apply _] ].
  eapply (hoare_bind _ _ _ any); [apply _|case_match; [by apply hoare_ret|apply hoare_ignore; [apply _|apply hoare_release; apply _] ]|intros u1].
  eapply hoare_bind; [apply _|apply hoare_cleanup|intros u2]. eapply hoare_bind; [apply _|apply hoare_remove_vm|intros u3].
  by apply hoare_set_exit.
Qed.

Lemma hoare_instance_delete P i `{!Stable P} : hoare P (instance_delete i) any.
Proof.
  eapply hoare_bind; [done|apply hoare_get_vm|intros o].
  eapply (hoare_bind _ _ _ any); [destruct o as [ [a st]|]; apply _| |intros u; apply hoare_set_exit; unfold in_range; lia].
  destruct o as [ [a st]|]; [|by apply hoare_ret].
  eapply hoare_bind; [apply _|apply hoare_fetch_add; by intros s [_ [? _] ]|intros prev].
  case_match; [|apply hoare_ignore; [apply _|apply hoare_delete; apply _] ].
  eapply hoare_bind; [apply _|apply hoare_ignore; [apply _|apply hoare_release; apply _]|intros u1].
  eapply hoare_bind; [apply _|apply hoare_cleanup|intros u2]. apply hoare_remove_vm.
Qed.

Lemma hoare_run_watcher P wa f `{!Stable P} : hoare P (run_watcher wa f) any.
Proof.
  assert (H137 : in_range 32 137) by (unfold in_range; lia). destruct f as [|n]; unfold run_watcher.
  - intros s Hok HP. destruct (hoare_wait_container P (wa_socket wa) (wa_vm_id wa) (wa_container_id wa) s Hok HP) as (Hok' & Hg & Hn & Hq).
    unfold attempt, mbind, M_bind. destruct (wait_container _ _ _ s) as [r s']. cbn in *. destruct r as [ [code at_]|e| |]; try done.
    + destruct (hoare_set_exit P (wa_exit wa) code (Hq _ eq_refl) s' Hok' (stable _ _ Hg HP)) as (? & ? & ? & ?).
      split_and!; [done|by etrans|done|done].
    + destruct (hoare_set_exit P (wa_exit wa) 137 H137 s' Hok' (stable _ _ Hg HP)) as (? & ? & ? & ?).
      split_and!; [done|by etrans|done|done].
  - eapply (hoare_bind _ _ _ any); [done| |intros u; by apply hoare_set_exit].
    apply (hoare_tables P _ (fun _ => True)); [| |done].
    + apply tables_io. induction n; cbn [wait_for_pid_exit]; io_solve.
    + induction n as [|n IH]; intros s; [done|]. rewrite poll_step. case_match; [apply IH|done].
Qed.
End Operations.

(** ** The process *)

Record shim_process := mkShimProcess { sp_shim : shim; sp_insts : list CloudHvInstance }.

(** What containerd asks for, of the [k]-th instance, and what the watchers do. *)
Inductive shevent :=
| ShNew (id bundle : string)
| ShStart (k : nat)
| ShKill (k : nat) (sig : Z)
| ShDelete (k : nat)
| ShWatch (j : nat) (f : first_done).

Section Process.
Context `{Env, SerdeDerive, Anyhow, Base64}.

(** An operation on the [k]-th instance; its outcome and the state after it. *)
Definition on_inst {A} (k : nat) (m : CloudHvInstance -> M shim A) (p : shim_process) : option (result unit) * shim_process :=
  match sp_insts p !! k with
  | Some i => let (r, s') := (m i;; mret tt) (sp_shim p) in (Some r, mkShimProcess s' (sp_insts p))
  | None => (None, p)
  end.

Definition sh_step (ev : shevent) (p : shim_process) : option (result unit) * shim_process :=
  match ev with
  | ShNew id b =>
      match instance_new id b (sp_shim p) with
      | (Ok i, s') => (Some (Ok tt), mkShimProcess s' (sp_insts p ++ [i]))
      | (r, s') => (Some (r;; Ok tt), mkShimProcess s' (sp_insts p))
      end
  | ShStart k => on_inst k instance_start p
  | ShKill k sig => on_inst k (fun i => instance_kill i sig) p
  | ShDelete k => on_inst k instance_delete p
  | ShWatch j f =>
      match sh_watchers (sp_shim p) !! j with
      | Some wa => let (r, s') := run_watcher wa f (sp_shim p) in (Some r, mkShimProcess s' (sp_insts p))
      | None => (None, p)
      end
  end.

Definition sh_run (evs : list shevent) (p : shim_process) : shim_process := foldl (fun p ev => (sh_step ev p).2) p evs.

Definition process_ok (p : shim_process) : Prop :=
  shim_ok (sp_shim p) /\ forall i, i ∈ sp_insts p -> (ci_exit i < length (sh_exits (sp_shim p)))%nat.

Definition step_ok (p : shim_process) (x : option (result unit) * shim_process) : Prop :=
  process_ok x.2 /\ grows (sp_shim p) (sp_shim x.2) /\ x.1 <> Some Panic.

Lemma step_ok_same p : process_ok p -> step_ok p (None, p).
Proof. intros Hp. split; [exact Hp|]. split; [reflexivity|discriminate]. Qed.

Lemma on_inst_ok {A} k (m : CloudHvInstance -> M shim A) p :
  process_ok p ->
  (forall i, hoare (fun s => (ci_exit i < length (sh_exits s))%nat) (m i) any) -> step_ok p (on_inst k m p).
Proof.
  intros [Hok Hc] Hm. unfold on_inst. destruct (sp_insts p !! k) as [i|] eqn:Ei; [|by apply step_ok_same].
  assert (Hi : i ∈ sp_insts p) by by eapply list_elem_of_lookup_2.
  assert (Hx : hoare (fun s => (ci_exit i < length (sh_exits s))%nat) (m i;; mret tt) any).
  { eapply hoare_bind; [apply _|apply Hm|]. intros a. by apply hoare_ret. }
  destruct (Hx _ Hok (Hc i Hi)) as (Hok' & Hg & Hn & _).
  destruct ((m i;; mret tt) (sp_shim p)) as [r s']. cbn in *. split; [split; [done|]|split; [done|cbn; congruence] ].
  intros i' Hi'. cbn in *. specialize (Hc i' Hi'). destruct Hg. lia.
Qed.

Lemma sh_step_ok ev p : process_ok p -> step_ok p (sh_step ev p).
Proof.
  intros Hp. destruct ev as [id b|k|k sig|k|j f]; cbn [sh_step].
  - destruct Hp as [Hok Hc].
    destruct (hoare_instance_new (fun _ => True) id b (sp_shim p) Hok I) as (Hok' & Hg & Hn & Hq).
    destruct (instance_new id b (sp_shim p)) as [r s']. cbn in *.
    assert (Hc' : forall i, i ∈ sp_insts p -> (ci_exit i < length (sh_exits s'))%nat)
      by (intros i Hi; specialize (Hc i Hi); destruct Hg; lia).
    destruct r as [i|e| |]; try done; (split; [split; [done|]|split; [done|by intros [=] ] ]).
    1: intros i' [Hi|Hi]%elem_of_app; [by apply Hc'|apply list_elem_of_singleton in Hi as ->; by apply Hq].
    all: exact Hc'.
  - apply on_inst_ok; [done|]. intros i. apply hoare_instance_start; [apply _|done].
  - apply on_inst_ok; [done|]. intros i. apply hoare_instance_kill, _.
  - apply on_inst_ok; [done|]. intros i. apply hoare_instance_delete, _.
  - destruct Hp as [Hok Hc]. destruct (sh_watchers (sp_shim p) !! j) as [wa|] eqn:E; [|by apply step_ok_same].
    destruct (hoare_run_watcher (fun _ => True) wa f (sp_shim p) Hok I) as (Hok' & Hg & Hn & _).
    destruct (run_watcher wa f (sp_shim p)) as [r s']. cbn in *. split; [split; [done|]|split; [done|cbn; congruence] ].
    intros i Hi. cbn in *. specialize (Hc i Hi). destruct Hg. lia.
Qed.

Lemma sh_run_ok evs p : process_ok p -> process_ok (sh_run evs p) /\ grows (sp_shim p) (sp_shim (sh_run evs p)).
Proof.
  revert p. induction evs as [|ev evs IH]; intros p Hp; [done|]. cbn [sh_run foldl].
  destruct (sh_step_ok ev p Hp) as (Hp' & Hg & _). destruct (IH _ Hp') as [Hr Hg']. split; [done|by etrans].
Qed.

Definition shim_start (ns : string) (k : sock) : shim_process := mkShimProcess (mkShim ∅ [] [] [] ns k []) [].

Lemma shim_start_ok ns k : process_ok (shim_start ns k).
Proof. split; [constructor; cbn; try done; by intros wa Hw%elem_of_nil|]. by intros i Hi%elem_of_nil. Qed.

(** C7: the shim's state is well typed at all times: after any sequence of calls by
    containerd and of ends of watchers, whatever the daemon, the kernel and the file system
    answered, the table of VMs leads to states and the watchers to exit cells, pids and
    exit codes fit 32 bits and container counts 64, and the next call does not panic,
    whichever it is. And an exit code that a wait has returned is final: every later wait
    for that instance returns it again, whatever has happened since. *)
Theorem shim_well_typed ns k evs :
  let p := sh_run evs (shim_start ns k) in
  process_ok p /\
  (forall ev, (sh_step ev p).1 <> Some Panic) /\
  (forall i code s evs', instance_wait i (sp_shim p) = (Ok code, s) ->
     instance_wait i (sp_shim (sh_run evs' p)) = (Ok code, sp_shim (sh_run evs' p)) /\ in_range 32 code).
Proof.
  intros p. destruct (sh_run_ok evs _ (shim_start_ok ns k)) as [Hp _]. fold p in Hp. split_and!; [done| |].
  - intros ev. by destruct (sh_step_ok ev p Hp) as (_ & _ & ?).
  - intros i code s evs' Hw. destruct (sh_run_ok evs' p Hp) as [_ Hg]. unfold instance_wait in *.
    destruct (sh_exits (sp_shim p) !! ci_exit i) as [ [c|]|] eqn:E; try done. injection Hw as <- _.
    rewrite (gr_codes _ _ Hg _ _ E). split; [done|]. destruct Hp as [Hok _]. by eapply so_codes.
Qed.
End Process.
