(* ===== verification/Agent.v ===== *)
(** * The guest agent's containers ([crates/agent/src/container.rs])

    [ContainerManager], the tasks it spawns, and the two waits on the kernel
    (a device node through inotify, a child through its pidfd). The watch channels
    and the log buffers are shared ([Arc], [watch::Receiver]): the maps hold their
    addresses. Logging is left out. *)

From S2P Require Import Prelude RustStr Bytes Netlink NetlinkOps Proto Sys Json.
From Stdlib Require Import Ascii.
From Stdlib Require String.
Local Open Scope Z_scope.

Inductive ContainerState := Created | Running | Stopped.
#[export] Instance ContainerState_eq_dec : EqDecision ContainerState.
Proof. solve_decision. Defined.

Record Container := mkContainer { ct_pid : option Z; ct_exit_code : option Z; ct_state : ContainerState }.
Record ExitStatus := mkExitStatus { ex_code : Z; ex_exited_at : string }.
Record ContainerLogs := mkContainerLogs { lg_stdout : string; lg_stderr : string; lg_eof : bool }.

Record InlineFileInfo := mkInlineFileInfo { fi_path : string; fi_content : string; fi_mode : Z }.
Record VolumeInfo := mkVolumeInfo {
  vi_destination : string; vi_source : string; vi_readonly : bool; vi_is_block : bool; vi_fs_type : string;
  vi_inline_files : list InlineFileInfo }.

(** A task waiting for a child: its pid, the channel and the log buffer it will
    write to. *)
Record exit_task := mkExitTask { et_pid : Z; et_chan : nat; et_log : nat }.

Record agent := mkAgent {
  ag_containers : gmap string Container;
  ag_known_disks : gset string;
  ag_exit_receivers : gmap string nat;
  ag_chans : list (option ExitStatus);
  ag_logs : gmap string nat;
  ag_bufs : list ContainerLogs;
  ag_tasks : list exit_task;
  ag_sock : sock;
  ag_trace : list call }.

Definition set_containers (x : gmap string Container) (a : agent) : agent :=
  mkAgent x (ag_known_disks a) (ag_exit_receivers a) (ag_chans a) (ag_logs a) (ag_bufs a) (ag_tasks a) (ag_sock a) (ag_trace a).
Definition set_known (x : gset string) (a : agent) : agent :=
  mkAgent (ag_containers a) x (ag_exit_receivers a) (ag_chans a) (ag_logs a) (ag_bufs a) (ag_tasks a) (ag_sock a) (ag_trace a).
Definition set_receivers (x : gmap string nat) (a : agent) : agent :=
  mkAgent (ag_containers a) (ag_known_disks a) x (ag_chans a) (ag_logs a) (ag_bufs a) (ag_tasks a) (ag_sock a) (ag_trace a).
Definition set_chans (x : list (option ExitStatus)) (a : agent) : agent :=
  mkAgent (ag_containers a) (ag_known_disks a) (ag_exit_receivers a) x (ag_logs a) (ag_bufs a) (ag_tasks a) (ag_sock a) (ag_trace a).
Definition set_logs (x : gmap string nat) (a : agent) : agent :=
  mkAgent (ag_containers a) (ag_known_disks a) (ag_exit_receivers a) (ag_chans a) x (ag_bufs a) (ag_tasks a) (ag_sock a) (ag_trace a).
Definition set_bufs (x : list ContainerLogs) (a : agent) : agent :=
  mkAgent (ag_containers a) (ag_known_disks a) (ag_exit_receivers a) (ag_chans a) (ag_logs a) x (ag_tasks a) (ag_sock a) (ag_trace a).
Definition set_exit_tasks (x : list exit_task) (a : agent) : agent :=
  mkAgent (ag_containers a) (ag_known_disks a) (ag_exit_receivers a) (ag_chans a) (ag_logs a) (ag_bufs a) x (ag_sock a) (ag_trace a).
Definition set_ag_sock (x : sock) (a : agent) : agent :=
  mkAgent (ag_containers a) (ag_known_disks a) (ag_exit_receivers a) (ag_chans a) (ag_logs a) (ag_bufs a) (ag_tasks a) x (ag_trace a).
Definition set_ag_trace (x : list call) (a : agent) : agent :=
  mkAgent (ag_containers a) (ag_known_disks a) (ag_exit_receivers a) (ag_chans a) (ag_logs a) (ag_bufs a) (ag_tasks a) (ag_sock a) x.

#[export] Instance agent_world : World agent := {|
  trace := ag_trace; set_trace := set_ag_trace;
  trace_set t w := eq_refl; set_trace_set t t' w := eq_refl;
  set_trace_id w := match w return set_ag_trace (ag_trace w) w = w with mkAgent _ _ _ _ _ _ _ _ _ => eq_refl end;
|}.

(** The order of a [HashSet]'s elements is unspecified: [first_of] is whichever
    comes first. *)
Class HashOrder := {
  first_of : gset string -> option string;
  first_of_in X x : first_of X = Some x -> x ∈ X;
  first_of_none X : first_of X = None -> X = ∅;
}.

Definition sorted_order : HashOrder.
Proof.
  refine (Build_HashOrder (fun X => head (elements X)) _ _).
  - intros X x Hx. apply elem_of_elements. destruct (elements X); [done|]. injection Hx as ->. by left.
  - intros X Hx. apply set_eq. intros x. rewrite <- elem_of_elements. destruct (elements X); [set_solver|done].
Defined.

(** ** Paths, as [std::path] takes them apart *)

Definition skip_dot (c : string) : bool := String.eqb c "" || String.eqb c ".".

Definition file_name (p : string) : option string :=
  match List.find (fun c => negb (skip_dot c)) (rev (split_on "/" p)) with
  | Some ".." => None
  | o => o
  end.

Fixpoint drop_dots (rev_comps : list string) : list string :=
  match rev_comps with
  | c :: rest => if skip_dot c then drop_dots rest else rev_comps
  | [] => []
  end.

(** [Path::parent] of an absolute path with at least one name. *)
Definition parent_path (p : string) : string :=
  match drop_dots (rev (split_on "/" p)) with
  | _ :: rest => match drop_dots rest with [] => "/" | l => join "/" (rev l) end
  | [] => "/"
  end.

(** [b as char] of a [u8], in UTF-8. *)
Definition u8_char (b : Z) : string :=
  if b <? 128 then String (chr b) "" else String (chr (192 + b / 64)) (String (chr (128 + b mod 64)) "").

(** ** inotify *)

(** The scan of the events read: the offset, what is left to look at. *)
Fixpoint scan_events (fuel : nat) (buf : bytes) (offset : nat) (dev_name : string) : result bool :=
  match fuel with
  | O => Hang
  | S fuel' =>
      if (offset + 16 <=? length buf)%nat then
        name_len ← u32_at buf (offset + 12);
        let event_end := (offset + 16 + Z.to_nat name_len)%nat in
        if (event_end <=? length buf)%nat && (0 <? name_len) then
          name_bytes ← slice buf (offset + 16) event_end;
          match list_find (fun b => b = 0) name_bytes with
          | Some (k, _) => if String.eqb (str_of_bytes (take k name_bytes)) dev_name then Ok true
                           else scan_events fuel' buf event_end dev_name
          | None => scan_events fuel' buf event_end dev_name
          end
        else scan_events fuel' buf event_end dev_name
      else Ok false
  end.

Section Agent.
Context `{Env, SerdeJson, HashOrder}.

Definition EINTR : Z := 4.

(** The poll loop; [rounds] is how many of its rounds begin before the
    deadline. *)
Fixpoint inotify_loop (rounds : nat) (watch_dir dev_name : string) : M agent unit :=
  match rounds with
  | O => fail (Msg ("timeout waiting for device " +:+ dev_name))
  | S rounds' =>
      p ← sys PollIn;
      match p with
      | inl e => if e =? EINTR then inotify_loop rounds' watch_dir dev_name else fail (MsgIo "poll: " e)
      | inr false =>
          b ← exists_path (path_join watch_dir dev_name);
          if b : bool then mret tt else inotify_loop rounds' watch_dir dev_name
      | inr true =>
          n ← sys InotifyRead;
          match n with
          | None => inotify_loop rounds' watch_dir dev_name
          | Some buf =>
              found ← lift (scan_events (S (length buf)) buf 0 dev_name);
              if found : bool then mret tt else inotify_loop rounds' watch_dir dev_name
          end
      end
  end.

Definition wait_for_dev_inotify (dev_path : string) : M agent unit :=
  e ← exists_path dev_path;
  if e : bool then mret tt
  else
    dev_name ← lift (ok_or (file_name dev_path) (Msg "invalid device path"));
    let watch_dir := parent_path dev_path in
    i ← sys InotifyInit;
    match i with inl e => fail (MsgIo "inotify_init1: " e) | inr _ => mret tt end;;
    (if str_elem "000"%char watch_dir then fail (Msg "nul byte found in provided data") else mret tt);;
    w ← sys (InotifyAddWatch watch_dir);
    match w with inl e => fail (MsgIo ("inotify_add_watch(" +:+ watch_dir +:+ "): ") e) | inr _ => mret tt end;;
    b ← exists_path (path_join watch_dir dev_name);
    if b : bool then mret tt
    else rounds ← sys (RoundsBefore 10000); inotify_loop rounds watch_dir dev_name.

(** ** A child's exit code *)

Definition exit_code (r : Z + option Z) : Z :=
  match r with inr o => default 137 o | inl _ => 137 end.

Definition wait_for_exit_pidfd (pid : Z) : M agent Z :=
  p ← sys (PidfdOpen pid);
  a ← (if p : bool then sys AsyncFdNew else mret false);
  if a : bool then
    r ← sys AsyncFdReadable;
    if r : bool then
      t ← sys (TryWait pid);
      match t with
      | inr (Some status) => mret (default 137 status)
      | _ => w ← sys (ChildWait pid); mret (exit_code w)
      end
    else w ← sys (ChildWait pid); mret (exit_code w)
  else w ← sys (ChildWait pid); mret (exit_code w).

(** ** Block devices *)

Definition scan_block_devices : M agent (gset string) :=
  r ← sys (ReadDir "/sys/block");
  mret (match r with
        | inr names => list_to_set (List.filter (fun n => starts_with n "vd") names)
        | inl _ => ∅
        end).

Definition manager_new (s : sock) (known : gset string) (t : list call) : agent :=
  mkAgent ∅ known ∅ [] ∅ [] [] s t.

Definition discover_block_device : M agent (option string) :=
  current ← scan_block_devices;
  known ← gets ag_known_disks;
  match first_of (current ∖ known) with
  | Some dev =>
      modify (fun a => set_known ({[dev]} ∪ ag_known_disks a) a);;
      mret (Some ("/dev/" +:+ dev))
  | None => mret None
  end.

(** ** The OCI spec *)

Definition vm_namespaces : lit := LArr [LObj [("type", LStr "mount")]; LObj [("type", LStr "pid")]].

Definition adapt_linux (v : value) : value :=
  obj_remove "seccomp" (obj_remove "resources" (obj_remove "readonlyPaths" (obj_remove "maskedPaths"
    (obj_remove "cgroupsPath" (obj_insert "namespaces" (of_lit vm_namespaces) v))))).

Definition adapt_process (v : value) : value :=
  obj_remove "oomScoreAdj" (obj_remove "selinuxLabel" (obj_remove "apparmorProfile" v)).

Definition mount_lit (dest ty source : string) (options : list string) : lit :=
  LObj [("destination", LStr dest); ("type", LStr ty); ("source", LStr source); ("options", LArr (map LStr options))].

Definition system_mounts : list lit :=
  [LObj [("destination", LStr "/proc"); ("type", LStr "proc"); ("source", LStr "proc")];
   mount_lit "/dev" "tmpfs" "tmpfs" ["nosuid"; "strictatime"; "mode=755"; "size=65536k"];
   mount_lit "/dev/pts" "devpts" "devpts" ["nosuid"; "noexec"; "newinstance"; "ptmxmode=0666"; "mode=0620"];
   mount_lit "/sys" "sysfs" "sysfs" ["nosuid"; "noexec"; "nodev"; "ro"]].

Definition ro_opts (vol : VolumeInfo) : list string := if vi_readonly vol then ["ro"] else [].

Definition bind_source (vol : VolumeInfo) : string :=
  match vi_inline_files vol with
  | [f] =>
      let dest_basename := default "" (file_name (vi_destination vol)) in
      let file_basename := default "" (file_name (fi_path f)) in
      if negb (String.eqb dest_basename "") && String.eqb dest_basename file_basename
      then path_join (vi_source vol) (fi_path f) else vi_source vol
  | _ => vi_source vol
  end.

(** The mount of a volume; none for a block volume whose device is not there. *)
Definition volume_mount (vol : VolumeInfo) : M agent (option lit) :=
  if vi_is_block vol then
    o ← discover_block_device;
    mret (match o with
          | Some dev_path => Some (mount_lit (vi_destination vol) (vi_fs_type vol) dev_path (ro_opts vol))
          | None => None
          end)
  else mret (Some (mount_lit (vi_destination vol) "bind" (bind_source vol) ("rbind" :: ro_opts vol))).

Fixpoint volume_mounts (volumes : list VolumeInfo) : M agent (list lit) :=
  match volumes with
  | [] => mret []
  | vol :: rest =>
      o ← volume_mount vol;
      l ← volume_mounts rest;
      mret (match o with Some m => m :: l | None => l end)
  end.

(** [if let Some(obj) = spec.as_object_mut()] on the whole document. *)
Definition set_mounts (mounts : list lit) (spec : value) : value :=
  if is_object spec then obj_insert "mounts" (of_lit (LArr mounts)) (obj_remove "hostname" spec) else spec.

Definition adapt_spec (mounts : list lit) (spec : value) : value :=
  edit_object "process" adapt_process (set_mounts mounts (edit_object "linux" adapt_linux spec)).

Definition adapt_oci_spec_for_vm (bundle : string) (volumes : list VolumeInfo) : M agent unit :=
  let config_path := path_join bundle "config.json" in
  data ← m_ctx ("failed to read " +:+ config_path) (read_to_string config_path);
  spec ← lift (with_ctx "failed to parse config.json" (lib_res (from_str data)));
  vols ← volume_mounts volumes;
  m_ctx ("failed to write " +:+ config_path)
    (write_file config_path (to_string_pretty (adapt_spec (system_mounts ++ vols) spec))).

(** ** create *)

Definition layer_dev (i : Z) : string := "/dev/vd" +:+ u8_char (wrap 8 (98 + wrap 8 i)).

(** [retries] is how many failed mounts the clock lets be tried again. *)
Fixpoint mount_layer (retries : nat) (dev target : string) : M agent unit :=
  r ← sys (MountFs dev target "erofs" ["MS_RDONLY"; "MS_NOATIME"] None);
  match r with
  | inr _ => mret tt
  | inl e =>
      match retries with
      | O => fail (MsgIo ("mount erofs " +:+ dev +:+ " at " +:+ target +:+ ": ") e)
      | S retries' => sys (Sleep 10);; mount_layer retries' dev target
      end
  end.

Fixpoint mount_layers (n : nat) (i : Z) (mount_point : string) : M agent (list string) :=
  match n with
  | O => mret []
  | S n' =>
      let dev := layer_dev i in
      let layer_mount := path_join mount_point ("layer" +:+ pretty i) in
      create_dir_all layer_mount;;
      e ← exists_path dev;
      (if e : bool then mret tt else wait_for_dev_inotify dev);;
      retries ← sys (RoundsBefore 2000);
      mount_layer retries dev layer_mount;;
      rest ← mount_layers n' (i + 1) mount_point;
      mret (layer_mount :: rest)
  end.

Definition compose_overlay (mount_point rootfs_dir : string) (lowerdirs : list string) : M agent unit :=
  let upper_dir := path_join mount_point "upper" in
  let work_dir := path_join mount_point "work" in
  create_dir_all upper_dir;;
  create_dir_all work_dir;;
  let opts := "lowerdir=" +:+ join ":" lowerdirs +:+ ",upperdir=" +:+ upper_dir +:+ ",workdir=" +:+ work_dir in
  r ← sys (MountFs "overlay" rootfs_dir "overlay" [] (Some opts));
  match r with
  | inr _ => mret tt
  | inl e => fail (Ctx ("overlayfs mount with erofs layers: " +:+ opts) (MsgIo "" e))
  end.

Definition unsafe_path (p : string) : bool :=
  starts_with p "/" || str_contains p "../" || str_contains p "/.." || String.eqb p "..".

Definition write_inline (vol_dir : string) (f : InlineFileInfo) : M agent unit :=
  if unsafe_path (fi_path f) then mret tt
  else
    let file_path := path_join vol_dir (fi_path f) in
    create_dir_all (parent_path file_path);;
    m_ctx ("write inline file: " +:+ fi_path f) (write_file file_path (fi_content f));;
    if fi_mode f =? 0 then mret tt
    else r ← sys (SetPermissions file_path (fi_mode f)); lift (io_res r).

Fixpoint each {A} (f : A -> M agent unit) (l : list A) : M agent unit :=
  match l with [] => mret tt | x :: rest => f x;; each f rest end.

(** [source.rsplit('/').next().unwrap_or("vol")] *)
Definition last_part (s : string) : string := default "vol" (last (split_on "/" s)).

Definition write_volume (mount_point : string) (vol : VolumeInfo) : M agent unit :=
  match vi_is_block vol, vi_inline_files vol with
  | true, _ | _, [] => mret tt
  | false, files =>
      let vol_dir := path_join (path_join mount_point "volumes") (last_part (vi_source vol)) in
      create_dir_all vol_dir;;
      each (write_inline vol_dir) files
  end.

Definition link_disk_volumes (mount_point : string) : M agent unit :=
  let disk_volumes := path_join (path_join mount_point "_disk") "volumes" in
  let bundle_volumes := path_join mount_point "volumes" in
  d ← exists_path disk_volumes;
  b ← (if d : bool then exists_path bundle_volumes else mret true);
  if b : bool then mret tt
  else r ← sys (Symlink disk_volumes bundle_volumes); lift (with_ctx "symlink disk volumes to bundle" (io_res r)).

Definition create (container_id : string) (volumes : list VolumeInfo) (config_json : string)
    (rootfs_preattached : bool) (erofs_layers : Z) : M agent Z :=
  if erofs_layers =? 0 then fail (Msg "erofs_layers must be > 0: the erofs snapshotter is required")
  else
    let mount_point := path_join "/run/containers" container_id in
    create_dir_all mount_point;;
    let rootfs_dir := path_join mount_point "rootfs" in
    create_dir_all rootfs_dir;;
    lowerdirs ← mount_layers (Z.to_nat erofs_layers) 0 mount_point;
    compose_overlay mount_point rootfs_dir lowerdirs;;
    (if negb (String.eqb config_json "")
     then m_ctx "write inline config.json" (write_file (path_join mount_point "config.json") config_json)
     else e ← exists_path (path_join mount_point "config.json");
          if e : bool then mret tt
          else fail (Msg "no config.json: inline data not provided and no on-disk file present"));;
    each (write_volume mount_point) volumes;;
    link_disk_volumes mount_point;;
    adapt_oci_spec_for_vm mount_point volumes;;
    modify (fun a => set_containers
      (<[container_id := mkContainer (Some process_id) None Created]> (ag_containers a)) a);;
    mret process_id.

(** ** start, run *)

Definition new_log : M agent nat := fun a => (Ok (length (ag_bufs a)), set_bufs (ag_bufs a ++ [mkContainerLogs "" "" false]) a).
Definition new_chan : M agent nat := fun a => (Ok (length (ag_chans a)), set_chans (ag_chans a ++ [None]) a).

Definition start (container_id : string) : M agent Z :=
  cs ← gets ag_containers;
  lift (ok_or (cs !! container_id) (Msg ("container not found: " +:+ container_id)));;
  let bundle := path_join "/run/containers" container_id in
  c ← sys (Spawn "/bin/crun" ["run"; "--bundle"; bundle; container_id]);
  child ← lift (with_ctx ("spawn crun run (bundle=" +:+ bundle +:+ ")") (io_res c));
  let pid := default 0 child in
  modify (fun a => set_containers (alter (fun c => mkContainer (Some pid) (ct_exit_code c) Running) container_id
    (ag_containers a)) a);;
  log ← new_log;
  modify (fun a => set_logs (<[container_id := log]> (ag_logs a)) a);;
  chan ← new_chan;
  modify (fun a => set_exit_tasks (ag_tasks a ++ [mkExitTask pid chan log]) a);;
  modify (fun a => set_receivers (<[container_id := chan]> (ag_exit_receivers a)) a);;
  mret pid.

Definition run (container_id : string) (volumes : list VolumeInfo) (config_json : string)
    (rootfs_preattached : bool) (erofs_layers : Z) : M agent Z :=
  create container_id volumes config_json rootfs_preattached erofs_layers;;
  start container_id.

(** The reader tasks: a chunk arrives on a pipe. *)
Definition log_chunk (buf : nat) (to_stdout : bool) (data : string) (a : agent) : agent :=
  set_bufs (alter (fun l => if to_stdout then mkContainerLogs (lg_stdout l +:+ data) (lg_stderr l) (lg_eof l)
                            else mkContainerLogs (lg_stdout l) (lg_stderr l +:+ data) (lg_eof l)) buf (ag_bufs a)) a.

(** The exit task: the status is published before the log's end is marked. *)
Definition run_exit_task (t : exit_task) (now : string) : M agent unit :=
  code ← wait_for_exit_pidfd (et_pid t);
  modify (fun a => set_chans (<[et_chan t := Some (mkExitStatus code now)]> (ag_chans a)) a);;
  modify (fun a => set_bufs (alter (fun l => mkContainerLogs (lg_stdout l) (lg_stderr l) true) (et_log t) (ag_bufs a)) a).

(** ** kill, delete, adopt, state *)

Definition kill (container_id : string) (signal : Z) : M agent unit :=
  cs ← gets ag_containers;
  if decide ((ct_state <$> cs !! container_id) = Some Stopped) then mret tt
  else
    o ← sys (Output "/bin/crun" ["kill"; container_id; pretty signal]);
    '(success, stderr) ← lift (with_ctx "failed to execute crun kill" (io_res o));
    if success : bool then mret tt
    else if str_contains stderr "No such file" || str_contains stderr "not found" then mret tt
    else fail (Msg ("crun kill failed: " +:+ stderr)).

(** In the map's iteration order. *)
Definition signal_all (signal : Z) : M agent unit :=
  cs ← gets ag_containers;
  each (fun id => ignore (kill id signal))
    (map fst (List.filter (fun '(_, c) => negb (bool_decide (ct_state c = Stopped))) (map_to_list cs))).

Definition delete (container_id : string) : M agent (Z * Z) :=
  o ← sys (Output "/bin/crun" ["delete"; "--force"; container_id]);
  lift (with_ctx "failed to execute crun delete" (io_res o));;
  cs ← gets ag_containers;
  match cs !! container_id with
  | Some c =>
      modify (fun a => set_containers (base.delete container_id (ag_containers a)) a);;
      mret (default 0 (ct_pid c), default 0 (ct_exit_code c))
  | None => mret (0, 0)
  end.

Definition move_key (old_id new_id : string) (m : gmap string nat) : gmap string nat :=
  match m !! old_id with Some x => <[new_id := x]> (base.delete old_id m) | None => m end.

Definition adopt (old_id new_id : string) : M agent Z :=
  cs ← gets ag_containers;
  container ← lift (ok_or (cs !! old_id) (Msg ("adopt: container " +:+ old_id +:+ " not found")));
  modify (fun a => set_containers (base.delete old_id (ag_containers a)) a);;
  pid ← lift (ok_or (ct_pid container) (Msg ("adopt: container " +:+ old_id +:+ " has no PID")));
  modify (fun a => set_receivers (move_key old_id new_id (ag_exit_receivers a)) a);;
  modify (fun a => set_logs (move_key old_id new_id (ag_logs a)) a);;
  modify (fun a => set_containers (<[new_id := container]> (ag_containers a)) a);;
  mret pid.

Definition mark_stopped (id : string) (code : Z) : M agent unit :=
  modify (fun a => set_containers (alter (fun c => mkContainer (ct_pid c) (Some code) Stopped) id (ag_containers a)) a).

Definition proto_state (s : ContainerState) : ProtoState :=
  match s with Created => CREATED | Running => RUNNING | Stopped => STOPPED end.

Definition state (container_id : string) : M agent StateContainerResponse :=
  cs ← gets ag_containers;
  mret (match cs !! container_id with
        | Some c => mkStateContainerResponse container_id (default 0 (ct_pid c)) (inl (proto_state (ct_state c)))
                      (wrap 32 (default 0 (ct_exit_code c))) ""
        | None => mkStateContainerResponse container_id 0 (inl UNKNOWN) 0 ""
        end).
End Agent.
