(* ===== verification/AgentServer.v ===== *)
(** * The guest agent's services and its start-up

    [crates/agent/src/server.rs] (the RPC handlers, the vsock listener),
    [mount.rs], [reaper.rs] and [main.rs]. A handler holds the manager's lock for
    the run of the operation it calls; [wait_container] gives it up while it
    waits. *)

From S2P Require Import Prelude RustStr NetAddr Bytes Netlink NetlinkOps Proto Sys Json Lifecycle Agent.
From Stdlib Require Import Ascii.
From Stdlib Require String.
Local Open Scope Z_scope.

Section Server.
Context `{Env, SerdeJson, HashOrder, Anyhow}.

(** [.map_err(|e| ttrpc::Error::Others(format!("{what}: {e:#}")))], and with
    [{e}]. *)
Definition others_alt {A} (what : string) (m : M agent A) : M agent A := fun a =>
  match m a with (Err e, a') => (Err (Msg (what +:+ ": " +:+ display_alt e)), a') | x => x end.
Definition others {A} (what : string) (m : M agent A) : M agent A := fun a =>
  match m a with (Err e, a') => (Err (Msg (what +:+ ": " +:+ display e)), a') | x => x end.

Definition proto_file (f : InlineFile) : InlineFileInfo := mkInlineFileInfo (if_path f) (if_content f) (if_mode f).
Definition proto_volumes_to_info (volumes : list VolumeMount) : list VolumeInfo :=
  map (fun v => mkVolumeInfo (vm_destination v) (vm_source v) (vm_readonly v)
                  (bool_decide (vm_volume_type v = inl BLOCK)) (vm_fs_type v) (map proto_file (vm_files v))) volumes.

Definition create_container (req : CreateContainerRequest) : M agent CreateContainerResponse :=
  pid ← others_alt "create_container failed"
    (create (cc_container_id req) (proto_volumes_to_info (cc_volumes req)) (cc_config_json req)
       (cc_rootfs_preattached req) (cc_erofs_layers req));
  mret (mkCreateContainerResponse pid).

Definition start_container (req : StartContainerRequest) : M agent StartContainerResponse :=
  pid ← others "start_container failed" (start (st_container_id req));
  mret (mkStartContainerResponse pid).

Definition run_container (req : CreateContainerRequest) : M agent StartContainerResponse :=
  pid ← others_alt "run_container failed"
    (run (cc_container_id req) (proto_volumes_to_info (cc_volumes req)) (cc_config_json req)
       (cc_rootfs_preattached req) (cc_erofs_layers req));
  mret (mkStartContainerResponse pid).

Definition kill_container (req : KillContainerRequest) : M agent KillContainerResponse :=
  others "kill_container failed" (kill (kc_container_id req) (kc_signal req));;
  mret mkKillContainerResponse.

Definition delete_container (req : DeleteContainerRequest) : M agent DeleteContainerResponse :=
  '(pid, exit_code) ← others "delete_container failed" (delete (dr_container_id req));
  mret (mkDeleteContainerResponse (wrap 32 exit_code) pid).

(** How the [select!] of [wait_container] ends: the channel changed (to what),
    its sender is gone, or 600 s have passed. *)
Inductive wait_end := Changed (v : option ExitStatus) | SenderGone | TimedOut.

(** [o] is how the wait ends if there is one, [now] the time then. *)
Definition wait_container (req : WaitContainerRequest) (o : wait_end) (now : string) : M agent WaitContainerResponse :=
  let container_id := wr_container_id req in
  rxs ← gets ag_exit_receivers;
  rx ← lift (ok_or (rxs !! container_id) (Msg ("wait_container: unknown container " +:+ container_id)));
  chans ← gets ag_chans;
  let '(exit_code, exited_at) :=
    match mjoin (chans !! rx) with
    | Some st => (ex_code st, ex_exited_at st)
    | None => match o with Changed (Some st) => (ex_code st, ex_exited_at st) | _ => (137, now) end
    end in
  mark_stopped container_id exit_code;;
  mret (mkWaitContainerResponse (wrap 32 exit_code) exited_at).

Definition exec_process (req : ExecProcessRequest) : M agent ExecProcessResponse :=
  fail (Msg "exec_process not yet implemented").

Definition state_container (req : StateContainerRequest) : M agent StateContainerResponse :=
  others "state_container failed" (state (sq_container_id req)).

(** ** Memory *)

Definition set_mem (key : string) (val : Z) (r : GetMemInfoResponse) : GetMemInfoResponse :=
  let '(mkGetMemInfoResponse a b c d e f g) := r in
  if String.eqb key "MemTotal:" then mkGetMemInfoResponse val b c d e f g
  else if String.eqb key "MemFree:" then mkGetMemInfoResponse a val c d e f g
  else if String.eqb key "MemAvailable:" then mkGetMemInfoResponse a b val d e f g
  else if String.eqb key "Buffers:" then mkGetMemInfoResponse a b c val e f g
  else if String.eqb key "Cached:" then mkGetMemInfoResponse a b c d val f g
  else if String.eqb key "SwapTotal:" then mkGetMemInfoResponse a b c d e val g
  else if String.eqb key "SwapFree:" then mkGetMemInfoResponse a b c d e f val
  else r.

Definition mem_line (r : GetMemInfoResponse) (line : string) : GetMemInfoResponse :=
  match split_whitespace line with
  | key :: val :: _ => set_mem key (default 0 (parse_uint 64 val)) r
  | _ => r
  end.

Definition parse_meminfo (content : string) : GetMemInfoResponse :=
  foldl mem_line (mkGetMemInfoResponse 0 0 0 0 0 0 0) (lines content).

Definition get_mem_info (req : GetMemInfoRequest) : M agent GetMemInfoResponse :=
  content ← others "read /proc/meminfo" (read_to_string "/proc/meminfo");
  mret (parse_meminfo content).

(** ** Logs *)

Definition str_drop (n : nat) (s : string) : string := String.substring n (String.length s - n) s.

Definition read_logs (offset : Z) (l : ContainerLogs) : GetContainerLogsResponse :=
  let from s := if offset <? Z.of_nat (String.length s) then str_drop (Z.to_nat offset) s else "" in
  mkGetContainerLogsResponse (from (lg_stdout l)) (from (lg_stderr l))
    (Z.max (Z.of_nat (String.length (lg_stdout l))) (Z.of_nat (String.length (lg_stderr l)))) (lg_eof l).

Definition get_container_logs (req : GetContainerLogsRequest) : M agent GetContainerLogsResponse :=
  gets (fun a => match ag_logs a !! lq_container_id req ≫= (fun b => ag_bufs a !! b) with
                 | Some l => read_logs (lq_offset req) l
                 | None => mkGetContainerLogsResponse "" "" 0 true
                 end).

(** ** Network *)

Fixpoint wait_device_go (rounds : nat) (device path : string) : M agent unit :=
  match rounds with
  | O => fail (Msg ("timed out waiting for device " +:+ device +:+ " to appear at " +:+ path))
  | S rounds' =>
      b ← exists_path path;
      if b : bool then mret tt else sys (Sleep 50);; wait_device_go rounds' device path
  end.
Definition wait_for_device (device : string) : M agent unit :=
  rounds ← sys (RoundsBefore 5000);
  wait_device_go rounds device ("/sys/class/net/" +:+ device).

Definition agent_nl {A} (m : M sock A) : M agent A := fun a =>
  match m (ag_sock a) with (r, k) => (r, set_ag_sock k a) end.

(** [spawn_blocking]: a panic comes back as a [JoinError]. *)
Definition blocking {A} (m : M agent A) : M agent A := fun a =>
  match m a with (Panic, a') => (Err (Msg "spawn_blocking: task panicked"), a') | x => x end.

Definition bad_prefix : error := Msg "invalid prefix_len: must be between 0 and 32".

Definition configure_network (req : ConfigureNetworkRequest) : M agent ConfigureNetworkResponse :=
  let device := if String.eqb (cn_device req) "" then "eth0" else cn_device req in
  let mac := if String.eqb (cn_mac req) "" then None else Some (cn_mac req) in
  match mac with
  | None => others "device wait" (wait_for_device device)
  | Some _ => mret tt
  end;;
  ip ← lift (ok_or (parse_ipv4 (cn_ip_address req)) (Msg "invalid IP: invalid IPv4 address syntax"));
  gw ← (if String.eqb (cn_gateway req) "" then mret None
        else g ← lift (ok_or (parse_ipv4 (cn_gateway req)) (Msg "invalid gateway: invalid IPv4 address syntax"));
             mret (Some g));
  (if cn_prefix_len req <? 256 then mret tt else fail bad_prefix);;
  (if 32 <? cn_prefix_len req then fail bad_prefix else mret tt);;
  blocking (others_alt "configure_interface" (agent_nl (configure_interface device ip (cn_prefix_len req) gw mac)));;
  mret mkConfigureNetworkResponse.

Definition adopt_container (req : AdoptContainerRequest) : M agent AdoptContainerResponse :=
  pid ← others_alt "adopt_container failed" (adopt (ac_old_container_id req) (ac_new_container_id req));
  mret (mkAdoptContainerResponse pid).

(** [CARGO_PKG_VERSION] is the crate's version, set when it is built. *)
Definition check (version : string) (req : CheckRequest) : M agent CheckResponse :=
  mret (mkCheckResponse true version).

(** ** The listener *)

Definition create_vsock_listener (port : Z) : M agent Z :=
  s ← sys VsockSocket;
  match s with
  | inl e => fail (MsgIo "failed to create vsock socket: " e)
  | inr fd =>
      b ← sys (VsockBind fd port);
      match b with
      | inl e => sys (CloseFd fd);; fail (MsgIo ("failed to bind vsock port " +:+ pretty port +:+ ": ") e)
      | inr _ =>
          l ← sys (Listen fd 128);
          match l with
          | inl e => sys (CloseFd fd);; fail (MsgIo ("failed to listen on vsock port " +:+ pretty port +:+ ": ") e)
          | inr _ => mret fd
          end
      end
  end.

(** After the signal: every container that is not known to have stopped gets
    SIGTERM. *)
Definition shutdown : M agent unit := signal_all 15.

(** ** Init ([mount.rs], [reaper.rs], [main.rs]) *)

Definition mounts_hold (target mounts : string) : bool :=
  existsb (fun line => match split_whitespace line !! 1%nat with Some t => String.eqb t target | None => false end)
    (lines mounts).

Definition is_mounted (target : string) : M agent bool :=
  r ← attempt (read_to_string "/proc/mounts");
  mret (match r with inl mounts => mounts_hold target mounts | inr _ => false end).

Definition mount_if_needed (source target fstype : string) (flags : list string) : M agent unit :=
  m ← is_mounted target;
  if m : bool then mret tt
  else
    ignore (create_dir_all target);;
    r ← sys (MountFs source target fstype flags None);
    match r with
    | inr _ => mret tt
    | inl e => fail (Ctx ("failed to mount " +:+ fstype +:+ " at " +:+ target) (MsgIo "" e))
    end.

(** [makedev] for small numbers, and [S_IFCHR]. *)
Definition makedev (major minor : Z) : Z :=
  Z.lor (Z.lor (Z.shiftl (Z.land major 0xfffff000) 32) (Z.shiftl (Z.land major 0xfff) 8))
        (Z.lor (Z.shiftl (Z.land minor 0xffffff00) 12) (Z.land minor 0xff)).
Definition S_IFCHR : Z := 8192.

Definition create_dev_node (path : string) (major minor mode : Z) : M agent unit :=
  (if str_elem "000"%char path then lift Panic else mret tt);;
  old_umask ← sys (Umask 0);
  e ← exists_path path;
  (if e : bool then sys (Chmod path mode) else sys (Mknod path (Z.lor S_IFCHR mode) (makedev major minor)));;
  sys (Umask old_umask);;
  mret tt.

(** [0o666] *)
Definition rw_all : Z := 438.

Definition NOSUID := "MS_NOSUID".
Definition NODEV := "MS_NODEV".
Definition NOEXEC := "MS_NOEXEC".

Definition mount_essential_filesystems : M agent unit :=
  mount_if_needed "proc" "/proc" "proc" [NOSUID; NODEV; NOEXEC];;
  mount_if_needed "sysfs" "/sys" "sysfs" [NOSUID; NODEV; NOEXEC];;
  mount_if_needed "devtmpfs" "/dev" "devtmpfs" [NOSUID];;
  create_dev_node "/dev/null" 1 3 rw_all;;
  create_dev_node "/dev/zero" 1 5 rw_all;;
  create_dev_node "/dev/full" 1 7 rw_all;;
  create_dev_node "/dev/random" 1 8 rw_all;;
  create_dev_node "/dev/urandom" 1 9 rw_all;;
  create_dev_node "/dev/tty" 5 0 rw_all;;
  ignore (create_dir_all "/dev/pts");;
  mount_if_needed "devpts" "/dev/pts" "devpts" [NOSUID; NOEXEC];;
  ignore (create_dir_all "/dev/shm");;
  mount_if_needed "tmpfs" "/dev/shm" "tmpfs" [NOSUID; NODEV];;
  mount_if_needed "tmpfs" "/tmp" "tmpfs" [NOSUID];;
  ignore (create_dir_all "/run");;
  mount_if_needed "tmpfs" "/run" "tmpfs" [NOSUID; NODEV];;
  ignore (create_dir_all "/sys/fs/cgroup");;
  mount_if_needed "cgroup2" "/sys/fs/cgroup" "cgroup2" [NOSUID; NODEV; NOEXEC].

Definition set_child_subreaper : M agent unit := sys SetSubreaper;; mret tt.

Definition init_setup : M agent unit :=
  attempt mount_essential_filesystems;;
  set_child_subreaper.
End Server.
