(* ===== verification/AgentProps.v ===== *)
(** * The guest agent: what its operations guarantee *)

From S2P Require Import Prelude RustStr NetAddr Bytes Netlink NetlinkOps Proto Sys Json Lifecycle Agent AgentServer.
From Stdlib Require Import Ascii.
From Stdlib Require String.
Local Open Scope Z_scope.

(** ** inotify events

    An event as the kernel lays it out: watch, mask, cookie, the length of the
    name field, and the name padded with NULs (no field when there is no name). *)

Record ievent := mkIevent { iv_wd : Z; iv_mask : Z; iv_cookie : Z; iv_name : string; iv_pad : nat }.

Definition name_field (e : ievent) : bytes :=
  if String.eqb (iv_name e) "" then [] else bytes_of (iv_name e) ++ replicate (S (iv_pad e)) 0.

Definition ievent_bytes (e : ievent) : bytes :=
  le 4 (iv_wd e) ++ le 4 (iv_mask e) ++ le 4 (iv_cookie e) ++ le 4 (Z.of_nat (length (name_field e))) ++ name_field e.

Definition ievent_ok (e : ievent) : Prop :=
  Forall (fun b => b <> 0) (bytes_of (iv_name e)) /\ Z.of_nat (length (name_field e)) < 2 ^ 32.

Lemma name_field_find e : ievent_ok e -> iv_name e <> "" ->
  list_find (fun b => b = 0) (name_field e) = Some (String.length (iv_name e), 0) /\
  str_of_bytes (take (String.length (iv_name e)) (name_field e)) = iv_name e.
Proof.
  intros [Hnz _] Hne. unfold name_field. rewrite (proj2 (String.eqb_neq _ _) Hne). split.
  - apply list_find_Some. split_and!; [|done|].
    + rewrite lookup_app_r; rewrite length_bytes_of; [|lia]. by rewrite Nat.sub_diag.
    + intros j y Hy Hj. rewrite lookup_app_l in Hy by (by rewrite length_bytes_of).
      by apply (Forall_lookup_1 _ _ _ _ Hnz Hy).
  - rewrite take_app_le by (by rewrite length_bytes_of). rewrite <- length_bytes_of, firstn_all. apply str_of_bytes_of.
Qed.

Lemma length_ievent e : length (ievent_bytes e) = (16 + length (name_field e))%nat.
Proof. unfold ievent_bytes. rewrite !length_app, !length_le. lia. Qed.

Lemma scan_events_spec evs pre fuel dev :
  Forall ievent_ok evs -> dev <> "" -> (length evs < fuel)%nat ->
  scan_events fuel (pre ++ concat (map ievent_bytes evs)) (length pre) dev =
  Ok (existsb (fun e => String.eqb (iv_name e) dev) evs).
Proof.
  intros He Hdev. revert pre fuel. induction He as [|e evs He Hevs IH]; intros pre fuel Hf.
  - destruct fuel; cbn in *; [lia|]. rewrite app_nil_r. by rewrite (proj2 (Nat.leb_gt _ _)) by lia.
  - destruct fuel as [|fuel]; cbn [length] in Hf; [lia|]. cbn [map concat existsb].
    set (tail := concat (map ievent_bytes evs)). cbn [scan_events].
    assert (Hlen : length (pre ++ ievent_bytes e ++ tail) = (length pre + 16 + length (name_field e) + length tail)%nat)
      by (rewrite !length_app, length_ievent; lia).
    rewrite Hlen. rewrite (proj2 (Nat.leb_le (length pre + 16) _)) by lia.
    assert (Hu : u32_at (pre ++ ievent_bytes e ++ tail) (length pre + 12) = Ok (Z.of_nat (length (name_field e)))).
    { unfold ievent_bytes. pose proof (u32_at_le (pre ++ le 4 (iv_wd e) ++ le 4 (iv_mask e) ++ le 4 (iv_cookie e))
        (Z.of_nat (length (name_field e))) (name_field e ++ tail)) as Hu.
      rewrite !length_app, !length_le, <- !app_assoc in Hu. rewrite <- !app_assoc.
      replace (length pre + 12)%nat with (length pre + (4 + (4 + 4)))%nat by lia. rewrite Hu.
      rewrite Z.mod_small; [done|]. destruct He. lia. }
    rewrite Hu. cbn [mbind result_bind]. rewrite Nat2Z.id.
    rewrite (proj2 (Nat.leb_le (length pre + 16 + length (name_field e)) _)) by lia. cbn [andb].
    assert (Hnext : scan_events fuel (pre ++ ievent_bytes e ++ tail) (length pre + 16 + length (name_field e)) dev =
      Ok (existsb (fun e => String.eqb (iv_name e) dev) evs)).
    { pose proof (IH (pre ++ ievent_bytes e) fuel ltac:(lia)) as IHe. rewrite <- app_assoc in IHe. rewrite <- IHe.
      rewrite length_app, length_ievent. f_equal. lia. }
    destruct (String.eqb_spec (iv_name e) "") as [En|En].
    + unfold name_field in *. rewrite En in *. cbn in *. by destruct dev.
    + destruct (name_field_find e He En) as [Hfind Htake].
      assert (Hnf : (0 < length (name_field e))%nat).
      { unfold name_field. rewrite (proj2 (String.eqb_neq _ _) En), length_app, length_replicate. lia. }
      replace (0 <? Z.of_nat (length (name_field e))) with true by lia.
      assert (Hs : slice (pre ++ ievent_bytes e ++ tail) (length pre + 16) (length pre + 16 + length (name_field e))
        = Ok (name_field e)).
      { unfold slice. rewrite Hlen. rewrite (proj2 (Nat.leb_le (length pre + 16) _)) by lia.
        rewrite (proj2 (Nat.leb_le (length pre + 16 + length (name_field e)) _)) by lia. cbn [andb]. f_equal.
        set (hd := pre ++ le 4 (iv_wd e) ++ le 4 (iv_mask e) ++ le 4 (iv_cookie e) ++ le 4 (Z.of_nat (length (name_field e)))).
        replace (pre ++ ievent_bytes e ++ tail) with (hd ++ name_field e ++ tail)
          by (unfold hd, ievent_bytes; by rewrite <- !app_assoc).
        replace (length pre + 16)%nat with (length hd) by (unfold hd; rewrite !length_app, !length_le; lia).
        rewrite drop_app_length. replace (length hd + length (name_field e) - length hd)%nat with (length (name_field e)) by lia.
        apply take_app_length. }
      rewrite Hs. cbn [mbind result_bind]. rewrite Hfind, Htake. destruct (String.eqb (iv_name e) dev); [done|exact Hnext].
Qed.

(** Reading inotify events finds the device exactly when one of the events
    the kernel delivered names it: no event is skipped or misread, whatever names and
    padding the others have, and the scan always ends. *)
Theorem scan_finds_device evs dev :
  Forall ievent_ok evs -> dev <> "" ->
  let buf := concat (map ievent_bytes evs) in
  scan_events (S (length buf)) buf 0 dev = Ok (existsb (fun e => String.eqb (iv_name e) dev) evs).
Proof.
  intros He Hdev. apply (scan_events_spec evs [] _ dev He Hdev).
  assert (length evs <= length (concat (map ievent_bytes evs)))%nat; [|lia].
  clear. induction evs as [|e evs IH]; cbn [map concat length]; [lia|]. rewrite length_app, length_ievent. lia.
Qed.

Lemma scan_finds_device_witness :
  scan_events 65 (concat (map ievent_bytes [mkIevent 1 256 0 "vda" 12; mkIevent 1 256 0 "vdb" 12])) 0 "vdb" = Ok true.
Proof.
  apply (scan_finds_device [mkIevent 1 256 0 "vda" 12; mkIevent 1 256 0 "vdb" 12] "vdb"); [|done].
  assert (forall n, n = "vda" \/ n = "vdb" -> ievent_ok (mkIevent 1 256 0 n 12)) as Hok.
  { intros n [-> | ->]; (split; [vm_compute; repeat constructor; discriminate|vm_compute; reflexivity]). }
  constructor; [apply Hok; by left|constructor; [apply Hok; by right|constructor]].
Defined.

(** ** Paths and inline files *)

(** The names a path goes through, without empty parts and dots. *)
Definition comps (p : string) : list string := List.filter (fun c => negb (skip_dot c)) (split_on "/" p).

Lemma split_on_mid c s t : split_on c (s +:+ String c t) = split_on c s ++ split_on c t.
Proof.
  induction s as [|d s IH].
  - change ("" +:+ String c t) with (String c t). cbn [split_on]. by rewrite Ascii.eqb_refl.
  - rewrite sapp_cons. cbn [split_on]. rewrite IH. destruct (Ascii.eqb c d); [done|].
    destruct (split_on c s) eqn:E; [by destruct (split_on_nonempty c s)|done].
Qed.

Lemma comps_mid s t : comps (s +:+ String "/" t) = comps s ++ comps t.
Proof. unfold comps. by rewrite split_on_mid, List.filter_app. Qed.

Lemma slash_end s : ends_with_slash s = true -> exists s', s = s' +:+ "/".
Proof.
  unfold ends_with_slash. intros Hs. destruct (rev (bytes_of s)) as [|b l] eqn:E; [done|].
  assert (b = 47) as -> by (by repeat case_match). exists (str_of_bytes (rev l)).
  rewrite <- (str_of_bytes_of s). rewrite <- (rev_involutive (bytes_of s)), E. cbn [rev].
  induction (rev l) as [|b l' IH]; [done|]. cbn [app str_of_bytes]. by rewrite IH.
Qed.

Lemma comps_join a b : starts_with b "/" = false -> comps (path_join a b) = comps a ++ comps b.
Proof.
  intros Hb. unfold path_join. rewrite Hb. destruct a as [|c a]; [done|].
  set (s := String c a). destruct (ends_with_slash s) eqn:Es; [|apply comps_mid].
  destruct (slash_end s Es) as [s' ->]. rewrite sapp_assoc. change ("/" +:+ b) with (String "/" b).
  rewrite comps_mid. change (s' +:+ "/") with (s' +:+ String "/" ""). rewrite comps_mid. by rewrite app_nil_r.
Qed.

Lemma drop_dots_filter l :
  List.filter (fun c => negb (skip_dot c)) (drop_dots l) = List.filter (fun c => negb (skip_dot c)) l.
Proof. induction l as [|c l IH]; [done|]. cbn. destruct (skip_dot c) eqn:E; [done|]. cbn. by rewrite E. Qed.

Lemma drop_dots_head l c l' : drop_dots l = c :: l' -> skip_dot c = false.
Proof. induction l as [|d l IH]; [done|]. cbn. destruct (skip_dot d) eqn:E; [done|]. by intros [= -> _]. Qed.

Lemma drop_dots_Forall (P : string -> Prop) l : Forall P l -> Forall P (drop_dots l).
Proof. induction 1 as [|c l Hc Hl IH]; [constructor|]. cbn. case_match; [done|]. by constructor. Qed.

Lemma filter_rev {A} (f : A -> bool) l : List.filter f (rev l) = rev (List.filter f l).
Proof.
  induction l as [|a l IH]; [done|]. cbn. rewrite List.filter_app, IH. cbn. destruct (f a); [done|].
  by rewrite app_nil_r.
Qed.

Lemma comps_parent p : comps (parent_path p) = removelast (comps p).
Proof.
  unfold parent_path, comps. rewrite <- (rev_involutive (split_on "/" p)), (filter_rev _ (rev _)).
  rewrite <- (drop_dots_filter (rev (split_on "/" p))), rev_involutive.
  destruct (drop_dots (rev (split_on "/" p))) as [|c rest] eqn:E; [done|].
  cbn [List.filter]. rewrite (drop_dots_head _ _ _ E). cbn [negb rev]. rewrite removelast_last.
  rewrite <- (drop_dots_filter rest), <- filter_rev.
  destruct (drop_dots rest) as [|d l] eqn:Ed; [done|]. rewrite split_join; [done|intros Hn%(f_equal length); cbn in Hn; rewrite length_app in Hn; cbn in Hn; lia|].
  change (rev l ++ [d]) with (rev (d :: l)). apply Forall_rev. rewrite <- Ed. apply drop_dots_Forall.
  assert (Forall (fun q => str_elem "/" q = false) (c :: rest)) as Hall.
  { rewrite <- E. apply drop_dots_Forall, Forall_rev, split_on_no_sep. }
  by inversion Hall.
Qed.

Lemma join_app sep l1 l2 : l1 <> [] -> l2 <> [] -> join sep (l1 ++ l2) = join sep l1 +:+ sep +:+ join sep l2.
Proof.
  intros H1 H2. induction l1 as [|a l1 IH]; [done|]. destruct l1 as [|b l1].
  - destruct l2 as [|c l2]; [done|]. apply join_cons2.
  - change ((a :: b :: l1) ++ l2) with (a :: b :: (l1 ++ l2)). rewrite !join_cons2.
    change (b :: l1 ++ l2) with ((b :: l1) ++ l2). rewrite IH by done. by rewrite !sapp_assoc.
Qed.

(** The test of the code is about text; this is what it rules out. *)
Lemma safe_path_spec p : unsafe_path p = false -> starts_with p "/" = false /\ ".." ∉ split_on "/" p.
Proof.
  unfold unsafe_path. rewrite !orb_false_iff. intros [ [ [H1 H2] H3] H4]. split; [done|].
  intros (l1 & l2 & E)%list_elem_of_split. pose proof (join_split "/" p) as Hp. rewrite E in Hp.
  apply String.eqb_neq in H4. apply not_true_iff_false in H2, H3.
  rewrite str_contains_spec in H2, H3.
  destruct l2 as [|y l2].
  - destruct l1 as [|x l1]; [by rewrite <- Hp in H4|]. apply H3.
    rewrite join_app in Hp by done. exists (join "/" (x :: l1)), "". by rewrite <- Hp.
  - apply H2. change (".." :: y :: l2) with ([".."] ++ y :: l2) in Hp. destruct l1 as [|x l1].
    + exists "", (join "/" (y :: l2)). rewrite <- Hp. by rewrite app_nil_l, join_app.
    + rewrite join_app, (join_app _ [".."]) in Hp by done.
      exists (join "/" (x :: l1) +:+ "/"), (join "/" (y :: l2)). rewrite <- Hp. by rewrite !sapp_assoc.
Qed.

(** [p] lies in [dir], or is [dir]: no step of it leads upwards. *)
Definition inside (dir p : string) : Prop := exists rel, comps p = comps dir ++ rel /\ ".." ∉ rel.

(** What writing a volume's files may touch: files in its directory, and the
    directories on the way to them. *)
Definition volume_call (dir : string) (c : call) : Prop :=
  match c with
  | WriteFile p _ | SetPermissions p _ => inside dir p
  | CreateDirAll p => inside dir p \/ comps p `prefix_of` comps dir
  | _ => False
  end.

Lemma inside_join dir p : unsafe_path p = false -> inside dir (path_join dir p).
Proof.
  intros [Hs Hd]%safe_path_spec. exists (comps p). split; [by apply comps_join|].
  unfold comps. intros [Hin _]%list_elem_of_In%filter_In. by apply Hd, list_elem_of_In.
Qed.

Lemma inside_parent dir p : inside dir p -> inside dir (parent_path p) \/ comps (parent_path p) `prefix_of` comps dir.
Proof.
  intros (rel & E & Hd). rewrite comps_parent, E. destruct rel as [|x rel _] using rev_ind.
  - right. rewrite app_nil_r. destruct (comps dir) as [|y l _] using rev_ind; [done|].
    rewrite removelast_last. by exists [y].
  - left. exists rel. rewrite comps_parent, E, app_assoc, removelast_last. split; [done|].
    intros Hin. apply Hd, elem_of_app. by left.
Qed.

Section Volumes.
Context `{Env, SerdeJson, HashOrder}.

Lemma emits_write_inline dir f : emits (volume_call dir) (write_inline dir f).
Proof.
  unfold write_inline. destruct (unsafe_path (fi_path f)) eqn:E; [apply emits_ret|].
  pose proof (inside_join dir _ E) as Hin. pose proof (inside_parent _ _ Hin) as Hpar.
  unfold create_dir_all, write_file. emit_solve ltac:(exact Hin || exact Hpar).
Qed.

Lemma emits_each {A} (P : call -> Prop) (f : A -> M agent unit) l :
  (forall x, emits P (f x)) -> emits P (each f l).
Proof. intros Hf. induction l as [|x l IH]; cbn [each]; [apply emits_ret|]. by apply emits_bind. Qed.

(** C29: whatever names a request gives the files of a volume, and however often
    they say [..], writing them stays in the volume's own directory: a file is only
    ever written or has its mode changed there, and directories are only made there
    or on the way to it. *)
Theorem inline_files_contained mount_point vol :
  let dir := path_join (path_join mount_point "volumes") (last_part (vi_source vol)) in
  emits (volume_call dir) (write_volume mount_point vol).
Proof.
  intros dir. unfold write_volume. fold dir.
  assert (emits (volume_call dir) (create_dir_all dir;; each (write_inline dir) (vi_inline_files vol))) as He.
  { apply emits_bind; [|intros _; apply emits_each, emits_write_inline]. unfold create_dir_all.
    emit_solve ltac:(by right). }
  destruct (vi_is_block vol); [apply emits_ret|]. destruct (vi_inline_files vol); [apply emits_ret|exact He].
Qed.

(** The volume's own directory is not checked in the same way: a volume whose
    source ends in [..] has the bundle itself for its directory, and its file
    [config.json] is written over the container's. *)
Theorem volume_source_escapes mount_point vol f content a :
  vi_is_block vol = false -> vi_source vol = ".." -> vi_inline_files vol = [f] ->
  fi_path f = "config.json" -> fi_content f = content ->
  (forall h p, env h (CreateDirAll p) = inr tt) ->
  WriteFile (path_join (path_join (path_join mount_point "volumes") "..") "config.json") content
    ∈ ag_trace (write_volume mount_point vol a).2.
Proof.
  intros Hb Hs Hf Hp Hc Hd. unfold write_volume. rewrite Hb, Hf, Hs. cbn [each].
  change (last_part "..") with "..". set (dir := path_join (path_join mount_point "volumes") "..").
  unfold write_inline. rewrite Hp, Hc. change (unsafe_path "config.json") with false. cbv match.
  assert (Hmk : forall p w, create_dir_all p w = (Ok tt, set_ag_trace (ag_trace w ++ [CreateDirAll p]) w)).
  { intros p w. unfold create_dir_all, mbind, M_bind. rewrite sys_run. unfold lift. by rewrite Hd. }
  rewrite (M_bind_run _ _ _ _ _ (Hmk _ _)), M_bind_assoc, (M_bind_run _ _ _ _ _ (Hmk _ _)).
  match goal with |- _ ∈ ag_trace (?m ?w).2 => set (w0 := w) end.
  rewrite M_bind_assoc. unfold mbind at 1, M_bind at 1, m_ctx, write_file, mbind at 1, M_bind at 1. rewrite sys_run.
  unfold lift at 1. match goal with |- context [set_trace ?t ?w] => set (w1 := set_trace t w) end.
  assert (Hin : WriteFile (path_join dir "config.json") content ∈ ag_trace w1) by (cbn; set_solver).
  destruct (env (trace w0) _); [exact Hin|]. cbn [io_res with_ctx].
  assert (He : emits (fun _ => True) ((if fi_mode f =? 0 then mret tt
      else r ← sys (SetPermissions (path_join dir "config.json") (fi_mode f)); lift (io_res r));; each (write_inline dir) []))
    by emit_solve ltac:(done).
  destruct (He w1) as (t & Et & _). cbn [trace agent_world] in Et.
  cbn [each] in Et. rewrite Et. apply elem_of_app. by left.
Qed.
End Volumes.

Lemma volume_source_escapes_witness :
  let E := calm_env (fun _ => None) (fun _ => true) in
  WriteFile "/run/containers/c/volumes/../config.json" "{}"
    ∈ ag_trace (@write_volume E "/run/containers/c"
        (mkVolumeInfo "/d" ".." false false "" [mkInlineFileInfo "config.json" "{}" 0]) (manager_new sample_sock ∅ [])).2.
Proof.
  intros E. by apply (volume_source_escapes (H := E) "/run/containers/c"
    (mkVolumeInfo "/d" ".." false false "" [mkInlineFileInfo "config.json" "{}" 0])
    (mkInlineFileInfo "config.json" "{}" 0) "{}" (manager_new sample_sock ∅ [])).
Defined.

(** ** The adapted OCI spec *)

Section AdaptSpec.
Context `{Env, SerdeJson, HashOrder}.

Definition linux_removed : list string := ["cgroupsPath"; "maskedPaths"; "readonlyPaths"; "resources"; "seccomp"].
Definition process_removed : list string := ["apparmorProfile"; "selinuxLabel"; "oomScoreAdj"].

Lemma get_removed k k' v : is_object v = true -> get k (obj_remove k' v) = if decide (k = k') then None else get k v.
Proof. intros Ho. case_decide; [subst; by apply get_remove|by apply get_remove_ne]. Qed.

Lemma adapt_linux_get l k : is_object l = true ->
  get k (adapt_linux l) =
    if decide (k ∈ linux_removed) then None
    else if decide (k = "namespaces") then Some (of_lit vm_namespaces) else get k l.
Proof.
  intros Ho. unfold adapt_linux. pose proof (insert_object "namespaces" (of_lit vm_namespaces) l Ho) as Hi.
  rewrite !get_removed by (repeat apply remove_object; done).
  assert (Hin : k ∈ linux_removed <->
    k = "cgroupsPath" \/ k = "maskedPaths" \/ k = "readonlyPaths" \/ k = "resources" \/ k = "seccomp")
    by (unfold linux_removed; set_solver).
  repeat (case_decide; try tauto). - subst. by apply get_insert. - by apply get_insert_ne.
Qed.

Lemma adapt_process_get p k : is_object p = true ->
  get k (adapt_process p) = if decide (k ∈ process_removed) then None else get k p.
Proof.
  intros Ho. unfold adapt_process. rewrite !get_removed by (repeat apply remove_object; done).
  assert (Hin : k ∈ process_removed <-> k = "apparmorProfile" \/ k = "selinuxLabel" \/ k = "oomScoreAdj")
    by (unfold process_removed; set_solver).
  repeat (case_decide; try tauto).
Qed.

Lemma set_mounts_get mounts s k : is_object s = true ->
  get k (set_mounts mounts s) =
    if decide (k = "mounts") then Some (of_lit (LArr mounts)) else if decide (k = "hostname") then None else get k s.
Proof.
  intros Ho. unfold set_mounts. rewrite Ho. pose proof (remove_object "hostname" s Ho) as Hr.
  case_decide; [subst; by apply get_insert|]. rewrite get_insert_ne by done. by apply get_removed.
Qed.

Lemma edit_object_is k f v : is_object v = true -> is_object (edit_object k f v) = true.
Proof. intros Hv. unfold edit_object. repeat case_match; try done. by apply insert_object. Qed.

(** How a field of the spec that is an object comes out. *)
Lemma adapt_spec_get mounts spec k : is_object spec = true ->
  get k (adapt_spec mounts spec) =
    if decide (k = "mounts") then Some (of_lit (LArr mounts))
    else if decide (k = "hostname") then None
    else if decide (k = "linux") then
      (fun l => if is_object l then adapt_linux l else l) <$> get k spec
    else if decide (k = "process") then
      (fun p => if is_object p then adapt_process p else p) <$> get k spec
    else get k spec.
Proof.
  intros Ho. unfold adapt_spec. set (s1 := edit_object "linux" adapt_linux spec).
  assert (Ho1 : is_object s1 = true) by by apply edit_object_is.
  assert (Hl : forall k, get k s1 = if decide (k = "linux") then (fun l => if is_object l then adapt_linux l else l) <$> get k spec else get k spec).
  { intros k'. case_decide; [subst k'|by apply edit_object_other]. unfold s1, edit_object.
    destruct (get "linux" spec) as [l|] eqn:El; [|by rewrite El]. destruct (is_object l) eqn:Eo; cbn; rewrite ?Eo, ?El; cbn; rewrite ?Eo; [|done].
    by rewrite get_insert. }
  destruct (decide (k = "process")) as [->|Hk].
  - rewrite !decide_False by done. unfold edit_object. rewrite set_mounts_get, !decide_False, Hl, decide_False by done.
    destruct (get "process" spec) as [p|] eqn:Ep; cbn.
    + destruct (is_object p) eqn:Eo; [|by rewrite set_mounts_get, !decide_False, Hl, decide_False].
      rewrite get_insert; [done|]. unfold set_mounts. rewrite Ho1. by apply insert_object, remove_object.
    + by rewrite set_mounts_get, !decide_False, Hl, decide_False.
  - rewrite edit_object_other by done. rewrite set_mounts_get by done. rewrite Hl. by repeat case_decide.
Qed.

(** The mount of a volume that is a directory. *)
Definition fs_mount (vol : VolumeInfo) : lit :=
  mount_lit (vi_destination vol) "bind" (bind_source vol) ("rbind" :: ro_opts vol).

Lemma volume_mounts_fs volumes a :
  Forall (fun v => vi_is_block v = false) volumes -> volume_mounts volumes a = (Ok (map fs_mount volumes), a).
Proof.
  induction 1 as [|v l Hv Hl IH]; [done|]. cbn [volume_mounts]. unfold volume_mount. rewrite Hv.
  unfold mbind, M_bind, mret, M_ret. by rewrite IH.
Qed.

End AdaptSpec.

Definition sample_oci : lit :=
  LObj [("hostname", LStr "node"); ("ociVersion", LStr "1.0");
        ("linux", LObj [("namespaces", LArr []); ("seccomp", LStr "s"); ("rootfsPropagation", LStr "slave")]);
        ("process", LObj [("args", LArr [LStr "sh"]); ("oomScoreAdj", LNum 5)])].
Definition oci_files (p : string) : option string :=
  if String.eqb p "/run/containers/c/config.json" then Some (lit_print sample_oci) else None.
Definition oci_env : Env := calm_env oci_files (fun _ => true).
Definition fresh_agent : agent := manager_new (mkSock 1 [] [] [] []) ∅ [].

