(* ===== verification/AgentInv.v ===== *)
(** * The guest agent: its books, over every sequence of requests

    The requests of [server.rs] and the agent's own background tasks as events,
    the invariant of the manager's tables, and what follows from it: how a
    container's exit status reaches whoever waits for it, what a timed-out wait
    does, and what polling the logs returns. *)

From S2P Require Import Prelude RustStr NetAddr Bytes Netlink NetlinkOps Proto Sys Json Lifecycle Agent AgentServer AgentProps.
From Stdlib Require String.
Local Open Scope Z_scope.

(** ** Events *)

Inductive aevent :=
| ACreate (req : CreateContainerRequest)
| AStart (req : StartContainerRequest)
| ARun (req : CreateContainerRequest)
| AKill (req : KillContainerRequest)
| ADelete (req : DeleteContainerRequest)
| AWait (req : WaitContainerRequest) (o : wait_end) (now : string)
| AAdopt (req : AdoptContainerRequest)
| AConfigure (req : ConfigureNetworkRequest)
| AShutdown
| ALog (buf : nat) (to_stdout : bool) (data : string)
| AExit (i : nat) (now : string).

(** A container's child ends: the [i]-th exit task runs and is gone. *)
Definition take_task (i : nat) (a : agent) : option (exit_task * agent) :=
  t ← ag_tasks a !! i; Some (t, set_exit_tasks (base.delete i (ag_tasks a)) a).

Section Events.
Context `{Env, SerdeJson, HashOrder, Anyhow}.

Definition handle (ev : aevent) (a : agent) : agent :=
  match ev with
  | ACreate req => (create_container req a).2
  | AStart req => (start_container req a).2
  | ARun req => (run_container req a).2
  | AKill req => (kill_container req a).2
  | ADelete req => (delete_container req a).2
  | AWait req o now => (wait_container req o now a).2
  | AAdopt req => (adopt_container req a).2
  | AConfigure req => (configure_network req a).2
  | AShutdown => (shutdown a).2
  | ALog buf out data => log_chunk buf out data a
  | AExit i now => match take_task i a with Some (t, a') => (run_exit_task t now a').2 | None => a end
  end.

Definition handle_all (evs : list aevent) (a : agent) : agent := foldl (fun a ev => handle ev a) a evs.
End Events.

(** ** The invariant *)

Record agent_wf (a : agent) : Prop := {
  (* receivers and logs lead to a channel and a buffer *)
  wf_rx id c : ag_exit_receivers a !! id = Some c -> (c < length (ag_chans a))%nat;
  wf_log id b : ag_logs a !! id = Some b -> (b < length (ag_bufs a))%nat;
  (* an exit that is still awaited has not been published, and is published once *)
  wf_task t : t ∈ ag_tasks a -> ag_chans a !! et_chan t = Some None /\ (et_log t < length (ag_bufs a))%nat;
  wf_chans : NoDup (map et_chan (ag_tasks a));
  (* a container's record *)
  wf_pid id c : ag_containers a !! id = Some c -> is_Some (ct_pid c);
  wf_created id c : ag_containers a !! id = Some c -> ct_state c = Created -> ct_exit_code c = None;
  wf_running id c : ag_containers a !! id = Some c -> ct_state c = Running ->
    is_Some (ag_exit_receivers a !! id) /\ is_Some (ag_logs a !! id);
  wf_stopped id c : ag_containers a !! id = Some c -> ct_state c = Stopped -> is_Some (ct_exit_code c);
}.

(** The invariant is kept, and what has been published stays. *)
Definition keeps (a a' : agent) : Prop :=
  agent_wf a -> agent_wf a' /\ forall c st, ag_chans a !! c = Some (Some st) -> ag_chans a' !! c = Some (Some st).

#[export] Instance keeps_preorder : PreOrder keeps.
Proof.
  split; [by intros a Ha|]. intros a1 a2 a3 H12 H23 H1. destruct (H12 H1) as [H2 Hp]. destruct (H23 H2) as [H3 Hq].
  split; auto.
Qed.

(** The tables that the invariant is about, untouched. *)
Definition books (a a' : agent) : Prop :=
  ag_containers a' = ag_containers a /\ ag_exit_receivers a' = ag_exit_receivers a /\ ag_chans a' = ag_chans a /\
  ag_logs a' = ag_logs a /\ ag_bufs a' = ag_bufs a /\ ag_tasks a' = ag_tasks a.

#[export] Instance books_preorder : PreOrder books.
Proof.
  split; [by intros a|]. intros a1 a2 a3 (?&?&?&?&?&?) (?&?&?&?&?&?). repeat split; congruence.
Qed.

Lemma books_keeps a a' : books a a' -> keeps a a'.
Proof.
  destruct a, a'. intros (?&?&?&?&?&?). cbn in *. subst. intros [ ]. split; [|done]. by constructor.
Qed.

Lemma moves_mono {W A} (R R' : W -> W -> Prop) (m : M W A) : (forall w w', R w w' -> R' w w') -> moves R m -> moves R' m.
Proof. intros HR Hm w. apply HR, Hm. Qed.

Lemma moves_others {A} R what (m : M agent A) `{Anyhow} : moves R m -> moves R (others what m) /\ moves R (others_alt what m).
Proof. intros Hm. split; intros a; specialize (Hm a); unfold others, others_alt; destruct (m a) as [ [] a']; done. Qed.

(** Close [moves R m] down to the operations' own changes of the state. *)
Ltac moves_solve :=
  repeat first
  [assumption
  |lazymatch goal with
   | |- moves _ (mret _) => apply moves_ret; apply _
   | |- moves _ (lift _) => apply moves_lift; apply _
   | |- moves _ (fail _) => apply moves_fail; apply _
   | |- moves _ (gets _) => apply moves_gets; apply _
   | |- moves _ (attempt _) => apply moves_attempt; apply _
   | |- moves _ (m_ctx _ _) => apply moves_ctx; try apply _
   | |- moves _ (ignore _) => apply moves_ignore; try apply _
   | |- moves _ (others _ _) => apply moves_others
   | |- moves _ (others_alt _ _) => apply moves_others
   | |- moves _ (_ ≫= _) => apply moves_bind; [apply _| |intros ?]
   | |- moves _ (let _ := _ in _) => cbv zeta
   | |- moves _ (match _ with _ => _ end) => case_match
   end
  |solve [eauto 3 with moves nocore]].

Create HintDb moves.

Lemma alter_present {A} (f : A -> A) (m : gmap string A) k x : m !! k = Some x -> alter f k m = <[k := f x]> m.
Proof.
  intros E. apply map_eq. intros k'. destruct (decide (k' = k)) as [->|Hne].
  - by rewrite lookup_alter_eq, lookup_insert_eq, E.
  - by rewrite lookup_alter_ne, lookup_insert_ne.
Qed.

Section AgentMoves.
Context `{Env, SerdeJson, HashOrder, Anyhow}.

Lemma books_io {A} (m : M agent A) : io_only m -> moves books m.
Proof. apply moves_io. by intros t w. Qed.
Lemma books_sys c : moves books (sys c).
Proof. apply books_io, io_only_sys. Qed.
#[local] Hint Resolve books_sys : moves.

Lemma io_inotify n d v : io_only (inotify_loop n d v).
Proof. induction n; cbn [inotify_loop]; io_solve. Qed.
Lemma io_wait_dev p : io_only (wait_for_dev_inotify p).
Proof. pose proof io_inotify. unfold wait_for_dev_inotify. io_solve. Qed.
Lemma io_mount_layer n d t : io_only (mount_layer n d t).
Proof. induction n; cbn [mount_layer]; io_solve. Qed.
Lemma io_mount_layers n i mp : io_only (mount_layers n i mp).
Proof.
  pose proof io_wait_dev. pose proof io_mount_layer. revert i. induction n; intros i; cbn [mount_layers]; io_solve.
Qed.
Lemma io_overlay mp r l : io_only (compose_overlay mp r l).
Proof. unfold compose_overlay. io_solve. Qed.
Lemma io_each {A} (f : A -> M agent unit) l : (forall x, io_only (f x)) -> io_only (each f l).
Proof. intros Hf. induction l; cbn [each]; io_solve. Qed.
Lemma io_write_volume mp v : io_only (write_volume mp v).
Proof.
  unfold write_volume. assert (forall d f, io_only (write_inline d f)) by (intros; unfold write_inline; io_solve).
  pose proof (fun d => io_each (write_inline d)). repeat case_match; io_solve; apply io_each; auto.
Qed.
Lemma io_link_disk mp : io_only (link_disk_volumes mp).
Proof. unfold link_disk_volumes. io_solve. Qed.
Lemma io_exit_pidfd p : io_only (wait_for_exit_pidfd p).
Proof. unfold wait_for_exit_pidfd. io_solve. Qed.
Lemma io_kill id s : io_only (kill id s).
Proof. unfold kill. io_solve. Qed.

Lemma books_discover : moves books discover_block_device.
Proof.
  unfold discover_block_device, scan_block_devices. moves_solve; by apply moves_modify.
Qed.
Lemma books_volumes v : moves books (volume_mounts v).
Proof. pose proof books_discover. induction v; cbn [volume_mounts]; unfold volume_mount; moves_solve. Qed.
Lemma books_adapt b v : moves books (adapt_oci_spec_for_vm b v).
Proof.
  pose proof books_volumes. unfold adapt_oci_spec_for_vm. moves_solve; try done; apply books_io; io_solve.
Qed.

(** ** Each operation keeps the invariant *)

Lemma keeps_books {A} (m : M agent A) : moves books m -> moves keeps m.
Proof. apply moves_mono, books_keeps. Qed.
Lemma keeps_io {A} (m : M agent A) : io_only m -> moves keeps m.
Proof. intros. by apply keeps_books, books_io. Qed.

Lemma create_keeps id v c p e : moves keeps (create id v c p e).
Proof.
  unfold create. pose proof (fun b v => keeps_books _ (books_adapt b v)). moves_solve; try done.
  all: try (apply keeps_io; solve [io_solve|apply io_mount_layers|apply io_overlay|apply io_link_disk|
    apply io_each, io_write_volume]).
  apply moves_modify. intros ag [ ]. split; [|done]. constructor; cbn; try done.
  all: intros id' c'; destruct (decide (id' = id)) as [->|Hne]; rewrite ?lookup_insert_eq, ?lookup_insert_ne by done; eauto.
  all: intros [= <-]; cbn; done.
Qed.

Lemma kill_keeps id s : moves keeps (kill id s).
Proof. apply keeps_io, io_kill. Qed.

Lemma delete_keeps id : moves keeps (Agent.delete id).
Proof.
  unfold Agent.delete. moves_solve; try (apply keeps_io, io_only_sys).
  apply moves_modify. intros ag [ ]. split; [|done]. constructor; cbn; try done.
  all: intros id' c'; destruct (decide (id' = id)) as [->|Hne]; rewrite ?lookup_delete_eq, ?lookup_delete_ne by done; eauto.
  all: done.
Qed.

Lemma mark_stopped_keeps id code : moves keeps (mark_stopped id code).
Proof.
  apply moves_modify. intros ag [ ]. split; [|done]. constructor; cbn; try done.
  all: intros id' c'; destruct (decide (id' = id)) as [->|Hne];
    rewrite ?lookup_alter_eq, ?lookup_alter_ne by done; eauto.
  all: intros (c0 & E & ->)%fmap_Some; cbn; eauto; done.
Qed.

Lemma wait_keeps id o now : moves keeps (wait_container id o now).
Proof. pose proof mark_stopped_keeps. unfold wait_container. moves_solve; try done. Qed.

Lemma io_wait_device n d p : io_only (wait_device_go n d p).
Proof. induction n; cbn [wait_device_go]; io_solve. Qed.

Lemma books_nl {A} (m : M sock A) : moves books (agent_nl m).
Proof. intros a. unfold agent_nl. by destruct (m (ag_sock a)). Qed.

Lemma books_blocking {A} (m : M agent A) : moves books m -> moves books (blocking m).
Proof. intros Hm a. specialize (Hm a). unfold blocking. by destruct (m a) as [ [] ?]. Qed.

Lemma configure_books req : moves books (configure_network req).
Proof.
  pose proof (fun n d p => books_io _ (io_wait_device n d p)).
  unfold configure_network, wait_for_device. moves_solve; try done; try (apply books_sys).
  all: apply books_blocking, moves_others, books_nl.
Qed.
Lemma configure_keeps req : moves keeps (configure_network req).
Proof. apply keeps_books, configure_books. Qed.

Lemma io_shutdown : io_only shutdown.
Proof.
  unfold shutdown, signal_all. apply io_only_bind; [io_solve|intros ?].
  apply io_each. intros. apply io_only_ignore, io_kill.
Qed.
Lemma shutdown_keeps : moves keeps shutdown.
Proof. apply keeps_io, io_shutdown. Qed.

(** The run of [start], on both ways out. *)
Lemma start_run id a :
  (exists e t, start id a = (Err e, set_ag_trace (ag_trace a ++ t) a)) \/
  (exists c pid t, ag_containers a !! id = Some c /\
     start id a = (Ok pid,
       mkAgent (<[id := mkContainer (Some pid) (ct_exit_code c) Running]> (ag_containers a)) (ag_known_disks a)
         (<[id := length (ag_chans a)]> (ag_exit_receivers a)) (ag_chans a ++ [None])
         (<[id := length (ag_bufs a)]> (ag_logs a)) (ag_bufs a ++ [mkContainerLogs "" "" false])
         (ag_tasks a ++ [mkExitTask pid (length (ag_chans a)) (length (ag_bufs a))]) (ag_sock a) (ag_trace a ++ t))).
Proof.
  unfold start. rewrite (M_bind_run _ _ a (ag_containers a) a) by done.
  destruct (ag_containers a !! id) as [c|] eqn:Ec; [|left; eexists _, []; rewrite app_nil_r; by destruct a].
  rewrite (M_bind_run _ _ a c a) by done. cbv zeta. unfold mbind, M_bind. rewrite sys_run. unfold lift, gets, modify.
  destruct (env (trace a) _) as [e|o]; [left; by eexists _, [_]|right].
  exists c, (default 0 o), [Spawn "/bin/crun" ["run"; "--bundle"; path_join "/run/containers" id; id] ]. split; [done|].
  cbn. by rewrite (alter_present _ _ _ _ Ec).
Qed.

Lemma start_keeps id : moves keeps (start id).
Proof.
  intros a Hwf. destruct (start_run id a) as [(e & t & ->)|(c & pid & t & Ec & ->)]; cbn [snd];
    [by apply (books_keeps a)|].
  destruct Hwf. split; cbn; [|by intros ch st Hs; apply lookup_app_l_Some].
  assert (Hlen : forall {A} (l : list A) x, length (l ++ [x]) = S (length l)) by (intros; rewrite length_app; cbn; lia).
  constructor; cbn.
  - intros id' ch. rewrite Hlen. destruct (decide (id' = id)) as [->|]; rewrite ?lookup_insert_eq, ?lookup_insert_ne by done.
    + intros [= <-]. lia.
    + intros Hr%wf_rx0. lia.
  - intros id' b. rewrite Hlen. destruct (decide (id' = id)) as [->|]; rewrite ?lookup_insert_eq, ?lookup_insert_ne by done.
    + intros [= <-]. lia.
    + intros Hr%wf_log0. lia.
  - intros tk. rewrite Hlen, elem_of_app, list_elem_of_singleton. intros [Ht| ->]; cbn.
    + destruct (wf_task0 tk Ht) as [Hc Hl]. split; [by apply lookup_app_l_Some|lia].
    + split; [|lia]. by rewrite lookup_app_r, Nat.sub_diag.
  - rewrite map_app. apply NoDup_app. split_and!; [done| |apply NoDup_singleton].
    intros ch (tk & -> & Ht)%list_elem_of_fmap. cbn. rewrite list_elem_of_singleton. intros E.
    destruct (wf_task0 tk Ht) as [Hc _]. apply lookup_lt_Some in Hc. lia.
  - intros id' c'. destruct (decide (id' = id)) as [->|]; rewrite ?lookup_insert_eq, ?lookup_insert_ne by done; eauto.
    by intros [= <-].
  - intros id' c'. destruct (decide (id' = id)) as [->|]; rewrite ?lookup_insert_eq, ?lookup_insert_ne by done; eauto.
    by intros [= <-].
  - intros id' c'. destruct (decide (id' = id)) as [->|]; rewrite ?lookup_insert_eq, ?lookup_insert_ne by done; eauto.
  - intros id' c'. destruct (decide (id' = id)) as [->|]; rewrite ?lookup_insert_eq, ?lookup_insert_ne by done; eauto.
    by intros [= <-].
Qed.

Lemma move_key_new o n m : move_key o n m !! n = match m !! o with Some x => Some x | None => m !! n end.
Proof. unfold move_key. destruct (m !! o); [apply lookup_insert_eq|done]. Qed.
Lemma move_key_other o n m k : k <> o -> k <> n -> move_key o n m !! k = m !! k.
Proof. intros. unfold move_key. destruct (m !! o); [|done]. by rewrite lookup_insert_ne, lookup_delete_ne. Qed.
Lemma move_key_from o n m k x : move_key o n m !! k = Some x -> exists k', m !! k' = Some x.
Proof.
  unfold move_key. destruct (m !! o) as [y|] eqn:E; [|eauto].
  destruct (decide (k = n)) as [->|]; rewrite ?lookup_insert_eq, ?lookup_insert_ne by done; [intros [= <-]; eauto|].
  intros [_ Hk]%lookup_delete_Some. eauto.
Qed.

(** The run of [adopt]: with the invariant, a container that is found has a pid,
    so it is never removed without being registered again. *)
Lemma adopt_run o n a : agent_wf a ->
  match ag_containers a !! o with
  | None => exists e, adopt o n a = (Err e, a)
  | Some c => exists pid, ct_pid c = Some pid /\
      adopt o n a = (Ok pid,
        mkAgent (<[n := c]> (base.delete o (ag_containers a))) (ag_known_disks a)
          (move_key o n (ag_exit_receivers a)) (ag_chans a) (move_key o n (ag_logs a)) (ag_bufs a) (ag_tasks a)
          (ag_sock a) (ag_trace a))
  end.
Proof.
  intros Hwf. unfold adopt. rewrite (M_bind_run _ _ a (ag_containers a) a) by done.
  destruct (ag_containers a !! o) as [c|] eqn:Ec; [|by eexists].
  destruct (wf_pid _ Hwf _ _ Ec) as [pid Ep]. exists pid. split; [done|].
  rewrite (M_bind_run _ _ a c a) by done. unfold mbind, M_bind, modify. cbn. by rewrite Ep.
Qed.

Lemma adopt_keeps o n : moves keeps (adopt o n).
Proof.
  intros a Hwf. pose proof (adopt_run o n a Hwf) as Hr. destruct (ag_containers a !! o) as [c|] eqn:Ec.
  2: { destruct Hr as [e ->]. done. }
  destruct Hr as (pid & Ep & ->). cbn [snd]. destruct Hwf. split; [|done].
  assert (Hid : forall id c', (<[n := c]> (base.delete o (ag_containers a))) !! id = Some c' ->
    exists id0, ag_containers a !! id0 = Some c' /\ (id = n /\ id0 = o \/ id0 = id /\ id <> n /\ id <> o)).
  { intros id c'. destruct (decide (id = n)) as [->|]; rewrite ?lookup_insert_eq, ?lookup_insert_ne by done.
    - intros [= <-]. eauto.
    - intros [Hne Hl]%lookup_delete_Some. exists id. split; [done|right]. done. }
  constructor; cbn; try done.
  - intros id ch [k Hk]%move_key_from. eauto.
  - intros id b [k Hk]%move_key_from. eauto.
  - intros id c' (id0 & Hl & _)%Hid. eauto.
  - intros id c' (id0 & Hl & _)%Hid. eauto.
  - intros id c' (id0 & Hl & Hcase)%Hid Hs. destruct (wf_running0 _ _ Hl Hs) as [ [ch Hch] [b Hb] ].
    destruct Hcase as [ [-> ->] | (-> & Hn & Ho)].
    + by rewrite !move_key_new, Hch, Hb.
    + by rewrite !move_key_other, Hch, Hb.
  - intros id c' (id0 & Hl & _)%Hid. eauto.
Qed.

Lemma run_keeps id v c p e : moves keeps (Agent.run id v c p e).
Proof. apply moves_bind; [apply _|apply create_keeps|intros _; apply start_keeps]. Qed.

Lemma log_chunk_keeps b out data a : keeps a (log_chunk b out data a).
Proof.
  intros [ ]. split; [|done]. constructor; cbn; try done; intros; rewrite ?length_alter; eauto.
Qed.

(** An exit is published where the container's receiver looks. *)
Lemma exit_task_run t now a :
  exists code s, (wait_for_exit_pidfd (et_pid t) a).1 = Ok code /\
    (run_exit_task t now a).2 =
      set_bufs (alter (fun l => mkContainerLogs (lg_stdout l) (lg_stderr l) true) (et_log t) (ag_bufs a))
        (set_chans (<[et_chan t := Some (mkExitStatus code now)]> (ag_chans a)) (set_ag_trace s a)).
Proof.
  unfold run_exit_task, mbind, M_bind. destruct (io_exit_pidfd (et_pid t) a) as [s Hs].
  assert (is_Ok (wait_for_exit_pidfd (et_pid t) a).1 = true) as Hok.
  { revert a Hs. intros a _. apply infallible_bind; [done|intros]. apply infallible_bind; [by case_match|intros].
    repeat case_match; repeat (apply infallible_bind; [done|intros]; repeat case_match); done. }
  destruct (wait_for_exit_pidfd (et_pid t) a) as [ [code| | |] a']; try done. cbn in Hs. subst a'.
  exists code, (ag_trace a ++ s). done.
Qed.

Lemma exit_keeps i now a : keeps a (handle (AExit i now) a).
Proof.
  intros Hwf. cbn. unfold take_task. destruct (ag_tasks a !! i) as [t|] eqn:Et; [|done]. cbn.
  destruct (exit_task_run t now (set_exit_tasks (base.delete i (ag_tasks a)) a)) as (code & s & _ & ->).
  pose proof (list_elem_of_lookup_2 _ _ _ Et) as Hin. destruct Hwf. destruct (wf_task0 t Hin) as [Hc Hl].
  pose proof (delete_Permutation _ _ _ Et) as Hperm.
  assert (Hnd : NoDup (et_chan t :: map et_chan (base.delete i (ag_tasks a)))).
  { change (NoDup (map et_chan (t :: base.delete i (ag_tasks a)))). by rewrite <- Hperm. }
  apply NoDup_cons in Hnd as [Hnin Hnd].
  split; cbn.
  - constructor; cbn; try done.
    + intros. rewrite length_insert. eauto.
    + intros. rewrite length_alter. eauto.
    + intros t' Ht'. rewrite length_alter. assert (t' ∈ ag_tasks a) as Hin' by (rewrite Hperm; by right).
      destruct (wf_task0 t' Hin') as [Hc' Hl']. split; [|done].
      rewrite list_lookup_insert_ne; [done|]. intros E. apply Hnin. rewrite E. by apply list_elem_of_fmap_2.
  - intros ch st Hs. rewrite list_lookup_insert_ne; [done|]. intros <-. congruence.
Qed.

(** A handler's step, by what it does inside. *)
Ltac by_handler :=
  lazymatch goal with |- ?R ?a (handle ?ev ?a) => let m := eval cbn [handle] in (handle ev a) in
    lazymatch m with
    | (?h a).2 =>
        refine ((_ : moves R h) a);
        try unfold create_container, start_container, run_container, kill_container, delete_container, adopt_container;
        lazymatch goal with |- moves _ (_ ≫= _) => moves_solve | _ => idtac end
    end
  end.

Lemma handle_keeps ev a : keeps a (handle ev a).
Proof.
  destruct ev; try by_handler.
  - apply create_keeps.
  - apply start_keeps.
  - apply run_keeps.
  - apply kill_keeps.
  - apply delete_keeps.
  - apply wait_keeps.
  - apply adopt_keeps.
  - apply configure_keeps.
  - apply shutdown_keeps.
  - apply log_chunk_keeps.
  - apply exit_keeps.
Qed.

Lemma handle_all_keeps evs a : keeps a (handle_all evs a).
Proof.
  revert a. induction evs as [|ev evs IH]; intros a; [by intros Ha|]. cbn. etrans; [apply handle_keeps|apply IH].
Qed.

Lemma manager_new_wf s known t : agent_wf (manager_new s known t).
Proof. constructor; cbn; try done; [by intros tk Ht%elem_of_nil|constructor]. Qed.

(** C19: from the agent's start on, through every sequence of requests and
    background events, whatever crun, the kernel and the file system answer and
    however the requests end, the manager's tables fit together: every receiver and
    every log leads to a channel and a buffer; an exit still awaited is unpublished and
    is published by one task only; a running container can be waited for and has a
    log; a stopped one has an exit code and one that never ran has none; and every
    container has a pid, so that adopting one never loses it. *)
Theorem agent_invariant s known t evs : agent_wf (handle_all evs (manager_new s known t)).
Proof. apply handle_all_keeps, manager_new_wf. Qed.

(** ** How an exit status travels *)

(** The events that give [id] another receiver. *)
Definition rebinds (id : string) (ev : aevent) : bool :=
  match ev with
  | AStart req => String.eqb (st_container_id req) id
  | ARun req => String.eqb (cc_container_id req) id
  | AAdopt req => String.eqb (ac_old_container_id req) id || String.eqb (ac_new_container_id req) id
  | _ => false
  end.

Definition same_rx (id : string) (a a' : agent) : Prop := ag_exit_receivers a' !! id = ag_exit_receivers a !! id.

#[local] Instance same_rx_preorder id : PreOrder (same_rx id).
Proof. split; [by intros a|]. intros a1 a2 a3 H12 H23. unfold same_rx in *. congruence. Qed.

Lemma rx_books {A} id (m : M agent A) : moves books m -> moves (same_rx id) m.
Proof. apply moves_mono. intros a a' (_ & E & _). unfold same_rx. by rewrite E. Qed.
Lemma rx_io {A} id (m : M agent A) : io_only m -> moves (same_rx id) m.
Proof. intros. by apply rx_books, books_io. Qed.

Lemma create_rx id' id v c p e : moves (same_rx id') (create id v c p e).
Proof.
  unfold create. pose proof (fun b v => rx_books id' _ (books_adapt b v)). moves_solve; try done.
  all: try (apply rx_io; solve [io_solve|apply io_mount_layers|apply io_overlay|apply io_link_disk|
    apply io_each, io_write_volume]).
Qed.

Lemma start_rx id' id : id <> id' -> moves (same_rx id') (start id).
Proof.
  intros Hne a. destruct (start_run id a) as [(e & t & ->)|(c & pid & t & Ec & ->)]; [done|].
  unfold same_rx. cbn. by rewrite lookup_insert_ne.
Qed.

Lemma handle_rx id ev a : rebinds id ev = false -> same_rx id a (handle ev a).
Proof.
  destruct ev; cbn [rebinds]; intros Hr; try by_handler.
  - apply create_rx.
  - by apply start_rx, String.eqb_neq.
  - unfold run. apply moves_bind; [apply _|apply create_rx|intros _; by apply start_rx, String.eqb_neq].
  - apply rx_io, io_kill.
  - unfold Agent.delete. moves_solve; try (apply rx_io, io_only_sys). by apply moves_modify.
  - unfold wait_container, mark_stopped. moves_solve. all: by apply moves_modify.
  - apply orb_false_iff in Hr as [Ho%String.eqb_neq Hn%String.eqb_neq]. unfold adopt. moves_solve.
    all: apply moves_modify; try done. intros w. unfold same_rx. cbn. by rewrite move_key_other.
  - apply rx_books, configure_books.
  - apply rx_io, io_shutdown.
  - done.
  - cbn. destruct (take_task i a) as [ [t a'] |] eqn:E; [|done]. unfold take_task in E.
    destruct (ag_tasks a !! i); [|done]. injection E as <- <-.
    destruct (exit_task_run e now (set_exit_tasks (base.delete i (ag_tasks a)) a)) as (code & s & _ & ->). done.
Qed.

Lemma handle_all_rx id evs a : Forall (fun ev => rebinds id ev = false) evs -> same_rx id a (handle_all evs a).
Proof.
  intros Hall. revert a. induction Hall as [|ev evs Hev Hall IH]; intros a; [done|]. cbn.
  etrans; [by apply handle_rx|apply IH].
Qed.

Lemma delete_reports id a c r a' : ag_containers a !! id = Some c ->
  delete_container (mkDeleteContainerRequest id) a = (Ok r, a') -> dc_exit_status r = wrap 32 (default 0 (ct_exit_code c)).
Proof.
  intros Hc. unfold delete_container, others, Agent.delete, mbind, M_bind. rewrite sys_run. unfold lift, gets, modify.
  destruct (env (trace a) _) as [e|o]; cbn; [done|]. rewrite Hc. cbn. by intros [= <- _].
Qed.

Lemma wait_published id o now a ch st :
  ag_exit_receivers a !! id = Some ch -> ag_chans a !! ch = Some (Some st) ->
  wait_container (mkWaitContainerRequest id) o now a =
    (Ok (mkWaitContainerResponse (wrap 32 (ex_code st)) (ex_exited_at st)), (mark_stopped id (ex_code st) a).2).
Proof.
  intros Hr Hc. unfold wait_container. cbn zeta beta iota delta [wr_container_id]. rewrite (M_bind_run _ _ a (ag_exit_receivers a) a) by done.
  rewrite (M_bind_run _ _ a ch a) by (unfold lift; by rewrite Hr).
  rewrite (M_bind_run _ _ a (ag_chans a) a) by done. by rewrite Hc.
Qed.

(** The exit task of a process publishes the process's code and the time. *)
Lemma exit_publishes t i now a :
  agent_wf a -> ag_tasks a !! i = Some t ->
  exists code, (wait_for_exit_pidfd (et_pid t) (set_exit_tasks (base.delete i (ag_tasks a)) a)).1 = Ok code /\
    ag_chans (handle (AExit i now) a) !! et_chan t = Some (Some (mkExitStatus code now)).
Proof.
  intros Hwf Ht. destruct (exit_task_run t now (set_exit_tasks (base.delete i (ag_tasks a)) a)) as (code & s & Hcode & Er).
  exists code. split; [done|]. cbn. unfold take_task. rewrite Ht. cbn [mbind option_bind]. rewrite Er. cbn.
  apply list_lookup_insert_eq.
  destruct (wf_task _ Hwf t) as [Hc _]; [by eapply list_elem_of_lookup_2|]. by eapply lookup_lt_Some.
Qed.


(** A wait that ends by its own limit of ten minutes reports the code of a killed
    process for a container that is still running and marks it stopped; after that a
    signal for the container is dropped: no call is made. *)
Theorem wait_timeout_disables_kill id now ch c a :
  ag_exit_receivers a !! id = Some ch -> ag_chans a !! ch = Some None -> ag_containers a !! id = Some c ->
  exists a', wait_container (mkWaitContainerRequest id) TimedOut now a = (Ok (mkWaitContainerResponse 137 now), a') /\
    ag_trace a' = ag_trace a /\ forall sig, kill id sig a' = (Ok tt, a').
Proof.
  intros Hr Hc Hk. exists (mark_stopped id 137 a).2. split.
  - unfold wait_container. cbn zeta beta iota delta [wr_container_id]. rewrite (M_bind_run _ _ a (ag_exit_receivers a) a) by done.
    rewrite (M_bind_run _ _ a ch a) by (unfold lift; by rewrite Hr).
    rewrite (M_bind_run _ _ a (ag_chans a) a) by done. by rewrite Hc.
  - split; [done|]. intros sig. unfold kill, mbind, M_bind, gets. cbn. rewrite lookup_alter_eq, Hk. by rewrite decide_True.
Qed.
End AgentMoves.

(** ** Polling the logs *)

(** A client that asks again from the offset it was given last: what it gathers
    of each stream, from the contents at the times it asks. *)
Fixpoint poll_logs (offset : Z) (ls : list ContainerLogs) : string * string :=
  match ls with
  | [] => ("", "")
  | l :: rest =>
      let r := read_logs offset l in
      let '(out, err) := poll_logs (gl_offset r) rest in (gl_stdout r +:+ out, gl_stderr r +:+ err)
  end.

(** The contents grow at their ends. *)
Fixpoint grows (from : string) (l : list string) : Prop :=
  match l with [] => True | s :: rest => (exists t, s = from +:+ t) /\ grows s rest end.

Lemma last_any {A} (x : A) l d d' : List.last (x :: l) d = List.last (x :: l) d'.
Proof. revert x. induction l as [|y l IH]; intros x; [done|]. apply (IH y). Qed.

Lemma str_drop_app s t : str_drop (String.length s) (s +:+ t) = t.
Proof.
  unfold str_drop. rewrite length_sapp. replace (String.length s + String.length t - String.length s)%nat with (String.length t) by lia.
  induction s as [|c s IH]; [|by rewrite sapp_cons].
  change ("" +:+ t) with t. cbn [String.length]. induction t as [|c t IH]; [done|]. cbn. by rewrite IH.
Qed.

Lemma read_logs_next s t eof :
  read_logs (Z.of_nat (String.length s)) (mkContainerLogs (s +:+ t) "" eof) =
    mkGetContainerLogsResponse t "" (Z.of_nat (String.length (s +:+ t))) eof.
Proof.
  unfold read_logs. cbn [lg_stdout lg_stderr lg_eof]. rewrite Nat2Z.id, str_drop_app. f_equal.
  - rewrite length_sapp. destruct (Z.ltb_spec (Z.of_nat (String.length s)) (Z.of_nat (String.length s + String.length t)));
      [done|]. destruct t; [done|]. cbn [String.length] in *. lia.
  - destruct (Z.ltb_spec (Z.of_nat (String.length s)) (Z.of_nat (String.length ""))); [cbn [String.length] in *; lia|done].
  - cbn [String.length]. lia.
Qed.

(** A client that polls the log of a container that writes to one stream
    gathers exactly what was written, each byte once and in order, however the
    polls fall. *)
Theorem polling_returns_log s ls :
  grows s (map lg_stdout ls) -> Forall (fun l => lg_stderr l = "") ls ->
  s +:+ (poll_logs (Z.of_nat (String.length s)) ls).1 = List.last (map lg_stdout ls) s.
Proof.
  revert s. induction ls as [|l ls IH]; intros s Hg Hall; [apply sapp_nil_r|].
  destruct Hg as [ [t Et] Hg]. inversion Hall as [|? ? He Hall']; subst. destruct l as [out err eof].
  cbn [map lg_stdout lg_stderr poll_logs] in *. subst.
  rewrite read_logs_next. cbn [gl_offset gl_stdout gl_stderr]. specialize (IH _ Hg Hall').
  destruct (poll_logs _ ls) as [o e]. cbn [fst] in *. rewrite <- sapp_assoc, IH.
  destruct (map lg_stdout ls) as [|y l]; [done|]. apply (last_any y l).
Qed.

(** With two streams the one offset, the longer of the two lengths, loses what the
    shorter stream writes up to it. *)
Theorem polling_loses_shorter_stream err t :
  (String.length t <= String.length err)%nat ->
  (poll_logs 0 [mkContainerLogs "" err false; mkContainerLogs t err true]).1 = "".
Proof.
  intros Hl. cbn. rewrite Z.max_r by lia. unfold read_logs. cbn.
  destruct (Z.ltb_spec (Z.of_nat (String.length err)) (Z.of_nat (String.length t))); [lia|done].
Qed.

(** A container created, started, ended and waited for. *)
Definition create_request : CreateContainerRequest :=
  mkCreateContainerRequest "c" "" "" "" "" false [] (lit_print sample_oci) false 1.
Definition created_agent : agent :=
  @handle_all oci_env bit_json sorted_order plain_anyhow [ACreate create_request] fresh_agent.

Lemma created_agent_wf : agent_wf created_agent.
Proof. apply handle_all_keeps, manager_new_wf. Qed.


Lemma wait_timeout_disables_kill_witness :
  exists a1 a', (@start oci_env "c" created_agent).2 = a1 /\
    wait_container (mkWaitContainerRequest "c") TimedOut "later" a1 = (Ok (mkWaitContainerResponse 137 "later"), a') /\
    @kill oci_env "c" 9 a' = (Ok tt, a').
Proof.
  eexists. 
  destruct (@wait_timeout_disables_kill oci_env "c" "later" 0 (mkContainer (Some 4242) None Running)
    (@start oci_env "c" created_agent).2) as (a' & Hw & _ & Hk); [vm_compute; reflexivity..|].
  exists a'. split; [reflexivity|]. split; [exact Hw|apply Hk].
Defined.

Lemma polling_returns_log_witness :
  "" +:+ (poll_logs 0 [mkContainerLogs "ab" "" false; mkContainerLogs "ab" "" false; mkContainerLogs "abc" "" true]).1 = "abc".
Proof.
  apply (polling_returns_log "" [mkContainerLogs "ab" "" false; mkContainerLogs "ab" "" false; mkContainerLogs "abc" "" true]).
  - split; [by exists "ab"|]. split; [by exists ""|]. split; [by exists "c"|done].
  - repeat constructor.
Defined.

Lemma polling_loses_shorter_stream_witness :
  (poll_logs 0 [mkContainerLogs "" "warning" false; mkContainerLogs "lost" "warning" true]).1 = "".
Proof. apply (polling_loses_shorter_stream "warning" "lost"). cbn. lia. Defined.
