(* ===== verification/AgentMain.v ===== *)
(** * The agent's process ([crates/agent/src/main.rs], [AgentServer::run] of [server.rs])

    Init, the listener, the services, and the way out when a signal comes. What happens
    between the server's start and the signal is a sequence of the [aevent]s of
    [AgentInv]. *)

From S2P Require Import Prelude RustStr NetAddr Bytes Netlink NetlinkOps Json Proto ProtoMsg Sys Lifecycle.
From S2P Require Import Agent AgentServer AgentProps AgentInv.
From Stdlib Require String.
Local Open Scope Z_scope.

Section Main.
Context `{Env, SerdeJson, HashOrder, Anyhow}.

(** [ContainerManager::new] *)
Definition manager_init : M agent unit :=
  known ← scan_block_devices;
  modify (set_known known).

(** [AgentServer::run] up to the wait for a signal. *)
Definition server_start : M agent unit :=
  fd ← create_vsock_listener AGENT_VSOCK_PORT;
  l ← sys (AddVsockListener fd);
  match l with inl _ => lift Panic | inr _ => mret tt end;;
  s ← sys ServerStart;
  match s with inl e => fail (Msg ("failed to start ttrpc server: " +:+ display e)) | inr _ => mret tt end;;
  term ← sys (SignalStream 15);
  lift (io_res term);;
  int ← sys (SignalStream 2);
  lift (io_res int).

(** And after it. *)
Definition server_stop : M agent unit :=
  signal_all 15;;
  s ← sys ServerShutdown;
  match s with inl e => fail (Msg ("failed to shutdown ttrpc server: " +:+ display e)) | inr _ => mret tt end.

Definition server_run (evs : list aevent) : M agent unit :=
  server_start;;
  modify (handle_all evs);;
  server_stop.

Definition run_agent (evs : list aevent) : M agent unit := manager_init;; server_run evs.

(** The exit code of the process; [main] returns when [run_agent] does. The runtime that
    runs it is taken to have been made. *)
Definition agent_main (evs : list aevent) : M agent Z :=
  pid ← sys GetPid;
  (if pid =? 1 then init_setup else set_child_subreaper);;
  r ← attempt (run_agent evs);
  mret (match r with inl _ => 0 | inr _ => 1 end).
End Main.

Section MainProps.
Context `{Env, SerdeJson, HashOrder, Anyhow}.

(** ** The way out *)

Definition kill_call (sig : Z) (id : string) : call := Output "/bin/crun" ["kill"; id; pretty sig].
Definition alive (a : agent) (id : string) : Prop :=
  exists c, ag_containers a !! id = Some c /\ ct_state c <> Stopped.

Lemma ignore_kill_run id sig a :
  alive a id -> ignore (kill id sig) a = (Ok tt, set_ag_trace (ag_trace a ++ [kill_call sig id]) a).
Proof.
  intros (c & Hc & Hs). assert (E : exists r, kill id sig a = (r, set_ag_trace (ag_trace a ++ [kill_call sig id]) a) /\ returns r = true).
  { unfold kill. rewrite (M_bind_run (gets ag_containers) _ a _ a eq_refl). rewrite Hc. cbn [fmap option_fmap option_map].
    rewrite decide_False by congruence.
    rewrite (M_bind_run (sys (kill_call sig id)) _ _ _ _ (sys_run _ _)). unfold mbind, M_bind, lift.
    destruct (env _ _) as [n|[ [] err] ]; cbn; [by eexists..|]. by case_match; eexists. }
  destruct E as (r & E & Hr). unfold ignore, attempt, mbind, M_bind. rewrite E. by destruct r.
Qed.

Lemma each_kill_run sig ids a :
  Forall (alive a) ids ->
  each (fun id => ignore (kill id sig)) ids a = (Ok tt, set_ag_trace (ag_trace a ++ map (kill_call sig) ids) a).
Proof.
  revert a. induction ids as [|id ids IH]; intros a Hf; cbn [each map].
  { rewrite app_nil_r. exact (f_equal (pair (Ok tt)) (eq_sym (set_trace_id a))). }
  apply Forall_cons in Hf as [Hi Hf]. rewrite (M_bind_run _ _ _ _ _ (ignore_kill_run id sig a Hi)).
  rewrite IH by exact Hf. cbn. by rewrite <- app_assoc.
Qed.

(** Every container not known to have stopped is sent the signal, once. *)
Lemma signal_all_run sig a :
  exists ids, signal_all sig a = (Ok tt, set_ag_trace (ag_trace a ++ map (kill_call sig) ids) a) /\
    NoDup ids /\ forall id, id ∈ ids <-> alive a id.
Proof.
  unfold signal_all. rewrite (M_bind_run (gets ag_containers) _ a _ a eq_refl).
  set (ids := map fst _). exists ids.
  assert (Hin : forall id, id ∈ ids <-> alive a id).
  { intros id. unfold ids. rewrite list_elem_of_fmap. split.
    - intros ([id' c] & -> & Hin). apply list_elem_of_In, filter_In in Hin as [Hin Hs]. exists c. cbn.
      split; [by apply elem_of_map_to_list, list_elem_of_In|]. by apply negb_true_iff, bool_decide_eq_false in Hs.
    - intros (c & Hc & Hs). exists (id, c). split; [done|]. apply list_elem_of_In, filter_In.
      split; [by apply list_elem_of_In, elem_of_map_to_list|]. by rewrite bool_decide_false. }
  split; [|split; [|exact Hin] ].
  - apply each_kill_run, Forall_forall. intros id. apply Hin.
  - unfold ids. generalize (NoDup_fst_map_to_list (ag_containers a)). generalize (map_to_list (ag_containers a)). clear.
    induction l as [|[k c] l IH]; cbn; [done|]. intros [Hn Hl]%NoDup_cons.
    case_match; [|by apply IH]. cbn. apply NoDup_cons. split; [|by apply IH].
    intros Hk. apply Hn. apply list_elem_of_fmap in Hk as (x & -> & Hx).
    apply list_elem_of_In, filter_In in Hx as [Hx _]. apply list_elem_of_fmap. exists x. by split; [|apply list_elem_of_In].
Qed.

(** ** The way in *)

Lemma io_mounts : io_only mount_essential_filesystems.
Proof.
  unfold mount_essential_filesystems, mount_if_needed, is_mounted, create_dev_node. cbn [str_elem]. io_solve.
Qed.
Lemma no_panic_mounts : no_panic mount_essential_filesystems.
Proof.
  unfold mount_essential_filesystems, mount_if_needed, is_mounted, create_dev_node.
  repeat change (str_elem _ _) with false. io_solve.
Qed.

(** Whatever becomes of the mounts, the process is made a subreaper and goes on. *)
Lemma setup_run (pid : Z) a :
  exists t, (if pid =? 1 then init_setup else set_child_subreaper) a
    = (Ok tt, set_ag_trace (ag_trace a ++ t ++ [SetSubreaper]) a).
Proof.
  destruct (pid =? 1); [|by exists []].
  destruct (io_mounts a) as [t Et]. pose proof (no_panic_mounts a) as Hn.
  unfold init_setup, set_child_subreaper, attempt, mbind, M_bind.
  destruct (mount_essential_filesystems a) as [r a1]. cbn in Et, Hn. subst a1.
  exists t. destruct r; try done; cbn; by rewrite app_assoc.
Qed.

Definition listen_calls (fd : Z) : list call :=
  [VsockSocket; VsockBind fd AGENT_VSOCK_PORT; Listen fd 128; AddVsockListener fd; ServerStart; SignalStream 15; SignalStream 2].

(** The next call of a run that is being followed. *)
Ltac next_call := rewrite sys_run; cbn [trace set_trace agent_world ag_trace set_ag_trace io_res].

Lemma server_start_run a :
  exists t, let (r, a') := server_start a in a' = set_ag_trace (ag_trace a ++ t) a /\
    match r with
    | Ok _ => exists fd, t = listen_calls fd
    | Err _ => True
    | Panic => exists t0 fd e, t = t0 ++ [AddVsockListener fd] /\ env (ag_trace a ++ t0) (AddVsockListener fd) = inl e
    | Hang => False
    end.
Proof.
  unfold server_start, create_vsock_listener, mbind, M_bind, lift, fail, mret, M_ret.
  next_call. destruct (env _ VsockSocket) as [e|fd]; [by eexists|].
  next_call. destruct (env _ (VsockBind _ _)) as [e|u]; [next_call; rewrite <- !app_assoc; by eexists|].
  next_call. destruct (env _ (Listen _ _)) as [e|u2]; [next_call; rewrite <- !app_assoc; by eexists|].
  next_call. destruct (env _ (AddVsockListener fd)) as [e|u3] eqn:El.
  { rewrite <- !app_assoc in *. eexists. split; [done|].
    exists [VsockSocket; VsockBind fd AGENT_VSOCK_PORT; Listen fd 128], fd, e. by rewrite <- El. }
  next_call. destruct (env _ ServerStart) as [e|u4]; [rewrite <- !app_assoc; by eexists|].
  next_call. destruct (env _ (SignalStream 15)) as [e|u5]; [rewrite <- !app_assoc; by eexists|].
  next_call. rewrite <- !app_assoc. eexists. destruct (env _ (SignalStream 2)); split; try done. by exists fd.
Qed.

Lemma server_stop_run a :
  exists ids r, server_stop a = (r, set_ag_trace (ag_trace a ++ map (kill_call 15) ids ++ [ServerShutdown]) a) /\
    returns r = true /\ NoDup ids /\ forall id, id ∈ ids <-> alive a id.
Proof.
  destruct (signal_all_run 15 a) as (ids & E & Hnd & Hin). exists ids. unfold server_stop, mbind, M_bind. rewrite E.
  next_call. rewrite <- app_assoc. by destruct (env _ ServerShutdown); eexists.
Qed.

(** The state a manager that knows the disks [known] starts from, after the calls [t]. *)
Definition booted (a : agent) (known : gset string) (t : list call) : agent :=
  set_ag_trace (ag_trace a ++ t) (set_known known a).

Lemma manager_init_run a : exists known, manager_init a = (Ok tt, booted a known [ReadDir "/sys/block"]).
Proof. by eexists. Qed.

(** The agent served the events [evs] from the state [a0] until the signal, and then
    stopped. *)
Definition served (evs : list aevent) (a0 a' : agent) : Prop :=
  exists ids, let a1 := handle_all evs a0 in
    a' = set_ag_trace (ag_trace a1 ++ map (kill_call 15) ids ++ [ServerShutdown]) a1 /\
    NoDup ids /\ forall id, id ∈ ids <-> alive a1 id.

Lemma run_agent_run evs a :
  exists t known, let a0 := booted a known t in
  match run_agent evs a with
  | (Panic, a') => exists t0 fd e, t = t0 ++ [AddVsockListener fd] /\ env (ag_trace a ++ t0) (AddVsockListener fd) = inl e /\ a' = a0
  | (Hang, _) => False
  | (r, a') => (exists fd t0, t = t0 ++ listen_calls fd /\ served evs a0 a') \/ (is_Ok r = false /\ a' = a0)
  end.
Proof.
  unfold run_agent, server_run. destruct (manager_init_run a) as [known E]. rewrite (M_bind_run _ _ _ _ _ E).
  destruct (server_start_run (booted a known [ReadDir "/sys/block"])) as [t Hs].
  exists (ReadDir "/sys/block" :: t), known. unfold mbind, M_bind.
  destruct (server_start _) as [r a1]. destruct Hs as [-> Hr].
  assert (Eb : set_ag_trace (ag_trace (booted a known [ReadDir "/sys/block"]) ++ t) (booted a known [ReadDir "/sys/block"])
    = booted a known (ReadDir "/sys/block" :: t)) by (unfold booted; cbn; by rewrite <- app_assoc).
  rewrite Eb in *. destruct r as [u|e| |]; try done.
  - destruct Hr as [fd ->]. cbn [modify]. destruct (server_stop_run (handle_all evs (booted a known (ReadDir "/sys/block" :: listen_calls fd))))
      as (ids & r & -> & Hr & Hnd & Hin).
    destruct r; try done; left; exists fd, [ReadDir "/sys/block"]; (split; [done|]); by exists ids.
  - by right.
  - destruct Hr as (t0 & fd & e & -> & He). exists (ReadDir "/sys/block" :: t0), fd, e. split_and!; [done| |done].
    unfold booted in He. cbn in He. by rewrite <- app_assoc in He.
Qed.

(** C22: the life of the agent's process: whatever becomes of the mounts it is made a
    subreaper, then it listens on its port, starts the server and takes the signal
    handlers; it serves until a signal comes, and then sends SIGTERM to every container
    that is not known to have stopped, to each once and to no other, before the server is
    shut down. Its tables are consistent at the end. It ends with code 1 when the
    server cannot be set up, and then no container was ever made; it panics only when
    the ttrpc library does not take the listener. *)
Theorem agent_life evs s :
  match agent_main evs (manager_new s ∅ []) with
  | (Ok code, a) => agent_wf a /\
      ((exists fd t known, let a0 := manager_new s known (t ++ listen_calls fd) in
          SetSubreaper ∈ t /\ served evs a0 a) \/
       (code = 1 /\ ag_containers a = ∅))
  | (Panic, a) => exists t fd e, ag_trace a = t ++ [AddVsockListener fd] /\ env t (AddVsockListener fd) = inl e
  | _ => False
  end.
Proof.
  unfold agent_main. rewrite (M_bind_run (sys GetPid) _ _ _ _ (sys_run _ _)). set (a0 := set_trace _ _).
  destruct (setup_run (env (trace (manager_new s ∅ [])) GetPid) a0) as [t0 E]. rewrite (M_bind_run _ _ _ _ _ E).
  set (a1 := set_ag_trace _ a0). unfold mbind, M_bind, attempt.
  destruct (run_agent_run evs a1) as (t & known & Hr).
  assert (Eb : forall t, booted a1 known t = manager_new s known ((GetPid :: t0 ++ [SetSubreaper]) ++ t)).
  { intros t'. unfold booted, a1, a0. cbn. by rewrite <- !app_assoc. }
  destruct (run_agent evs a1) as [r a']. cbn [mret M_ret].
  assert (Hok : (exists fd t1, t = t1 ++ listen_calls fd /\ served evs (booted a1 known t) a') -> agent_wf a' /\
    exists fd t known, let a0 := manager_new s known (t ++ listen_calls fd) in SetSubreaper ∈ t /\ served evs a0 a').
  { intros (fd & t1 & -> & Hs). rewrite Eb, app_assoc in Hs. split.
    - destruct Hs as (ids & -> & _). set (a2 := handle_all evs _).
      assert (Hw : agent_wf a2) by apply handle_all_keeps, manager_new_wf.
      apply (books_keeps a2); [by repeat split|exact Hw].
    - exists fd, ((GetPid :: t0 ++ [SetSubreaper]) ++ t1), known. split; [|exact Hs]. set_solver. }
  destruct r as [u|e| |]; try done.
  - destruct Hr as [Hs|[ [=] _] ]. destruct (Hok Hs) as [Hw He]. split; [done|by left].
  - destruct Hr as [Hs|[_ ->] ]; [destruct (Hok Hs) as [Hw He]; split; [done|by left]|].
    rewrite Eb. split; [apply manager_new_wf|by right].
  - destruct Hr as (t1 & fd & e & -> & He & ->). exists (ag_trace a1 ++ t1), fd, e. split; [|exact He].
    unfold booted. cbn. by rewrite <- !app_assoc.
Qed.
End MainProps.

(** An agent that starts a container, is told to stop, and signals it. *)
Lemma agent_life_witness :
  exists a, (@agent_main oci_env bit_json sorted_order plain_anyhow
      [ACreate create_request; AStart (mkStartContainerRequest "c")] (manager_new (mkSock 1 [] [] [] []) ∅ [])) = (Ok 0, a) /\
    agent_wf a /\ kill_call 15 "c" ∈ ag_trace a /\ last (ag_trace a) = Some ServerShutdown.
Proof.
  pose proof (@agent_life oci_env bit_json sorted_order plain_anyhow
    [ACreate create_request; AStart (mkStartContainerRequest "c")] (mkSock 1 [] [] [] [])) as Hl.
  witness_run (@agent_main oci_env bit_json sorted_order plain_anyhow
    [ACreate create_request; AStart (mkStartContainerRequest "c")] (manager_new (mkSock 1 [] [] [] []) ∅ [])) a E.
  exists a. split; [reflexivity|]. destruct Hl as [Hw Hs]. split; [exact Hw|]. clear Hw Hs.
  replace a with (@agent_main oci_env bit_json sorted_order plain_anyhow
    [ACreate create_request; AStart (mkStartContainerRequest "c")] (manager_new (mkSock 1 [] [] [] []) ∅ [])).2 by (rewrite E; reflexivity).
  split; [|vm_compute; reflexivity]. apply (bool_decide_unpack _). vm_compute. exact I.
Defined.
