(* ===== verification/Waits.v ===== *)
(** * Waits in flight ([wait_container] of [crates/agent/src/server.rs])

    [AgentServer.wait_container] runs from one end to the other. The handler itself
    holds the manager's lock only to look its receiver up and again to mark the
    container stopped; in between, while it sleeps on the channel, every other request
    and task may run. Here a wait is taken apart at that point. *)

From S2P Require Import Prelude RustStr NetAddr Bytes Netlink NetlinkOps Json Proto ProtoMsg Sys Lifecycle.
From S2P Require Import Agent AgentServer AgentProps AgentInv.
From Stdlib Require String.
Local Open Scope Z_scope.

(** A handler that has looked its receiver up: the name it was asked for, the channel it
    sleeps on, and what it has answered. *)
Record waiter := mkWaiter { wt_id : string; wt_chan : nat; wt_answer : option WaitContainerResponse }.
Record waiting := mkWaiting { wg_agent : agent; wg_waits : list waiter }.

(** Other requests and tasks; a request to wait comes in; the [j]-th handler sees its
    channel change; its 600 seconds are over. *)
Inductive wevent :=
| WOther (ev : aevent)
| WBegin (id : string)
| WWake (j : nat)
| WTimeout (j : nat) (now : string).

Section Waits.
Context `{Env, SerdeJson, HashOrder, Anyhow}.

(** The end of the handler: the container of that name is marked, the answer is sent. *)
Definition finish (j : nat) (w : waiter) (code : Z) (exited_at : string) (g : waiting) : waiting :=
  mkWaiting (mark_stopped (wt_id w) code (wg_agent g)).2
    (<[j := mkWaiter (wt_id w) (wt_chan w) (Some (mkWaitContainerResponse (wrap 32 code) exited_at))]> (wg_waits g)).

Definition published (ch : nat) (a : agent) : option ExitStatus := mjoin (ag_chans a !! ch).

(** The handler sees what is on its channel, if anything is. *)
Definition look (j : nat) (g : waiting) : waiting :=
  match wg_waits g !! j with
  | Some w =>
      match wt_answer w, published (wt_chan w) (wg_agent g) with
      | None, Some st => finish j w (ex_code st) (ex_exited_at st) g
      | _, _ => g
      end
  | None => g
  end.

Definition wstep (ev : wevent) (g : waiting) : waiting :=
  match ev with
  | WOther ev => mkWaiting (handle ev (wg_agent g)) (wg_waits g)
  | WBegin id =>
      match ag_exit_receivers (wg_agent g) !! id with
      | Some ch => look (length (wg_waits g)) (mkWaiting (wg_agent g) (wg_waits g ++ [mkWaiter id ch None]))
      | None => g                             (* the request fails *)
      end
  | WWake j => look j g
  | WTimeout j now =>
      match wg_waits g !! j with
      | Some w => match wt_answer w with Some _ => g | None => finish j w 137 now g end
      | None => g
      end
  end.

Definition wrun (evs : list wevent) (g : waiting) : waiting := foldl (fun g ev => wstep ev g) g evs.

(** ** What a step does to the agent and to the other waits *)

Lemma finish_keeps j w code at_ g : keeps (wg_agent g) (wg_agent (finish j w code at_ g)).
Proof. apply mark_stopped_keeps. Qed.

Lemma look_keeps j g : keeps (wg_agent g) (wg_agent (look j g)).
Proof. unfold look. repeat case_match; try reflexivity. apply finish_keeps. Qed.
Lemma wstep_keeps ev g : keeps (wg_agent g) (wg_agent (wstep ev g)).
Proof.
  destruct ev as [ev|id|j|j now]; cbn [wstep].
  - apply handle_keeps.
  - case_match; [|reflexivity]. apply (look_keeps _ (mkWaiting _ _)).
  - apply look_keeps.
  - repeat case_match; try reflexivity. apply finish_keeps.
Qed.

Definition times_out (j : nat) (ev : wevent) : bool :=
  match ev with WTimeout k _ => bool_decide (k = j) | _ => false end.

(** What a handler that sleeps on [ch], where the code [st] is published, has become:
    it still sleeps, or it has answered with [st]. *)
Definition told (j : nat) (id : string) (ch : nat) (st : ExitStatus) (g : waiting) : Prop :=
  exists r, wg_waits g !! j = Some (mkWaiter id ch r) /\
    (r = None \/ r = Some (mkWaitContainerResponse (wrap 32 (ex_code st)) (ex_exited_at st))).

Lemma finish_other j k w code at_ g : j <> k -> wg_waits (finish j w code at_ g) !! k = wg_waits g !! k.
Proof. intros Hne. cbn. by apply list_lookup_insert_ne. Qed.

(** Once the code is published a look at the channel answers with it. *)
Lemma look_answers j id ch st g :
  told j id ch st g -> ag_chans (wg_agent g) !! ch = Some (Some st) ->
  wg_waits (look j g) !! j = Some (mkWaiter id ch (Some (mkWaitContainerResponse (wrap 32 (ex_code st)) (ex_exited_at st)))).
Proof.
  intros (r & Hw & Hr) Hc. unfold look. rewrite Hw. destruct Hr as [->| ->]; cbn; [|done].
  unfold published. rewrite Hc. cbn. apply list_lookup_insert_eq. by eapply lookup_lt_Some.
Qed.

Lemma look_told k j id ch st g :
  told j id ch st g -> ag_chans (wg_agent g) !! ch = Some (Some st) -> told j id ch st (look k g).
Proof.
  intros Ht Hc. destruct (decide (k = j)) as [->|Hne].
  - eexists. split; [by apply (look_answers j id ch st)|by right].
  - destruct Ht as (r & Hw & Hr). exists r. split; [|done]. unfold look. repeat case_match; try done.
    by rewrite finish_other.
Qed.

Lemma wstep_told ev j id ch st g :
  times_out j ev = false -> told j id ch st g -> ag_chans (wg_agent g) !! ch = Some (Some st) ->
  told j id ch st (wstep ev g).
Proof.
  intros Hto Ht Hc. destruct ev as [ev|id'|k|k now]; cbn [wstep].
  - done.
  - case_match; [|done]. apply look_told; [|done]. destruct Ht as (r & Hw & Hr). exists r. split; [|done].
    cbn. by apply lookup_app_l_Some.
  - by apply look_told.
  - apply bool_decide_eq_false in Hto. destruct Ht as (r & Hw & Hr). exists r. split; [|done].
    repeat case_match; try done. by rewrite finish_other.
Qed.

Lemma wrun_told evs j id ch st g :
  agent_wf (wg_agent g) -> Forall (fun ev => times_out j ev = false) evs ->
  told j id ch st g -> ag_chans (wg_agent g) !! ch = Some (Some st) ->
  told j id ch st (wrun evs g) /\ ag_chans (wg_agent (wrun evs g)) !! ch = Some (Some st).
Proof.
  intros Hwf Hall. revert g Hwf. induction Hall as [|ev evs Hev Hall IH]; intros g Hwf Ht Hc; [done|]. cbn.
  destruct (wstep_keeps ev g Hwf) as [Hwf' Hp]. apply IH; [done| |by apply Hp]. by apply wstep_told.
Qed.


(** A wait marks the container of the name it was asked for, whichever has that name by
    then: one that was started under the name of a container that was deleted while the
    wait was pending is marked stopped with the other's code, though its process runs, and
    from then on a kill does not reach it. *)
Theorem stale_wait_stops_namesake g j id ch st c :
  wg_waits g !! j = Some (mkWaiter id ch None) -> ag_chans (wg_agent g) !! ch = Some (Some st) ->
  ag_exit_receivers (wg_agent g) !! id <> Some ch -> ag_containers (wg_agent g) !! id = Some c ->
  let a := wg_agent (wstep (WWake j) g) in
  ag_containers a !! id = Some (mkContainer (ct_pid c) (Some (ex_code st)) Stopped) /\
  forall sig, kill id sig a = (Ok tt, a).
Proof.
  intros Hw Hc _ Hk. cbn [wstep]. unfold look. rewrite Hw. cbn. unfold published. rewrite Hc. cbn.
  rewrite lookup_alter_eq, Hk. split; [done|]. intros sig. unfold kill, mbind, M_bind, gets. cbn.
  rewrite lookup_alter_eq, Hk. by rewrite decide_True.
Qed.
End Waits.

(** ** Witnesses *)

(** A container runs; two waits for it come in; it ends, and its record is deleted before
    the second handler looks. *)
Definition two_waits : waiting :=
  @wrun oci_env bit_json sorted_order plain_anyhow [WOther (AStart (mkStartContainerRequest "c")); WBegin "c"; WBegin "c"]
    (mkWaiting created_agent []).

Lemma two_waits_wf : agent_wf (wg_agent two_waits).
Proof. unfold two_waits. cbn [wrun foldl]. do 3 apply wstep_keeps. apply created_agent_wf. Qed.


(** The name is used again while the first container's wait is pending. *)
Definition name_reused : waiting :=
  @wrun oci_env bit_json sorted_order plain_anyhow
    [WOther (ADelete (mkDeleteContainerRequest "c")); WOther (ACreate create_request);
     WOther (AStart (mkStartContainerRequest "c")); WOther (AExit 0 "noon"); WWake 0] two_waits.

Lemma stale_wait_stops_namesake_witness :
  ag_containers (wg_agent name_reused) !! "c" = Some (mkContainer (Some 4242) (Some 0) Stopped) /\
  length (ag_tasks (wg_agent name_reused)) = 1%nat.
Proof.
  split; [|vm_compute; reflexivity].
  set (g := @wrun oci_env bit_json sorted_order plain_anyhow
    [WOther (ADelete (mkDeleteContainerRequest "c")); WOther (ACreate create_request);
     WOther (AStart (mkStartContainerRequest "c")); WOther (AExit 0 "noon")] two_waits).
  destruct (@stale_wait_stops_namesake oci_env bit_json sorted_order plain_anyhow g 0 "c" 0 (mkExitStatus 0 "noon")
    (mkContainer (Some 4242) None Running)) as [Hs _]; [vm_compute; first [reflexivity|discriminate]..|exact Hs].
Defined.
