(* ===== verification/EndToEnd.v ===== *)
(** * From the daemon to the guest

    The services the agent registers, the daemon's connection to them, and its
    [RunContainer] request as the agent carries it out. *)

From S2P Require Import Prelude RustStr NetAddr Bytes Netlink NetlinkOps Json Proto ProtoRt Wire ProtoMsg Ttrpc Sys.
From S2P Require Import Lifecycle Pool Api Client.
From S2P Require Import Agent AgentServer AgentProps AgentInv.
From Stdlib Require String.
Local Open Scope Z_scope.

Section Guest.
Context `{Env, SerdeJson, HashOrder, Anyhow}.

(** ** The services the agent registers

    [o] and [now] are how and when a wait ends, [version] the agent's version. *)

Definition agent_service (o : wait_end) (now : string) : AgentService agent :=
  mkAgentService agent create_container start_container run_container kill_container delete_container
    (fun req => wait_container req o now) exec_process state_container get_mem_info get_container_logs
    configure_network adopt_container.

Definition health_service (version : string) : HealthService agent := mkHealthService agent (check version).

(** The daemon's connection to the agent. *)
Definition agent_connection `{Ttrpc} (o : wait_end) (now version : string) : Request -> M agent bytes :=
  request (register_services (agent_service o now) (health_service version)).

Lemma did_mount_layer n dev target a a' :
  mount_layer n dev target a = (Ok tt, a') ->
  did a a' [MountFs dev target "erofs" ["MS_RDONLY"; "MS_NOATIME"] None].
Proof.
  revert a. induction n as [|n IH]; intros a Hr; cbn [mount_layer] in Hr;
    apply M_bind_Ok in Hr as (r & a1 & Hs & Hr); destruct r as [e|u]; try done.
  - injection Hr as <-. by eapply did_sys.
  - apply M_bind_Ok in Hr as (v & a2 & Hsl & Hr). apply IH in Hr. apply did_io in Hs; [|apply io_only_sys].
    apply did_io in Hsl; [|apply io_only_sys]. did_chain a. done.
  - injection Hr as <-. by eapply did_sys.
Qed.

Lemma did_one_layer mp a l a' :
  mount_layers 1 0 mp a = (Ok l, a') ->
  l = [path_join mp "layer0"] /\
  did a a' [MountFs "/dev/vdb" (path_join mp "layer0") "erofs" ["MS_RDONLY"; "MS_NOATIME"] None].
Proof.
  cbn [mount_layers]. change (layer_dev 0) with "/dev/vdb". change ("layer" +:+ pretty 0) with "layer0". intros Hr. inv_ok.
  match goal with Hm : mount_layer _ _ _ _ = (Ok ?u, _) |- _ => destruct u; apply did_mount_layer in Hm end.
  split; [done|].
  repeat match goal with
  | Hs : create_dir_all _ _ = _ |- _ => apply did_io in Hs; [|io_solve]
  | Hs : exists_path _ _ = _ |- _ => apply did_io in Hs; [|io_solve]
  | Hs : sys ?c _ = _ |- _ => apply did_io in Hs; [|apply io_only_sys]
  | Hs : (if ?b then _ else _) _ = _ |- _ => apply did_io in Hs; [|by destruct b; [apply io_only_ret|apply io_wait_dev] ]
  end.
  did_chain a. done.
Qed.
Lemma did_overlay mp r l a a' :
  compose_overlay mp r l a = (Ok tt, a') -> exists opts, did a a' [MountFs "overlay" r "overlay" [] (Some opts)].
Proof.
  unfold compose_overlay. cbv zeta. intros Hr. inv_ok.
  match goal with Hs : sys ?c _ = _ |- _ => apply (did_sys c) in Hs end.
  repeat match goal with Hs : create_dir_all _ _ = _ |- _ => apply did_io in Hs; [|io_solve] end.
  case_match; [done|]. injection Hr as <-. did_chain a.
  match goal with Hd : did a _ _ |- _ => eexists; exact Hd end.
Qed.

Lemma did_adapt b a u a' :
  adapt_oci_spec_for_vm b [] a = (Ok u, a') ->
  exists adapted, did a a' [ReadToString (path_join b "config.json"); WriteFile (path_join b "config.json") adapted].
Proof.
  unfold adapt_oci_spec_for_vm. cbv zeta. intros Hr. inv_ok.
  repeat match goal with
  | Hs : m_ctx _ _ _ = (Ok _, _) |- _ => apply m_ctx_Ok in Hs
  | Hs : lift _ _ = (Ok _, _) |- _ => apply lift_Ok in Hs as [_ ->]
  | Hs : write_file _ _ _ = (Ok _, _) |- _ => apply did_write in Hs
  | Hs : read_to_string _ _ = (Ok _, _) |- _ => apply did_read in Hs
  | Hs : volume_mounts [] _ = (Ok _, _) |- _ => injection Hs as <- <-
  end.
  did_chain a. match goal with Hd : did a _ _ |- _ => eexists; exact Hd end.
Qed.

Lemma books_run {A} (m : M agent A) a r a' : moves books m -> m a = (r, a') -> books a a'.
Proof. intros Hm E. specialize (Hm a). by rewrite E in Hm. Qed.

(** What [create] has done when it succeeds on the daemon's request: one layer, no
    volumes, a configuration that is not empty. *)
Lemma did_create id cfg a pid a' :
  let mp := path_join "/run/containers" id in let config_path := path_join mp "config.json" in
  cfg <> "" -> create id [] cfg false 1 a = (Ok pid, a') ->
  ag_containers a' = <[id := mkContainer (Some process_id) None Created]> (ag_containers a) /\
  exists opts adapted,
    did a a' [MountFs "/dev/vdb" (path_join mp "layer0") "erofs" ["MS_RDONLY"; "MS_NOATIME"] None;
              MountFs "overlay" (path_join mp "rootfs") "overlay" [] (Some opts);
              WriteFile config_path cfg; ReadToString config_path; WriteFile config_path adapted].
Proof.
  intros mp config_path Hcfg. unfold create. cbn [Z.eqb]. cbv zeta. fold mp config_path.
  rewrite (proj2 (String.eqb_neq _ _) Hcfg). cbn [negb]. change (Z.to_nat 1) with 1%nat. intros Hr. inv_ok.
  repeat match goal with x : () |- _ => destruct x end.
  match goal with Hs : modify _ _ = _ |- _ => injection Hs as <- end.
  match goal with Hs : each _ [] _ = _ |- _ => injection Hs as -> end.
  repeat match goal with
  | Hs : create_dir_all _ _ = _ |- _ =>
      pose proof (books_run _ _ _ _ (books_io _ (io_only_create_dir_all _)) Hs); apply did_io in Hs; [|io_solve]
  | Hs : mount_layers _ _ _ _ = _ |- _ =>
      pose proof (books_run _ _ _ _ (books_io _ (io_mount_layers _ _ _)) Hs); apply did_one_layer in Hs as [_ ?]
  | Hs : compose_overlay _ _ _ _ = _ |- _ =>
      pose proof (books_run _ _ _ _ (books_io _ (io_overlay _ _ _)) Hs); apply did_overlay in Hs as [opts ?]
  | Hs : m_ctx _ (write_file _ _) _ = _ |- _ =>
      apply m_ctx_Ok in Hs; pose proof (books_run _ _ _ _ (books_io _ (io_only_write_file _ _)) Hs); apply did_write in Hs
  | Hs : link_disk_volumes _ _ = _ |- _ =>
      pose proof (books_run _ _ _ _ (books_io _ (io_link_disk _)) Hs); apply did_io in Hs; [|apply io_link_disk]
  | Hs : adapt_oci_spec_for_vm _ _ _ = _ |- _ =>
      pose proof (books_run _ _ _ _ (books_adapt _ _) Hs); apply did_adapt in Hs as [adapted ?]
  end.
  repeat match goal with
  | Ha : books a ?x, Hb : books ?x ?y |- _ => pose proof (transitivity (R := books) Ha Hb); clear Ha Hb
  end.
  did_chain a. match goal with Hb : books a _ |- _ => destruct Hb as (Ec & _) end. split; [cbn; by rewrite Ec|].
  match goal with Hd : did a _ _ |- _ => eexists _, _; exact Hd end.
Qed.

(** [start], when it succeeds, spawned crun on the container's bundle. *)
Lemma did_start id a pid a' :
  start id a = (Ok pid, a') ->
  did a a' [Spawn "/bin/crun" ["run"; "--bundle"; path_join "/run/containers" id; id] ] /\
  exists c, ag_containers a !! id = Some c /\ ag_containers a' !! id = Some (mkContainer (Some pid) (ct_exit_code c) Running).
Proof.
  intros Hs. split.
  - unfold start in Hs. inv_ok.
    repeat match goal with
    | Hx : gets _ _ = _ |- _ => injection Hx as <- <-
    | Hx : lift _ _ = _ |- _ => apply lift_Ok in Hx as [_ ->]
    | Hx : modify _ _ = _ |- _ => injection Hx as <- <-
    | Hx : new_log _ = _ |- _ => injection Hx as <- <-
    | Hx : new_chan _ = _ |- _ => injection Hx as <- <-
    | Hx : sys ?c _ = _ |- _ => apply (did_sys c) in Hx
    end.
    match goal with Hd : did a ?x _ |- _ => destruct Hd as (t & Et & Hsub) end. by exists t.
  - destruct (start_run id a) as [(e & t & E)|(c & pid0 & t & Ec & E)]; rewrite E in Hs; [done|].
    injection Hs as -> <-. exists c. split; [done|]. cbn. apply lookup_insert_eq.
Qed.

(** Carrying out the request the daemon builds for a container. *)
Lemma run_request_run id cfg resp a a' :
  let mp := path_join "/run/containers" id in let config_path := path_join mp "config.json" in
  cfg <> "" -> run_container (run_request id cfg) a = (Ok resp, a') ->
  ag_containers a' !! id = Some (mkContainer (Some (sp_pid resp)) None Running) /\
  exists opts adapted,
    did a a' [MountFs "/dev/vdb" (path_join mp "layer0") "erofs" ["MS_RDONLY"; "MS_NOATIME"] None;
              MountFs "overlay" (path_join mp "rootfs") "overlay" [] (Some opts);
              WriteFile config_path cfg; ReadToString config_path; WriteFile config_path adapted;
              Spawn "/bin/crun" ["run"; "--bundle"; mp; id] ].
Proof.
  intros mp config_path Hcfg. unfold run_container, others_alt.
  cbn [cc_container_id cc_volumes cc_config_json cc_rootfs_preattached cc_erofs_layers run_request].
  change (proto_volumes_to_info []) with (@nil VolumeInfo). intros Hr.
  apply M_bind_Ok in Hr as (pid & a1 & Hr & [= <- <-]). cbn [sp_pid].
  destruct (Agent.run id [] cfg false 1 a) as [r a2] eqn:Er.
  assert (r = Ok pid /\ a2 = a1) as [-> ->] by (destruct r; by simplify_eq). clear Hr.
  unfold Agent.run in Er. apply M_bind_Ok in Er as (pid0 & a2 & Hc & Hs).
  apply did_create in Hc as (Ec & opts & adapted & Hd); [|done].
  apply did_start in Hs as (Hd' & c & Ec' & Ep). rewrite Ec, lookup_insert_eq in Ec'. injection Ec' as <-.
  split; [exact Ep|]. exists opts, adapted. exact (did_trans _ _ _ _ _ Hd Hd').
Qed.

Lemma others_Ok {A} what (m : M agent A) a x a' : others what m a = (Ok x, a') -> m a = (Ok x, a').
Proof. unfold others. destruct (m a) as [ [] a1]; by intros [=]; subst. Qed.
Lemma others_alt_Ok {A} what (m : M agent A) a x a' : others_alt what m a = (Ok x, a') -> m a = (Ok x, a').
Proof. unfold others_alt. destruct (m a) as [ [] a1]; by intros [=]; subst. Qed.
Lemma blocking_Ok {A} (m : M agent A) a x a' : blocking m a = (Ok x, a') -> m a = (Ok x, a').
Proof. unfold blocking. destruct (m a) as [ [] a1]; by intros [=]; subst. Qed.

Lemma wait_device_sock device a r a' : wait_for_device device a = (r, a') -> ag_sock a' = ag_sock a.
Proof.
  intros E. assert (Hio : io_only (wait_for_device device)).
  { apply io_only_bind; [apply io_only_sys|intros n]. apply io_wait_device. }
  destruct (Hio a) as [t Et]. rewrite E in Et. cbn in Et. by subst a'.
Qed.

Lemma show_ipv4_nonempty ip : in_range 32 ip -> String.eqb (show_ipv4 ip) "" = false.
Proof. intros Hip. apply String.eqb_neq. intros E. pose proof (parse_show_ipv4 ip Hip) as Hp. by rewrite E in Hp. Qed.

(** The agent, told an address and a gateway for [eth0], configures that
    interface. *)
Lemma configure_network_run ip gw pfx a resp a' :
  in_range 32 ip -> in_range 32 gw ->
  configure_network (mkConfigureNetworkRequest (show_ipv4 ip) (show_ipv4 gw) pfx "eth0" "") a = (Ok resp, a') ->
  pfx <= 32 /\ exists u, configure_interface "eth0" ip pfx (Some gw) None (ag_sock a) = (Ok u, ag_sock a').
Proof.
  intros Hip Hgw. unfold configure_network. cbn [cn_device cn_mac cn_ip_address cn_gateway cn_prefix_len].
  rewrite show_ipv4_nonempty, !parse_show_ipv4 by done. cbn [String.eqb]. intros Hr.
  apply M_bind_Ok in Hr as (u0 & a0 & Hw%others_Ok%wait_device_sock & Hr). rewrite <- Hw. clear Hw.
  apply M_bind_Ok in Hr as (ip' & a1 & [ [= <-] -> ]%lift_Ok & Hr).
  apply M_bind_Ok in Hr as (g & a2 & Hg & Hr). apply M_bind_Ok in Hg as (g' & a3 & [ [= <-] -> ]%lift_Ok & [= <- <-]).
  apply M_bind_Ok in Hr as (u1 & a4 & Hb & Hr). apply M_bind_Ok in Hr as (u2 & a5 & Hm & Hr).
  apply M_bind_Ok in Hr as (u3 & a6 & Hc & [= <-]). apply blocking_Ok, others_alt_Ok in Hc.
  destruct (pfx <? 256); [|done]. injection Hb as _ <-. destruct (Z.ltb_spec 32 pfx); [done|]. injection Hm as _ <-.
  split; [lia|]. exists u3. unfold agent_nl in Hc. destruct (configure_interface _ _ _ _ _ _) as [r k].
  injection Hc as -> <-. done.
Qed.

(** The same over the wire. *)
Lemma configure_over_wire `{Ttrpc} o now version req a resp a' :
  carried req -> 0 <= rpc_limit ->
  client_configure_network (agent_connection o now version) req a = (Ok resp, a') -> configure_network req a = (Ok resp, a').
Proof.
  intros Hq Hlim. apply relays_Ok. eapply relayed; [reflexivity|reflexivity|done|]. by intros b _.
Qed.

(** A pid is a [u32]. *)
Definition u32_pids : Prop := forall t prog args pid, env t (Spawn prog args) = inr (Some pid) -> in_range 32 pid.

Lemma start_pid id a pid a' : u32_pids -> start id a = (Ok pid, a') -> in_range 32 pid.
Proof.
  intros Hu. unfold start. intros Hs. apply M_bind_Ok in Hs as (cs & a1 & _ & Hs).
  apply M_bind_Ok in Hs as (c & a2 & _ & Hs). cbv zeta in Hs. apply M_bind_Ok in Hs as (r & a3 & Hr & Hs).
  rewrite sys_run in Hr. injection Hr as Hr _. specialize (Hu (trace a2)).
  destruct r as [e|o]; [by apply M_bind_Ok in Hs as (? & ? & [=] & _)|].
  assert (pid = default 0 o) as -> by (inv_ok; repeat match goal with Hx : lift _ _ = _ |- _ => apply lift_Ok in Hx as [? ->] end; by simplify_eq/=).
  destruct o; [by eapply Hu|done].
Qed.

Lemma run_pid req a resp a' : u32_pids -> run_container req a = (Ok resp, a') -> in_range 32 (sp_pid resp).
Proof.
  intros Hu Hr. unfold run_container, others_alt in Hr. apply M_bind_Ok in Hr as (pid & a1 & Hr & [= <- _]).
  destruct (Agent.run _ _ _ _ _ a) as [r a2] eqn:Er. destruct r as [pid'|e| |]; simplify_eq.
  unfold Agent.run in Er. apply M_bind_Ok in Er as (pid0 & a2 & _ & Hs). by eapply start_pid.
Qed.

(** A success of the daemon's call is one of the agent's handler. *)
Lemma run_over_wire `{Ttrpc} o now version req a resp a' :
  carried req -> (forall r, (run_container req a).1 = Ok r -> carried r) ->
  client_run_container (agent_connection o now version) req a = (Ok resp, a') -> run_container req a = (Ok resp, a').
Proof.
  intros Hq Hresp. apply relays_Ok. eapply relayed; [reflexivity|reflexivity|done|done].
Qed.

(** Every container's single layer is taken from [/dev/vdb], whichever disk was
    plugged in for it: the second container of a pod, whose image is plugged in as a
    further disk, is given the first one's root filesystem. *)
Theorem every_container_mounts_vdb cfg1 cfg2 id1 id2 a pid1 a1 pid2 a2 :
  cfg1 <> "" -> cfg2 <> "" ->
  create id1 [] cfg1 false 1 a = (Ok pid1, a1) -> create id2 [] cfg2 false 1 a1 = (Ok pid2, a2) ->
  forall id, id = id1 \/ id = id2 -> exists t, ag_trace a2 = ag_trace a ++ t /\
    MountFs "/dev/vdb" (path_join (path_join "/run/containers" id) "layer0") "erofs" ["MS_RDONLY"; "MS_NOATIME"] None ∈ t.
Proof.
  intros Hc1 Hc2 (_ & o1 & x1 & t1 & E1 & Hs1)%did_create (_ & o2 & x2 & t2 & E2 & Hs2)%did_create id Hid; [|done..].
  exists (t1 ++ t2). cbn in E1, E2. rewrite E2, E1, app_assoc. split; [done|]. apply elem_of_app.
  destruct Hid as [-> | ->]; [left|right].
  - eapply elem_of_sublist; [|exact Hs1]. by left.
  - eapply elem_of_sublist; [|exact Hs2]. by left.
Qed.
End Guest.
