(* ===== verification/System.v ===== *)
(** * The whole system: shim, daemon and the guests' agents

    The daemon's environment answers a call to an agent with whatever is chosen;
    here the answers are those of an agent. A guest behind each socket is the state its
    agent has reached ([Agent], [AgentServer]) by the calls made on that socket so far,
    each carried to it by the stubs and tables of [Ttrpc], and by what happens in the
    guest in between. Everything else the daemon asks of its environment stays
    arbitrary. *)

From S2P Require Import Prelude RustStr NetAddr Bytes Netlink NetlinkOps Json Proto ProtoRt Wire ProtoMsg Ttrpc Sys.
From S2P Require Import Lifecycle Pool Shadow DaemonNet Api ApiProps Client ShimUtil Shim ShimProps Watch.
From S2P Require Import Agent AgentServer AgentProps AgentInv EndToEnd.
From Stdlib Require String.
Local Open Scope Z_scope.

(** ** Guests *)

Section System.
Context `{SerdeJson, HashOrder, Anyhow, Base64, Ttrpc}.

(** [host] answers the daemon, [guest] the agents. A guest starts as [boot] (its
    agent was restored with the VM); before a call arrives the [background] events have
    happened in it, and [waits] says how a wait ends if it comes to one. *)
Record world := mkWorld {
  w_host : Env;
  w_guest : Env;
  w_boot : string -> agent;
  w_background : string -> list call -> list aevent;
  w_waits : list call -> wait_end * string;
  w_version : string }.

Context (w : world).
#[local] Instance guest_env : Env := w_guest w.

(** What a client makes of an outcome; a call that is cut off is an error. *)
Definition rpc_answer {A B} (f : A -> B) (r : result A) : error + B :=
  match r with Ok a => inr (f a) | Err e => inl e | _ => inl (Msg "connection lost") end.

Definition answered {A B} (f : A -> B) (x : result A * agent) : (error + B) * agent := (rpc_answer f x.1, x.2).

(** [m] on the guest in state [a], if the call is to [s]. *)
Definition on {A B} (sock s : string) (f : A -> B) (m : M agent A) (a : agent) : option (error + B) * agent :=
  if String.eqb s sock then let '(r, a') := answered f (m a) in (Some r, a') else (None, a).

(** The call [c], made after [pre], at the guest behind [sock]: the answer, if it is
    a call to that guest, and the guest's new state. *)
Definition guest_step (sock : string) (pre : list call) (c : call) (a : agent) : option (ans c) * agent :=
  let conn := agent_connection (w_waits w pre).1 (w_waits w pre).2 (w_version w) in
  match c return option (ans c) * agent with
  | AgentRun s req => on sock s sp_pid (client_run_container conn req) a
  | AgentKill s req => on sock s (fun _ => tt) (client_kill_container conn req) a
  | AgentWait s i => on sock s (fun r => r) (client_wait_container conn (mkWaitContainerRequest i)) a
  | AgentDelete s i => on sock s (fun r => r) (client_delete_container conn (mkDeleteContainerRequest i)) a
  | AgentConfigure s req => on sock s (fun _ => tt) (client_configure_network conn req) a
  | AgentAdopt s req => on sock s ar_pid (client_adopt_container conn req) a
  | _ => (None, a)
  end.

(** The guest when the next call comes, after [pre] and then [rest]. *)
Fixpoint guest_go (sock : string) (pre rest : list call) (a : agent) : agent :=
  let a := handle_all (w_background w sock pre) a in
  match rest with
  | [] => a
  | c :: rest => guest_go sock (pre ++ [c]) rest (guest_step sock pre c a).2
  end.
Definition guest_at (sock : string) (t : list call) : agent := guest_go sock [] t (w_boot w sock).

(** The guest right after the last of the calls [t ++ [c]]. *)
Definition guest_after (sock : string) (t : list call) (c : call) : agent := (guest_step sock t c (guest_at sock t)).2.

(** The daemon's environment: calls to an agent are answered by the guest. *)
Definition socket_of (c : call) : option string :=
  match c with
  | AgentRun s _ | AgentKill s _ | AgentWait s _ | AgentDelete s _ | AgentConfigure s _ | AgentAdopt s _ => Some s
  | _ => None
  end.

Definition system : Env := {|
  env t c :=
    match socket_of c with
    | Some s => default (env (Env := w_host w) t c) (guest_step s t c (guest_at s t)).1
    | None => env (Env := w_host w) t c
    end;
  process_id := process_id (Env := w_host w) |}.

Lemma guest_go_snoc sock pre t c a :
  guest_go sock pre (t ++ [c]) a =
    handle_all (w_background w sock (pre ++ t ++ [c])) (guest_step sock (pre ++ t) c (guest_go sock pre t a)).2.
Proof.
  revert pre a. induction t as [|x t IH]; intros pre a; cbn [app guest_go]; [by rewrite app_nil_r|].
  rewrite IH. by rewrite <- !app_assoc.
Qed.

Lemma guest_at_snoc sock t c :
  guest_at sock (t ++ [c]) = handle_all (w_background w sock (t ++ [c])) (guest_after sock t c).
Proof. apply guest_go_snoc. Qed.

Lemma system_run t s req :
  env (Env := system) t (AgentRun s req) =
    rpc_answer sp_pid (client_run_container
      (agent_connection (w_waits w t).1 (w_waits w t).2 (w_version w)) req (guest_at s t)).1.
Proof. cbn. unfold on. by rewrite String.eqb_refl. Qed.

(** ** From the shim's request to a process in the guest *)

(** The steps of a container's start in the guest, from its image's device to
    crun. *)
Definition start_steps (id cfg opts adapted : string) : list call :=
  let mp := path_join "/run/containers" id in
  [MountFs "/dev/vdb" (path_join mp "layer0") "erofs" ["MS_RDONLY"; "MS_NOATIME"] None;
   MountFs "overlay" (path_join mp "rootfs") "overlay" [] (Some opts);
   WriteFile (path_join mp "config.json") cfg; ReadToString (path_join mp "config.json");
   WriteFile (path_join mp "config.json") adapted;
   Spawn "/bin/crun" ["run"; "--bundle"; mp; id] ].

(** A success of [run_container_in_vm] is one of the guest's agent. *)
Lemma run_container_in_guest (p : AcquireRequest) d d' vm_id api vsock netns erofs pid tap :
  let id := aq_container_id p in
  let req := run_request id (decode_config (b64_encode (aq_config_json p))) in
  aq_config_json p <> "" -> u32_pids -> carried req -> (forall pid, in_range 32 pid -> carried (mkStartContainerResponse pid)) ->
  run_container_in_vm (H := system)
    (mkRunContainerParams api vsock vm_id netns erofs id (b64_encode (aq_config_json p))) d = (Ok (pid, tap), d') ->
  in_range 32 pid /\
  exists sock t, d_agents d' !! vm_id = Some sock /\ d_trace d' = t ++ [AgentRun sock req] /\
    let g := guest_after sock t (AgentRun sock req) in
    ag_containers g !! id = Some (mkContainer (Some pid) None Running) /\
    exists opts adapted,
      did (guest_at sock t) g (start_steps id (aq_config_json p) opts adapted).
Proof.
  intros id req Hcfg Hu Hq Hfits Hr.
  assert (Hresp : forall a r, (run_container req a).1 = Ok r -> carried r).
  { intros a r Hok. destruct (run_container req a) as [r' a'] eqn:Er. cbn in Hok. subst r'.
    destruct r as [pid']. by apply Hfits, (run_pid _ _ _ _ Hu Er). }
  apply run_container_agent in Hr as (sock & t & Ha & Et & Hp). cbn [rp_container_id rp_config_json_b64 rp_vm_id] in *.
  fold id req in Et, Hp. rewrite system_run in Hp.
  destruct (client_run_container _ req (guest_at sock t)) as [r g] eqn:Ec. destruct r as [resp|e| |]; try done.
  cbn in Hp. injection Hp as <-. pose proof Ec as Er. apply run_over_wire in Er; [|done|by intros; eapply Hresp].
  assert (Hc : carried resp) by (apply (Hresp (guest_at sock t)); by rewrite Er).
  split; [by destruct Hc as [Hv _]; destruct resp|]. exists sock, t. split; [done|]. split; [done|].
  unfold guest_after, guest_step, on. rewrite String.eqb_refl, Ec. cbn [answered fst snd].
  unfold req in Er. rewrite Client.decode_encode, (proj2 (String.eqb_neq _ _) Hcfg) in Er. by apply run_request_run.
Qed.

(** What the shim is given, when it is not a copy of a running workload. *)
Lemma acquired_container_runs config (E : Env) `{World W} socket p d resp d' (x : W) av :
  let id := aq_container_id p in
  let req := run_request id (decode_config (b64_encode (aq_config_json p))) in
  aq_erofs_path p <> "" -> id <> "" -> aq_config_json p <> "" ->
  u32_pids (H := w_guest w) -> carried req ->
  (forall pid, in_range 32 pid -> carried (mkStartContainerResponse pid)) ->
  dispatch (H := system) config (of_lit (LObj (acquire_kvs p))) d = (Ok resp, d') ->
  delivers E socket (Some 30) resp ->
  (forall k vm, d_active d' !! k = Some vm -> in_range 32 (pv_pid vm)) ->
  (acquire_sandbox (H := E) socket p x).1 = Ok av -> av_from_snapshot av = false ->
  exists vm sock t,
    d_active d' !! av_vm_id av = Some vm /\ pv_pid vm = av_ch_pid av /\
    d_agents d' !! av_vm_id av = Some sock /\ d_trace d' = t ++ [AgentRun sock req] /\
    let g := guest_after sock t (AgentRun sock req) in
    ag_containers g !! id = Some (mkContainer (Some (av_container_pid av)) None Running) /\
    exists opts adapted, did (guest_at sock t) g (start_steps id (aq_config_json p) opts adapted).
Proof.
  intros id req He Hi Hcfg Hu Hq Hfits Hr Hd Hp Ha Hs. rewrite acquire_dispatch in Hr.
  destruct (acquire_answer _ _ _ _ _ _ _ _ _ Hr) as [ [msg ->]|(vm & fs & cp & tap & -> & Hvm)];
    unfold acquire_sandbox, rpc, mbind, M_bind, error_json in Ha.
  { rewrite (rpc_delivered E socket _ _ _ x Hd) in Ha. unfold lift, read_acquired in Ha. fold (error_json msg) in Ha.
    by rewrite check_error_json in Ha. }
  unfold vm_json in Hd. rewrite (rpc_delivered E socket _ _ _ x Hd) in Ha. unfold lift in Ha. cbn [fst] in Ha.
  destruct (read_acquired_vm (pv_id vm) (pv_api vm) (pv_vsock vm) (pv_cid vm) (pv_pid vm) fs cp tap (Hp _ _ Hvm)) as [cp' Er].
  pose proof Er as Er'. unfold vm_json in Er'. rewrite Er' in Ha. injection Ha as <-. cbn [av_from_snapshot] in Hs. subst fs.
  destruct (acquire_runs _ _ _ _ _ _ _ _ _ _ _ _ _ _ _ He Hi Hr) as [d1 Hrun].
  destruct (run_container_in_guest p d1 d' _ _ _ _ _ _ _ Hcfg Hu Hq Hfits Hrun) as (Hpid & sock & t & Hag & Et & Hg & Hdid).
  rewrite (read_acquired_pid _ _ _ _ _ _ _ _ (Hp _ _ Hvm) Hpid) in Er. injection Er as <-. exists vm, sock, t. cbn [av_vm_id av_ch_pid av_container_pid]. auto 10.
Qed.

Lemma start_prepare_config (E : Env) i s p s' :
  start_prepare (H := E) i s = (Ok p, s') -> pr_config p <> "" ->
  exists h, env (Env := E) h (ReadBytes (path_join (ci_bundle i) "config.json")) = inr (pr_config p).
Proof.
  unfold start_prepare. intros Hr Hne. apply M_bind_Ok in Hr as (o & s1 & _ & Hr). apply M_bind_Ok in Hr as ([a st] & s2 & _ & Hr).
  cbv zeta in Hr. apply M_bind_Ok in Hr as (k & s3 & _ & Hr). cbv zeta in Hr. apply M_bind_Ok in Hr as (e & s4 & _ & Hr).
  apply M_bind_Ok in Hr as (r & s5 & Hs & Hr). injection Hr as <- _. rewrite sys_run in Hs. injection Hs as Hs _.
  exists (sh_trace s4). rewrite Hs. cbn [pr_config] in *. by destruct r.
Qed.

(** What the shim did when its start of a container succeeded. *)
Lemma start_container_commits (E : Env) i s st p s1 pid s' :
  entry (ci_sandbox_id i) s = Some st -> start_prepare (H := E) i s = (Ok p, s1) ->
  Shim.start_container (H := E) i s = (Ok pid, s') ->
  exists st', entry (ci_sandbox_id i) s' = Some st' /\
    sv_container_count st' = wrap 64 (sv_container_count st + 1) /\
    (sv_daemon_vm_id st <> "" -> sv_daemon_vm_id st' = sv_daemon_vm_id st /\
       (Client.add_container (H := E) (sv_daemon_socket st) (sv_daemon_vm_id st) (pr_erofs p) (ci_id i) (pr_config p) s1).1 = Ok pid) /\
    (sv_daemon_vm_id st = "" -> exists av, (acquire_sandbox (H := E) (sv_daemon_socket st) (acquire_for i p st) s1).1 = Ok av /\
       pid = av_container_pid av /\ sv_daemon_vm_id st' = av_vm_id av).
Proof.
  intros He Hprep Hs.
  destruct (start_prepare_arc i s p s1 st He Hprep) as [Ha Hst]. destruct (quiet_prepare (H := E) i s) as (Ev & Eh & _).
  rewrite Hprep in Ev, Eh. cbn [snd] in Ev, Eh. unfold Shim.start_container in Hs.
  rewrite (M_bind_run _ _ s p s1 Hprep) in Hs.
  rewrite (M_bind_run _ _ s1 st s1) in Hs by (unfold deref; by rewrite Eh, Hst).
  pose proof (start_commit_run (H := E) i p s1 st) as Hc. rewrite Ev, Eh, Hs in Hc.
  destruct (Hc Ha Hst) as (st' & ? & ? & ? & ? & _). by exists st'.
Qed.



(** ** From the pod's network to the guest's *)


(** ** From a process's end in the guest to the shim *)

(** The answer to a wait, once the exit is published in the guest. *)
Lemma system_wait t s i ch st :
  let resp := mkWaitContainerResponse (wrap 32 (ex_code st)) (ex_exited_at st) in
  carried (mkWaitContainerRequest i) -> carried resp ->
  ag_exit_receivers (guest_at s t) !! i = Some ch -> ag_chans (guest_at s t) !! ch = Some (Some st) ->
  env (Env := system) t (AgentWait s i) = inr resp.
Proof.
  intros resp Hq Hr Hrx Hch. cbn. unfold on. rewrite String.eqb_refl.
  destruct (w_waits w t) as [o now]. cbn [fst snd].
  set (conn := agent_connection o now (w_version w)).
  assert (Hrel : relays Ok (AgentServer.wait_container (mkWaitContainerRequest i) o now (guest_at s t))
                   (client_wait_container conn (mkWaitContainerRequest i) (guest_at s t))).
  { eapply (relayed _ _ _ _ (fun req => AgentServer.wait_container req o now)); [reflexivity|reflexivity|done|].
    rewrite (wait_published _ _ _ _ _ _ Hrx Hch). by intros b [= <-]. }
  rewrite (wait_published _ _ _ _ _ _ Hrx Hch) in Hrel. destruct Hrel as [_ Hrel]. cbn [fst] in Hrel.
  cbn. by rewrite Hrel.
Qed.

(** C5: from a process's end in the guest to the caller of the shim: once the end of a
    container's process is published in the guest of a VM, the daemon answers a wait for
    that container with its exit code and the time it ended, through the agent and the
    wire; a shim that is sent this answer is told both; and when it is the shim's watcher
    of that container that asked, every wait for the container returns that code. *)
Theorem exit_code_reaches_shim config (vm_id i sock : string) d (ch : nat) st :
  let resp := mkWaitContainerResponse (wrap 32 (ex_code st)) (ex_exited_at st) in
  d_agents d !! vm_id = Some sock ->
  ag_exit_receivers (guest_at sock (d_trace d)) !! i = Some ch ->
  ag_chans (guest_at sock (d_trace d)) !! ch = Some (Some st) ->
  carried (mkWaitContainerRequest i) -> carried resp ->
  exists answer,
    dispatch (H := system) config (of_lit (LObj (wait_kvs vm_id i))) d =
      (Ok answer, set_d_trace (d_trace d ++ [AgentWait sock i]) d) /\
    (forall (E : Env) (W : Type) (HW : World W) socket (x : W), delivers E socket None answer ->
      (Client.wait_container (H := E) socket vm_id i x).1 = Ok (wrap 32 (ex_code st), ex_exited_at st)) /\
    (forall (E : Env) inst sv x, ci_id inst = i -> sv_daemon_vm_id sv = vm_id ->
      sh_exits x !! ci_exit inst = Some None -> delivers E (sv_daemon_socket sv) None answer ->
      exists x', run_watcher (H := E) (watcher_for inst sv) ByDaemon x = (Ok tt, x') /\
        instance_wait inst x' = (Ok (wrap 32 (ex_code st)), x')).
Proof.
  intros resp Ha Hrx Hch Hq Hr. eexists. split; [by apply wait_dispatch|].
  rewrite (system_wait _ _ _ _ _ Hq Hr Hrx Hch).
  assert (Hc : forall (E : Env) (W : Type) (HW : World W) socket (x : W), delivers E socket None (wait_lit (inr resp)) ->
    (Client.wait_container (H := E) socket vm_id i x).1 = Ok (wrap 32 (ex_code st), ex_exited_at st)).
  { intros E W HW socket x Hd. rewrite (wait_delivered E socket vm_id i _ x Hd); [done|].
    intros r [= <-]. destruct Hr as [ [Hs _] _]. exact Hs. }
  split; [exact Hc|]. intros E inst sv x <- <- Hx Hd. specialize (Hc E shim _ (sv_daemon_socket sv) x Hd).
  destruct (Client.wait_container (H := E) (sv_daemon_socket sv) (sv_daemon_vm_id sv) (ci_id inst) x) as [r x1] eqn:Er.
  cbn in Hc. subst r. by apply (run_watcher_daemon (H := E) (watcher_for inst sv) inst x (Ok (wrap 32 (ex_code st), ex_exited_at st)) x1).
Qed.
End System.

(** ** A run *)

Definition sample_world : world :=
  mkWorld sample_env oci_env (fun _ => fresh_agent) (fun _ _ => []) (fun _ => (SenderGone, "now")) "1".

Definition sample_system : Env :=
  @system bit_json sorted_order plain_anyhow Wire.wire plain_ttrpc sample_world.

Definition guest_answer : lit :=
  vm_json "pool-1000-3" "/st/pool-1000-3/api.sock" "/st/pool-1000-3/vsock.sock" 3 4242 false 4242 "".

Lemma start_response_fits pid : in_range 32 pid ->
  @compute_size _ (@StartContainerResponse_message Wire.wire) (mkStartContainerResponse pid) <= 4 * 2 ^ 20.
Proof.
  intros Hp. cbn [compute_size StartContainerResponse_message size_StartContainerResponse].
  destruct (pid =? 0); [lia|]. cbn [uint32_size Wire.wire]. unfold Wire.number, Wire.put. cbn [length].
  pose proof (Wire.length_varint 10 (wrap 64 pid)). lia.
Qed.

(** A shim whose pod has no VM yet, with the container's bundle on disk and the
    daemon's answer on its socket. *)
Definition shim_inst : CloudHvInstance := inst "c" 0.
Definition shim_files (p : string) : option string :=
  if String.eqb p (path_join (ci_bundle shim_inst) "config.json") then Some (lit_print sample_oci) else None.
Definition shim_env : Env :=
  Build_Env (fun _ c => match c return ans c with
    | ReadLine _ _ => Some (inr (@response_line bit_json guest_answer))
    | c => calm shim_files (fun _ => true) c end) 1.
Lemma shim_env_delivers socket : @delivers bit_json shim_env socket (Some 30) guest_answer.
Proof. by intros h. Qed.

Definition no_vm : SharedVmState := mkSharedVmState 0 1 None None None "" "/run/d.sock".
Definition bare_pod : shim := mkShim {["p" := 0%nat]} [no_vm] [None] [] "host" sock_down [].

Definition shim_prepared : prepared :=
  mkPrepared 0 "a45e7db050f4cdaebd066fa582e13e78" "/run/cloudhv/erofs-cache/a45e7db050f4cdaebd066fa582e13e78.erofs"
    (lit_print sample_oci).

Definition guest_dispatch : result lit * daemon :=
  @dispatch sample_system bit_json plain_anyhow plain_base64 sample_cfg
    (LObj (@acquire_kvs plain_base64 (acquire_for shim_inst shim_prepared no_vm))) sample_pool.


(** The same container as a later one of a pod whose VM the daemon has as active. *)
Definition add_env : Env :=
  Build_Env (fun _ c => match c return ans c with
    | ReadLine _ _ => Some (inr (@response_line bit_json (LObj [("container_pid", LNum 4242)])))
    | c => calm shim_files (fun _ => true) c end) 1.
Lemma add_env_delivers socket : @delivers bit_json add_env socket (Some 30) (LObj [("container_pid", LNum 4242)]).
Proof. by intros h. Qed.
Definition vm_pod : shim := mkShim {["p" := 0%nat]} [pod_state 1 "pool-1000-3"] [None] [] "host" sock_down [].
Definition busy_daemon : daemon := set_active {["pool-1000-3" := sample_vm]} 1 (set_next_cid 4 (pool_new sample_sock0)).
Definition add_dispatched : result lit * daemon :=
  @dispatch sample_system bit_json plain_anyhow plain_base64 sample_cfg
    (LObj (@add_kvs plain_base64 "pool-1000-3" (pr_erofs shim_prepared) "c" (pr_config shim_prepared))) busy_daemon.


(** A guest whose container has run and ended. *)
Definition exited_agent : agent :=
  @handle_all oci_env bit_json sorted_order plain_anyhow
    [ACreate create_request; AStart (mkStartContainerRequest "c"); AExit 0 "noon"] fresh_agent.
Definition exited_world : world :=
  mkWorld sample_env oci_env (fun _ => exited_agent) (fun _ _ => []) (fun _ => (TimedOut, "later")) "1".

Lemma exit_code_reaches_shim_witness :
  let d := set_agents {["v" := "/s"]} sample_pool in
  exists code answer,
    ag_chans exited_agent !! 0%nat = Some (Some (mkExitStatus code "noon")) /\
    @dispatch (@system bit_json sorted_order plain_anyhow Wire.wire plain_ttrpc exited_world) bit_json plain_anyhow plain_base64
      sample_cfg (LObj (wait_kvs "v" "c")) d = (Ok answer, set_d_trace [AgentWait "/s" "c"] d) /\
    (@Client.wait_container (line_env answer) bit_json _ trace_world "/run/d.sock" "v" "c" []).1 = Ok (wrap 32 code, "noon") /\
    exists x, @run_watcher (line_env answer) bit_json (watcher_for (inst "c" 0) (pod_state 1 "v")) ByDaemon (one_pod 1 "v") = (Ok tt, x) /\
      instance_wait (inst "c" 0) x = (Ok (wrap 32 code), x).
Proof.
  intros d.
  destruct (@exit_code_reaches_shim bit_json sorted_order plain_anyhow plain_base64 Wire.wire plain_ttrpc exited_world
    sample_cfg "v" "c" "/s" d 0%nat (mkExitStatus 0 "noon")) as (answer & Ed & Hd & Hw).
  - reflexivity.
  - vm_compute. reflexivity.
  - vm_compute. reflexivity.
  - split; [fits|vm_compute; discriminate].
  - split; [fits|vm_compute; discriminate].
  - exists 0, answer. split; [vm_compute; reflexivity|]. split; [exact Ed|].
    split; [apply Hd, line_env_delivers|]. apply Hw; [reflexivity..|apply line_env_delivers].
Defined.

(** A pod whose address is found on the host, and a guest whose kernel has an
    [eth0]. *)
Definition net_params : RunContainerParams :=
  mkRunContainerParams "/st/pool-1000-3/api.sock" "/st/pool-1000-3/vsock.sock" "pool-1000-3" "/ns" "/i.erofs" "c" "".
Definition eth0_agent : agent := manager_new (mkSock 1 [] [] [] [k_link 2 "eth0"; k_ack; k_ack; k_ack]) ∅ [].
Definition net_world : world :=
  mkWorld (calm_env (fun _ => None) (fun _ => true)) oci_env (fun _ => eth0_agent) (fun _ _ => [])
    (fun _ => (SenderGone, "now")) "1".
Definition net_system : Env := @system bit_json sorted_order plain_anyhow Wire.wire plain_ttrpc net_world.

